(* ===== verification/_CoqProject ===== *)
-Q . S2P
Prelude.v
GoInt.v
GoSlice.v
Sums.v
Common.v
Keys.v
Database.v
Codec.v
Float64.v
Accounts.v
Staking.v
StakingCodec.v
Dex.v
EncScheme.v
Json.v
Merkle.v
PubKeys.v
Tx.v
Heap.v
Pool.v
StateDB.v
Node.v
Ledger.v
Supply.v
Transfers.v
Block.v
Voting.v
Oracles.v
BlockProcess.v
Evaluate.v
Quiet.v
DexSupply.v
Settle.v
Kept.v
BlockSupply.v
Message.v
Reset.v
Creation.v
TransactionService.v
Genesis.v
NonceService.v
SyncService.v
Arrival.v
Adoption.v
NonceMessage.v
Peers.v
Gossip.v
Catchup.v
Wallet.v
Rpc.v
