(* ===== verification/Prelude.v ===== *)
(** * The Okura node, verified core

    The program is a blockchain node written in Go (src/).  A node keeps accounts
    and staking accounts in memory, collects transactions in three pools, and
    extends a chain of blocks that it stores in RocksDB.  A block is proposed by
    the operator of a delegated account (proof of synergy), carries the hashes of
    its transactions, the data of two oracles and the descriptions of the two
    post-quantum signature schemes in use, and is checked and executed by every
    node: balances move, stakes change, the delegated account is rewarded.  Stakers
    vote on the price and random oracles and on pausing or replacing a scheme.

    ** Conventions

    A Go function that can fail is a function into [outcome]: a value, an [error]
    or a panic.  A function that changes package variables or the database is a
    program of [ST S], which keeps the state reached when an error is returned or
    a panic is raised, as Go does.  Integers are [Z] with the wrap-around of their
    width written out (GoInt.v), slices are lists and arrays are lists of a known
    length (GoSlice.v), maps are stdpp's [gmap].  Where Go ranges over a map, in an
    unspecified order, the order is an argument, and theorems hold for all orders;
    where only a sum is taken, the order is irrelevant (Sums.v).  Logging and
    mutexes are left out, except that of the wallet: the model is that of one thread.

    What is not under src/ or is a copy of a third-party library is an argument:
    - [RocksDB] with [RocksDBLaws] (Database.v): get, put and delete; [map_store]
      discharges the laws;
    - [JSON] with [JSONLaws] (Json.v): encoding/json restores what it wrote;
      [json_countable] discharges the law for every countable type.  The text of an
      address has no flag, so a public key is restored up to those ([PubKeyLaws],
      PubKeys.v) and a wallet from a document without them (Wallet.v);
    - [Hasher] (Common.v): the blake2b digests, any function; binding theorems say
      "up to a collision" on the strings that were hashed;
    - [OqsLib] (EncScheme.v): liboqs, that is the schemes it supports, their
      lengths and the verification of a signature;
    - [OqsSigner], [Ciphers], [Mnemonics] (Wallet.v): signatures of liboqs, SHAKE and
      AES in counter mode, bip39;
    - [Env] (BlockProcess.v): clock, syncing flag, random coin, math.Log2, orders
      of map iteration, and the wallet;
    - [VMachine] (Evaluate.v): creating, calling and reading a contract on the
      state of StateDB.v.  The theorems on the supply ask of it that the logs it
      returns have a length of 32 bits ([short_logs]); it has no access to the
      ledger.
    The loops whose length is not structural have fuel: a heap sifts through at
    most the length of its slice ([Heap]), a Merkle tree has at most as many levels
    as leaves ([NewMerkleTree_root] says that the result is the root at any length).
    The loops that search the last stored height probe one height per unit of
    fuel and have no result without enough of it; Reset.v composes them in [FST], a
    program that may have no result, and proves that a reset has one as soon as the
    searches have.

    ** Files

    - Prelude.v: [outcome], [ST] and their notations, programs that stay
      [within] a relation, tactics.  GoInt.v, GoSlice.v, Sums.v, Codec.v, Float64.v:
      fixed-width integers, slices, sums in int64, buffers and float64.
    - Common.v, Keys.v, Json.v: common/ (addresses, hashes, encodings, the
      [EncryptionConfig] singleton, keys, signatures, delegated accounts).
    - Database.v: database/DbRocksDB.go.
    - Accounts.v, Staking.v, StakingCodec.v, Dex.v: account/.
    - EncScheme.v: crypto/oqs/encryptSchemes.go and [wallet.Verify].
    - Merkle.v: transactionsPool/merkleTree.go; PubKeys.v: pubkeys/.
    - Tx.v: transactionsDefinition/.
    - Heap.v, Pool.v: transactionsPool/poolTx.go and basePool.go over
      container/heap; Node.v: the state of a node and transactionsPool/helper.go.
    - Ledger.v: blocks/blockAccountState.go and blocks/processTransaction.go, with
      the theorems on the supply in Supply.v and Transfers.v.
    - Block.v: blocks/baseBlock.go, Block.go and proofOfSynergy.go.
    - Voting.v: voting/; Oracles.v: oracles/.
    - BlockProcess.v: blocks/processBlock.go, processEncryption.go and
      processPubKey.go; Quiet.v: what its checks leave alone.
    - StateDB.v: core/stateDB/methods.go, the state of the virtual machine.
    - Evaluate.v: blocks/evaluate.go and [EvaluateSmartContracts]; DexSupply.v and
      Settle.v: what the orders and contracts of a block do to the ledger, the pools
      and the transactions that wait; BlockSupply.v: the supply over a block.
    - Kept.v: what the execution of a block leaves alone in the database and in
      memory, so that a reset can follow it.
    - Message.v: message/; Reset.v: services/helperReset.go, and the state of the
      services.
    - Creation.v: services/blockCreation.go, the proposal of a block;
      TransactionService.v: services/transactionServices/; Genesis.v:
      genesis/genesis.go, the first block; NonceService.v:
      services/nonceService/onmessage.go; SyncService.v: services/syncService/;
      NonceMessage.v: services/nonceService/serviceNonce.go, the nonce of a node.
    - Arrival.v: a block that arrives, refused or accepted; Adoption.v: the way of a
      block from its proposer to another node; Gossip.v: transactions between nodes;
      Catchup.v: synchronisation between nodes.
    - Peers.v: tcpip/, the table of peers, framing and one connection.
    - Wallet.v: wallet/wallet.go.  Rpc.v: rpc/server/server.go, whose queries reach
      the wallet, the pools, the ledger and the services.

    A component sees the state of another one through the lenses of Node.v: the
    operation of the component is lifted with [on] to the state of the node.

    ** Theorems

    - The supply.  An order on the exchange keeps the pools backed by the
      exchange's account; the evaluation of a block keeps the coins ([settled]), the
      stakes, the pools and the votes ([spares]), and loses no stored transaction nor
      its charge ([rewrites]).  Staking operations move the totals by exactly their amount;
      executing a transaction changes the number of coins by the fee it is charged;
      delayed and multi-signature transactions conserve coins; an accepted block
      balances the books up to the fees that are declared and never charged, and
      after such a block every next block is refused; the first block starts them
      balanced when no two stakes share a cell.
    - Authorisation.  What a verified transaction guarantees, and that a
      transaction that carries its key verifies for any sender; how many distinct
      approvals a multi-signature transfer had, and that counting them rewrites
      the stored list.
    - Pools.  The invariant (a heap, the index map exact until an eviction) over
      adding and removing; a full pool evicts its best transaction.
    - Storage.  Round trips of transactions, blocks, accounts, staking accounts,
      Merkle trees, scheme descriptions; the data that cannot be read back.
    - Trees.  The construction against a reference that gives the digest at every
      place of the tree without building a level; binding, duplication.
    - Votes, oracles, difficulty, proof of synergy: the decisions against
      reference definitions, their bounds and their corner cases.
    - Going back.  A reset to a stored height returns, restores its tables and
      shortens the chain to it; what it leaves behind; a snapshot of the virtual
      machine changes slots only, and does not undo a write.
      The searches for the last stored height terminate.
    - Messages.  Every byte string is accepted or refused, well-formed messages are
      read back as sent, and the transactions taken from a message verify.
    - Blocks between nodes.  A proposed block passes the checks of its proposer's
      state; sent as a message to a node in that state it is adopted and stored with
      its tables; a block that is refused, before or after its transactions changed
      the tables, leaves the ledger, the height and the chain as they were.
    - The other messages.  Nonces, transactions, greetings and answers that bring no
      longer chain never move the ledger, whatever bytes they are; transactions
      enter the pool verified under the topic of transactions, and unverified under
      the topic of nonces.
    - Nonces.  A nonce that a node generates is understood by a node at the same
      block, which registers the sender and whose oracles and two tables of votes then
      hold what the nonce says.
    - Connections.  A message that is framed and read in pieces is delivered once and
      whole, two frames in a row can be delivered as one; reading never bans a
      peer, and as many complaints as it has trust do, of those that get at the table
      in time.
    - The wallet.  What is stored is loaded back with the password and not with
      another; a change of password never returns; after a change of scheme the
      wallet is not stored; signatures verify and mnemonic words restore a key.
    - Queries.  An unsigned query never moves the ledger; two of them end the
      process; cancelling leaves the transactions of others in the pools.
    - Catching up.  A request reaches past the own chain, the answer is read back as
      sent, one new block is adopted or undone, and a message with another old block
      rolls the chain back before anything of it is checked.

    ** Not modelled

    The virtual machine, the ABI and assembler tools, RLP and the curves are copies
    of go-ethereum; sockets, the reading of the genesis file, the commands and the
    desktop wallet are input and output.  Of the services the loops on channels and
    tickers are left out, which call one step again and again, and the statistics
    after a block, which are for display.  A handler runs without another one in
    between, and the channel of a service is taken to accept what is sent; the one
    lock that is modelled is that of the wallet, which its own operations wait for. *)
From stdpp Require Export base list gmap strings.
From Stdlib Require Export ZArith Lia.
From Stdlib Require Export Strings.Byte.

#[global] Open Scope Z_scope.

(** ** Results of Go functions *)

(** A Go call either returns, returns a non-nil [error], or panics. *)
Inductive outcome (A : Type) : Type :=
| Ok (a : A)
| Err (msg : string)
| Panic.
Arguments Ok {A} a.
Arguments Err {A} msg.
Arguments Panic {A}.

Definition obind {A B : Type} (m : outcome A) (k : A -> outcome B) : outcome B :=
  match m with
  | Ok a => k a
  | Err e => Err e
  | Panic => Panic
  end.

Definition ofmap {A B : Type} (f : A -> B) (m : outcome A) : outcome B :=
  obind m (fun a => Ok (f a)).

(** The value of a successful computation, for closed examples. *)
Definition from_ok {A : Type} (d : A) (m : outcome A) : A :=
  match m with Ok a => a | _ => d end.

(** An error or a panic. *)
Definition refused {A : Type} (m : outcome A) : bool := match m with Ok _ => false | _ => true end.

Declare Scope go_scope.
Delimit Scope go_scope with go.
#[global] Open Scope go_scope.

Notation "'let!' x := m 'in' k" := (obind m (fun x => k))
  (at level 10, x pattern, m at level 100, k at level 200) : go_scope.
Notation "'guard!' b 'else' e 'in' k" := (if b then k else e)
  (at level 10, b at level 100, e at level 100, k at level 200) : go_scope.

(** ** Stateful Go code: the state survives errors and panics *)

Definition ST (S A : Type) : Type := S -> outcome A * S.

Definition st_ret {S A} (a : A) : ST S A := fun s => (Ok a, s).
Definition st_err {S A} (e : string) : ST S A := fun s => (Err e, s).
Definition st_panic {S A} : ST S A := fun s => (Panic, s).
Definition st_bind {S A B} (m : ST S A) (k : A -> ST S B) : ST S B :=
  fun s => match m s with
           | (Ok a, s') => k a s'
           | (Err e, s') => (Err e, s')
           | (Panic, s') => (Panic, s')
           end.
Definition st_get {S} : ST S S := fun s => (Ok s, s).
Definition st_put {S} (s : S) : ST S unit := fun _ => (Ok tt, s).
Definition st_modify {S} (f : S -> S) : ST S unit := fun s => (Ok tt, f s).
(** A pure fallible computation used in stateful code. *)
Definition st_lift {S A} (m : outcome A) : ST S A := fun s => (m, s).
(** [err := m] without a [return]: the error value is handed to the caller. *)
Definition st_try {S A} (m : ST S A) : ST S (option A) :=
  fun s => match m s with
           | (Ok a, s') => (Ok (Some a), s')
           | (Err _, s') => (Ok None, s')
           | (Panic, s') => (Panic, s')
           end.

Notation "'do!' x <- m ; k" := (st_bind m (fun x => k))
  (at level 10, x pattern, m at level 100, k at level 200) : go_scope.
Notation "'run!' m ; k" := (st_bind m (fun _ => k))
  (at level 10, m at level 100, k at level 200) : go_scope.

(** ** Case analysis on Go control flow *)

Ltac case_match_hyp H :=
  match type of H with
  | context [match ?x with _ => _ end] => destruct x eqn:?; simplify_eq/=
  end.

(** Follow one successful path of an [outcome] computation. *)
Ltac ok_step H :=
  match type of H with
  | obind ?m _ = Ok _ => destruct m eqn:?; simpl in H; try discriminate H
  | (if ?b then _ else _) = Ok _ => destruct b eqn:?; try discriminate H
  | match ?m with _ => _ end = Ok _ => destruct m eqn:?; try discriminate H
  end.
Ltac ok_steps H := repeat (ok_step H); simplify_eq/=.

(** Boolean comparisons on [Z] and [nat] to propositions. *)
Ltac zify_bool :=
  repeat match goal with
  | H : (_ <? _) = true |- _ => apply Z.ltb_lt in H
  | H : (_ <? _) = false |- _ => apply Z.ltb_ge in H
  | H : (_ <=? _) = true |- _ => apply Z.leb_le in H
  | H : (_ <=? _) = false |- _ => apply Z.leb_gt in H
  | H : (_ =? _) = true |- _ => apply Z.eqb_eq in H
  | H : (_ =? _) = false |- _ => apply Z.eqb_neq in H
  | H : (_ && _) = true |- _ => apply andb_true_iff in H as [? ?]
  | H : (_ || _) = false |- _ => apply orb_false_iff in H as [? ?]
  | H : negb _ = true |- _ => apply negb_true_iff in H
  | H : negb _ = false |- _ => apply negb_false_iff in H
  | H : (_ <? _)%nat = true |- _ => apply Nat.ltb_lt in H
  | H : (_ <? _)%nat = false |- _ => apply Nat.ltb_ge in H
  | H : (_ =? _)%nat = true |- _ => apply Nat.eqb_eq in H
  | H : (_ =? _)%nat = false |- _ => apply Nat.eqb_neq in H
  end.

Lemma obind_ok_inv {A B} (m : outcome A) (k : A -> outcome B) (b : B) :
  obind m k = Ok b -> exists a, m = Ok a /\ k a = Ok b.
Proof. destruct m; simpl; intros H; try discriminate; eauto. Qed.

(** Inversion of a successful stateful sequence. *)
Lemma st_bind_ok_inv {S A B} (m : ST S A) (k : A -> ST S B) s b s' :
  st_bind m k s = (Ok b, s') -> exists a s1, m s = (Ok a, s1) /\ k a s1 = (Ok b, s').
Proof. unfold st_bind. destruct (m s) as [[a|e|] s1] eqn:E; intros H; try discriminate; eauto. Qed.

(** One step forward. *)
Lemma st_bind_run {S A B} (m : ST S A) (k : A -> ST S B) s a s' : m s = (Ok a, s') -> st_bind m k s = k a s'.
Proof. unfold st_bind. by intros ->. Qed.

(** A run whose result is known. *)
Lemma run_result {S A} (m : ST S A) s a : fst (m s) = a -> m s = (a, snd (m s)).
Proof. intros <-. by destruct (m s). Qed.

(** ** Programs that stay within a relation *)

(** Whatever [m] returns, the states before and after are related by [R]. *)
Definition within {S A} (R : relation S) (m : ST S A) : Prop := forall s r s', m s = (r, s') -> R s s'.

Lemma within_mono {S A} (R R' : relation S) (m : ST S A) :
  (forall s s', R s s' -> R' s s') -> within R m -> within R' m.
Proof. intros HR Hm s r s' E. exact (HR _ _ (Hm _ _ _ E)). Qed.

Section Within.
Context {S : Type} (R : relation S) `{!PreOrder R}.

Lemma within_ret {A} (a : A) : within R (st_ret a).
Proof. by intros s r s' [= _ <-]. Qed.
Lemma within_err {A} e : within (A := A) R (st_err e).
Proof. by intros s r s' [= _ <-]. Qed.
Lemma within_lift {A} (o : outcome A) : within R (st_lift o).
Proof. by intros s r s' [= _ <-]. Qed.
Lemma within_get : within R st_get.
Proof. by intros s r s' [= _ <-]. Qed.
Lemma within_bind {A B} (m : ST S A) (k : A -> ST S B) :
  within R m -> (forall a, within R (k a)) -> within R (st_bind m k).
Proof.
  intros Hm Hk s r s'. unfold st_bind. destruct (m s) as [[a|e|] s1] eqn:E; intros H.
  - transitivity s1; [exact (Hm _ _ _ E)|exact (Hk a _ _ _ H)].
  - injection H as _ <-. exact (Hm _ _ _ E).
  - injection H as _ <-. exact (Hm _ _ _ E).
Qed.
(** A bind whose first program says something of its result. *)
Lemma within_bind_post {A B} (P : A -> Prop) (m : ST S A) (k : A -> ST S B) :
  within R m -> (forall s a s', m s = (Ok a, s') -> P a) -> (forall a, P a -> within R (k a)) ->
  within R (st_bind m k).
Proof.
  intros Hm HP Hk s r s'. unfold st_bind. destruct (m s) as [[a|e|] s1] eqn:E; intros H.
  - transitivity s1; [exact (Hm _ _ _ E)|exact (Hk a (HP _ _ _ E) _ _ _ H)].
  - injection H as _ <-. exact (Hm _ _ _ E).
  - injection H as _ <-. exact (Hm _ _ _ E).
Qed.
Lemma within_try {A} (m : ST S A) : within R m -> within R (st_try m).
Proof.
  intros Hm s r s'. unfold st_try. destruct (m s) as [[a|e|] s1] eqn:E; intros [= _ <-]; exact (Hm _ _ _ E).
Qed.
End Within.

Create HintDb within.
#[export] Hint Resolve within_ret within_err within_lift within_get : within.
#[export] Hint Extern 1 (PreOrder _) => apply _ : within.
