(* ===== verification/GoInt.v ===== *)
(** * Fixed-width integers and their byte encodings *)
From S2P Require Import Prelude.

(** Two's complement reduction of [z] to a signed [w]-bit integer. *)
Definition wrap (w z : Z) : Z := (z + 2 ^ (w - 1)) mod 2 ^ w - 2 ^ (w - 1).
Definition i64 (z : Z) : Z := wrap 64 z.
Definition i32 (z : Z) : Z := wrap 32 z.
Definition i16 (z : Z) : Z := wrap 16 z.
Definition i8 (z : Z) : Z := wrap 8 z.
Definition u64 (z : Z) : Z := z mod 2 ^ 64.
Definition u32 (z : Z) : Z := z mod 2 ^ 32.
Definition u16 (z : Z) : Z := z mod 2 ^ 16.
Definition in64 (z : Z) : Prop := - 2 ^ 63 <= z < 2 ^ 63.
Definition in32 (z : Z) : Prop := - 2 ^ 31 <= z < 2 ^ 31.
Definition in16 (z : Z) : Prop := - 2 ^ 15 <= z < 2 ^ 15.

#[global] Instance in64_dec z : Decision (in64 z).
Proof. unfold in64. apply _. Defined.
#[global] Instance in32_dec z : Decision (in32 z).
Proof. unfold in32. apply _. Defined.
#[global] Instance in16_dec z : Decision (in16 z).
Proof. unfold in16. apply _. Defined.

(** Go's int64 operators. *)
Definition add64 (a b : Z) : Z := i64 (a + b).
Definition sub64 (a b : Z) : Z := i64 (a - b).
Definition mul64 (a b : Z) : Z := i64 (a * b).
Infix "+!" := add64 (at level 50, left associativity) : go_scope.
Infix "-!" := sub64 (at level 50, left associativity) : go_scope.
Infix "*!" := mul64 (at level 40, left associativity) : go_scope.

(** ** Arithmetic modulo 2^64 *)

Lemma i64_in64 z : in64 (i64 z).
Proof.
  unfold in64, i64, wrap.
  pose proof (Z.mod_pos_bound (z + 2 ^ (64 - 1)) (2 ^ 64) ltac:(lia)) as H.
  change (2 ^ (64 - 1)) with (2 ^ 63) in *. lia.
Qed.

Lemma i64_id z : in64 z -> i64 z = z.
Proof.
  unfold in64, i64, wrap. change (2 ^ (64 - 1)) with (2 ^ 63).
  intros H. rewrite Z.mod_small; lia.
Qed.
Lemma i32_id z : in32 z -> i32 z = z.
Proof.
  unfold in32, i32, wrap. change (2 ^ (32 - 1)) with (2 ^ 31).
  intros H. rewrite Z.mod_small; lia.
Qed.
Lemma i16_id z : in16 z -> i16 z = z.
Proof.
  unfold in16, i16, wrap. change (2 ^ (16 - 1)) with (2 ^ 15).
  intros H. rewrite Z.mod_small; lia.
Qed.

(** [i64 a = i64 b] exactly when [a] and [b] agree modulo 2^64. *)
Lemma i64_eq_iff a b : i64 a = i64 b <-> (exists k, a = b + k * 2 ^ 64).
Proof.
  unfold i64, wrap. change (2 ^ (64 - 1)) with (2 ^ 63). split.
  - intros H.
    pose proof (Z.div_mod (a + 2 ^ 63) (2 ^ 64) ltac:(lia)).
    pose proof (Z.div_mod (b + 2 ^ 63) (2 ^ 64) ltac:(lia)).
    exists ((a + 2 ^ 63) / 2 ^ 64 - (b + 2 ^ 63) / 2 ^ 64). lia.
  - intros [k ->]. replace (b + k * 2 ^ 64 + 2 ^ 63) with (b + 2 ^ 63 + k * 2 ^ 64) by lia.
    by rewrite Z.mod_add by lia.
Qed.

Lemma i64_repr z : exists k, i64 z = z + k * 2 ^ 64.
Proof. apply (proj1 (i64_eq_iff (i64 z) z)). by rewrite i64_id by apply i64_in64. Qed.

Lemma add64_in64 a b : in64 (a +! b). Proof. apply i64_in64. Qed.
Lemma sub64_in64 a b : in64 (a -! b). Proof. apply i64_in64. Qed.
Lemma mul64_in64 a b : in64 (a *! b). Proof. apply i64_in64. Qed.

Lemma i64_i64 z : i64 (i64 z) = i64 z.
Proof. apply i64_id, i64_in64. Qed.
Lemma i64_add_l a b : i64 (i64 a + b) = i64 (a + b).
Proof. apply i64_eq_iff. destruct (i64_repr a) as [k ->]. exists k. lia. Qed.
Lemma i64_add_r a b : i64 (a + i64 b) = i64 (a + b).
Proof. apply i64_eq_iff. destruct (i64_repr b) as [k ->]. exists k. lia. Qed.
Lemma i64_sub_l a b : i64 (i64 a - b) = i64 (a - b).
Proof. apply i64_eq_iff. destruct (i64_repr a) as [k ->]. exists k. lia. Qed.
Lemma i64_sub_r a b : i64 (a - i64 b) = i64 (a - b).
Proof. apply i64_eq_iff. destruct (i64_repr b) as [k ->]. exists (- k). lia. Qed.
Create Rewrite HintDb i64.
#[export] Hint Rewrite i64_i64 i64_add_l i64_add_r i64_sub_l i64_sub_r : i64.

Lemma add64_comm a b : a +! b = b +! a.
Proof. unfold add64. by rewrite Z.add_comm. Qed.
Lemma add64_assoc a b c : a +! (b +! c) = a +! b +! c.
Proof. unfold add64. autorewrite with i64. by rewrite Z.add_assoc. Qed.
Lemma add64_0_l a : in64 a -> 0 +! a = a.
Proof. apply i64_id. Qed.
Lemma add64_0_r a : in64 a -> a +! 0 = a.
Proof. unfold add64. rewrite Z.add_0_r. apply i64_id. Qed.

(** ** Equality modulo 2^64 as a congruence *)

Definition eq64 (a b : Z) : Prop := i64 a = i64 b.

#[export] Instance eq64_equivalence : Equivalence eq64.
Proof. split; unfold eq64; repeat intro; congruence. Qed.
#[export] Instance eq64_add : Proper (eq64 ==> eq64 ==> eq64) Z.add.
Proof.
  intros a a' Ha b b' Hb. unfold eq64 in *.
  by rewrite <- i64_add_l, <- i64_add_r, Ha, Hb, i64_add_l, i64_add_r.
Qed.
#[export] Instance eq64_sub : Proper (eq64 ==> eq64 ==> eq64) Z.sub.
Proof.
  intros a a' Ha b b' Hb. unfold eq64 in *.
  by rewrite <- i64_sub_l, <- i64_sub_r, Ha, Hb, i64_sub_l, i64_sub_r.
Qed.
Lemma i64_eq64 z : eq64 (i64 z) z.
Proof. apply i64_i64. Qed.

(** Equations between chains of int64 additions and subtractions: inner wraps
    are removed modulo 2^64, then linear arithmetic compares what is left. *)
Ltac i64_solve :=
  unfold add64, sub64, mul64 in *;
  match goal with |- i64 ?a = i64 ?b => change (eq64 a b) | |- eq64 _ _ => idtac end;
  rewrite ?i64_eq64; repeat setoid_rewrite i64_eq64; unfold eq64; f_equal; lia.

Create Rewrite HintDb codec.

(** ** Bytes *)

Definition byte_to_Z (b : byte) : Z := Z.of_N (Byte.to_N b).
Definition byte_of_Z (z : Z) : byte :=
  match Byte.of_N (Z.to_N (z mod 256)) with Some b => b | None => "000"%byte end.

#[global] Instance byte_eq_decision : EqDecision byte := Byte.byte_eq_dec.
#[global] Instance byte_inhabited : Inhabited byte := populate "000"%byte.

Lemma byte_to_Z_range b : 0 <= byte_to_Z b < 256.
Proof. unfold byte_to_Z. pose proof (Byte.to_N_bounded b). lia. Qed.

Lemma byte_to_of_Z z : byte_to_Z (byte_of_Z z) = z mod 256.
Proof.
  unfold byte_to_Z, byte_of_Z.
  pose proof (Z.mod_pos_bound z 256 ltac:(lia)) as Hb.
  destruct (Byte.of_N (Z.to_N (z mod 256))) as [b|] eqn:E.
  - apply Byte.to_of_N in E. rewrite E. lia.
  - apply Byte.of_N_None_iff in E. lia.
Qed.

Lemma byte_of_to_Z b : byte_of_Z (byte_to_Z b) = b.
Proof.
  unfold byte_of_Z. rewrite Z.mod_small by apply byte_to_Z_range.
  unfold byte_to_Z. rewrite N2Z.id, Byte.of_to_N. done.
Qed.

Definition byte_of_N_default (n : N) : byte :=
  match Byte.of_N n with Some b => b | None => "000"%byte end.
Lemma byte_of_N_default_to_N b : byte_of_N_default (Byte.to_N b) = b.
Proof. unfold byte_of_N_default. by rewrite Byte.of_to_N. Qed.
#[global] Instance byte_countable : Countable byte :=
  inj_countable' Byte.to_N byte_of_N_default byte_of_N_default_to_N.

Abbreviation bytes := (list byte).
Definition zeros (n : nat) : bytes := replicate n "000"%byte.
Definition bytes_eqb (a b : bytes) : bool := bool_decide (a = b).

(** ** Little- and big-endian encodings (encoding/binary) *)

Fixpoint le_bytes (n : nat) (z : Z) : bytes :=
  match n with
  | O => []
  | S n => byte_of_Z z :: le_bytes n (z / 256)
  end.
Fixpoint le_Z (l : bytes) : Z :=
  match l with
  | [] => 0
  | b :: l => byte_to_Z b + 256 * le_Z l
  end.
Definition be_bytes (n : nat) (z : Z) : bytes := reverse (le_bytes n z).
Definition be_Z (l : bytes) : Z := le_Z (reverse l).

Lemma length_le_bytes n z : length (le_bytes n z) = n.
Proof. revert z; induction n; intros; simpl; auto. Qed.
Lemma length_be_bytes n z : length (be_bytes n z) = n.
Proof. unfold be_bytes. by rewrite length_reverse, length_le_bytes. Qed.

Lemma le_Z_bytes n z : le_Z (le_bytes n z) = z mod 256 ^ Z.of_nat n.
Proof.
  revert z; induction n as [|n IH]; intros z.
  - simpl. by rewrite Z.mod_1_r.
  - cbn [le_bytes le_Z]. rewrite IH, byte_to_of_Z, Nat2Z.inj_succ, Z.pow_succ_r by lia.
    rewrite (Z.rem_mul_r z 256 (256 ^ Z.of_nat n)); lia.
Qed.
Lemma be_Z_bytes n z : be_Z (be_bytes n z) = z mod 256 ^ Z.of_nat n.
Proof. unfold be_Z, be_bytes. by rewrite reverse_involutive, le_Z_bytes. Qed.

Lemma le_Z_range l : 0 <= le_Z l < 256 ^ Z.of_nat (length l).
Proof.
  induction l as [|b l IH]; cbn [length le_Z]; [lia|].
  pose proof (byte_to_Z_range b).
  rewrite Nat2Z.inj_succ, Z.pow_succ_r by lia. lia.
Qed.

Lemma le_bytes_Z l : le_bytes (length l) (le_Z l) = l.
Proof.
  induction l as [|b l IH]; cbn [length le_Z le_bytes]; [done|].
  pose proof (byte_to_Z_range b). f_equal.
  - rewrite <- (byte_of_to_Z b) at 2. unfold byte_of_Z.
    replace ((byte_to_Z b + 256 * le_Z l) mod 256) with (byte_to_Z b mod 256); [done|].
    rewrite (Z.mul_comm 256), Z.mod_add by lia. done.
  - rewrite (Z.mul_comm 256), Z.div_add by lia. rewrite Z.div_small by done.
    by rewrite Z.add_0_l.
Qed.

Lemma bytes_eqb_refl v : bytes_eqb v v = true.
Proof. unfold bytes_eqb. by apply bool_decide_eq_true. Qed.
Lemma bytes_eqb_ne v w : v <> w -> bytes_eqb v w = false.
Proof. unfold bytes_eqb. by apply bool_decide_eq_false. Qed.
Lemma bytes_eqb_sym v w : bytes_eqb v w = bytes_eqb w v.
Proof. unfold bytes_eqb. apply bool_decide_ext. split; congruence. Qed.
