(* ===== verification/GoSlice.v ===== *)
(** * Go slices, fixed-size arrays and bytes.Buffer

    A slice is a list; slicing out of range panics (capacity is taken equal to
    the length).  An array [[n]byte] is a list that carries the proof of its
    length, so decidable equality and map keys come without side conditions. *)
From S2P Require Import Prelude GoInt.

(** ** Slices *)

(** [s[i]] *)
Definition index {A} (s : list A) (i : Z) : outcome A :=
  if i <? 0 then Panic
  else match s !! Z.to_nat i with Some x => Ok x | None => Panic end.

(** [s[lo:hi]] *)
Definition slice {A} (s : list A) (lo hi : Z) : outcome (list A) :=
  if (0 <=? lo) && (lo <=? hi) && (hi <=? Z.of_nat (length s))
  then Ok (take (Z.to_nat (hi - lo)) (drop (Z.to_nat lo) s))
  else Panic.

(** [s[lo:]] *)
Definition slice_from {A} (s : list A) (lo : Z) : outcome (list A) :=
  slice s lo (Z.of_nat (length s)).

(** [s[:hi]] *)
Definition slice_to {A} (s : list A) (hi : Z) : outcome (list A) := slice s 0 hi.

(** [strings.Split(s, string(sep))] *)
Fixpoint Split (sep : byte) (s : bytes) : list bytes :=
  match s with
  | [] => [[]]
  | c :: s =>
      if byte_to_Z c =? byte_to_Z sep then [] :: Split sep s
      else match Split sep s with
           | w :: ws => (c :: w) :: ws
           | [] => [[c]]
           end
  end.

(** ** bytes.Buffer *)

(** [buffer.Next(n)] returns at most [n] bytes and advances the buffer. *)
Definition buf_next (n : nat) (buf : bytes) : bytes * bytes := (take n buf, drop n buf).

Lemma buf_next_app n a b : length a = n -> buf_next n (a ++ b) = (a, b).
Proof. intros <-. unfold buf_next. by rewrite take_app_length, drop_app_length. Qed.

(** ** Arrays *)

Definition array (n : nat) : Type := dsig (fun l : bytes => length l = n).
Definition arr_bytes {n} (a : array n) : bytes := proj1_sig a.
Coercion arr_bytes : array >-> list.

#[global] Instance array_eq_dec n : EqDecision (array n).
Proof. unfold array, dsig. apply _. Defined.
#[global] Instance array_countable n : Countable (array n).
Proof. unfold array, dsig. apply _. Defined.

Lemma arr_length {n} (a : array n) : length a = n.
Proof. exact (proj2_dsig a). Qed.

(** The length proof is rebuilt by case analysis, so that the arrays obtained by
    evaluating closed terms are syntactically equal when their bytes are. *)
Definition canonical_proof (b : bool) : Is_true b -> Is_true b :=
  match b with true => fun _ => I | false => fun H => H end.
Definition mk_array {n} (l : bytes) (H : length l = n) : array n :=
  exist _ l (canonical_proof _ (bool_decide_pack _ H)).

Lemma arr_eq {n} (a b : array n) : arr_bytes a = arr_bytes b -> a = b.
Proof. intros H. by apply dsig_eq. Qed.

(** [copy(a[:], src)] onto the bytes of an array: the first
    [min(n, len(src))] bytes are replaced. *)
Definition copy_bytes (n : nat) (old src : bytes) : bytes :=
  take n src ++ drop (length (take n src)) old.

Lemma copy_bytes_length n old src : length old = n -> length (copy_bytes n old src) = n.
Proof. unfold copy_bytes. intros H. rewrite length_app, length_drop, length_take. lia. Qed.

Definition arr_copy {n} (a : array n) (src : bytes) : array n :=
  mk_array (copy_bytes n a src) (copy_bytes_length n a src (arr_length a)).

Lemma zeros_length n : length (zeros n) = n.
Proof. apply length_replicate. Qed.
Definition arr_zero (n : nat) : array n := mk_array (zeros n) (zeros_length n).
(** A fresh array filled by [copy]. *)
Definition arr_of (n : nat) (src : bytes) : array n := arr_copy (arr_zero n) src.

#[global] Instance array_inhabited n : Inhabited (array n) := populate (arr_zero n).

Lemma arr_copy_bytes {n} (a : array n) src : length src = n -> arr_bytes (arr_copy a src) = src.
Proof.
  intros H. unfold arr_copy, copy_bytes. simpl.
  rewrite firstn_all2 by lia. rewrite H, drop_ge, app_nil_r; [done|]. by rewrite arr_length.
Qed.
Lemma arr_of_bytes n src : length src = n -> arr_bytes (arr_of n src) = src.
Proof. apply arr_copy_bytes. Qed.
Lemma arr_copy_arr {n} (a b : array n) : arr_copy a (arr_bytes b) = b.
Proof. apply arr_eq. apply arr_copy_bytes, arr_length. Qed.
Lemma arr_of_arr {n} (a : array n) : arr_of n (arr_bytes a) = a.
Proof. apply arr_copy_arr. Qed.
#[export] Hint Rewrite @arr_of_arr @arr_copy_arr @arr_length : codec.

(** ** Slicing and indexing a known prefix *)

Lemma slice_app_exact {A} (a b c : list A) lo hi :
  lo = Z.of_nat (length a) -> hi = Z.of_nat (length a + length b) ->
  slice (a ++ b ++ c) lo hi = Ok b.
Proof.
  intros -> ->. unfold slice. rewrite !length_app.
  replace (0 <=? Z.of_nat (length a)) with true by (symmetry; apply Z.leb_le; lia).
  replace (Z.of_nat (length a) <=? Z.of_nat (length a + length b)) with true
    by (symmetry; apply Z.leb_le; lia).
  replace (Z.of_nat (length a + length b) <=? Z.of_nat (length a + (length b + length c))) with true
    by (symmetry; apply Z.leb_le; lia).
  simpl. rewrite Nat2Z.id, drop_app_length.
  replace (Z.to_nat _) with (length b) by lia. by rewrite take_app_length.
Qed.

Lemma slice_prefix {A} (a b : list A) hi :
  hi = Z.of_nat (length a) -> slice_to (a ++ b) hi = Ok a.
Proof. intros ->. apply (slice_app_exact [] a b); done. Qed.

Lemma slice_0 {A} (a b : list A) hi :
  hi = Z.of_nat (length a) -> slice (a ++ b) 0 hi = Ok a.
Proof. apply slice_prefix. Qed.

Lemma slice_suffix {A} (a b : list A) lo :
  lo = Z.of_nat (length a) -> slice_from (a ++ b) lo = Ok b.
Proof.
  intros ->. unfold slice_from. rewrite <- (app_nil_r b) at 1.
  apply slice_app_exact; [done|]. by rewrite length_app.
Qed.

Lemma slice_inv {A} (s r : list A) lo hi :
  slice s lo hi = Ok r ->
  0 <= lo <= hi /\ hi <= Z.of_nat (length s) /\ Z.of_nat (length r) = hi - lo /\
  r = take (Z.to_nat (hi - lo)) (drop (Z.to_nat lo) s).
Proof.
  unfold slice. destruct (_ && _) eqn:E; [|done]. intros [= <-]. zify_bool.
  rewrite length_take, length_drop. repeat split; try lia.
Qed.

Lemma slice_le {A} (s : list A) lo hi :
  0 <= lo <= hi -> hi <= Z.of_nat (length s) ->
  slice s lo hi = Ok (take (Z.to_nat (hi - lo)) (drop (Z.to_nat lo) s)).
Proof.
  intros. unfold slice.
  replace (0 <=? lo) with true by (symmetry; apply Z.leb_le; lia).
  replace (lo <=? hi) with true by (symmetry; apply Z.leb_le; lia).
  by replace (hi <=? Z.of_nat (length s)) with true by (symmetry; apply Z.leb_le; lia).
Qed.
