(* ===== verification/Sums.v ===== *)
(** * Sums in int64 over slices and maps

    A Go loop [for _, v := range m { sum += f(v) }] wraps around modulo 2^64 and
    visits a map in an unspecified order; addition modulo 2^64 is commutative, so
    the order does not matter ([sum64_perm]).  The update lemmas say how a sum
    changes when one entry of a map or one cell of a slice is overwritten. *)
From S2P Require Import Prelude GoInt.

Definition sum64 {A} (f : A -> Z) (l : list A) : Z := foldr (fun x s => f x +! s) 0 l.

Definition sum_map {K V} `{Countable K} (f : V -> Z) (m : gmap K V) : Z :=
  sum64 (fun kv => f kv.2) (map_to_list m).

Lemma sum64_in64 {A} (f : A -> Z) l : in64 (sum64 f l).
Proof. destruct l; [done|apply add64_in64]. Qed.

#[export] Instance sum64_proper {A} (f : A -> Z) : Proper ((≡ₚ) ==> eq) (sum64 f).
Proof.
  intros l l' Hp. induction Hp as [| x l l' _ IH | x y l | l l' l'' _ IH1 _ IH2]; cbn.
  - done.
  - unfold sum64 in IH. by rewrite IH.
  - rewrite !add64_assoc. by rewrite (add64_comm (f y)).
  - by transitivity (sum64 f l').
Qed.

Lemma sum64_perm {A} (f : A -> Z) l l' : l ≡ₚ l' -> sum64 f l = sum64 f l'.
Proof. by intros ->. Qed.

Lemma sum64_cons {A} (f : A -> Z) x l : sum64 f (x :: l) = f x +! sum64 f l.
Proof. done. Qed.
Lemma sum64_app {A} (f : A -> Z) l l' : sum64 f (l ++ l') = sum64 f l +! sum64 f l'.
Proof.
  induction l as [|x l IH]; cbn [app].
  - by rewrite add64_0_l by apply sum64_in64.
  - by rewrite !sum64_cons, IH, add64_assoc.
Qed.

(** Overwriting cell [i] of a slice. *)
Lemma sum64_insert {A} (f : A -> Z) l i x y :
  l !! i = Some x -> sum64 f (<[i := y]> l) = sum64 f l +! (f y -! f x).
Proof.
  intros Hi. rewrite insert_take_drop by (by eapply lookup_lt_Some).
  rewrite <- (take_drop_middle l i x Hi) at 3. rewrite !sum64_app, !sum64_cons.
  i64_solve.
Qed.

Section SumMap.
Context {K V : Type} `{Countable K}.
Implicit Types (f : V -> Z) (m : gmap K V).

Lemma sum_map_in64 f m : in64 (sum_map f m).
Proof. apply sum64_in64. Qed.

Lemma sum_map_order f m ord :
  ord ≡ₚ map_to_list m -> sum64 (fun kv => f kv.2) ord = sum_map f m.
Proof. by intros ->. Qed.

Lemma sum_map_insert_fresh f m k v :
  m !! k = None -> sum_map f (<[k := v]> m) = f v +! sum_map f m.
Proof. intros Hk. unfold sum_map. by rewrite map_to_list_insert. Qed.

(** Overwriting the entry of [k], which reads as [d] when it is missing. *)
Lemma sum_map_insert f m k v d :
  f d = 0 -> sum_map f (<[k := v]> m) = sum_map f m +! (f v -! f (default d (m !! k))).
Proof.
  intros Hd. destruct (m !! k) as [x|] eqn:Hk; cbn [default id]; unfold id.
  - rewrite <- (insert_delete_id m k x Hk) at 2. rewrite <- (insert_delete_eq m k v).
    rewrite !sum_map_insert_fresh by apply lookup_delete_eq. i64_solve.
  - rewrite sum_map_insert_fresh by done. rewrite Hd. i64_solve.
Qed.
End SumMap.
