(* ===== verification/Common.v ===== *)
(** * Package common: identifiers, keys, encryption configuration, encodings

    Models common/types.go, common/helper.go, common/bytes.go, the constants of
    common/const.go, and the byte helpers of common/typesVM.go. *)
From S2P Require Import Prelude GoInt GoSlice.

(** ** Constants (common/const.go, common/types.go) *)

Definition AddressLength : nat := 20.
Definition HashLength : nat := 32.
Definition ShortHashLength : nat := 8.

Definition Decimals : Z := 8.
Definition MaxTotalSupply : Z := 230000000000000000.
Definition InitSupply : Z := 23000000000000000.
Definition DifficultyMultiplier : Z := 10.
Definition BlockTimeInterval : Z := 10.
Definition DifficultyChange : Z := 10.
Definition MaxTransactionsPerBlock : Z := 5000.
Definition MaxTransactionInPool : Z := 10000.
Definition MaxPeersConnected : Z := 6.
Definition NumberOfHashesInBucket : Z := 20.
Definition NumberOfBlocksInBucket : Z := 20.
Definition MaxNumberOfTxBans : Z := 60480.
Definition MinStakingForNode : Z := 100000000000000.
Definition MinStakingUser : Z := 100000000000.
Definition OraclesHeightDistance : Z := 6.
Definition VotingHeightDistance : Z := 60.
Definition MaxTransactionDelay : Z := 60480.
Definition MaxTransactionInMultiSigPool : Z := 60480.
Definition ConnectionMaxTries : Z := 10.
Definition BannedTimeSeconds : Z := 60.

Definition ascii2 (a b : string) : bytes :=
  match a, b with
  | String x _, String y _ => [Ascii.byte_of_ascii x; Ascii.byte_of_ascii y]
  | _, _ => []
  end.

Definition BlocksDBPrefix : bytes := ascii2 "B" "I".
Definition PubKeyMarshalDBPrefix : bytes := ascii2 "P" "M".
Definition PubKeyMerkleTrieDBPrefix : bytes := ascii2 "M" "K".
Definition PubKeyRootHashMerkleTreeDBPrefix : bytes := ascii2 "R" "K".
Definition PubKeyBytesMerkleTrieDBPrefix : bytes := ascii2 "B" "K".
Definition BlockByHeightDBPrefix : bytes := ascii2 "B" "H".
Definition TransactionsHashesByHeightDBPrefix : bytes := ascii2 "R" "H".
Definition MerkleNodeDBPrefix : bytes := ascii2 "N" "N".
Definition RootHashMerkleTreeDBPrefix : bytes := ascii2 "R" "R".
Definition TransactionDBPrefix : bytes := ascii2 "T" "T".
Definition TransactionPoolHashesDBPrefix : bytes := ascii2 "D" "0".
Definition AccountsDBPrefix : bytes := ascii2 "A" "C".
Definition StakingAccountsDBPrefix : bytes := ascii2 "S" "A".
Definition OutputLogsHashesDBPrefix : bytes := ascii2 "O" "0".
Definition OutputAddressesHashesDBPrefix : bytes := ascii2 "C" "0".
Definition DexAccountsDBPrefix : bytes := ascii2 "D" "A".

(** ** Integers to bytes (common/types.go) *)

Definition GetByteInt16 (u : Z) : bytes := le_bytes 2 u.
Definition GetByteInt32 (u : Z) : bytes := le_bytes 4 u.
Definition GetByteInt64 (u : Z) : bytes := le_bytes 8 u.
Definition GetByteUInt64 (u : Z) : bytes := le_bytes 8 u.

(** [binary.LittleEndian.UintN] panics on a short slice and ignores the tail. *)
Definition GetInt64FromByte (bs : bytes) : outcome Z :=
  if (length bs <? 8)%nat then Panic else Ok (i64 (le_Z (take 8 bs))).
Definition GetInt32FromByte (bs : bytes) : outcome Z :=
  if (length bs <? 4)%nat then Panic else Ok (i32 (le_Z (take 4 bs))).
Definition GetInt16FromByte (bs : bytes) : outcome Z :=
  if (length bs <? 2)%nat then Panic else Ok (i16 (le_Z (take 2 bs))).

Lemma GetInt64FromByte_app z rest : in64 z -> GetInt64FromByte (GetByteInt64 z ++ rest) = Ok z.
Proof.
  intros Hz. unfold GetInt64FromByte, GetByteInt64.
  rewrite length_app, length_le_bytes.
  replace (8 + length rest <? 8)%nat with false by (symmetry; apply Nat.ltb_ge; lia).
  rewrite take_app_length' by (by rewrite length_le_bytes). rewrite le_Z_bytes. f_equal.
  transitivity (i64 z); [|by apply i64_id].
  apply i64_eq_iff. exists (- (z / 2 ^ 64)).
  change (256 ^ Z.of_nat 8) with (2 ^ 64). pose proof (Z.div_mod z (2 ^ 64) ltac:(lia)). lia.
Qed.
Lemma GetInt64FromByte_exact z : in64 z -> GetInt64FromByte (GetByteInt64 z) = Ok z.
Proof. intros. rewrite <- (app_nil_r (GetByteInt64 z)). by apply GetInt64FromByte_app. Qed.
Lemma GetInt64FromByte_total b : (8 <= length b)%nat -> exists z, GetInt64FromByte b = Ok z.
Proof.
  intros Hl. unfold GetInt64FromByte.
  replace (_ <? 8)%nat with false by (symmetry; apply Nat.ltb_ge; lia). eauto.
Qed.
Lemma wrap_mod w z : 0 < w -> wrap w (z mod 2 ^ w) = wrap w z.
Proof. intros. unfold wrap. f_equal. rewrite Zplus_mod_idemp_l. done. Qed.
Lemma GetInt32FromByte_exact z : in32 z -> GetInt32FromByte (GetByteInt32 z) = Ok z.
Proof.
  intros Hz. unfold GetInt32FromByte, GetByteInt32. rewrite length_le_bytes. simpl (_ <? _)%nat.
  cbn iota. rewrite firstn_all2 by (rewrite length_le_bytes; lia). rewrite le_Z_bytes.
  change (256 ^ Z.of_nat 4) with (2 ^ 32). f_equal. unfold i32. rewrite wrap_mod by lia.
  by apply i32_id.
Qed.
Lemma GetInt16FromByte_exact z : in16 z -> GetInt16FromByte (GetByteInt16 z) = Ok z.
Proof.
  intros Hz. unfold GetInt16FromByte, GetByteInt16. rewrite length_le_bytes. simpl (_ <? _)%nat.
  cbn iota. rewrite firstn_all2 by (rewrite length_le_bytes; lia). rewrite le_Z_bytes.
  change (256 ^ Z.of_nat 2) with (2 ^ 16). f_equal. unfold i16. rewrite wrap_mod by lia.
  by apply i16_id.
Qed.
Lemma GetByteInt64_length z : length (GetByteInt64 z) = 8%nat. Proof. apply length_le_bytes. Qed.
Lemma GetByteInt32_length z : length (GetByteInt32 z) = 4%nat. Proof. apply length_le_bytes. Qed.
Lemma GetByteInt16_length z : length (GetByteInt16 z) = 2%nat. Proof. apply length_le_bytes. Qed.

Lemma be_bytes_4_small n : 0 <= n < 256 -> be_bytes 4 n = zeros 3 ++ [byte_of_Z n].
Proof.
  intros Hn. unfold be_bytes. cbn [le_bytes].
  replace (n / 256) with 0 by (symmetry; apply Z.div_small; lia). reflexivity.
Qed.

(** The encodings are used through these lemmas only. *)
#[global] Opaque le_bytes.

(** ** Length-prefixed byte strings (common/helper.go) *)

Definition BytesToLenAndBytes (b : bytes) : bytes :=
  be_bytes 4 (u32 (i32 (Z.of_nat (length b)))) ++ b.

Definition BytesWithLenToBytes (b : bytes) : outcome (bytes * bytes) :=
  if (length b <? 4)%nat then Err "input byte slice is too short" else
  let lb := be_Z (take 4 b) in
  if Z.of_nat (length b) - 4 <? lb then Err "length value in byte slice is incorrect" else
  let! x := slice b 4 (4 + lb) in
  let! r := slice_from b (4 + lb) in
  Ok (x, r).

(** A byte string whose length fits the 4-byte prefix. *)
Definition short (b : bytes) : Prop := Z.of_nat (length b) < 2 ^ 32.

Lemma BytesToLenAndBytes_header b : short b ->
  be_bytes 4 (u32 (i32 (Z.of_nat (length b)))) = be_bytes 4 (Z.of_nat (length b)).
Proof.
  unfold short. intros H. f_equal. unfold u32, i32, wrap.
  rewrite Zminus_mod_idemp_l.
  replace (Z.of_nat (length b) + 2 ^ (32 - 1) - 2 ^ (32 - 1)) with (Z.of_nat (length b)) by lia.
  apply Z.mod_small. lia.
Qed.

Lemma BytesToLenAndBytes_length b : length (BytesToLenAndBytes b) = (4 + length b)%nat.
Proof. unfold BytesToLenAndBytes. by rewrite length_app, length_be_bytes. Qed.

Lemma BytesWithLenToBytes_app b rest : short b ->
  BytesWithLenToBytes (BytesToLenAndBytes b ++ rest) = Ok (b, rest).
Proof.
  intros H. unfold BytesWithLenToBytes, BytesToLenAndBytes.
  rewrite BytesToLenAndBytes_header, <- app_assoc by done.
  rewrite !length_app, length_be_bytes.
  replace (4 + _ <? 4)%nat with false by (symmetry; apply Nat.ltb_ge; lia).
  rewrite take_app_length' by (by rewrite length_be_bytes). rewrite be_Z_bytes. unfold short in H.
  change (256 ^ Z.of_nat 4) with (2 ^ 32). rewrite Z.mod_small by lia.
  replace (_ <? _) with false by (symmetry; apply Z.ltb_ge; lia).
  rewrite slice_app_exact by (rewrite length_be_bytes; lia). simpl.
  rewrite app_assoc, slice_suffix by (rewrite length_app, length_be_bytes; lia). done.
Qed.

(** Conversely, a successful read returns a prefix of its input. *)
Lemma BytesWithLenToBytes_sound b x r :
  BytesWithLenToBytes b = Ok (x, r) -> short x /\ b = BytesToLenAndBytes x ++ r.
Proof.
  unfold BytesWithLenToBytes. destruct (length b <? 4)%nat eqn:E; [done|]. zify_bool.
  destruct (_ <? be_Z _) eqn:E2; [done|]. zify_bool.
  pose proof (le_Z_range (reverse (take 4 b))) as Hr. fold (be_Z (take 4 b)) in Hr.
  rewrite length_reverse, length_take in Hr. replace (4 `min` length b)%nat with 4%nat in Hr by lia.
  change (256 ^ Z.of_nat 4) with (2 ^ 32) in Hr.
  unfold slice_from. rewrite !slice_le by lia. simpl. intros [= <- <-].
  set (lb := be_Z (take 4 b)) in *.
  replace (Z.to_nat (4 + lb - 4)) with (Z.to_nat lb) by lia.
  assert (Hlen : length (take (Z.to_nat lb) (drop (Z.to_nat 4) b)) = Z.to_nat lb)
    by (rewrite length_take, length_drop; lia).
  unfold short. split; [rewrite Hlen; lia|].
  unfold BytesToLenAndBytes. rewrite BytesToLenAndBytes_header by (unfold short; rewrite Hlen; lia).
  rewrite Hlen, Z2Nat.id by lia.
  assert (be_bytes 4 lb = take 4 b) as ->.
  { unfold lb, be_Z, be_bytes.
    replace 4%nat with (length (reverse (take 4 b))) at 1 by (rewrite length_reverse, length_take; lia).
    rewrite le_bytes_Z. apply reverse_involutive. }
  rewrite (firstn_all2 (drop (Z.to_nat (4 + lb)) b)) by (rewrite length_drop; lia).
  rewrite <- app_assoc.
  replace (Z.to_nat (4 + lb)) with (4 + Z.to_nat lb)%nat by lia. change (Z.to_nat 4) with 4%nat.
  rewrite <- drop_drop, take_drop. by rewrite take_drop.
Qed.

Lemma BytesWithLenToBytes_no_panic b : BytesWithLenToBytes b <> Panic.
Proof.
  unfold BytesWithLenToBytes. destruct (length b <? 4)%nat eqn:E; [done|]. zify_bool.
  destruct (_ <? be_Z _) eqn:E2; [done|]. zify_bool.
  pose proof (le_Z_range (reverse (take 4 b))) as Hr. fold (be_Z (take 4 b)) in Hr.
  unfold slice_from. by rewrite !slice_le by lia.
Qed.

Definition BoolToByte (b : bool) : byte := if b then byte_of_Z 1 else byte_of_Z 0.

Definition ContainsKey (keys : list string) (searchKey : string) : bool :=
  existsb (String.eqb searchKey) keys.

(** ** Addresses *)

Record Address := mk_Address { addr_ByteValue : array AddressLength; addr_Primary : bool }.
#[global] Instance Address_eq_dec : EqDecision Address.
Proof. solve_decision. Defined.

Definition zero_Address : Address := mk_Address (arr_zero _) false.

Definition Address_Init (a : Address) (b : bytes) : outcome Address :=
  if negb (length b =? AddressLength)%nat && negb (length b =? AddressLength + 1)%nat
  then Err "error Address initialization with wrong length"
  else
    if (length b =? AddressLength + 1)%nat then
      let! b0 := index b 0 in
      let! tl := slice_from b 1 in
      Ok (mk_Address (arr_copy (addr_ByteValue a) tl) (byte_to_Z b0 =? 0))
    else Ok (mk_Address (arr_copy (addr_ByteValue a) b) true).

Definition BytesToAddress (b : bytes) : outcome Address := Address_Init zero_Address b.

Definition Address_GetBytes (a : Address) : bytes := addr_ByteValue a.
Definition Address_GetBytesWithPrimary (a : Address) : bytes :=
  (if addr_Primary a then byte_of_Z 0 else byte_of_Z 1) :: addr_ByteValue a.

Definition EmptyAddress : Address :=
  match Address_Init zero_Address (zeros (AddressLength + 1)) with Ok a => a | _ => zero_Address end.

Definition SetByteAddress (b : array AddressLength) : Address :=
  match Address_Init zero_Address b with Ok a => a | _ => zero_Address end.

(** common/typeAddress.go [SetBytes]: too long inputs are cropped from the left;
    the error of [Init] is dropped. *)
Definition Address_SetBytes (a : Address) (b : bytes) : outcome Address :=
  let! b := if (AddressLength <? length b)%nat
            then slice_from b (Z.of_nat (length b) - Z.of_nat AddressLength) else Ok b in
  match Address_Init a b with Ok a' => Ok a' | Err _ => Ok a | Panic => Panic end.
Definition BytesToVMAddress (b : bytes) : outcome Address := Address_SetBytes zero_Address b.

Lemma Address_GetBytes_length a : length (Address_GetBytes a) = 20%nat.
Proof. apply arr_length. Qed.
Lemma Address_GetBytesWithPrimary_length a : length (Address_GetBytesWithPrimary a) = 21%nat.
Proof. unfold Address_GetBytesWithPrimary. cbn [length]. f_equal. apply arr_length. Qed.

Lemma Address_Init_GetBytesWithPrimary a0 a : Address_Init a0 (Address_GetBytesWithPrimary a) = Ok a.
Proof.
  unfold Address_Init. rewrite Address_GetBytesWithPrimary_length. simpl (_ =? _)%nat. cbn iota.
  unfold Address_GetBytesWithPrimary.
  set (b0 := if addr_Primary a then _ else _).
  change (index (b0 :: addr_ByteValue a) 0) with (Ok b0). cbn [obind andb negb].
  change (b0 :: arr_bytes (addr_ByteValue a)) with ([b0] ++ arr_bytes (addr_ByteValue a)).
  rewrite slice_suffix by done. cbn [obind]. rewrite arr_copy_arr.
  destruct a as [v []]; done.
Qed.
Lemma BytesToAddress_GetBytesWithPrimary a : BytesToAddress (Address_GetBytesWithPrimary a) = Ok a.
Proof. apply Address_Init_GetBytesWithPrimary. Qed.

(** The 20-byte form loses the [Primary] flag, which becomes true. *)
Lemma BytesToAddress_GetBytes a :
  BytesToAddress (Address_GetBytes a) = Ok (mk_Address (addr_ByteValue a) true).
Proof.
  unfold BytesToAddress, Address_Init. rewrite Address_GetBytes_length. simpl (_ =? _)%nat. cbn iota.
  unfold Address_GetBytes. cbn [negb andb]. cbn iota. by rewrite arr_copy_arr.
Qed.

(** ** Hashes *)

Abbreviation Hash := (array HashLength).
Definition Hash_Set (h : Hash) (b : bytes) : Hash := arr_copy h b.
Definition Hash_GetBytes (h : Hash) : bytes := h.
Definition EmptyHash : Hash := Hash_Set (arr_zero _) (zeros 32).
Definition GetHashFromBytes (b : bytes) : Hash := Hash_Set EmptyHash b.

Lemma GetHashFromBytes_GetBytes h : GetHashFromBytes (Hash_GetBytes h) = h.
Proof. apply arr_copy_arr. Qed.

(** common/typesVM.go: [SetBytes] crops from the left and pads on the left. *)
Definition Hash_SetBytes (h : Hash) (b : bytes) : Hash :=
  let b := drop (length b - HashLength) b in
  arr_of HashLength (take (HashLength - length b) h ++ b).
Definition BytesToHash (b : bytes) : Hash := Hash_SetBytes (arr_zero _) b.

(** Hash functions: blake2b with 20- and 32-byte digests (crypto/blake2b). *)
Class Hasher := {
  blake2b_160 : bytes -> array AddressLength;
  blake2b_256 : bytes -> Hash
}.

Definition CalcHashToByte `{Hasher} (b : bytes) : outcome bytes := Ok (arr_bytes (blake2b_256 b)).
Definition CalcHashFromBytes `{Hasher} (b : bytes) : outcome Hash :=
  let! hb := CalcHashToByte b in Ok (GetHashFromBytes hb).

Definition PubKeyToAddress `{Hasher} (pb : bytes) (primary : bool) : outcome Address :=
  BytesToAddress ((if primary then byte_of_Z 0 else byte_of_Z 1) :: blake2b_160 pb).

Lemma CalcHashFromBytes_eq `{Hasher} b : CalcHashFromBytes b = Ok (blake2b_256 b).
Proof. unfold CalcHashFromBytes, CalcHashToByte. simpl. by rewrite GetHashFromBytes_GetBytes. Qed.
Lemma PubKeyToAddress_eq `{Hasher} pb primary :
  PubKeyToAddress pb primary = Ok (mk_Address (blake2b_160 pb) primary).
Proof.
  unfold PubKeyToAddress.
  change ((if primary then byte_of_Z 0 else byte_of_Z 1) :: arr_bytes (blake2b_160 pb))
    with (Address_GetBytesWithPrimary (mk_Address (blake2b_160 pb) primary)).
  apply BytesToAddress_GetBytesWithPrimary.
Qed.
