(* ===== verification/Keys.v ===== *)
(** * Package common: encryption configuration, keys, signatures, delegated accounts

    Models the [EncryptionConfig] singleton of common/types.go as a record, the
    key and signature initialisers that consult it, the delegated-account
    addresses of common/helper.go and account/helper.go, and the choice of the
    signing scheme in common/const.go. *)
From S2P Require Import Prelude GoInt GoSlice Common.

(** ** EncryptionConfig *)

Record EncryptionConfig := mk_EncryptionConfig {
  pubKeyLength : Z; privateKeyLength : Z; signatureLength : Z;
  sigName : string; isPaused : Z;
  pubKeyLength2 : Z; privateKeyLength2 : Z; signatureLength2 : Z;
  sigName2 : string; isPaused2 : Z
}.

Definition initEncryptionConfigInstance : EncryptionConfig :=
  mk_EncryptionConfig 897 1281 752 "Falcon-512" 0 5554 40 964 "MAYO-5" 0.

Definition SetEncryption (ec : EncryptionConfig) (name : string)
    (pkl prl sgl : Z) (paused primary : bool) : EncryptionConfig :=
  if primary then
    {| pubKeyLength := i32 pkl; privateKeyLength := i32 prl; signatureLength := i32 sgl;
       sigName := name; isPaused := if paused then 1 else 0;
       pubKeyLength2 := pubKeyLength2 ec; privateKeyLength2 := privateKeyLength2 ec;
       signatureLength2 := signatureLength2 ec; sigName2 := sigName2 ec;
       isPaused2 := isPaused2 ec |}
  else
    {| pubKeyLength := pubKeyLength ec; privateKeyLength := privateKeyLength ec;
       signatureLength := signatureLength ec; sigName := sigName ec; isPaused := isPaused ec;
       pubKeyLength2 := i32 pkl; privateKeyLength2 := i32 prl; signatureLength2 := i32 sgl;
       sigName2 := name; isPaused2 := if paused then 1 else 0 |}.

Definition SetIsPaused (ec : EncryptionConfig) (paused primary : bool) : EncryptionConfig :=
  let v := if paused then 1 else 0 in
  if primary then
    {| pubKeyLength := pubKeyLength ec; privateKeyLength := privateKeyLength ec;
       signatureLength := signatureLength ec; sigName := sigName ec; isPaused := v;
       pubKeyLength2 := pubKeyLength2 ec; privateKeyLength2 := privateKeyLength2 ec;
       signatureLength2 := signatureLength2 ec; sigName2 := sigName2 ec;
       isPaused2 := isPaused2 ec |}
  else
    {| pubKeyLength := pubKeyLength ec; privateKeyLength := privateKeyLength ec;
       signatureLength := signatureLength ec; sigName := sigName ec; isPaused := isPaused ec;
       pubKeyLength2 := pubKeyLength2 ec; privateKeyLength2 := privateKeyLength2 ec;
       signatureLength2 := signatureLength2 ec; sigName2 := sigName2 ec; isPaused2 := v |}.

Definition IsPaused (ec : EncryptionConfig) : bool := isPaused ec =? 1.
Definition IsPaused2 (ec : EncryptionConfig) : bool := isPaused2 ec =? 1.
Definition PubKeyLength (ec : EncryptionConfig) : Z := pubKeyLength ec.
Definition PubKeyLength2 (ec : EncryptionConfig) : Z := pubKeyLength2 ec.
Definition PrivateKeyLength (ec : EncryptionConfig) : Z := privateKeyLength ec.
Definition PrivateKeyLength2 (ec : EncryptionConfig) : Z := privateKeyLength2 ec.
Definition SignatureLength (ec : EncryptionConfig) : Z := signatureLength ec.
Definition SignatureLength2 (ec : EncryptionConfig) : Z := signatureLength2 ec.

(** common/const.go: which of the two schemes signs the block at [height];
    [coin] is the outcome of [rand.Intn(2)] and [nodeSignPrimary] the node's own
    preference. *)
Definition GetNodeSignPrimary (ec : EncryptionConfig) (nodeSignPrimary : bool) (coin height : Z) : bool :=
  if height =? 0 then true
  else if negb (IsPaused ec) && negb (IsPaused2 ec) then (coin =? 0)
  else if nodeSignPrimary && negb (IsPaused ec) then true
  else if negb nodeSignPrimary && negb (IsPaused2 ec) then false
  else if negb (IsPaused ec) then true
  else if negb (IsPaused2 ec) then false
  else true.

(** ** Keys and signatures *)

Definition len {A} (l : list A) : Z := Z.of_nat (length l).

Record PubKey := mk_PubKey {
  pk_ByteValue : bytes; pk_Address : Address; pk_MainAddress : Address; pk_Primary : bool
}.
Definition zero_PubKey : PubKey := mk_PubKey [] zero_Address zero_Address false.

(** On error the receiver keeps its old value. *)
Definition PubKey_Init `{Hasher} (ec : EncryptionConfig) (b : bytes) (mainAddress : Address)
    : outcome PubKey :=
  if negb (len b =? PubKeyLength ec) && negb (len b =? PubKeyLength2 ec)
     && (isPaused ec =? 0) && (isPaused2 ec =? 0)
  then Err "error Pubkey initialization with wrong length" else
  let primary := len b =? PubKeyLength ec in
  let! addr := PubKeyToAddress b primary in
  Ok (mk_PubKey b addr mainAddress primary).

Record PrivKey := mk_PrivKey { sk_ByteValue : bytes; sk_Address : Address; sk_Primary : bool }.

Definition PrivKey_Init (ec : EncryptionConfig) (b : bytes) (address : Address) : outcome PrivKey :=
  if negb (len b =? PrivateKeyLength ec) && negb (len b =? PrivateKeyLength2 ec)
     && (isPaused ec =? 0) && (isPaused2 ec =? 0)
  then Err "error Private key initialization with wrong length" else
  Ok (mk_PrivKey b address (len b =? PrivateKeyLength ec)).

Record Signature := mk_Signature {
  sig_ByteValue : bytes; sig_Address : Address; sig_Primary : bool
}.
Definition zero_Signature : Signature := mk_Signature [] zero_Address false.

Definition Signature_Init (ec : EncryptionConfig) (b : bytes) (address : Address) : outcome Signature :=
  match b with
  | [] => Err "error Signature initialization with wrong length"
  | b0 :: _ =>
      let primary := byte_to_Z b0 =? 0 in
      if primary && (SignatureLength ec + 1 <? len b)
      then Err "error Signature initialization with wrong length"
      else if negb primary && (SignatureLength2 ec + 1 <? len b)
      then Err "error Signature 2 initialization with wrong length"
      else Ok (mk_Signature b address primary)
  end.

Definition GetSignatureFromBytes := Signature_Init.

Definition EmptySignature (ec : EncryptionConfig) : Signature :=
  match Signature_Init ec (zeros (Z.to_nat (SignatureLength ec + 1))) EmptyAddress with
  | Ok s => s
  | _ => zero_Signature
  end.

(** ** Delegated accounts *)

(** [GetDelegatedAccountAddress(id int16)] panics when [Init] fails. *)
Definition GetDelegatedAccountAddress (id : Z) : outcome Address :=
  match Address_Init zero_Address (be_bytes 2 (u16 id) ++ zeros (AddressLength - 2)) with
  | Ok a => Ok a
  | _ => Panic
  end.

Definition hex_digit (z : Z) : bytes := [byte_of_Z z].
Definition GetDexAccountAddress : Address :=
  mk_Address (arr_of AddressLength
    (concat (map hex_digit [0x01;0x23;0x45;0x67;0x89;0x01;0x23;0x45;0x67;0x89;
                            0x01;0x23;0x45;0x67;0x89;0x01;0x23;0x45;0x67;0x89]))) true.

Definition GetIDFromDelegatedAccountAddress (a : Address) : outcome Z :=
  Ok (i16 (be_Z (take 2 (Address_GetBytes a)))).

Definition NumericalDelegatedAccountAddress (daddr : Address) : Z :=
  match GetIDFromDelegatedAccountAddress daddr with
  | Ok n => if (0 <? n) && (n <? 256) then n else 0
  | _ => 0
  end.

(** account/helper.go: the error value comes with [n = -1], see [deleg_n]. *)
Definition IntDelegatedAccountFromAddress (a : Address) : outcome Z :=
  let b := Address_GetBytes a in
  let n := be_Z (take 2 b) in
  if n <? 1 then Err "this is not correct delegated account" else
  if existsb (fun x => negb (byte_to_Z x =? 0)) (drop 2 b)
  then Err "this is not correct delegated account" else
  let! da := GetDelegatedAccountAddress (i16 n) in
  if bytes_eqb (Address_GetBytes da) b then Ok n
  else Err "wrongly formated delegated account".

(** The integer component of the pair returned by the Go function. *)
Definition deleg_n (r : outcome Z) : Z := match r with Ok n => n | _ => -1 end.
Definition deleg_ok (r : outcome Z) : bool := match r with Ok _ => true | _ => false end.

Lemma GetDelegatedAccountAddress_eq id :
  exists a, GetDelegatedAccountAddress id = Ok a /\ addr_Primary a = true /\
    Address_GetBytes a = be_bytes 2 (u16 id) ++ zeros 18.
Proof.
  unfold GetDelegatedAccountAddress, Address_Init.
  rewrite !length_app, length_be_bytes, zeros_length. cbn [Nat.add Nat.eqb AddressLength Nat.sub negb andb].
  cbn iota. eexists; split; [reflexivity|]. split; [done|].
  unfold Address_GetBytes. cbn [addr_ByteValue].
  apply arr_copy_bytes. by rewrite length_app, length_be_bytes.
Qed.

Lemma u16_i16 n : u16 (i16 n) = u16 n.
Proof.
  unfold u16, i16, wrap. rewrite Zminus_mod_idemp_l. f_equal. lia.
Qed.

Lemma be_Z_take2 a : 0 <= be_Z (take 2 (Address_GetBytes a)) < 65536.
Proof.
  pose proof (le_Z_range (reverse (take 2 (Address_GetBytes a)))) as H.
  rewrite length_reverse, length_take, Address_GetBytes_length in H. exact H.
Qed.

Lemma be_bytes_Z (l : bytes) : be_bytes (length l) (be_Z l) = l.
Proof.
  unfold be_bytes, be_Z. rewrite <- (length_reverse l), le_bytes_Z. apply reverse_involutive.
Qed.

(** Every id in [1, 65535] is read back from its delegated-account address,
    although the encoder takes an int16. *)
Lemma IntDelegated_GetDelegated n a :
  1 <= n < 65536 -> GetDelegatedAccountAddress (i16 n) = Ok a ->
  IntDelegatedAccountFromAddress a = Ok n.
Proof.
  intros Hn Ha. destruct (GetDelegatedAccountAddress_eq (i16 n)) as (a' & Ha' & _ & Hb).
  rewrite Ha in Ha'. injection Ha' as <-.
  unfold IntDelegatedAccountFromAddress. rewrite Hb, u16_i16.
  unfold u16. rewrite Z.mod_small by lia.
  rewrite take_app_length', drop_app_length' by (by rewrite length_be_bytes).
  rewrite be_Z_bytes. change (256 ^ Z.of_nat 2) with 65536. rewrite Z.mod_small by lia.
  replace (n <? 1) with false by (symmetry; apply Z.ltb_ge; lia).
  change (existsb _ (zeros 18)) with false. cbn iota. rewrite Ha. cbn [obind].
  rewrite Hb, u16_i16. unfold u16. rewrite Z.mod_small by lia.
  unfold bytes_eqb. by rewrite bool_decide_true.
Qed.

Lemma IntDelegated_inv a n : IntDelegatedAccountFromAddress a = Ok n ->
  1 <= n < 65536 /\ Address_GetBytes a = be_bytes 2 n ++ zeros 18.
Proof.
  unfold IntDelegatedAccountFromAddress. pose proof (be_Z_take2 a) as Hr.
  set (m := be_Z (take 2 (Address_GetBytes a))) in *.
  destruct (m <? 1) eqn:E; [done|]. zify_bool.
  destruct (existsb _ _); [done|].
  destruct (GetDelegatedAccountAddress_eq (i16 m)) as (da & -> & _ & Hda). cbn [obind].
  destruct (bytes_eqb _ _) eqn:E2; [|done]. intros [= <-]. split; [lia|].
  unfold bytes_eqb in E2. apply bool_decide_eq_true in E2. rewrite <- E2, Hda, u16_i16.
  unfold u16. by rewrite Z.mod_small by lia.
Qed.

(** Two addresses with the same delegated id have the same bytes. *)
Lemma IntDelegated_inj a b n :
  IntDelegatedAccountFromAddress a = Ok n -> IntDelegatedAccountFromAddress b = Ok n ->
  addr_ByteValue a = addr_ByteValue b.
Proof.
  intros [_ Ha]%IntDelegated_inv [_ Hb]%IntDelegated_inv. apply arr_eq.
  unfold Address_GetBytes in *. congruence.
Qed.

(** The scheme chosen for a block after genesis is never a paused one, unless
    both are paused. *)
Lemma GetNodeSignPrimary_not_paused ec pref coin h :
  h <> 0 -> IsPaused ec = false \/ IsPaused2 ec = false ->
  (if GetNodeSignPrimary ec pref coin h then IsPaused ec else IsPaused2 ec) = false.
Proof.
  intros Hh H. unfold GetNodeSignPrimary. apply Z.eqb_neq in Hh. rewrite Hh.
  destruct (IsPaused ec) eqn:E1, (IsPaused2 ec) eqn:E2, pref, (coin =? 0); simpl;
    destruct H; congruence.
Qed.

(** ** Byte-string helpers (common/bytes.go, common/typesVM.go) *)

Definition RightPadBytes (s : bytes) (l : nat) : bytes :=
  if (l <=? length s)%nat then s else copy_bytes l (zeros l) s.
Definition LeftPadBytes (s : bytes) (l : nat) : bytes :=
  if (l <=? length s)%nat then s else zeros (l - length s) ++ s.

Fixpoint TrimLeftZeroes (s : bytes) : bytes :=
  match s with
  | [] => []
  | b :: s' => if byte_to_Z b =? 0 then TrimLeftZeroes s' else b :: s'
  end.
(** The index [idx] walks down from [len(s)] while [s[idx-1] == 0]. *)
Fixpoint trim_right_idx (s : bytes) (idx : nat) : nat :=
  match idx with
  | O => O
  | S i => match s !! i with
           | Some b => if byte_to_Z b =? 0 then trim_right_idx s i else S i
           | None => S i
           end
  end.
Definition TrimRightZeroes (s : bytes) : bytes := take (trim_right_idx s (length s)) s.

(** Big-endian words of the EVM ABI: the low 8 bytes of a 32-byte word. *)
Definition GetUintFromSCByte (bs : bytes) : outcome Z :=
  let! t := slice_from bs 24 in
  if (length t <? 8)%nat then Panic else Ok (be_Z (take 8 t)).
Definition GetInt64FromSCByte (bs : bytes) : outcome Z :=
  let! t := slice_from bs 24 in
  if (length t <? 8)%nat then Panic else Ok (i64 (be_Z (take 8 t))).
Definition GetInt64ToBytesSC (value : Z) : bytes := zeros 24 ++ be_bytes 8 (u64 value).

Lemma TrimLeft_zeros n s : TrimLeftZeroes (zeros n ++ s) = TrimLeftZeroes s.
Proof. induction n; simpl; auto. Qed.

Lemma GetInt64FromSCByte_ToBytesSC v : in64 v -> GetInt64FromSCByte (GetInt64ToBytesSC v) = Ok v.
Proof.
  intros Hv. unfold GetInt64FromSCByte, GetInt64ToBytesSC.
  rewrite slice_suffix by done. cbn [obind]. rewrite length_be_bytes. cbn iota.
  simpl (_ <? _)%nat. cbn iota. rewrite firstn_all2 by (rewrite length_be_bytes; lia).
  rewrite be_Z_bytes. unfold u64. change (256 ^ Z.of_nat 8) with (2 ^ 64).
  rewrite Z.mod_mod by lia. unfold i64. rewrite wrap_mod by lia. f_equal. by apply i64_id.
Qed.
