(* ===== verification/Database.v ===== *)
(** * Package database: the key-value store

    RocksDB is the class [RocksDB] (its documented get/put/delete behaviour is
    [RocksDBLaws]); the wrappers of database/DbRocksDB.go are functions over it.
    [map_store] discharges the interface with a finite map. *)
From S2P Require Import Prelude GoInt GoSlice Common.

(** ** The third-party store *)

(** A [Get] either fails or says whether the key exists. *)
Class RocksDB (D : Type) := {
  rdb_get : D -> bytes -> outcome (option bytes);
  rdb_put : D -> bytes -> bytes -> outcome D;
  rdb_delete : D -> bytes -> outcome D
}.

Class RocksDBLaws (D : Type) `{RocksDB D} := {
  rdb_get_put_eq d d' k v : rdb_put d k v = Ok d' -> rdb_get d' k = Ok (Some v);
  rdb_get_put_ne d d' k k' v : rdb_put d k v = Ok d' -> k <> k' -> rdb_get d' k' = rdb_get d k';
  rdb_get_delete_eq d d' k : rdb_delete d k = Ok d' -> rdb_get d' k = Ok None;
  rdb_get_delete_ne d d' k k' : rdb_delete d k = Ok d' -> k <> k' -> rdb_get d' k' = rdb_get d k'
}.

(** ** The wrappers *)

Section Wrappers.
Context {D : Type} `{RocksDB D}.

(** The value is copied before it is stored; the empty key is refused. *)
Definition DB_Put (db : D) (k v : bytes) : outcome D :=
  match k with
  | [] => Err "key cannot be empty"
  | _ => match rdb_put db k v with
         | Ok db' => Ok db'
         | Err _ => Err "failed to put key-value pair"
         | Panic => Panic
         end
  end.

Definition DB_Get (db : D) (key : bytes) : outcome bytes :=
  let! value := rdb_get db key in
  match value with
  | None => Err "key not found"
  | Some data => Ok data
  end.

Definition DB_IsKey (db : D) (key : bytes) : outcome bool :=
  match key with
  | [] => Err "key cannot be empty"
  | _ => let! value := rdb_get db key in
         Ok (match value with Some _ => true | None => false end)
  end.

Definition DB_Delete (db : D) (key : bytes) : outcome D :=
  match key with
  | [] => Err "key cannot be empty"
  | _ => rdb_delete db key
  end.

(** The wrappers as stateful calls on the store. *)
Definition db_put (k v : bytes) : ST D unit :=
  fun db => match DB_Put db k v with
            | Ok db' => (Ok tt, db') | Err e => (Err e, db) | Panic => (Panic, db)
            end.
Definition db_delete (k : bytes) : ST D unit :=
  fun db => match DB_Delete db k with
            | Ok db' => (Ok tt, db') | Err e => (Err e, db) | Panic => (Panic, db)
            end.
Definition db_get (k : bytes) : ST D bytes := fun db => (DB_Get db k, db).
Definition db_iskey (k : bytes) : ST D bool := fun db => (DB_IsKey db k, db).

(** The scan every [LastHeightStoredIn...] function runs: the first height
    without a key ends it, and its predecessor is returned; a store error ends
    it with the same value.  [fuel] bounds the number of probes. *)
Fixpoint last_height_loop (key : Z -> bytes) (db : D) (fuel : nat) (i : Z) : option (Z * bool) :=
  match fuel with
  | O => None
  | S fuel =>
      match DB_IsKey db (key i) with
      | Ok true => last_height_loop key db fuel (i +! 1)
      | Ok false => Some (i - 1, true)
      | _ => Some (i - 1, false)
      end
  end.
End Wrappers.

(** ** Facts about the wrappers *)

Section Facts.
Context {D : Type} `{RocksDBLaws D}.

Lemma DB_Get_Put_eq db db' k v : DB_Put db k v = Ok db' -> DB_Get db' k = Ok v.
Proof.
  unfold DB_Put, DB_Get. destruct k; [done|]. destruct (rdb_put _ _ _) eqn:E; [|done..].
  intros [= ->]. by rewrite (rdb_get_put_eq _ _ _ _ E).
Qed.

Lemma DB_Get_Put_ne db db' k k' v :
  DB_Put db k v = Ok db' -> k <> k' -> DB_Get db' k' = DB_Get db k'.
Proof.
  unfold DB_Put, DB_Get. destruct k; [done|]. destruct (rdb_put _ _ _) eqn:E; [|done..].
  intros [= ->] Hne. by rewrite (rdb_get_put_ne _ _ _ _ _ E Hne).
Qed.

Lemma db_put_inv k v db db' r : db_put k v db = (Ok r, db') -> DB_Put db k v = Ok db'.
Proof. unfold db_put. destruct (DB_Put db k v); by intros [= <- <-]. Qed.

Lemma DB_Get_Delete_eq db db' k : DB_Delete db k = Ok db' -> DB_Get db' k = Err "key not found".
Proof.
  unfold DB_Delete, DB_Get. destruct k; [done|]. intros E. by rewrite (rdb_get_delete_eq _ _ _ E).
Qed.

Lemma DB_Get_Delete_ne db db' k k' :
  DB_Delete db k = Ok db' -> k <> k' -> DB_Get db' k' = DB_Get db k'.
Proof.
  unfold DB_Delete, DB_Get. destruct k; [done|]. intros E Hne.
  by rewrite (rdb_get_delete_ne _ _ _ _ E Hne).
Qed.

(** With the keys of heights [i .. n-1] present and that of [n] absent, the
    scan ends at [n - 1] as soon as it has enough fuel. *)
Lemma last_height_loop_spec key db fuel i n :
  0 <= i <= n -> n < 2 ^ 63 - 1 -> (Z.to_nat (n - i) < fuel)%nat ->
  (forall j, i <= j < n -> DB_IsKey db (key j) = Ok true) ->
  DB_IsKey db (key n) = Ok false ->
  last_height_loop key db fuel i = Some (n - 1, true).
Proof.
  intros Hi Hn Hf Hin Hout. revert i Hi Hf Hin.
  induction fuel as [|fuel IH]; intros i Hi Hf Hin; [lia|]. cbn [last_height_loop].
  destruct (decide (i = n)) as [->|Hne]; [by rewrite Hout|].
  rewrite Hin by lia. unfold add64. rewrite i64_id by (unfold in64; lia).
  apply IH; [lia|lia|]. intros j Hj. apply Hin. lia.
Qed.
End Facts.

(** ** A store that never fails *)

#[global] Instance map_store : RocksDB (gmap bytes bytes) := {
  rdb_get d k := Ok (d !! k);
  rdb_put d k v := Ok (<[k := v]> d);
  rdb_delete d k := Ok (delete k d)
}.

#[global] Instance map_store_laws : RocksDBLaws (gmap bytes bytes).
Proof.
  split; simpl.
  - intros d d' k v [= <-]. by rewrite lookup_insert_eq.
  - intros d d' k k' v [= <-] Hne. by rewrite lookup_insert_ne.
  - intros d d' k [= <-]. by rewrite lookup_delete_eq.
  - intros d d' k k' [= <-] Hne. by rewrite lookup_delete_ne.
Qed.
