(* ===== verification/Codec.v ===== *)
(** * Reading maps and lists back from a byte buffer

    Go iterates over a map in an unspecified order, so an encoder takes the
    order [ord] of the entries as an argument; decoders insert the entries one
    by one.  The lemmas here are shared by the account, staking, DEX and message
    codecs. *)
From S2P Require Import Prelude GoInt GoSlice Common.

(** [ord] is one of the orders in which [range m] may enumerate the map. *)
Definition enumerates {K V} `{Countable K} (ord : list (K * V)) (m : gmap K V) : Prop :=
  ord ≡ₚ map_to_list m.

Section ReadEntries.
Context {K V : Type} `{Countable K}.
Implicit Types (rd : bytes -> outcome (K * V * bytes)) (m : gmap K V).

(** [for i := 0; i < n; i++ { k, v := read(); m[k] = v }] *)
Fixpoint read_entries rd (n : nat) (buf : bytes) m : outcome (gmap K V * bytes) :=
  match n with
  | O => Ok (m, buf)
  | S n => let! (k, v, buf') := rd buf in read_entries rd n buf' (<[k := v]> m)
  end.

(** The same loop on the map of the receiver, which keeps the entries read
    before an error. *)
Fixpoint decode_entries rd (n : nat) (buf : bytes) : ST (gmap K V) bytes :=
  match n with
  | O => st_ret buf
  | S n => do! (k, v, buf') <- st_lift (rd buf);
           run! st_modify (fun m => <[k := v]> m);
           decode_entries rd n buf'
  end.

Lemma decode_entries_read rd n : forall buf m m' rest,
  read_entries rd n buf m = Ok (m', rest) <-> decode_entries rd n buf m = (Ok rest, m').
Proof.
  induction n as [|n IH]; intros buf m m' rest; cbn [read_entries decode_entries].
  - unfold st_ret. split; intros [= -> ->]; done.
  - unfold st_bind, st_lift. destruct (rd buf) as [[[k v] b]|e|]; cbn [obind]; [apply IH|done..].
Qed.

Definition insert_all (ord : list (K * V)) m : gmap K V :=
  foldl (fun m kv => <[kv.1 := kv.2]> m) m ord.

Lemma read_entries_app rd (enc : K -> V -> bytes) ord rest m :
  (forall k v rest, (k, v) ∈ ord -> rd (enc k v ++ rest) = Ok (k, v, rest)) ->
  read_entries rd (length ord) (concat (map (fun kv => enc kv.1 kv.2) ord) ++ rest) m
  = Ok (insert_all ord m, rest).
Proof.
  revert m. induction ord as [|[k v] ord IH]; intros m Hrd; [done|].
  cbn [length map concat read_entries fst snd]. rewrite <- app_assoc.
  rewrite Hrd by set_solver. cbn [obind]. apply IH. set_solver.
Qed.

Lemma insert_all_lookup ord m k :
  NoDup ord.*1 ->
  insert_all ord m !! k = match list_to_map (M := gmap K V) ord !! k with
                          | Some v => Some v | None => m !! k end.
Proof.
  revert m. induction ord as [|[k' v'] ord IH]; intros m Hnd; cbn.
  - by rewrite lookup_empty.
  - apply NoDup_cons in Hnd as [Hni Hnd]. fold (insert_all ord (<[k' := v']> m)).
    rewrite IH by done. destruct (decide (k' = k)) as [->|Hne].
    + rewrite lookup_insert_eq. rewrite (not_elem_of_list_to_map_1 ord k) by done.
      by rewrite lookup_insert_eq.
    + by rewrite !lookup_insert_ne.
Qed.

(** Reading the entries back in any enumeration order rebuilds the map. *)
Lemma insert_all_enumerates ord m : enumerates ord m -> insert_all ord ∅ = m.
Proof.
  unfold enumerates. intros Hp.
  assert (NoDup ord.*1) as Hnd by (rewrite Hp; apply NoDup_fst_map_to_list).
  apply map_eq. intros k. rewrite insert_all_lookup by done. rewrite lookup_empty.
  rewrite (list_to_map_proper ord (map_to_list m)) by done.
  rewrite list_to_map_to_list. by destruct (m !! k).
Qed.

Lemma enumerates_length ord m : enumerates ord m -> length ord = size m.
Proof. unfold enumerates. intros ->. apply length_map_to_list. Qed.

Lemma enumerates_elem ord m k v : enumerates ord m -> (k, v) ∈ ord -> m !! k = Some v.
Proof. unfold enumerates. intros ->. apply elem_of_map_to_list. Qed.

(** Every entry of the result was produced by the entry reader or was there. *)
Lemma read_entries_forall (P : K -> V -> Prop) rd n buf m m' rest :
  (forall b k v b', rd b = Ok (k, v, b') -> P k v) ->
  map_Forall P m -> read_entries rd n buf m = Ok (m', rest) -> map_Forall P m'.
Proof.
  intros Hrd. revert buf m. induction n as [|n IH]; intros buf m Hm; cbn.
  - intros [= <- <-]. done.
  - destruct (rd buf) as [[[k v] b']|e|] eqn:E; cbn; [|done..].
    apply IH. apply map_Forall_insert_2; eauto.
Qed.

Lemma read_entries_no_panic rd n buf m :
  (forall b, rd b <> Panic) -> read_entries rd n buf m <> Panic.
Proof.
  intros Hrd. revert buf m. induction n as [|n IH]; intros buf m; cbn; [done|].
  pose proof (Hrd buf). destruct (rd buf) as [[[k v] b']|e|]; cbn; done || apply IH.
Qed.
End ReadEntries.

(** [for j := 0; j < n; j++ { l = append(l, read()) }] *)
Fixpoint read_list {A} (rd : bytes -> outcome (A * bytes)) (n : nat) (buf : bytes)
    : outcome (list A * bytes) :=
  match n with
  | O => Ok ([], buf)
  | S n => let! (x, buf) := rd buf in
           let! (l, buf) := read_list rd n buf in
           Ok (x :: l, buf)
  end.

Lemma read_list_app {A} (rd : bytes -> outcome (A * bytes)) (enc : A -> bytes) l rest :
  (forall x rest, x ∈ l -> rd (enc x ++ rest) = Ok (x, rest)) ->
  read_list rd (length l) (concat (map enc l) ++ rest) = Ok (l, rest).
Proof.
  induction l as [|x l IH]; intros Hrd; [done|].
  cbn [length map concat read_list]. rewrite <- app_assoc.
  rewrite Hrd by set_solver. cbn [obind]. rewrite IH by set_solver. done.
Qed.

(** Non-empty items: the encoding is at least as long as the list. *)
Lemma concat_map_length_ge {A} (f : A -> bytes) l :
  (forall x, (1 <= length (f x))%nat) -> (length l <= length (concat (map f l)))%nat.
Proof.
  intros Hf. induction l as [|x l IH]; [done|]. cbn [map concat length].
  rewrite length_app. specialize (Hf x). lia.
Qed.

Lemma concat_map_length_const {A} (f : A -> bytes) n l :
  (forall x, length (f x) = n) -> length (concat (map f l)) = (n * length l)%nat.
Proof.
  intros Hf. induction l as [|x l IH]; [by rewrite Nat.mul_0_r|]. cbn [map concat length].
  rewrite length_app, IH, Hf. lia.
Qed.

(** [common.GetInt64FromByte(buffer.Next(8))] *)
Definition next_int64 (buf : bytes) : outcome (Z * bytes) :=
  let (h, buf') := buf_next 8 buf in
  let! z := GetInt64FromByte h in Ok (z, buf').

Lemma next_int64_app z rest : in64 z -> next_int64 (GetByteInt64 z ++ rest) = Ok (z, rest).
Proof.
  intros Hz. unfold next_int64. rewrite buf_next_app by apply GetByteInt64_length.
  by rewrite GetInt64FromByte_exact.
Qed.

(** [copy(a[:], buffer.Next(n))] into a fresh array. *)
Definition next_array (n : nat) (buf : bytes) : array n * bytes :=
  let (h, buf') := buf_next n buf in (arr_of n h, buf').
Lemma next_array_app {n} (a : array n) rest : next_array n (arr_bytes a ++ rest) = (a, rest).
Proof. unfold next_array. rewrite buf_next_app by apply arr_length. by rewrite arr_of_arr. Qed.

(** [if n, err := buffer.Read(address[:]); err != nil || n != AddressLength] *)
Definition read_address (buf : bytes) : outcome (array AddressLength * bytes) :=
  if (length buf <? AddressLength)%nat then Err "failed to read address"
  else Ok (next_array AddressLength buf).
Lemma read_address_app a rest : read_address (arr_bytes a ++ rest) = Ok (a, rest).
Proof.
  unfold read_address. rewrite length_app, (arr_length a).
  replace (_ <? _)%nat with false by (symmetry; apply Nat.ltb_ge; lia).
  by rewrite next_array_app.
Qed.

(** [binary.BigEndian.Uint32(buffer.Next(4))] *)
Definition next_be32 (buf : bytes) : outcome (Z * bytes) :=
  let (h, buf') := buf_next 4 buf in
  if (length h <? 4)%nat then Panic else Ok (be_Z h, buf').
Lemma next_be32_app b rest : short b ->
  next_be32 (BytesToLenAndBytes b ++ rest) = Ok (Z.of_nat (length b), b ++ rest).
Proof.
  intros Hs. unfold next_be32, BytesToLenAndBytes. rewrite BytesToLenAndBytes_header by done.
  rewrite <- app_assoc, buf_next_app by apply length_be_bytes.
  rewrite length_be_bytes. simpl (_ <? _)%nat. cbn iota. rewrite be_Z_bytes.
  unfold short in Hs. change (256 ^ Z.of_nat 4) with (2 ^ 32). by rewrite Z.mod_small by lia.
Qed.

Create HintDb codec discriminated.
#[export] Hint Resolve next_int64_app next_be32_app GetInt64FromByte_exact : codec.
#[export] Hint Rewrite @next_array_app read_address_app : codec.
