(* ===== verification/Float64.v ===== *)
(** * float64 arithmetic

    Go's float64 is IEEE-754 binary64 with round-to-nearest-even.  The operations
    are those of the standard library's executable specification [SpecFloat] at
    precision 53 and maximal exponent 1024. *)
From S2P Require Import Prelude GoInt.
From Stdlib Require Import SpecFloat.

Definition float64 : Type := spec_float.
Definition f64_zero : float64 := S754_zero false.

(** [float64(z)] for an integer [z] *)
Definition f64_of_int (z : Z) : float64 := binary_normalize 53 1024 z 0 false.
Definition f64_mul (a b : float64) : float64 := SFmul 53 1024 a b.
Definition f64_div (a b : float64) : float64 := SFdiv 53 1024 a b.
Definition f64_add (a b : float64) : float64 := SFadd 53 1024 a b.
Definition f64_sub (a b : float64) : float64 := SFsub 53 1024 a b.
Definition f64_neg (a : float64) : float64 := SFopp a.
Definition f64_ltb (a b : float64) : bool := SFltb a b.
Definition f64_leb (a b : float64) : bool := SFleb a b.

(** [int64(f)]: truncation towards zero.  Go leaves out-of-range values to the
    implementation; amd64 yields the smallest int64. *)
Definition f64_to_int64 (f : float64) : Z :=
  let out z := if (- 2 ^ 63 <=? z) && (z <? 2 ^ 63) then z else - 2 ^ 63 in
  match f with
  | S754_zero _ => 0
  | S754_finite s m e =>
      let a := if 0 <=? e then Z.pos m * 2 ^ e else Z.pos m / 2 ^ (- e) in
      out (if s then - a else a)
  | _ => - 2 ^ 63
  end.

(** [math.Round]: half away from zero. *)
Definition f64_Round (f : float64) : float64 :=
  match f with
  | S754_finite s m e =>
      if 0 <=? e then f
      else match (2 * Z.pos m + 2 ^ (- e)) / (2 * 2 ^ (- e)) with
           | Zpos p => binary_normalize 53 1024 (if s then Zneg p else Zpos p) 0 s
           | _ => S754_zero s
           end
  | _ => f
  end.

(** The float64 nearest to [10^(-j)]: a quotient with enough bits and a sticky
    bit, rounded once. *)
Definition f64_inv_pow10 (j : Z) : float64 :=
  let k := 4 * j + 80 in
  let sticky := if 2 ^ k mod 10 ^ j =? 0 then 0 else 1 in
  binary_normalize 53 1024 (2 * (2 ^ k / 10 ^ j) + sticky) (- k - 1) false.

(** [math.Pow10(n)] as the standard library computes it from its tables, for the
    range the program uses. *)
Definition f64_Pow10 (n : Z) : float64 :=
  if (0 <=? n) && (n <=? 308)
  then f64_mul (f64_of_int (10 ^ (32 * (n / 32)))) (f64_of_int (10 ^ (n mod 32)))
  else if (-323 <=? n) && (n <=? 0)
  then f64_div (f64_inv_pow10 (32 * ((- n) / 32)))
               (f64_of_int (10 ^ ((- n) mod 32)))
  else if 0 <? n then S754_infinity false else S754_zero false.

(** The literal [1e-7]. *)
Definition f64_1e_7 : float64 := S754_finite false 7555786372591432 (-76).

Lemma f64_to_int64_in64 f : in64 (f64_to_int64 f).
Proof.
  unfold f64_to_int64, in64. destruct f; try lia.
  destruct (_ && _) eqn:E; [|lia]. zify_bool. lia.
Qed.

(** ** Operations that never yield NaN *)

Definition is_finite (f : float64) : bool := match f with S754_finite _ _ _ => true | _ => false end.

Lemma shr_1_nonneg r : 0 <= shr_m r -> 0 <= shr_m (shr_1 r).
Proof. destruct r as [[|[p|p|]|p] ? ?]; cbn; lia. Qed.
Lemma iter_shr_nonneg p : forall r, 0 <= shr_m r -> 0 <= shr_m (iter_pos shr_1 p r).
Proof.
  induction p as [p IH|p IH|]; intros r Hr; cbn [iter_pos]; [by apply IH, IH, shr_1_nonneg|by apply IH, IH|].
  by apply shr_1_nonneg.
Qed.
Lemma shr_fexp_nonneg m e l : 0 <= m -> 0 <= shr_m (fst (shr_fexp 53 1024 m e l)).
Proof.
  intros Hm. assert (0 <= shr_m (shr_record_of_loc m l)) as Hr by (destruct l as [|[]]; exact Hm).
  unfold shr_fexp, shr. destruct (fexp _ _ _ - e); cbn [fst]; [done|by apply iter_shr_nonneg|done].
Qed.
Lemma round_even_nonneg m l : 0 <= m -> 0 <= round_nearest_even m l.
Proof. intros Hm. destruct l as [|[]]; cbn; try destruct (Z.even m); lia. Qed.

Lemma binary_round_aux_not_nan s m e l : 0 <= m -> binary_round_aux 53 1024 s m e l <> S754_nan.
Proof.
  intros Hm. unfold binary_round_aux. pose proof (shr_fexp_nonneg m e l Hm) as H1.
  destruct (shr_fexp 53 1024 m e l) as [r1 e1]. cbn [fst] in H1.
  pose proof (shr_fexp_nonneg _ e1 loc_Exact (round_even_nonneg _ (loc_of_shr_record r1) H1)) as H2.
  destruct (shr_fexp 53 1024 _ e1 loc_Exact) as [r2 e2]. cbn [fst] in H2.
  destruct (shr_m r2); [done| |lia]. by destruct (_ <=? _).
Qed.
Lemma binary_normalize_not_nan m e s : binary_normalize 53 1024 m e s <> S754_nan.
Proof.
  destruct m as [|p|p]; [done|..]; cbn; unfold binary_round; destruct (shl_align _ _ _);
    by apply binary_round_aux_not_nan.
Qed.
Lemma f64_of_int_not_nan z : f64_of_int z <> S754_nan.
Proof. apply binary_normalize_not_nan. Qed.
Lemma f64_div_not_nan x y : x <> S754_nan -> is_finite y = true -> f64_div x y <> S754_nan.
Proof.
  intros Hx Hy. destruct y as [| | |sy my ey]; try done. destruct x as [| | |sx mx ex]; try done.
  unfold f64_div, SFdiv, SFdiv_core_binary.
  match goal with |- context [Z.div_eucl ?a ?b] =>
    set (m := a); assert (0 <= m) as Hm; [|pose proof (Z.div_pos m b Hm ltac:(done)) as Hq; unfold Z.div in Hq;
      destruct (Z.div_eucl m b) as [q r]; by apply binary_round_aux_not_nan] end.
  unfold m. destruct (_ - _ - _); [done| |done]. by apply Z.shiftl_nonneg.
Qed.
Lemma f64_sub_not_nan x y : is_finite x = true -> y <> S754_nan -> f64_sub x y <> S754_nan.
Proof.
  intros Hx Hy. destruct x as [| | |sx mx ex]; try done. destruct y as [| | |sy my ey]; try done.
  apply binary_normalize_not_nan.
Qed.
(** Minus infinity is below everything but NaN. *)
Lemma minus_infinity_leb x : x <> S754_nan -> f64_leb (S754_infinity true) x = true.
Proof. by destruct x as [|[]| |]. Qed.
