(* ===== verification/Accounts.v ===== *)
(** * Package account: plain accounts

    Models account/baseAccount.go and account/accountsStates.go: the account
    record, its escrow and multi-signature modifications, the binary format of
    accounts and of the account table, and its storage by height. *)
From S2P Require Import Prelude GoInt GoSlice Common Keys Database Codec.

Abbreviation addr20 := (array AddressLength).

Record Account := mk_Account {
  Balance : Z;
  acc_Address : addr20;
  TransactionDelay : Z;
  MultiSignNumber : byte;
  MultiSignAddresses : list addr20
}.

Definition zero_Account : Account := mk_Account 0 (arr_zero _) 0 (byte_of_Z 0) [].

Record AccountsType := mk_AccountsType {
  AllAccounts : gmap addr20 Account;
  acs_Height : Z
}.

(** ** Reading and writing accounts *)

(** A missing key of a Go map reads as the zero value. *)
Definition lookup_account (at_ : AccountsType) (a : addr20) : Account :=
  default zero_Account (AllAccounts at_ !! a).
Definition store_account (at_ : AccountsType) (a : addr20) (acc : Account) : AccountsType :=
  mk_AccountsType (<[a := acc]> (AllAccounts at_)) (acs_Height at_).
Definition with_Balance (acc : Account) (b : Z) : Account :=
  mk_Account b (acc_Address acc) (TransactionDelay acc) (MultiSignNumber acc)
             (MultiSignAddresses acc).

Definition SetBalance (at_ : AccountsType) (address : addr20) (balance : Z) : AccountsType :=
  store_account at_ address (with_Balance (lookup_account at_ address) balance).

Definition GetBalance (at_ : AccountsType) (address : addr20) : Z :=
  Balance (lookup_account at_ address).

(** [address[:20]] panics on a shorter slice. *)
Definition GetAccountByAddressBytes (at_ : AccountsType) (address : bytes) : outcome Account :=
  let! p := slice_to address (Z.of_nat AddressLength) in
  Ok (lookup_account at_ (arr_of AddressLength p)).

Definition CanBeModifiedAccount (at_ : AccountsType) (address : bytes) : outcome bool :=
  let! acc := GetAccountByAddressBytes at_ address in
  Ok ((byte_to_Z (MultiSignNumber acc) =? 0) && (TransactionDelay acc =? 0)).

(** The receiver [a] is a copy; the table entry of its address is replaced. *)
Definition ModifyAccountToEscrow (at_ : AccountsType) (a : Account) (transactionDelay : Z)
    : outcome (Account * AccountsType) :=
  if 0 <? TransactionDelay a then Err "account is just escrow and cannot be modified" else
  if transactionDelay =? 0 then Err "transaction delay in escrow must be larger than 0" else
  if MaxTransactionDelay <? transactionDelay then Err "transaction delay in escrow must be less" else
  let a' := mk_Account (Balance a) (acc_Address a) transactionDelay (MultiSignNumber a)
                       (MultiSignAddresses a) in
  Ok (a', store_account at_ (acc_Address a') a').

Definition ModifyAccountToMultiSign (at_ : AccountsType) (a : Account) (numApprovals : byte)
    (addresses : list Address) : outcome (Account * AccountsType) :=
  if 0 <? byte_to_Z (MultiSignNumber a) then Err "account is just MultiSign and cannot be modified" else
  if byte_to_Z numApprovals =? 0 then Err "MultiSign must have at least 1 Approval account" else
  if len addresses <? byte_to_Z numApprovals
  then Err "number of MultiSign approval addresses must be larger than number of Approvals" else
  let addrs := map (fun x => arr_of AddressLength (Address_GetBytes x)) addresses in
  let a' := mk_Account (Balance a) (acc_Address a) (TransactionDelay a) numApprovals addrs in
  Ok (a', store_account at_ (acc_Address a') a').

Definition SetAccountByAddressBytes (at_ : AccountsType) (address : bytes)
    : outcome (Account * AccountsType) :=
  let! acc := GetAccountByAddressBytes at_ address in
  if bytes_eqb (acc_Address acc) address then Ok (acc, at_) else
  let! p := slice_to address (Z.of_nat AddressLength) in
  let addrb := arr_of AddressLength p in
  let acc := mk_Account 0 addrb 0 (byte_of_Z 0) [] in
  Ok (acc, store_account at_ addrb acc).

(** ** Binary format of one account *)

Definition Account_Marshal (a : Account) : bytes :=
  GetByteInt64 (Balance a) ++ acc_Address a ++ GetByteInt64 (TransactionDelay a)
  ++ [MultiSignNumber a] ++ concat (map arr_bytes (MultiSignAddresses a)).

(** [copy(addrs[i][:], data[:20]); data = data[20:]], [n] times. *)
Fixpoint read_addresses (n : nat) (data : bytes) : outcome (list addr20) :=
  match n with
  | O => Ok []
  | S n => let! h := slice_to data 20 in
           let! t := slice_from data 20 in
           let! l := read_addresses n t in
           Ok (arr_of AddressLength h :: l)
  end.

Definition Account_Unmarshal (a : Account) (data : bytes) : outcome Account :=
  if (length data <? 37)%nat then Err "wrong number of bytes in unmarshal account" else
  let! s := slice data 0 8 in
  let! balance := GetInt64FromByte s in
  let! s := slice data 8 28 in
  let address := arr_copy (acc_Address a) s in
  let! s := slice data 28 36 in
  let! delay := GetInt64FromByte s in
  let! msn := index data 36 in
  let! msas :=
    if (37 <? length data)%nat then
      let! data := slice_from data 37 in
      let lenAccMS := (length data / 20)%nat in
      if Z.of_nat lenAccMS <? byte_to_Z msn then Err "wrongly defined multisign account" else
      if (0 <? lenAccMS)%nat then read_addresses lenAccMS data else Ok (MultiSignAddresses a)
    else Ok (MultiSignAddresses a) in
  Ok (mk_Account balance address delay msn msas).

(** ** Binary format of the account table *)

(** [ord] is the order in which [range at.AllAccounts] visits the entries. *)
Definition AccountsType_Marshal (ord : list (addr20 * Account)) (at_ : AccountsType) : bytes :=
  GetByteInt64 (Z.of_nat (size (AllAccounts at_)))
  ++ concat (map (fun kv => arr_bytes kv.1 ++ Account_Marshal kv.2) ord)
  ++ GetByteInt64 (acs_Height at_).

Definition read_account_entry (buf : bytes) : outcome (addr20 * Account * bytes) :=
  let! (address, buf) := read_address buf in
  let (accountData, buf) := buf_next (AddressLength + 17) buf in
  if negb (length accountData =? AddressLength + 17)%nat then Err "incorrect account data length" else
  match Account_Unmarshal zero_Account accountData with
  | Ok acc => Ok (address, acc, buf)
  | Err _ => Err "failed to unmarshal account"
  | Panic => Panic
  end.

(** The table of the receiver is replaced before the first entry is read, its
    height at the end. *)
Definition AccountsType_Unmarshal (data : bytes) : ST AccountsType unit := fun at_ =>
  match next_int64 data with
  | Ok (accountCount, buf) =>
      let (r, m) := decode_entries read_account_entry (Z.to_nat accountCount) buf ∅ in
      match (let! buf := r in next_int64 buf) with
      | Ok (height, _) => (Ok tt, mk_AccountsType m height)
      | Err e => (Err e, mk_AccountsType m (acs_Height at_))
      | Panic => (Panic, mk_AccountsType m (acs_Height at_))
      end
  | Err e => (Err e, at_)
  | Panic => (Panic, at_)
  end.

(** ** Storage by height *)

Section Storage.
Context {D : Type} `{RocksDB D}.

Definition accounts_key (height : Z) : bytes := AccountsDBPrefix ++ GetByteInt64 height.

(** A negative height stands for the current one, [common.GetHeight()]. *)
Definition StoreAccounts (db : D) (current : Z) (ord : list (addr20 * Account))
    (at_ : AccountsType) (height : Z) : outcome D :=
  let height := if height <? 0 then current else height in
  DB_Put db (accounts_key height) (AccountsType_Marshal ord at_).

Definition RemoveAccountsFromDB (db : D) (height : Z) : outcome D :=
  DB_Delete db (accounts_key height).

Definition LastHeightStoredInAccounts (db : D) (fuel : nat) : option (Z * bool) :=
  last_height_loop accounts_key db fuel 0.

(** A missing table leaves the accounts as they were. *)
Definition LoadAccounts (db : D) (fuel : nat) (height : Z) (at_ : AccountsType)
    : option (outcome unit * AccountsType) :=
  match (if height <? 0 then fst <$> LastHeightStoredInAccounts db fuel else Some height) with
  | None => None
  | Some height => Some ((do! b <- st_lift (DB_Get db (accounts_key height)); AccountsType_Unmarshal b) at_)
  end.
End Storage.

(** ** Lookups *)

Lemma GetAccountByAddressBytes_arr at_ (a : addr20) :
  GetAccountByAddressBytes at_ a = Ok (lookup_account at_ a).
Proof.
  unfold GetAccountByAddressBytes, slice_to. pose proof (arr_length a) as Hl.
  rewrite slice_le by (rewrite ?Hl; cbn; lia). cbn [obind].
  change (Z.to_nat (Z.of_nat AddressLength - 0)) with AddressLength.
  rewrite drop_0, firstn_all2 by (rewrite Hl; done). by rewrite arr_of_arr.
Qed.
Lemma GetAccountByAddressBytes_Address at_ (a : Address) :
  GetAccountByAddressBytes at_ (Address_GetBytes a) = Ok (lookup_account at_ (addr_ByteValue a)).
Proof. apply GetAccountByAddressBytes_arr. Qed.

Lemma lookup_store_eq at_ a acc : lookup_account (store_account at_ a acc) a = acc.
Proof. unfold lookup_account, store_account. cbn. by rewrite lookup_insert_eq. Qed.
Lemma lookup_store_ne at_ a b acc : a <> b ->
  lookup_account (store_account at_ a acc) b = lookup_account at_ b.
Proof. intros. unfold lookup_account, store_account. cbn. by rewrite lookup_insert_ne. Qed.
Create Rewrite HintDb accounts.
#[export] Hint Rewrite GetAccountByAddressBytes_arr GetAccountByAddressBytes_Address
  lookup_store_eq : accounts.

(** ** Well-formed tables *)

(** The fields are int64 values. *)
Record account_ok (a : Account) : Prop := {
  ok_balance : in64 (Balance a);
  ok_delay : in64 (TransactionDelay a)
}.

Lemma read_addresses_app l rest n : n = length l ->
  read_addresses n (concat (map arr_bytes l) ++ rest) = Ok l.
Proof.
  intros ->. revert rest. induction l as [|a l IH]; intros rest; [done|].
  cbn [length map concat read_addresses]. rewrite <- app_assoc.
  rewrite slice_prefix by (by rewrite (arr_length a)). cbn [obind].
  rewrite slice_suffix by (by rewrite (arr_length a)). cbn [obind].
  rewrite IH. cbn [obind]. by rewrite arr_of_arr.
Qed.

Lemma concat_addrs_length (l : list addr20) :
  length (concat (map arr_bytes l)) = (20 * length l)%nat.
Proof.
  induction l as [|a l IH]; [done|]. cbn [map concat length]. rewrite length_app, IH, (arr_length a).
  change AddressLength with 20%nat. lia.
Qed.

Lemma Account_Marshal_length a :
  length (Account_Marshal a) = (37 + 20 * length (MultiSignAddresses a))%nat.
Proof.
  unfold Account_Marshal. rewrite !length_app, !GetByteInt64_length, (arr_length (acc_Address a)).
  rewrite concat_addrs_length. cbn [length]. change AddressLength with 20%nat. lia.
Qed.

(** The common head of the format: whatever follows the 37 fixed bytes, the
    fixed fields are read back. *)
Lemma Account_Unmarshal_head a0 a tail :
  account_ok a ->
  Account_Unmarshal a0 (GetByteInt64 (Balance a) ++ acc_Address a
     ++ GetByteInt64 (TransactionDelay a) ++ [MultiSignNumber a] ++ tail) =
  (let! msas := match tail with
                | [] => Ok (MultiSignAddresses a0)
                | _ => let n := (length tail / 20)%nat in
                       if Z.of_nat n <? byte_to_Z (MultiSignNumber a)
                       then Err "wrongly defined multisign account" else
                       if (0 <? n)%nat then read_addresses n tail else Ok (MultiSignAddresses a0)
                end in
   Ok (mk_Account (Balance a) (acc_Address a) (TransactionDelay a) (MultiSignNumber a) msas)).
Proof.
  intros [Hb Hd]. unfold Account_Unmarshal.
  set (B := GetByteInt64 (Balance a)). set (Dl := GetByteInt64 (TransactionDelay a)).
  assert (length B = 8%nat) as LB by apply GetByteInt64_length.
  assert (length Dl = 8%nat) as LD by apply GetByteInt64_length.
  assert (length (acc_Address a) = 20%nat) as LA by apply arr_length.
  replace (_ <? 37)%nat with false
    by (symmetry; apply Nat.ltb_ge; rewrite !length_app; cbn [length]; lia).
  rewrite slice_0 by lia. cbn [obind].
  unfold B at 1. rewrite GetInt64FromByte_exact by done. cbn [obind].
  rewrite (slice_app_exact B) by lia. cbn [obind].
  rewrite (app_assoc B), (slice_app_exact (B ++ acc_Address a) Dl) by (rewrite ?length_app; lia).
  cbn [obind]. unfold Dl at 1. rewrite GetInt64FromByte_exact by done. cbn [obind].
  rewrite (app_assoc (B ++ acc_Address a)).
  assert (index (((B ++ acc_Address a) ++ Dl) ++ [MultiSignNumber a] ++ tail) 36
          = Ok (MultiSignNumber a)) as ->.
  { unfold index. simpl (_ <? 0). cbn iota. change (Z.to_nat 36) with 36%nat.
    rewrite lookup_app_r by (rewrite !length_app; lia).
    replace (36 - _)%nat with 0%nat by (rewrite !length_app; lia). done. }
  cbn [obind]. rewrite arr_copy_arr. f_equal.
  rewrite (app_assoc ((B ++ acc_Address a) ++ Dl)).
  assert (length (((B ++ acc_Address a) ++ Dl) ++ [MultiSignNumber a]) = 37%nat) as L37
    by (rewrite !length_app; cbn [length]; lia).
  destruct tail as [|t tail].
  - rewrite app_nil_r, L37. done.
  - replace (37 <? _)%nat with true by (symmetry; apply Nat.ltb_lt; rewrite length_app; cbn [length]; lia).
    rewrite slice_suffix by (by rewrite L37). done.
Qed.

Lemma Account_roundtrip a :
  account_ok a -> byte_to_Z (MultiSignNumber a) <= len (MultiSignAddresses a) ->
  Account_Unmarshal zero_Account (Account_Marshal a) = Ok a.
Proof.
  intros Hok Hms. unfold Account_Marshal. rewrite Account_Unmarshal_head by done.
  set (l := MultiSignAddresses a) in *. pose proof (concat_addrs_length l) as Hl.
  destruct (concat (map arr_bytes l)) as [|b t] eqn:E.
  - assert (l = []) by (destruct l; [done|]; cbn in Hl; lia). cbn [obind].
    destruct a; cbn in *. by subst.
  - cbv zeta. rewrite Hl, Nat.mul_comm, Nat.div_mul by lia.
    unfold len in Hms. replace (_ <? _) with false by (symmetry; apply Z.ltb_ge; lia).
    replace (0 <? length l)%nat with true
      by (symmetry; apply Nat.ltb_lt; destruct l; cbn in *; [done|lia]).
    rewrite <- (app_nil_r (b :: t)), <- E, read_addresses_app by done. cbn [obind].
    by destruct a.
Qed.

(** An account without approval addresses is read back even when it announces
    approvals. *)
Lemma Account_roundtrip_plain a :
  account_ok a -> MultiSignAddresses a = [] ->
  Account_Unmarshal zero_Account (Account_Marshal a) = Ok a.
Proof.
  intros Hok Hms. unfold Account_Marshal. rewrite Account_Unmarshal_head by done.
  rewrite Hms. cbn. destruct a; cbn in *. by subst.
Qed.

(** ** The account table *)

(** Tables the format can carry: int64 fields, and no approval addresses. *)
Record accounts_ok (at_ : AccountsType) : Prop := {
  ok_accounts : map_Forall (fun _ a => account_ok a) (AllAccounts at_);
  ok_height : in64 (acs_Height at_);
  ok_size : Z.of_nat (size (AllAccounts at_)) < 2 ^ 63
}.

Definition no_approvals (at_ : AccountsType) : Prop :=
  map_Forall (fun _ a => MultiSignAddresses a = []) (AllAccounts at_).

Lemma read_account_entry_app k a rest :
  account_ok a -> MultiSignAddresses a = [] ->
  read_account_entry ((arr_bytes k ++ Account_Marshal a) ++ rest) = Ok (k, a, rest).
Proof.
  intros Hok Hms. unfold read_account_entry.
  rewrite <- app_assoc, read_address_app. cbn [obind].
  rewrite buf_next_app by (rewrite Account_Marshal_length, Hms; done).
  rewrite Account_Marshal_length, Hms. cbn [length Nat.mul Nat.add Nat.eqb AddressLength negb].
  cbn iota. by rewrite Account_roundtrip_plain.
Qed.

Lemma AccountsType_roundtrip_any_order at_ ord :
  accounts_ok at_ -> no_approvals at_ -> enumerates ord (AllAccounts at_) ->
  forall at0, AccountsType_Unmarshal (AccountsType_Marshal ord at_) at0 = (Ok tt, at_).
Proof.
  intros [Hacc Hh Hs] Hna Hord at0. unfold AccountsType_Unmarshal, AccountsType_Marshal.
  rewrite next_int64_app by (unfold in64; lia).
  rewrite Nat2Z.id, <- (enumerates_length _ _ Hord).
  erewrite (proj1 (decode_entries_read _ _ _ _ _ _));
    [|apply (read_entries_app _ (fun k a => arr_bytes k ++ Account_Marshal a))].
  - cbn [obind]. rewrite <- (app_nil_r (GetByteInt64 _)), next_int64_app by done.
    rewrite (insert_all_enumerates _ _ Hord). by destruct at_.
  - intros k a rest Hin. pose proof (enumerates_elem _ _ _ _ Hord Hin).
    apply read_account_entry_app; [by eapply Hacc | by eapply Hna].
Qed.

(** a table without multi-signature addresses that is stored at a height is
    loaded back unchanged from that height, whatever the iteration order of the
    map and whatever lawful store lies below. *)
Theorem Accounts_store_load {D : Type} `{RocksDBLaws D} (db db' : D) at_ ord current height fuel :
  accounts_ok at_ -> no_approvals at_ -> enumerates ord (AllAccounts at_) -> 0 <= height ->
  StoreAccounts db current ord at_ height = Ok db' ->
  forall at0, LoadAccounts db' fuel height at0 = Some (Ok tt, at_).
Proof.
  intros Hok Hna Hord Hh. unfold StoreAccounts, LoadAccounts.
  replace (height <? 0) with false by (symmetry; apply Z.ltb_ge; lia).
  intros Hput at0. unfold st_bind, st_lift. rewrite (DB_Get_Put_eq _ _ _ _ Hput).
  by rewrite AccountsType_roundtrip_any_order.
Qed.

Definition zero_AccountsType : AccountsType := mk_AccountsType ∅ 0.
Definition sample_addr (n : Z) : addr20 := arr_of AddressLength [byte_of_Z n].
Definition sample_account (n b : Z) : Account :=
  mk_Account b (sample_addr n) 0 (byte_of_Z 0) [].
Definition sample_table : AccountsType :=
  mk_AccountsType {[ sample_addr 1 := sample_account 1 5; sample_addr 2 := sample_account 2 7 ]} 3.

Lemma sample_table_ok : accounts_ok sample_table /\ no_approvals sample_table.
Proof.
  split; [split; [|by vm_compute|by vm_compute]|];
    unfold no_approvals, sample_table; cbn [AllAccounts];
    (apply map_Forall_insert_2; [|apply map_Forall_singleton]); by (split; vm_compute).
Qed.

Lemma Accounts_store_load_witness :
  exists db', StoreAccounts (∅ : gmap bytes bytes) 0 (map_to_list (AllAccounts sample_table))
                sample_table 3 = Ok db' /\
              LoadAccounts db' 10 3 zero_AccountsType = Some (Ok tt, sample_table).
Proof.
  eexists. split; [reflexivity|].
  eapply (Accounts_store_load (∅ : gmap bytes bytes) _ sample_table
            (map_to_list (AllAccounts sample_table)) 0 3 10).
  - apply sample_table_ok.
  - apply sample_table_ok.
  - unfold enumerates. reflexivity.
  - lia.
  - reflexivity.
Defined.

(** the table decoder never restores an approval address: an account is
    decoded from exactly 37 bytes, so the addresses a multi-signature account
    was stored with are not read back as such. *)
Theorem AccountsType_Unmarshal_drops_approvals data at0 at_ :
  AccountsType_Unmarshal data at0 = (Ok tt, at_) -> no_approvals at_.
Proof.
  unfold AccountsType_Unmarshal. intros Hu.
  destruct (next_int64 data) as [[n bu]|e|]; [|done..].
  destruct (decode_entries _ _ _ _) as [[buf|e|] m] eqn:Hm; [|done..]. cbn [obind] in Hu.
  apply decode_entries_read in Hm.
  destruct (next_int64 buf) as [[h rest]|e|]; [|done..]. injection Hu as <-.
  apply (read_entries_forall (fun _ a => MultiSignAddresses a = []) read_account_entry
           (Z.to_nat n) bu ∅ m buf); [|apply map_Forall_empty|done].
  clear Hm. intros b k a b' Hr. unfold read_account_entry in Hr.
  apply obind_ok_inv in Hr as ([ad bu'] & _ & Hr). cbn in Hr.
  destruct (negb _) eqn:Hlen; [done|].
  destruct (Account_Unmarshal _ _) eqn:Ha; [|done..]. simplify_eq.
  apply negb_false_iff, Nat.eqb_eq in Hlen. change (AddressLength + 17)%nat with 37%nat in Hlen.
  unfold Account_Unmarshal in Ha. cbn [AddressLength Nat.add] in Ha.
  rewrite Hlen in Ha. simpl (_ <? _)%nat in Ha. cbn iota in Ha.
  repeat (apply obind_ok_inv in Ha as (? & ? & Ha)). by simplify_eq/=.
Qed.

Lemma AccountsType_Unmarshal_drops_approvals_witness :
  AccountsType_Unmarshal (AccountsType_Marshal (map_to_list (AllAccounts sample_table)) sample_table)
    zero_AccountsType = (Ok tt, sample_table) /\ no_approvals sample_table.
Proof.
  split; [by vm_compute|].
  apply (AccountsType_Unmarshal_drops_approvals
           (AccountsType_Marshal (map_to_list (AllAccounts sample_table)) sample_table) zero_AccountsType).
  by vm_compute.
Defined.
