(* ===== verification/Staking.v ===== *)
(** * Package account: staking accounts

    Models account/stakeAccount.go and account/accountsStakingStates.go: staking,
    unstaking, rewards, the locked part of a stake, the binary format of staking
    accounts and the 256 delegated tables with their storage. *)
From S2P Require Import Prelude GoInt GoSlice Common Keys Database Codec Float64 Sums Accounts.

Record StakingDetail := mk_StakingDetail { sd_Amount : Z; sd_Reward : Z; sd_LastUpdated : Z }.

Record StakingAccount := mk_StakingAccount {
  StakedBalance : Z;
  StakingRewards : Z;
  LockedAmount : list Z;
  ReleasePerBlock : list Z;
  LockedInitBlock : list Z;
  DelegatedAccount : addr20;
  sa_Address : addr20;
  OperationalAccount : bool;
  StakingDetails : gmap Z (list StakingDetail)
}.

Definition zero_StakingAccount : StakingAccount :=
  mk_StakingAccount 0 0 [] [] [] (arr_zero _) (arr_zero _) false ∅.

(** One table of [StakingAccounts [256]StakingAccountsType]. *)
Abbreviation staking_map := (gmap addr20 StakingAccount).
(** The whole array. *)
Abbreviation staking_tables := (list staking_map).

Definition set_sa_Address (acc : StakingAccount) (a : addr20) : StakingAccount :=
  mk_StakingAccount (StakedBalance acc) (StakingRewards acc) (LockedAmount acc)
    (ReleasePerBlock acc) (LockedInitBlock acc) (DelegatedAccount acc) a
    (OperationalAccount acc) (StakingDetails acc).

(** [StakingAccounts[delegatedAccount].AllStakingAccounts[addrb]] *)
Definition GetStakingAccountByAddressBytes (t : staking_tables) (address : bytes)
    (delegatedAccount : Z) : outcome StakingAccount :=
  let! p := slice_to address (Z.of_nat AddressLength) in
  let! m := index t delegatedAccount in
  Ok (default zero_StakingAccount (m !! arr_of AddressLength p)).

(** [StakingAccounts[delegatedAccount].AllStakingAccounts[acc.Address] = acc] *)
Definition store_staking (t : staking_tables) (delegatedAccount : Z) (acc : StakingAccount)
    : outcome staking_tables :=
  let! m := index t delegatedAccount in
  Ok (<[Z.to_nat delegatedAccount := <[sa_Address acc := acc]> m]> t).

(** The part of every lock that is not released yet at [height], summed, with the
    positions of the locks that are fully released. *)
Fixpoint locked_loop (la rpb lib : list Z) (ind : nat) (height locked : Z) (toRemove : list nat)
    : outcome (Z * list nat) :=
  match la with
  | [] => Ok (locked, toRemove)
  | a :: la =>
      match lib, rpb with
      | i :: lib, r :: rpb =>
          let lock := a -! (height -! i) *! r in
          if lock <=? 0
          then locked_loop la rpb lib (S ind) height (locked +! 0) (toRemove ++ [ind])
          else locked_loop la rpb lib (S ind) height (locked +! lock) toRemove
      | _, _ => Panic
      end
  end.

Definition GetLockedAmount (t : staking_tables) (accb : bytes) (height delegatedAccount : Z)
    : outcome Z :=
  if negb (length accb =? AddressLength)%nat then Err "wrong address length" else
  let! acc := GetStakingAccountByAddressBytes t accb delegatedAccount in
  let! (locked, _) := locked_loop (LockedAmount acc) (ReleasePerBlock acc) (LockedInitBlock acc)
                        0 height 0 [] in
  Ok locked.

(** [if _, ok := m[height]; !ok { m = {}; m[height] = [] }; m[height] = append(m[height], sd)] *)
Definition append_detail (m : gmap Z (list StakingDetail)) (height : Z) (sd : StakingDetail)
    : gmap Z (list StakingDetail) :=
  let m' := match m !! height with Some _ => m | None => {[ height := [] ]} end in
  <[height := default [] (m' !! height) ++ [sd]]> m'.

Definition Stake (now : Z) (t : staking_tables) (accb : bytes) (amount height delegatedAccount : Z)
    (operational : bool) (lockedAmount releasePerBlock : Z) : outcome staking_tables :=
  if negb (length accb =? AddressLength)%nat then Err "wrong address length" else
  let! acc := GetStakingAccountByAddressBytes t accb delegatedAccount in
  let acc := if bytes_eqb (sa_Address acc) accb then acc
             else set_sa_Address acc (arr_copy (sa_Address acc) accb) in
  if amount <? 0 then Err "staked amount has to be larger or equal than 0" else
  if releasePerBlock <? 0 then Err "releasePerBlock has to be larger or equal than 0" else
  if lockedAmount <? releasePerBlock then Err "releasePerBlock cannot be larger than lockedAmount" else
  if lockedAmount <? 0 then Err "lockedAmount has to be larger or equal than 0" else
  if amount <? lockedAmount then Err "locked amount cannot be larger than amount" else
  let operationalAccount :=
    if (lockedAmount =? 0) && negb (OperationalAccount acc) then operational
    else OperationalAccount acc in
  let lock := 0 <? lockedAmount in
  let! da := GetDelegatedAccountAddress (i16 delegatedAccount) in
  let acc :=
    {| StakedBalance := StakedBalance acc +! amount;
       StakingRewards := StakingRewards acc;
       LockedAmount := if lock then LockedAmount acc ++ [lockedAmount] else LockedAmount acc;
       ReleasePerBlock := if lock then ReleasePerBlock acc ++ [releasePerBlock] else ReleasePerBlock acc;
       LockedInitBlock := if lock then LockedInitBlock acc ++ [height] else LockedInitBlock acc;
       DelegatedAccount := arr_copy (DelegatedAccount acc) (Address_GetBytes da);
       sa_Address := arr_copy (sa_Address acc) accb;
       OperationalAccount := operationalAccount;
       StakingDetails := append_detail (StakingDetails acc) height (mk_StakingDetail amount 0 now) |} in
  store_staking t delegatedAccount acc.

(** [s = append(s[:ind], s[ind+1:]...)] *)
Definition remove_at {A} (s : list A) (ind : nat) : outcome (list A) :=
  let! tl := slice_from s (Z.of_nat ind + 1) in Ok (take ind s ++ tl).

Fixpoint remove_locks (inds : list nat) (la rpb lib : list Z) : outcome (list Z * list Z * list Z) :=
  match inds with
  | [] => Ok (la, rpb, lib)
  | ind :: inds =>
      let! la := remove_at la ind in
      let! rpb := remove_at rpb ind in
      let! lib := remove_at lib ind in
      remove_locks inds la rpb lib
  end.

Definition Unstake (now : Z) (t : staking_tables) (accb : bytes) (amount height delegatedAccount : Z)
    : outcome staking_tables :=
  if negb (length accb =? AddressLength)%nat then Err "wrong address length" else
  let! acc := GetStakingAccountByAddressBytes t accb delegatedAccount in
  if negb (bytes_eqb (sa_Address acc) accb) then Err "no account present in unstaking account" else
  if 0 <=? amount then Err "unstaked amount has to be larger than 0" else
  if StakedBalance acc +! amount <? 0 then Err "insufficient staked balance" else
  let! (locked, toRemove) := locked_loop (LockedAmount acc) (ReleasePerBlock acc)
                               (LockedInitBlock acc) 0 height 0 [] in
  if StakedBalance acc -! locked +! amount <? 0
  then Err "insufficient staked balance after locking" else
  let! (la, rpb, lib) := remove_locks toRemove (LockedAmount acc) (ReleasePerBlock acc)
                           (LockedInitBlock acc) in
  let staked := StakedBalance acc +! amount in
  let acc :=
    {| StakedBalance := staked; StakingRewards := StakingRewards acc;
       LockedAmount := la; ReleasePerBlock := rpb; LockedInitBlock := lib;
       DelegatedAccount := DelegatedAccount acc; sa_Address := sa_Address acc;
       OperationalAccount := if staked =? 0 then false else OperationalAccount acc;
       StakingDetails := append_detail (StakingDetails acc) height (mk_StakingDetail amount 0 now) |} in
  store_staking t delegatedAccount acc.

Definition with_rewards (acc : StakingAccount) (rewards : Z) (sd : StakingDetail) (height : Z)
    : StakingAccount :=
  mk_StakingAccount (StakedBalance acc) rewards (LockedAmount acc) (ReleasePerBlock acc)
    (LockedInitBlock acc) (DelegatedAccount acc) (sa_Address acc) (OperationalAccount acc)
    (append_detail (StakingDetails acc) height sd).

Definition Reward (now : Z) (t : staking_tables) (accb : bytes) (reward height delegatedAccount : Z)
    : outcome staking_tables :=
  if negb (length accb =? AddressLength)%nat then Err "wrong address length" else
  let! acc := GetStakingAccountByAddressBytes t accb delegatedAccount in
  if negb (bytes_eqb (sa_Address acc) accb) then Err "no account present in rewarding account" else
  if reward <? 0 then Err "reward has to be larger than 0" else
  store_staking t delegatedAccount
    (with_rewards acc (StakingRewards acc +! reward) (mk_StakingDetail 0 reward now) height).

Definition WithdrawReward (now : Z) (t : staking_tables) (accb : bytes)
    (amount height delegatedAccount : Z) : outcome staking_tables :=
  if negb (length accb =? AddressLength)%nat then Err "wrong address length" else
  let! acc := GetStakingAccountByAddressBytes t accb delegatedAccount in
  if negb (bytes_eqb (sa_Address acc) accb) then Err "no account present in withdraw rewarding" else
  if 0 <=? amount then Err "withdraw amount has to be larger than 0" else
  if StakingRewards acc +! amount <? 0 then Err "insufficient rewards balance to withdraw" else
  store_staking t delegatedAccount
    (with_rewards acc (StakingRewards acc +! amount) (mk_StakingDetail 0 amount now) height).

(** ** Sums over the tables *)

Definition GetStakedInAllDelegatedAccounts (t : staking_tables) : Z :=
  sum64 (sum_map StakedBalance) t.

(** [ord] is the order in which the map is visited; the operational account of
    the delegated account is the first visited one with the largest stake. *)
Definition operational_step (intAcc : Account) (sa : StakingAccount) : Account :=
  if (Balance intAcc <? StakedBalance sa) && OperationalAccount sa
  then mk_Account (StakedBalance sa) (sa_Address sa) (TransactionDelay intAcc)
         (MultiSignNumber intAcc) (MultiSignAddresses intAcc)
  else intAcc.
Definition GetStakedInDelegatedAccount (ord : list (addr20 * StakingAccount))
    : list Account * float64 * Account :=
  (map (fun kv => mk_Account (StakedBalance kv.2) (sa_Address kv.2) 0 (byte_of_Z 0) []) ord,
   f64_of_int (sum64 (fun kv => StakedBalance kv.2) ord),
   foldl (fun a kv => operational_step a kv.2) zero_Account ord).

(** ** Reward for a block (account/reward.go) *)

Definition RewardRatio : float64 := f64_1e_7.
Definition getRemainingSupply (supply : Z) : Z := MaxTotalSupply -! supply.
Definition GetReward (supply : Z) : Z :=
  f64_to_int64 (f64_Round (f64_mul RewardRatio (f64_of_int (getRemainingSupply supply)))).

(** ** Updates of one cell of the tables *)

(** [t'] is [t] with the account of [a] in table [d], which reads as [acc],
    replaced by [acc']. *)
Definition staking_update (t t' : staking_tables) (d : Z) (a : addr20) (acc acc' : StakingAccount)
    : Prop :=
  0 <= d /\ exists m, t !! Z.to_nat d = Some m /\ acc = default zero_StakingAccount (m !! a) /\
    t' = <[Z.to_nat d := <[a := acc']> m]> t.

Lemma index_inv {A} (s : list A) i x : index s i = Ok x -> 0 <= i /\ s !! Z.to_nat i = Some x.
Proof.
  unfold index. destruct (i <? 0) eqn:E; [done|]. zify_bool.
  destruct (s !! Z.to_nat i); [|done]. intros [= ->]. done.
Qed.

Lemma full_slice (accb : bytes) :
  length accb = AddressLength -> slice_to accb (Z.of_nat AddressLength) = Ok accb.
Proof. intros H. rewrite <- (app_nil_r accb) at 1. apply slice_prefix. by rewrite H. Qed.

(** An operation that reads the account of [accb] and stores it back under the
    same address updates exactly that cell. *)
Lemma staking_update_intro t t' d accb acc acc' :
  length accb = AddressLength ->
  GetStakingAccountByAddressBytes t accb d = Ok acc ->
  arr_bytes (sa_Address acc') = accb ->
  store_staking t d acc' = Ok t' ->
  staking_update t t' d (arr_of AddressLength accb) acc acc'.
Proof.
  intros Hl Hg Ha Hs. unfold GetStakingAccountByAddressBytes in Hg. rewrite full_slice in Hg by done.
  cbn [obind] in Hg. apply obind_ok_inv in Hg as (m & Hm & [= <-]).
  unfold store_staking in Hs. rewrite Hm in Hs. cbn [obind] in Hs. injection Hs as <-.
  apply index_inv in Hm as [? ?]. split; [done|]. exists m. repeat split; try done.
  do 3 f_equal. apply arr_eq. by rewrite arr_of_bytes.
Qed.

Lemma sum_staking_update (f : StakingAccount -> Z) t t' d a acc acc' :
  f zero_StakingAccount = 0 -> staking_update t t' d a acc acc' ->
  sum64 (sum_map f) t' = sum64 (sum_map f) t +! (f acc' -! f acc).
Proof.
  intros Hz (_ & m & Hm & -> & ->). rewrite (sum64_insert _ _ _ m) by done.
  rewrite (sum_map_insert f m a acc' zero_StakingAccount) by done. i64_solve.
Qed.

(** ** The locked part of a stake *)

(** What the lock [(amount, releasePerBlock, initBlock)] still holds at [height]. *)
Definition lock_left (height : Z) (l : Z * Z * Z) : Z :=
  let lock := l.1.1 -! (height -! l.2) *! l.1.2 in if lock <=? 0 then 0 else lock.

Fixpoint zip3 (la rpb lib : list Z) : list (Z * Z * Z) :=
  match la, rpb, lib with
  | a :: la, r :: rpb, i :: lib => (a, r, i) :: zip3 la rpb lib
  | _, _, _ => []
  end.

Definition expired (height : Z) (l : Z * Z * Z) : bool :=
  l.1.1 -! (height -! l.2) *! l.1.2 <=? 0.

(** The positions of the expired locks, counted from [ind]. *)
Fixpoint expired_from (height : Z) (ind : nat) (ls : list (Z * Z * Z)) : list nat :=
  match ls with
  | [] => []
  | l :: ls => (if expired height l then [ind] else []) ++ expired_from height (S ind) ls
  end.

Lemma locked_loop_spec la rpb lib ind height locked rm :
  length rpb = length la -> length lib = length la -> in64 locked ->
  locked_loop la rpb lib ind height locked rm
  = Ok (locked +! sum64 (lock_left height) (zip3 la rpb lib),
        rm ++ expired_from height ind (zip3 la rpb lib)).
Proof.
  revert rpb lib ind locked rm.
  induction la as [|a la IH]; intros [|r rpb] [|i lib] ind locked rm H1 H2 Hl; try done.
  - cbn. by rewrite add64_0_r, app_nil_r.
  - injection H1 as H1. injection H2 as H2.
    cbn [locked_loop zip3 expired_from]. unfold expired. cbn [fst snd]. rewrite sum64_cons.
    unfold lock_left at 1. cbn [fst snd].
    destruct (_ <=? 0); rewrite IH by (done || apply add64_in64); cbn [app];
      rewrite ?add64_assoc, <- ?app_assoc; done.
Qed.

(** ** Inversion of the operations *)

Lemma bytes_eqb_eq a b : bytes_eqb a b = true -> a = b.
Proof. apply bool_decide_eq_true. Qed.

(** Every operation starts by reading the account of a 20-byte address. *)
Ltac staking_open H :=
  match type of H with (if negb ?b then _ else _) = _ =>
    let Hl := fresh "Hlen" in
    destruct b eqn:Hl; cbn [negb] in H; [apply Nat.eqb_eq in Hl | discriminate H] end;
  let acc := fresh "acc" in let Hg := fresh "Hget" in
  apply obind_ok_inv in H as (acc & Hg & H).
Ltac staking_guards H :=
  repeat (cbv zeta in H; match type of H with (if ?b then Err _ else _) = _ =>
    let E := fresh "E" in destruct b eqn:E; [discriminate H|] end);
  zify_bool.

Lemma Stake_inv now t accb amount h d op lk rpb t' :
  Stake now t accb amount h d op lk rpb = Ok t' ->
  exists acc acc', staking_update t t' d (arr_of AddressLength accb) acc acc' /\
    length accb = AddressLength /\
    0 <= rpb <= lk /\ lk <= amount /\ arr_bytes (sa_Address acc') = accb /\
    StakedBalance acc' = StakedBalance acc +! amount /\
    StakingRewards acc' = StakingRewards acc /\
    zip3 (LockedAmount acc') (ReleasePerBlock acc') (LockedInitBlock acc') =
      zip3 (if 0 <? lk then LockedAmount acc ++ [lk] else LockedAmount acc)
           (if 0 <? lk then ReleasePerBlock acc ++ [rpb] else ReleasePerBlock acc)
           (if 0 <? lk then LockedInitBlock acc ++ [h] else LockedInitBlock acc) /\
    length (LockedAmount acc') = (length (LockedAmount acc) + if (0 <? lk)%Z then 1 else 0)%nat /\
    length (ReleasePerBlock acc') = (length (ReleasePerBlock acc) + if (0 <? lk)%Z then 1 else 0)%nat /\
    length (LockedInitBlock acc') = (length (LockedInitBlock acc) + if (0 <? lk)%Z then 1 else 0)%nat /\
    StakingDetails acc' = append_detail (StakingDetails acc) h (mk_StakingDetail amount 0 now).
Proof.
  unfold Stake. intros H. staking_open H. set (acc1 := if bytes_eqb _ _ then acc else _) in H.
  staking_guards H. apply obind_ok_inv in H as (da & _ & H). cbv zeta in H.
  set (acc' := {| StakedBalance := _ |}) in H.
  assert (sa_Address acc' = arr_copy (sa_Address acc1) accb) as Hadd by done.
  assert (acc1 = acc \/ acc1 = set_sa_Address acc (arr_copy (sa_Address acc) accb)) as Hacc1
    by (unfold acc1; destruct (bytes_eqb _ _); auto).
  exists acc, acc'. split.
  { eapply staking_update_intro; eauto. rewrite Hadd. by apply arr_copy_bytes. }
  rewrite Hadd, arr_copy_bytes by done.
  destruct Hacc1 as [-> | ->]; unfold acc';
    cbn [StakedBalance StakingRewards LockedAmount ReleasePerBlock LockedInitBlock StakingDetails set_sa_Address];
    destruct (0 <? lk); rewrite ?length_app; cbn [length]; repeat split; lia || done.
Qed.

Lemma Unstake_inv now t accb amount h d t' :
  Unstake now t accb amount h d = Ok t' ->
  exists acc acc' locked rm, staking_update t t' d (arr_of AddressLength accb) acc acc' /\
    length accb = AddressLength /\
    amount < 0 /\ 0 <= StakedBalance acc +! amount /\
    sa_Address acc' = sa_Address acc /\ arr_bytes (sa_Address acc) = accb /\
    GetStakingAccountByAddressBytes t accb d = Ok acc /\
    locked_loop (LockedAmount acc) (ReleasePerBlock acc) (LockedInitBlock acc) 0 h 0 [] = Ok (locked, rm) /\
    0 <= StakedBalance acc -! locked +! amount /\
    StakedBalance acc' = StakedBalance acc +! amount /\
    StakingRewards acc' = StakingRewards acc /\
    remove_locks rm (LockedAmount acc) (ReleasePerBlock acc) (LockedInitBlock acc)
      = Ok (LockedAmount acc', ReleasePerBlock acc', LockedInitBlock acc') /\
    StakingDetails acc' = append_detail (StakingDetails acc) h (mk_StakingDetail amount 0 now).
Proof.
  unfold Unstake. intros H. staking_open H.
  destruct (bytes_eqb _ _) eqn:Ha; [|discriminate H]. apply bytes_eqb_eq in Ha. cbn [negb] in H.
  staking_guards H. apply obind_ok_inv in H as ([locked rm] & Hlk & H).
  staking_guards H. apply obind_ok_inv in H as ([[la rpb] lib] & Hrm & H). cbv zeta in H.
  set (acc' := {| StakedBalance := _ |}) in H.
  exists acc, acc', locked, rm. split; [by eapply staking_update_intro; eauto|].
  repeat split; try done.
Qed.

Lemma rewards_inv t accb d acc r sd h t' :
  length accb = AddressLength ->
  GetStakingAccountByAddressBytes t accb d = Ok acc -> arr_bytes (sa_Address acc) = accb ->
  store_staking t d (with_rewards acc r sd h) = Ok t' ->
  staking_update t t' d (arr_of AddressLength accb) acc (with_rewards acc r sd h).
Proof. intros. by eapply staking_update_intro; eauto. Qed.

Lemma Reward_inv now t accb reward h d t' :
  Reward now t accb reward h d = Ok t' ->
  exists acc, 0 <= reward /\ length accb = AddressLength /\ arr_bytes (sa_Address acc) = accb /\
    staking_update t t' d (arr_of AddressLength accb) acc
      (with_rewards acc (StakingRewards acc +! reward) (mk_StakingDetail 0 reward now) h).
Proof.
  unfold Reward. intros H. staking_open H.
  destruct (bytes_eqb _ _) eqn:Ha; [|discriminate H]. apply bytes_eqb_eq in Ha. cbn [negb] in H.
  staking_guards H. exists acc. repeat split; try done; by eapply rewards_inv.
Qed.

Lemma WithdrawReward_inv now t accb amount h d t' :
  WithdrawReward now t accb amount h d = Ok t' ->
  exists acc, amount < 0 /\ length accb = AddressLength /\ arr_bytes (sa_Address acc) = accb /\
    0 <= StakingRewards acc +! amount /\
    staking_update t t' d (arr_of AddressLength accb) acc
      (with_rewards acc (StakingRewards acc +! amount) (mk_StakingDetail 0 amount now) h).
Proof.
  unfold WithdrawReward. intros H. staking_open H.
  destruct (bytes_eqb _ _) eqn:Ha; [|discriminate H]. apply bytes_eqb_eq in Ha. cbn [negb] in H.
  staking_guards H. exists acc. repeat split; try done; by eapply rewards_inv.
Qed.

(** ** The operations as steps on the tables *)

Inductive staking_op :=
| OpStake (accb : bytes) (amount height d : Z) (operational : bool) (locked release : Z)
| OpUnstake (accb : bytes) (amount height d : Z)
| OpReward (accb : bytes) (reward height d : Z)
| OpWithdrawReward (accb : bytes) (amount height d : Z).

Definition run_staking_op (now : Z) (o : staking_op) (t : staking_tables) : outcome staking_tables :=
  match o with
  | OpStake accb amount h d op lk rpb => Stake now t accb amount h d op lk rpb
  | OpUnstake accb amount h d => Unstake now t accb amount h d
  | OpReward accb reward h d => Reward now t accb reward h d
  | OpWithdrawReward accb amount h d => WithdrawReward now t accb amount h d
  end.

Definition op_staked (o : staking_op) : Z :=
  match o with OpStake _ a _ _ _ _ _ | OpUnstake _ a _ _ => a | _ => 0 end.
Definition op_rewarded (o : staking_op) : Z :=
  match o with OpReward _ a _ _ | OpWithdrawReward _ a _ _ => a | _ => 0 end.

Definition total_rewards (t : staking_tables) : Z := sum64 (sum_map StakingRewards) t.

(** The changes are stated modulo 2^64. *)
Lemma run_staking_op_inv now o t t' :
  run_staking_op now o t = Ok t' ->
  exists d a acc acc', staking_update t t' d a acc acc' /\ sa_Address acc' = a /\
    eq64 (StakedBalance acc' - StakedBalance acc) (op_staked o) /\
    eq64 (StakingRewards acc' - StakingRewards acc) (op_rewarded o).
Proof.
  destruct o as [accb am h d op lk rpb|accb am h d|accb am h d|accb am h d]; cbn; intros H.
  - apply Stake_inv in H as (acc & acc' & Hu & Hl & _ & _ & Ha & Hs & Hr & _).
    exists d, (arr_of AddressLength accb), acc, acc'. rewrite Hs, Hr.
    split; [done|]. split; [apply arr_eq; by rewrite arr_of_bytes|]. split; i64_solve.
  - apply Unstake_inv in H as (acc & acc' & lk & rm & Hu & Hl & _ & _ & Ha & Ha' & _ & _ & _ & Hs & Hr & _).
    exists d, (arr_of AddressLength accb), acc, acc'. rewrite Hs, Hr.
    split; [done|]. split; [apply arr_eq; by rewrite arr_of_bytes, Ha|]. split; i64_solve.
  - apply Reward_inv in H as (acc & _ & Hl & Ha & Hu).
    eexists d, (arr_of AddressLength accb), acc, _. split; [exact Hu|]. cbn.
    split; [apply arr_eq; by rewrite arr_of_bytes|]. split; i64_solve.
  - apply WithdrawReward_inv in H as (acc & _ & Hl & Ha & _ & Hu).
    eexists d, (arr_of AddressLength accb), acc, _. split; [exact Hu|]. cbn.
    split; [apply arr_eq; by rewrite arr_of_bytes|]. split; i64_solve.
Qed.

Lemma run_staking_op_totals now o t t' :
  run_staking_op now o t = Ok t' ->
  GetStakedInAllDelegatedAccounts t' = GetStakedInAllDelegatedAccounts t +! op_staked o /\
  total_rewards t' = total_rewards t +! op_rewarded o.
Proof.
  intros (d & a & acc & acc' & Hu & _ & Hs & Hr)%run_staking_op_inv.
  unfold GetStakedInAllDelegatedAccounts, total_rewards, eq64 in *.
  rewrite (sum_staking_update StakedBalance _ _ _ _ _ _ eq_refl Hu).
  rewrite (sum_staking_update StakingRewards _ _ _ _ _ _ eq_refl Hu).
  unfold sub64. rewrite Hs, Hr. split; i64_solve.
Qed.

(** C31: every successful staking operation moves the total stake and the total of
    the pending rewards by exactly the amount of the operation, modulo 2^64. *)
Theorem staking_op_totals now o t t' :
  run_staking_op now o t = Ok t' ->
  GetStakedInAllDelegatedAccounts t' = GetStakedInAllDelegatedAccounts t +! op_staked o /\
  total_rewards t' = total_rewards t +! op_rewarded o.
Proof. apply run_staking_op_totals. Qed.

Definition no_stakes : staking_tables := replicate 256 ∅.
Definition staker (n : Z) : bytes := arr_of AddressLength [byte_of_Z n].
Definition first_stake : staking_op := OpStake (staker 1) 500 10 3 true 100 10.
Definition one_stake : staking_tables := from_ok [] (run_staking_op 7 first_stake no_stakes).

Lemma one_stake_run : run_staking_op 7 first_stake no_stakes = Ok one_stake.
Proof. vm_cast_no_check (eq_refl (Ok one_stake)). Qed.

Lemma staking_op_totals_witness :
  run_staking_op 7 first_stake no_stakes = Ok one_stake /\
  GetStakedInAllDelegatedAccounts one_stake = GetStakedInAllDelegatedAccounts no_stakes +! 500 /\
  total_rewards one_stake = total_rewards no_stakes +! 0.
Proof. split; [exact one_stake_run | exact (staking_op_totals 7 first_stake _ _ one_stake_run)]. Defined.

(** ** Well-formed tables *)

(** The three lock slices are parallel. *)
Record locks_parallel (acc : StakingAccount) : Prop := {
  par_rpb : length (ReleasePerBlock acc) = length (LockedAmount acc);
  par_lib : length (LockedInitBlock acc) = length (LockedAmount acc)
}.

(** 256 tables, every account filed under its own address. *)
Record tables_wf (t : staking_tables) : Prop := {
  twf_len : length t = 256%nat;
  twf_acc : Forall (map_Forall (fun a acc => sa_Address acc = a /\ locks_parallel acc)) t
}.

Lemma zero_locks_parallel : locks_parallel zero_StakingAccount.
Proof. done. Qed.

Lemma tables_wf_update t t' d a acc acc' :
  tables_wf t -> staking_update t t' d a acc acc' -> sa_Address acc' = a ->
  (locks_parallel acc -> locks_parallel acc') -> tables_wf t'.
Proof.
  intros [Hl Ht] (_ & m & Hm & -> & ->) Ha Hp. rewrite Forall_lookup in Ht.
  pose proof (Ht _ _ Hm) as Hmap. split; [by rewrite length_insert|].
  apply Forall_insert; [by apply Forall_lookup|].
  apply map_Forall_insert_2; [|done]. split; [done|]. apply Hp.
  destruct (m !! a) as [x|] eqn:E; [by apply (Hmap a)|apply zero_locks_parallel].
Qed.

Lemma remove_at_length {A} (s s' : list A) i :
  remove_at s i = Ok s' -> length s = S (length s').
Proof.
  unfold remove_at, slice_from. intros H. apply obind_ok_inv in H as (tl & Ht & [= <-]).
  apply slice_inv in Ht as (? & ? & ? & _). rewrite length_app, length_take. lia.
Qed.

Lemma remove_locks_length rm la rpb lib la' rpb' lib' :
  remove_locks rm la rpb lib = Ok (la', rpb', lib') ->
  length rpb = length la -> length lib = length la ->
  length rpb' = length la' /\ length lib' = length la'.
Proof.
  revert la rpb lib. induction rm as [|i rm IH]; intros la rpb lib H H1 H2; cbn in H.
  - by simplify_eq.
  - apply obind_ok_inv in H as (la1 & E1 & H). apply obind_ok_inv in H as (rpb1 & E2 & H).
    apply obind_ok_inv in H as (lib1 & E3 & H).
    apply remove_at_length in E1, E2, E3. eapply IH; [done|lia|lia].
Qed.

(** C32: no staking operation breaks the tables: there are still 256 of them,
    every account is filed under its own address, and the amounts, release rates
    and start heights of its locks stay in step. *)
Theorem staking_op_wf now o t t' :
  tables_wf t -> run_staking_op now o t = Ok t' -> tables_wf t'.
Proof.
  intros Hwf. destruct o as [accb am h d op lk rpb|accb am h d|accb am h d|accb am h d]; cbn; intros H.
  - apply Stake_inv in H as (acc & acc' & Hu & Hl & _ & _ & Ha & _ & _ & _ & L1 & L2 & L3 & _).
    eapply tables_wf_update; [done..| |].
    + apply arr_eq. by rewrite arr_of_bytes.
    + intros [P1 P2]. split; lia.
  - apply Unstake_inv in H as (acc & acc' & lk & rm & Hu & Hl & _ & _ & Ha & Ha' & _ & _ & _ & _ & _ & Hrm & _).
    eapply tables_wf_update; [done..| |].
    + apply arr_eq. by rewrite arr_of_bytes, Ha.
    + intros [P1 P2]. by destruct (remove_locks_length _ _ _ _ _ _ _ Hrm P1 P2).
  - apply Reward_inv in H as (acc & _ & Hl & Ha & Hu).
    eapply tables_wf_update; [done..| |by intros []]. apply arr_eq. by rewrite arr_of_bytes.
  - apply WithdrawReward_inv in H as (acc & _ & Hl & Ha & _ & Hu).
    eapply tables_wf_update; [done..| |by intros []]. apply arr_eq. by rewrite arr_of_bytes.
Qed.

Lemma no_stakes_wf : tables_wf no_stakes.
Proof. split; [done|]. apply Forall_replicate, map_Forall_empty. Qed.

Lemma staking_op_wf_witness :
  tables_wf no_stakes /\ run_staking_op 7 first_stake no_stakes = Ok one_stake /\ tables_wf one_stake.
Proof.
  split; [exact no_stakes_wf|]. split; [exact one_stake_run|].
  exact (staking_op_wf 7 first_stake _ _ no_stakes_wf one_stake_run).
Defined.

(** ** Unstaking and locks *)

Lemma locked_loop_in64 la rpb lib i h l r l' r' :
  in64 l -> locked_loop la rpb lib i h l r = Ok (l', r') -> in64 l'.
Proof.
  revert rpb lib i l r. induction la as [|x la IH]; intros [|r0 rpb] [|i0 lib] i l r Hl H;
    cbn in H; simplify_eq; try done.
  all: destruct (_ <=? 0); eapply IH, H; apply add64_in64.
Qed.

Lemma GetLockedAmount_eq t accb h d acc :
  length accb = AddressLength -> GetStakingAccountByAddressBytes t accb d = Ok acc ->
  locks_parallel acc ->
  GetLockedAmount t accb h d =
    Ok (sum64 (lock_left h) (zip3 (LockedAmount acc) (ReleasePerBlock acc) (LockedInitBlock acc))).
Proof.
  intros Hl Hg [P1 P2]. unfold GetLockedAmount. rewrite Hl, Hg. cbn [Nat.eqb negb AddressLength obind].
  rewrite locked_loop_spec by done. cbn [obind]. by rewrite add64_0_l by apply sum64_in64.
Qed.

Lemma staking_update_get t t' d a acc acc' :
  staking_update t t' d a acc acc' -> GetStakingAccountByAddressBytes t' (arr_bytes a) d = Ok acc'.
Proof.
  intros (Hd & m & Hm & _ & ->). unfold GetStakingAccountByAddressBytes.
  rewrite full_slice by apply arr_length. cbn [obind]. unfold index.
  replace (d <? 0) with false by (symmetry; apply Z.ltb_ge; lia).
  rewrite list_lookup_insert_eq by (by eapply lookup_lt_Some). cbn [obind].
  by rewrite arr_of_arr, lookup_insert_eq.
Qed.

(** C33: a successful unstake takes the amount from the stake without wrapping
    around, and leaves at least what the locks of the account still hold at that
    height. *)
Theorem Unstake_keeps_locked now t accb amount h d t' acc locked :
  GetStakingAccountByAddressBytes t accb d = Ok acc ->
  0 <= StakedBalance acc < 2 ^ 63 -> in64 amount ->
  GetLockedAmount t accb h d = Ok locked -> 0 <= locked ->
  Unstake now t accb amount h d = Ok t' ->
  exists acc', GetStakingAccountByAddressBytes t' accb d = Ok acc' /\
    StakedBalance acc' = StakedBalance acc + amount /\
    locked <= StakedBalance acc' < StakedBalance acc.
Proof.
  intros Hg Hs Ha Hlk Hpos H.
  apply Unstake_inv in H
    as (acc0 & acc' & lk & rm & Hu & Hl & Hneg & Hge & _ & _ & Hg' & Hloop & Hge2 & Hs' & _).
  rewrite Hg in Hg'. injection Hg' as <-.
  unfold GetLockedAmount in Hlk. rewrite Hl, Hg in Hlk. cbn [Nat.eqb negb AddressLength obind] in Hlk.
  rewrite Hloop in Hlk. cbn [obind] in Hlk. injection Hlk as ->.
  exists acc'. split.
  { apply staking_update_get in Hu. by rewrite arr_of_bytes in Hu. }
  unfold in64 in Ha. unfold add64, sub64 in *.
  rewrite i64_id in Hs', Hge by (unfold in64; lia).
  assert (in64 locked) as Hlk64 by (eapply locked_loop_in64, Hloop; done).
  unfold in64 in Hlk64.
  rewrite (i64_id (StakedBalance acc - locked)) in Hge2 by (unfold in64; lia).
  rewrite i64_id in Hge2 by (unfold in64; lia). lia.
Qed.

Definition unstaked : staking_tables := from_ok [] (Unstake 8 one_stake (staker 1) (-300) 15 3).

Lemma Unstake_keeps_locked_witness : exists acc',
  GetStakingAccountByAddressBytes unstaked (staker 1) 3 = Ok acc' /\
  StakedBalance acc' = 500 + -300 /\ 50 <= StakedBalance acc' < 500.
Proof.
  apply (Unstake_keeps_locked 8 one_stake (staker 1) (-300) 15 3 unstaked
           (from_ok zero_StakingAccount (GetStakingAccountByAddressBytes one_stake (staker 1) 3)) 50).
  - vm_cast_no_check (eq_refl (GetStakingAccountByAddressBytes one_stake (staker 1) 3)).
  - vm_compute. by split.
  - by vm_compute.
  - vm_compute. reflexivity.
  - lia.
  - vm_cast_no_check (eq_refl (Ok unstaked)).
Defined.

(** *** Expired locks

    [toRemoveLockedInd] is collected before the removals, and the removals shift
    the slices, so the second position is off by one. *)
Lemma remove_at_2_panics {A} (x : A) (i : nat) : (1 <= i)%nat -> remove_at [x] i = Panic.
Proof.
  intros Hi. unfold remove_at, slice_from, slice. cbn [length].
  replace (Z.of_nat i + 1 <=? _) with false by (symmetry; apply Z.leb_gt; lia).
  by rewrite andb_false_r.
Qed.

(** an account whose two locks are both expired cannot be unstaked: once the
    balance guards are passed, the second removal is out of range and the call
    panics, whatever the amount. *)
Theorem Unstake_two_expired_locks_panics now t accb amount h d acc l1 l2 r1 r2 i1 i2 :
  length accb = AddressLength ->
  GetStakingAccountByAddressBytes t accb d = Ok acc -> arr_bytes (sa_Address acc) = accb ->
  LockedAmount acc = [l1; l2] -> ReleasePerBlock acc = [r1; r2] -> LockedInitBlock acc = [i1; i2] ->
  expired h (l1, r1, i1) = true -> expired h (l2, r2, i2) = true ->
  in64 (StakedBalance acc) ->
  amount < 0 -> 0 <= StakedBalance acc +! amount ->
  Unstake now t accb amount h d = Panic.
Proof.
  unfold expired. cbn [fst snd].
  intros Hl Hg Ha E1 E2 E3 X1 X2 H64 Hneg Hge. unfold Unstake.
  rewrite Hl, Hg. cbn [Nat.eqb negb AddressLength obind]. rewrite Ha.
  unfold bytes_eqb. rewrite bool_decide_true by done. cbn [negb].
  replace (0 <=? amount) with false by (symmetry; apply Z.leb_gt; lia).
  replace (_ +! amount <? 0) with false by (symmetry; apply Z.ltb_ge; lia).
  rewrite E1, E2, E3. cbn [locked_loop]. rewrite X1, X2. cbn [obind app].
  replace (StakedBalance acc -! (0 +! 0 +! 0)) with (StakedBalance acc)
    by (change (0 +! 0 +! 0) with 0; unfold sub64; rewrite Z.sub_0_r; by rewrite i64_id).
  replace (_ +! amount <? 0) with false by (symmetry; apply Z.ltb_ge; lia).
  reflexivity.
Qed.

Definition two_locks : staking_tables :=
  from_ok [] (run_staking_op 7 (OpStake (staker 1) 500 10 3 false 100 10) one_stake).

Lemma Unstake_two_expired_locks_panics_witness :
  Unstake 9 two_locks (staker 1) (-1) 1000 3 = Panic.
Proof.
  apply (Unstake_two_expired_locks_panics 9 two_locks (staker 1) (-1) 1000 3
           (from_ok zero_StakingAccount (GetStakingAccountByAddressBytes two_locks (staker 1) 3))
           100 100 10 10 10 10).
  - by vm_compute.
  - vm_cast_no_check (eq_refl (GetStakingAccountByAddressBytes two_locks (staker 1) 3)).
  - by vm_compute.
  - by vm_compute.
  - by vm_compute.
  - by vm_compute.
  - by vm_compute.
  - by vm_compute.
  - by vm_compute.
  - lia.
  - vm_compute. discriminate.
Defined.

(** *** Release of a lock *)

(** as long as nothing overflows, a lock of [a] released at [r] per block
    from block [i] holds [a - (h - i) * r] at height [h], never less than zero;
    it never grows with the height and is gone once [(h - i) * r >= a]. *)
Theorem lock_left_linear a r i h :
  in64 a -> in64 r -> in64 (h - i) -> in64 ((h - i) * r) -> in64 (a - (h - i) * r) ->
  lock_left h (a, r, i) = Z.max 0 (a - (h - i) * r) /\
  (expired h (a, r, i) = true <-> a <= (h - i) * r).
Proof.
  intros Ha Hr Hhi Hm Hs. unfold lock_left, expired, sub64, mul64. cbn [fst snd].
  rewrite (i64_id (h - i)), (i64_id ((h - i) * r)), i64_id by done.
  split.
  - destruct (_ <=? 0) eqn:E; zify_bool; lia.
  - rewrite Z.leb_le. lia.
Qed.

Lemma lock_left_linear_witness :
  lock_left 15 (100, 10, 10) = Z.max 0 (100 - (15 - 10) * 10) /\
  (expired 15 (100, 10, 10) = true <-> 100 <= (15 - 10) * 10).
Proof. apply (lock_left_linear 100 10 10 15); by vm_compute. Defined.

(** the product wraps around, so an expired lock that no unstake has removed
    comes back: 10^15 units released at once at block 0 are free at block 1 and
    locked again, and more, at block 9225. *)
Theorem expired_lock_returns :
  lock_left 1 (10 ^ 15, 10 ^ 15, 0) = 0 /\ lock_left 9225 (10 ^ 15, 10 ^ 15, 0) > 10 ^ 15.
Proof. vm_compute. split; reflexivity. Qed.

(** *** The history of an account *)

Lemma append_detail_fresh m h sd : m !! h = None -> append_detail m h sd = {[ h := [sd] ]}.
Proof.
  intros Hm. unfold append_detail. rewrite Hm, lookup_singleton_eq. cbn.
  by rewrite insert_singleton_eq.
Qed.
Lemma append_detail_same m h sd l :
  m !! h = Some l -> append_detail m h sd = <[h := l ++ [sd]]> m.
Proof. intros Hm. unfold append_detail. by rewrite !Hm. Qed.

Definition op_target (o : staking_op) : bytes * Z * Z :=
  match o with
  | OpStake accb _ h d _ _ _ | OpUnstake accb _ h d | OpReward accb _ h d
  | OpWithdrawReward accb _ h d => (accb, h, d)
  end.

(** the first operation of an account at a new height forgets the whole
    history of the account: only the entry of that height is left. *)
Theorem staking_op_forgets_history now o t t' acc :
  GetStakingAccountByAddressBytes t (op_target o).1.1 (op_target o).2 = Ok acc ->
  StakingDetails acc !! (op_target o).1.2 = None ->
  run_staking_op now o t = Ok t' ->
  exists acc' sd, GetStakingAccountByAddressBytes t' (op_target o).1.1 (op_target o).2 = Ok acc' /\
    StakingDetails acc' = {[ (op_target o).1.2 := [sd] ]}.
Proof.
  intros Hg Hn H.
  assert (exists acc0 acc' sd, length (op_target o).1.1 = AddressLength /\
    staking_update t t' (op_target o).2 (arr_of AddressLength (op_target o).1.1) acc0 acc' /\
    StakingDetails acc' = append_detail (StakingDetails acc0) (op_target o).1.2 sd)
    as (acc0 & acc' & sd & Hl & Hu & Hd).
  { destruct o; cbn in H |- *.
    - apply Stake_inv in H as (? & ? & ? & ? & _ & _ & _ & _ & _ & _ & _ & _ & _ & ?). eauto 10.
    - apply Unstake_inv in H as (? & ? & ? & ? & ? & ? & _ & _ & _ & _ & _ & _ & _ & _ & _ & _ & ?). eauto 10.
    - apply Reward_inv in H as (? & ? & Hl & ? & Hu). eexists _, _, _.
      split; [exact Hl|]. split; [exact Hu|reflexivity].
    - apply WithdrawReward_inv in H as (? & ? & Hl & ? & ? & Hu). eexists _, _, _.
      split; [exact Hl|]. split; [exact Hu|reflexivity]. }
  pose proof (staking_update_get _ _ _ _ _ _ Hu) as Hg'. rewrite arr_of_bytes in Hg' by done.
  exists acc', sd. split; [done|]. rewrite Hd. apply append_detail_fresh.
  enough (acc0 = acc) as -> by done.
  destruct Hu as (Hpos & m & Hm & -> & _). unfold GetStakingAccountByAddressBytes in Hg.
  rewrite full_slice in Hg by done. cbn [obind] in Hg. unfold index in Hg.
  replace (_ <? 0) with false in Hg by (symmetry; apply Z.ltb_ge; lia).
  rewrite Hm in Hg. cbn [obind] in Hg. by simplify_eq.
Qed.

Lemma staking_op_forgets_history_witness : exists acc' sd,
  GetStakingAccountByAddressBytes unstaked (staker 1) 3 = Ok acc' /\
  StakingDetails acc' = {[ 15 := [sd] ]}.
Proof.
  apply (staking_op_forgets_history 8 (OpUnstake (staker 1) (-300) 15 3) one_stake unstaked
           (from_ok zero_StakingAccount (GetStakingAccountByAddressBytes one_stake (staker 1) 3))).
  - vm_cast_no_check (eq_refl (GetStakingAccountByAddressBytes one_stake (staker 1) 3)).
  - by vm_compute.
  - vm_cast_no_check (eq_refl (Ok unstaked)).
Defined.

(** ** The operator of a delegated account *)

Lemma operational_fold_max ord a :
  let r := foldl (fun a kv => operational_step a kv.2) a ord in
  Balance a <= Balance r /\
  Forall (fun kv : addr20 * StakingAccount =>
    OperationalAccount kv.2 = true -> StakedBalance kv.2 <= Balance r) ord /\
  (r = a \/ exists kv, kv ∈ ord /\ OperationalAccount kv.2 = true /\
     acc_Address r = sa_Address kv.2 /\ Balance r = StakedBalance kv.2).
Proof.
  revert a. induction ord as [|[k sa] ord IH]; intros a; cbn [foldl snd]; cbv zeta.
  - split; [lia|]. split; [constructor|by left].
  - destruct (IH (operational_step a sa)) as (H1 & H2 & H3).
    set (r := foldl _ _ _) in *. unfold operational_step in *.
    destruct (Balance a <? StakedBalance sa) eqn:Ea; cbn [andb] in *; zify_bool.
    + destruct (OperationalAccount sa) eqn:Eo; cbn [Balance] in *.
      * split; [lia|]. split; [constructor; [cbn; lia|done]|]. right.
        destruct H3 as [-> | (kv & ? & ? & ? & ?)]; [by exists (k, sa); repeat split; [left|..]|by exists kv; repeat split; [right|..]].
      * split; [lia|]. split; [constructor; [cbn; congruence|done]|].
        destruct H3 as [-> | (kv & ? & ? & ? & ?)]; [by left|by right; exists kv; repeat split; [right|..]].
    + split; [lia|]. split; [constructor; [cbn; lia|done]|].
      destruct H3 as [-> | (kv & ? & ? & ? & ?)]; [by left|by right; exists kv; repeat split; [right|..]].
Qed.

(** whatever the order in which the map is visited, the reported operator of
    a delegated account is one of its operational accounts and none of them has
    more stake; without an operational stake it is the zero account.  The total
    and the reported stakes do not depend on the order either. *)
Theorem GetStakedInDelegatedAccount_operator (m : staking_map) ord accs total op :
  ord ≡ₚ map_to_list m ->
  GetStakedInDelegatedAccount ord = (accs, total, op) ->
  total = f64_of_int (sum_map StakedBalance m) /\
  accs ≡ₚ map (fun kv => mk_Account (StakedBalance kv.2) (sa_Address kv.2) 0 (byte_of_Z 0) [])
              (map_to_list m) /\
  (forall a sa, m !! a = Some sa -> OperationalAccount sa = true -> StakedBalance sa <= Balance op) /\
  (op = zero_Account \/ exists a sa, m !! a = Some sa /\ OperationalAccount sa = true /\
     acc_Address op = sa_Address sa /\ Balance op = StakedBalance sa).
Proof.
  intros Hp. unfold GetStakedInDelegatedAccount. intros [= <- <- <-].
  destruct (operational_fold_max ord zero_Account) as (_ & Hmax & Hin).
  split; [by rewrite (sum_map_order StakedBalance m ord Hp)|]. split; [by rewrite Hp|]. split.
  - intros a sa Ha. rewrite Forall_forall in Hmax. apply (Hmax (a, sa)).
    rewrite Hp. by apply elem_of_map_to_list.
  - destruct Hin as [Hz | ([a sa] & Hin & Hr)]; [by left|right].
    exists a, sa. split; [|done]. by rewrite Hp, elem_of_map_to_list in Hin.
Qed.

Definition two_operators : staking_map :=
  let sa n := mk_StakingAccount 5 0 [] [] [] (arr_zero _) (sample_addr n) true ∅ in
  {[ sample_addr 1 := sa 1; sample_addr 2 := sa 2 ]}.

(** Both orders of a map with two equal stakes are legal, and they report
    different operators. *)
Lemma GetStakedInDelegatedAccount_operator_witness :
  let ord := map_to_list two_operators in
  ord ≡ₚ map_to_list two_operators /\ reverse ord ≡ₚ map_to_list two_operators /\
  acc_Address (GetStakedInDelegatedAccount ord).2 <> acc_Address (GetStakedInDelegatedAccount (reverse ord)).2 /\
  (forall a sa, two_operators !! a = Some sa -> OperationalAccount sa = true ->
     StakedBalance sa <= Balance (GetStakedInDelegatedAccount ord).2).
Proof.
  cbv zeta. split; [done|]. split; [apply reverse_Permutation|]. split.
  - vm_compute. discriminate.
  - intros a sa Ha Ho.
    destruct (GetStakedInDelegatedAccount_operator two_operators (map_to_list two_operators)
                _ _ _ (Permutation_refl _) eq_refl) as (_ & _ & Hmax & _).
    exact (Hmax a sa Ha Ho).
Defined.
