(* ===== verification/StakingCodec.v ===== *)
(** * Package account: binary format and storage of staking accounts

    Models [Marshal] and [Unmarshal] of account/stakeAccount.go and the
    per-height storage of the 256 tables in account/accountsStakingStates.go. *)
From S2P Require Import Prelude GoInt GoSlice Common Keys Database Codec Accounts Staking.

(** ** One staking account *)

(** The three lock slices are indexed together. *)
Fixpoint marshal_locks (la rpb lib : list Z) : outcome bytes :=
  match la with
  | [] => Ok []
  | a :: la =>
      match rpb, lib with
      | r :: rpb, i :: lib =>
          let! t := marshal_locks la rpb lib in
          Ok (GetByteInt64 a ++ GetByteInt64 r ++ GetByteInt64 i ++ t)
      | _, _ => Panic
      end
  end.

Definition marshal_detail (d : StakingDetail) : bytes :=
  GetByteInt64 (sd_Amount d) ++ GetByteInt64 (sd_Reward d) ++ GetByteInt64 (sd_LastUpdated d).
Definition marshal_details (key : Z) (details : list StakingDetail) : bytes :=
  GetByteInt64 key ++ GetByteInt64 (len details) ++ concat (map marshal_detail details).

(** [dord] is the order in which [range sa.StakingDetails] visits the entries. *)
Definition StakingAccount_Marshal (dord : list (Z * list StakingDetail)) (sa : StakingAccount)
    : outcome bytes :=
  let! locks := marshal_locks (LockedAmount sa) (ReleasePerBlock sa) (LockedInitBlock sa) in
  Ok (GetByteInt64 (StakedBalance sa) ++ GetByteInt64 (StakingRewards sa)
      ++ GetByteInt64 (len (LockedAmount sa)) ++ locks
      ++ DelegatedAccount sa ++ sa_Address sa ++ [BoolToByte (OperationalAccount sa)]
      ++ GetByteInt64 (Z.of_nat (size (StakingDetails sa)))
      ++ concat (map (fun kv => marshal_details kv.1 kv.2) dord)).

Definition read_lock (buf : bytes) : outcome (Z * Z * Z * bytes) :=
  let! (a, buf) := next_int64 buf in
  let! (r, buf) := next_int64 buf in
  let! (i, buf) := next_int64 buf in
  Ok (a, r, i, buf).

Definition read_detail (buf : bytes) : outcome (StakingDetail * bytes) :=
  if (length buf <? 24)%nat then Err "insufficient data for StakingDetail" else
  let! (a, buf) := next_int64 buf in
  let! (r, buf) := next_int64 buf in
  let! (u, buf) := next_int64 buf in
  Ok (mk_StakingDetail a r u, buf).

(** [make([]StakingDetail, n)] panics when the 24-byte elements do not fit the
    2^48-byte address space. *)
Definition makeslice_ok (n elem : Z) : bool := (0 <=? n) && (n * elem <=? 2 ^ 48).

Definition read_details (buf : bytes) : outcome (Z * list StakingDetail * bytes) :=
  if (length buf <? 16)%nat then Err "insufficient data for key and detail count" else
  let! (key, buf) := next_int64 buf in
  let! (detailCount, buf) := next_int64 buf in
  if negb (makeslice_ok detailCount 24) then Panic else
  let! (details, buf) := read_list read_detail (Z.to_nat detailCount) buf in
  Ok (key, details, buf).

(** The receiver is a fresh account. *)
Definition StakingAccount_Unmarshal (data : bytes) : outcome StakingAccount :=
  if (length data <? 16 + 8 + 2 * AddressLength)%nat
  then Err "insufficient data for StakedBalance and StakingRewards" else
  let! (staked, buf) := next_int64 data in
  let! (rewards, buf) := next_int64 buf in
  let! (numLocked, buf) := next_int64 buf in
  let! (locks, buf) := read_list read_lock (Z.to_nat numLocked) buf in
  let (delegated, buf) := next_array AddressLength buf in
  let (address, buf) := next_array AddressLength buf in
  let (b1, buf) := buf_next 1 buf in
  let! op := index b1 0 in
  let! (detailsCount, buf) := next_int64 buf in
  let! (m, _) := read_entries read_details (Z.to_nat detailsCount) buf ∅ in
  Ok {| StakedBalance := staked; StakingRewards := rewards;
        LockedAmount := map (fun x => x.1.1) locks;
        ReleasePerBlock := map (fun x => x.1.2) locks;
        LockedInitBlock := map (fun x => x.2) locks;
        DelegatedAccount := delegated; sa_Address := address;
        OperationalAccount := 0 <? byte_to_Z op; StakingDetails := m |}.

(** ** One table *)

Definition read_staking_entry (buf : bytes) : outcome (addr20 * StakingAccount * bytes) :=
  let! (address, buf) := read_address buf in
  let! (nb, buf) := next_be32 buf in
  let (body, buf) := buf_next (Z.to_nat nb) buf in
  match StakingAccount_Unmarshal body with
  | Ok acc => Ok (address, acc, buf)
  | Err _ => Err "failed to unmarshal account"
  | Panic => Panic
  end.

(** [ord] enumerates the table; each entry comes with the order in which its own
    details are visited. *)
Fixpoint marshal_staking_entries
    (ord : list (addr20 * (StakingAccount * list (Z * list StakingDetail)))) : outcome bytes :=
  match ord with
  | [] => Ok []
  | (address, (acc, dord)) :: ord =>
      let! accb := StakingAccount_Marshal dord acc in
      let! t := marshal_staking_entries ord in
      Ok (arr_bytes address ++ BytesToLenAndBytes accb ++ t)
  end.

Definition StakingAccountsType_Marshal
    (ord : list (addr20 * (StakingAccount * list (Z * list StakingDetail)))) (m : staking_map)
    : outcome bytes :=
  let! body := marshal_staking_entries ord in
  Ok (GetByteInt64 (Z.of_nat (size m)) ++ body).

(** The table of the receiver is replaced before the first entry is read. *)
Definition StakingAccountsType_Unmarshal (data : bytes) : ST staking_map unit := fun m0 =>
  match next_int64 data with
  | Ok (accountCount, buf) =>
      (run! decode_entries read_staking_entry (Z.to_nat accountCount) buf; st_ret tt) ∅
  | Err e => (Err e, m0)
  | Panic => (Panic, m0)
  end.

(** ** Storage by height *)

Section Storage.
Context {D : Type} `{RocksDB D}.

Definition staking_prefix (height : Z) : bytes := StakingAccountsDBPrefix ++ GetByteInt64 height.
Definition staking_key (height i : Z) : bytes := staking_prefix height ++ [byte_of_Z i].

(** Store errors are logged and the loop goes on; [visit] is the order in which
    a table and the histories of its accounts are visited. *)
Fixpoint store_tables (visit : staking_map -> list (addr20 * (StakingAccount * list (Z * list StakingDetail))))
    (height i : Z) (t : staking_tables) : ST D unit :=
  match t with
  | [] => st_ret tt
  | m :: t =>
      do! k <- st_lift (StakingAccountsType_Marshal (visit m) m);
      run! st_modify (fun db => match DB_Put db (staking_key height i) k with Ok db' => db' | _ => db end);
      store_tables visit height (i + 1) t
  end.
Definition StoreStakingAccounts (visit : staking_map -> list (addr20 * (StakingAccount * list (Z * list StakingDetail))))
    (t : staking_tables) (height : Z) : ST D unit := store_tables visit height 0 t.

Definition LastHeightStoredInStakingAccounts (db : D) (fuel : nat) : option (Z * bool) :=
  last_height_loop (fun i => staking_key i 1) db fuel 0.

(** A missing table is skipped; one that cannot be decoded ends the loop with its
    error. *)
Definition load_table (db : D) (height i : Z) : ST staking_map unit := fun m =>
  match DB_Get db (staking_key height i) with
  | Ok b => StakingAccountsType_Unmarshal b m
  | Err _ => (Ok tt, m)
  | Panic => (Panic, m)
  end.
Fixpoint load_tables (db : D) (height i : Z) (t : staking_tables) : outcome unit * staking_tables :=
  match t with
  | [] => (Ok tt, [])
  | m :: t =>
      match load_table db height i m with
      | (Ok _, m') => let (r, t') := load_tables db height (i + 1) t in (r, m' :: t')
      | (r, m') => (r, m' :: t)
      end
  end.
Definition LoadStakingAccounts (db : D) (fuel : nat) (height : Z) (t : staking_tables)
    : option (outcome unit * staking_tables) :=
  match (if height <? 0 then fst <$> LastHeightStoredInStakingAccounts db fuel else Some height) with
  | None => None
  | Some height => Some (load_tables db height 0 t)
  end.

(** [prefix = append(prefix, byte(i))] inside the loop: the prefix grows. *)
Fixpoint remove_staking_loop (prefix : bytes) (i : Z) (n : nat) : ST D unit :=
  match n with
  | O => st_ret tt
  | S n => let prefix := prefix ++ [byte_of_Z i] in
           run! db_delete prefix;
           remove_staking_loop prefix (i + 1) n
  end.
Definition RemoveStakingAccountsFromDB (height : Z) : ST D unit :=
  remove_staking_loop (staking_prefix height) 0 256.
End Storage.

(** ** Round trip *)

Definition detail_ok (d : StakingDetail) : Prop :=
  in64 (sd_Amount d) /\ in64 (sd_Reward d) /\ in64 (sd_LastUpdated d).
Definition details_ok (key : Z) (l : list StakingDetail) : Prop :=
  in64 key /\ Forall detail_ok l /\ len l * 24 <= 2 ^ 48.

(** An account whose fields are int64 values, whose lock slices have the same
    length, and whose history fits the decoder's limits. *)
Record staking_ok (sa : StakingAccount) : Prop := {
  sok_staked : in64 (StakedBalance sa);
  sok_rewards : in64 (StakingRewards sa);
  sok_la : Forall in64 (LockedAmount sa);
  sok_rpb : Forall in64 (ReleasePerBlock sa);
  sok_lib : Forall in64 (LockedInitBlock sa);
  sok_len1 : length (ReleasePerBlock sa) = length (LockedAmount sa);
  sok_len2 : length (LockedInitBlock sa) = length (LockedAmount sa);
  sok_locks : len (LockedAmount sa) < 2 ^ 63;
  sok_details : map_Forall details_ok (StakingDetails sa);
  sok_count : Z.of_nat (size (StakingDetails sa)) < 2 ^ 63
}.

Lemma marshal_locks_read la rpb lib rest :
  length rpb = length la -> length lib = length la ->
  Forall in64 la -> Forall in64 rpb -> Forall in64 lib ->
  exists locks bs, marshal_locks la rpb lib = Ok bs /\
    read_list read_lock (length la) (bs ++ rest) = Ok (locks, rest) /\
    map (fun x => x.1.1) locks = la /\ map (fun x => x.1.2) locks = rpb /\
    map (fun x => x.2) locks = lib.
Proof.
  revert rpb lib. induction la as [|a la IH]; intros [|r rpb] [|i lib] H1 H2 Ha Hr Hi; try done.
  - by exists [], [].
  - injection H1 as H1. injection H2 as H2.
    apply Forall_cons in Ha as [? ?]. apply Forall_cons in Hr as [? ?]. apply Forall_cons in Hi as [? ?].
    destruct (IH rpb lib) as (locks & bs & Hm & Hrd & ? & ? & ?); try done.
    exists ((a, r, i) :: locks). eexists. cbn [marshal_locks]. rewrite Hm. cbn [obind].
    split; [reflexivity|]. cbn [length read_list]. unfold read_lock at 1. rewrite <- !app_assoc.
    do 3 (rewrite next_int64_app by done; cbn [obind]). rewrite Hrd. cbn [obind map fst snd].
    repeat split; by f_equal.
Qed.

Lemma read_detail_app d rest : detail_ok d -> read_detail (marshal_detail d ++ rest) = Ok (d, rest).
Proof.
  intros (Ha & Hr & Hu). unfold read_detail, marshal_detail.
  replace (_ <? 24)%nat with false
    by (symmetry; apply Nat.ltb_ge; rewrite !length_app, !GetByteInt64_length; lia).
  rewrite <- !app_assoc. do 3 (rewrite next_int64_app by done; cbn [obind]). by destruct d.
Qed.

Lemma read_details_app k l rest :
  details_ok k l -> read_details (marshal_details k l ++ rest) = Ok (k, l, rest).
Proof.
  intros (Hk & Hl & Hn). unfold read_details, marshal_details.
  replace (_ <? 16)%nat with false
    by (symmetry; apply Nat.ltb_ge; rewrite !length_app, !GetByteInt64_length; lia).
  assert (in64 (len l)) by (unfold in64, len in *; lia).
  rewrite <- !app_assoc. do 2 (rewrite next_int64_app by done; cbn [obind]).
  unfold makeslice_ok, len in *.
  replace (0 <=? _) with true by (symmetry; apply Z.leb_le; lia).
  replace (_ <=? 2 ^ 48) with true by (symmetry; apply Z.leb_le; lia). cbn [andb negb].
  rewrite Nat2Z.id, read_list_app; [done|].
  intros x rest' Hx. apply read_detail_app. rewrite Forall_forall in Hl. by apply Hl.
Qed.

Lemma StakingAccount_roundtrip sa dord :
  staking_ok sa -> enumerates dord (StakingDetails sa) ->
  exists bs, StakingAccount_Marshal dord sa = Ok bs /\ StakingAccount_Unmarshal bs = Ok sa.
Proof.
  intros [] Hd. unfold StakingAccount_Marshal, StakingAccount_Unmarshal.
  set (tl := arr_bytes (DelegatedAccount sa) ++ arr_bytes (sa_Address sa)
             ++ [BoolToByte (OperationalAccount sa)]
             ++ GetByteInt64 (Z.of_nat (size (StakingDetails sa)))
             ++ concat (map (fun kv => marshal_details kv.1 kv.2) dord)).
  destruct (marshal_locks_read (LockedAmount sa) (ReleasePerBlock sa) (LockedInitBlock sa) tl)
    as (locks & bs & Hm & Hrd & E1 & E2 & E3); try done.
  rewrite Hm. cbn [obind]. eexists. split; [reflexivity|].
  replace (_ <? _)%nat with false
    by (symmetry; apply Nat.ltb_ge; unfold tl; rewrite !length_app, !GetByteInt64_length, !arr_length;
        change AddressLength with 20%nat; lia).
  do 3 (rewrite next_int64_app by (done || (unfold in64, len in *; lia)); cbn [obind]).
  unfold len. rewrite Nat2Z.id, Hrd. cbn [obind]. unfold tl.
  rewrite next_array_app. rewrite next_array_app.
  rewrite buf_next_app by done. cbn [index Z.ltb Z.compare]. cbn iota. cbn [obind].
  change (index [BoolToByte (OperationalAccount sa)] 0) with (Ok (BoolToByte (OperationalAccount sa))).
  cbn [obind]. rewrite next_int64_app by (unfold in64; lia). cbn [obind].
  rewrite Nat2Z.id, <- (enumerates_length _ _ Hd).
  rewrite <- (app_nil_r (concat _)), (read_entries_app _ marshal_details).
  - cbn [obind]. rewrite (insert_all_enumerates _ _ Hd), E1, E2, E3.
    by destruct sa as [? ? ? ? ? ? ? [] ?].
  - intros k v rest Hin. apply read_details_app. eapply sok_details0.
    by eapply enumerates_elem.
Qed.

(** ** A table, and the 256 tables *)

Definition entry_ok (kv : addr20 * (StakingAccount * list (Z * list StakingDetail))) : Prop :=
  staking_ok kv.2.1 /\ enumerates kv.2.2 (StakingDetails kv.2.1) /\
  forall bs, StakingAccount_Marshal kv.2.2 kv.2.1 = Ok bs -> short bs.

Lemma read_staking_entry_app a sa bs rest :
  short bs -> StakingAccount_Unmarshal bs = Ok sa ->
  read_staking_entry (arr_bytes a ++ BytesToLenAndBytes bs ++ rest) = Ok (a, sa, rest).
Proof.
  intros Hs Hu. unfold read_staking_entry. rewrite read_address_app. cbn [obind].
  rewrite next_be32_app by done. cbn [obind]. rewrite Nat2Z.id, buf_next_app by done. by rewrite Hu.
Qed.

Lemma marshal_staking_entries_read ord rest m0 :
  Forall entry_ok ord ->
  exists bs, marshal_staking_entries ord = Ok bs /\
    read_entries read_staking_entry (length ord) (bs ++ rest) m0
    = Ok (insert_all (map (fun kv => (kv.1, kv.2.1)) ord) m0, rest).
Proof.
  revert m0. induction ord as [|[a [sa dord]] ord IH]; intros m0 Hok; [by exists []|].
  apply Forall_cons in Hok as [(Hsa & Hd & Hsh) Hok]. cbn in Hsa, Hd, Hsh.
  destruct (StakingAccount_roundtrip sa dord Hsa Hd) as (b1 & Hm & Hu).
  destruct (IH (<[a := sa]> m0) Hok) as (b2 & Hm2 & Hr).
  cbn [marshal_staking_entries]. rewrite Hm, Hm2. cbn [obind]. eexists. split; [reflexivity|].
  cbn [length read_entries map fst snd]. rewrite <- !app_assoc.
  rewrite (read_staking_entry_app a sa b1) by auto. cbn [obind]. exact Hr.
Qed.

(** [ord] visits every account of [m] once, with an order for its history. *)
Definition table_order (ord : list (addr20 * (StakingAccount * list (Z * list StakingDetail))))
    (m : staking_map) : Prop :=
  enumerates (map (fun kv => (kv.1, kv.2.1)) ord) m /\ Forall entry_ok ord.

(** a table of staking accounts is read back from its binary format, locks
    and histories included, whatever the orders in which the map of accounts and
    their histories were visited when it was written. *)
Theorem StakingAccountsType_roundtrip ord (m : staking_map) :
  table_order ord m -> Z.of_nat (size m) < 2 ^ 63 ->
  exists bs, StakingAccountsType_Marshal ord m = Ok bs /\
             forall m0, StakingAccountsType_Unmarshal bs m0 = (Ok tt, m).
Proof.
  intros [He Hok] Hs. unfold StakingAccountsType_Marshal, StakingAccountsType_Unmarshal.
  destruct (marshal_staking_entries_read ord [] ∅ Hok) as (bs & Hm & Hr).
  rewrite Hm. cbn [obind]. eexists. split; [reflexivity|]. intros m0.
  rewrite next_int64_app by (unfold in64; lia).
  rewrite Nat2Z.id, <- (enumerates_length _ _ He), length_map.
  rewrite app_nil_r in Hr. apply decode_entries_read in Hr. unfold st_bind. rewrite Hr.
  by rewrite (insert_all_enumerates _ _ He).
Qed.

Section StorageFacts.
Context {D : Type} `{RocksDBLaws D}.

Lemma staking_key_length h i : length (staking_key h i) = 11%nat.
Proof. unfold staking_key, staking_prefix. by rewrite !length_app, GetByteInt64_length. Qed.
Lemma staking_prefix_length h : length (staking_prefix h) = 10%nat.
Proof. unfold staking_prefix. by rewrite length_app, GetByteInt64_length. Qed.

Lemma db_delete_inv k db db' : db_delete k db = (Ok tt, db') -> DB_Delete db k = Ok db'.
Proof. unfold db_delete. destruct (DB_Delete db k); by intros [= <-]. Qed.

(** Every key deleted with a longer prefix is longer than [k]. *)
Lemma remove_staking_loop_longer n : forall db prefix i db' k,
  (length k <= length prefix)%nat ->
  remove_staking_loop prefix i n db = (Ok tt, db') -> DB_Get db' k = DB_Get db k.
Proof.
  induction n as [|n IH]; intros db prefix i db' k Hk Hr; cbn [remove_staking_loop] in Hr; [by injection Hr as <-|].
  apply st_bind_ok_inv in Hr as ([] & db1 & Hd & Hr).
  rewrite (IH _ _ _ _ k) with (2 := Hr) by (rewrite length_app; cbn; lia).
  eapply DB_Get_Delete_ne; [exact (db_delete_inv _ _ _ Hd)|]. intros <-. rewrite length_app in Hk. cbn in Hk. lia.
Qed.

Lemma remove_staking_loop_S prefix i n :
  remove_staking_loop (D := D) prefix i (S n) =
  (run! db_delete (prefix ++ [byte_of_Z i]); remove_staking_loop (prefix ++ [byte_of_Z i]) (i + 1) n).
Proof. done. Qed.
End StorageFacts.

(** Removing the staking tables of a height deletes only table 0: the
    tables 1 to 255 stored at that height are still there. *)
Theorem RemoveStakingAccountsFromDB_keeps_tables {D : Type} `{RocksDBLaws D} (db db' : D) h i :
  1 <= i < 256 -> RemoveStakingAccountsFromDB h db = (Ok tt, db') ->
  DB_Get db' (staking_key h i) = DB_Get db (staking_key h i) /\
  DB_Get db' (staking_key h 0) = Err "key not found".
Proof.
  intros Hi. unfold RemoveStakingAccountsFromDB.
  change 256%nat with (S 255). generalize 255%nat as n. intros n.
  rewrite remove_staking_loop_S. intros Hr. apply st_bind_ok_inv in Hr as ([] & db1 & Hd & Hr).
  apply db_delete_inv in Hd.
  pose proof (fun k Hk => remove_staking_loop_longer n db1 _ _ db' k Hk Hr) as Hkeep.
  rewrite !Hkeep by (rewrite staking_key_length, length_app, staking_prefix_length; cbn; lia).
  split; [|by eapply DB_Get_Delete_eq].
  eapply DB_Get_Delete_ne; [done|]. unfold staking_key. intros E%app_inv_head. injection E as E.
  apply (f_equal byte_to_Z) in E. rewrite !byte_to_of_Z in E. rewrite !Z.mod_small in E by lia. lia.
Qed.

Definition stored_tables : gmap bytes bytes :=
  snd (StoreStakingAccounts (fun _ => []) (replicate 256 ∅) 4 ∅).
Definition removed_tables : gmap bytes bytes := snd (RemoveStakingAccountsFromDB 4 stored_tables).

Lemma RemoveStakingAccountsFromDB_keeps_tables_witness :
  DB_Get removed_tables (staking_key 4 1) = DB_Get stored_tables (staking_key 4 1) /\
  DB_Get removed_tables (staking_key 4 0) = Err "key not found".
Proof.
  apply (RemoveStakingAccountsFromDB_keeps_tables stored_tables removed_tables 4 1); [lia|].
  vm_cast_no_check (eq_refl (@Ok unit tt, removed_tables)).
Defined.

Definition sample_staker : StakingAccount :=
  mk_StakingAccount 500 3 [100] [10] [4] (sample_addr 9) (sample_addr 1) true
    {[ 4 := [mk_StakingDetail 500 0 1700000000] ]}.
Definition sample_stakes : staking_map := {[ sample_addr 1 := sample_staker ]}.
Definition sample_order : list (addr20 * (StakingAccount * list (Z * list StakingDetail))) :=
  [(sample_addr 1, (sample_staker, [(4, [mk_StakingDetail 500 0 1700000000])]))].

Lemma sample_staker_ok : staking_ok sample_staker.
Proof.
  split.
  1-2: by vm_compute.
  1-3: apply Forall_singleton; by vm_compute.
  1-3: by vm_compute.
  - apply map_Forall_singleton. split; [by vm_compute|].
    split; [apply Forall_singleton; repeat split; by vm_compute|by vm_compute].
  - by vm_compute.
Qed.

Lemma sample_table_order : table_order sample_order sample_stakes.
Proof.
  split; [unfold enumerates, sample_stakes; by rewrite map_to_list_singleton|].
  apply Forall_singleton. split; [exact sample_staker_ok|]. split.
  - unfold enumerates, sample_order, sample_staker. cbn [fst snd StakingDetails].
    by rewrite map_to_list_singleton.
  - intros bs E. vm_compute in E. injection E as <-. by vm_compute.
Qed.

Lemma StakingAccountsType_roundtrip_witness :
  exists bs, StakingAccountsType_Marshal sample_order sample_stakes = Ok bs /\
             forall m0, StakingAccountsType_Unmarshal bs m0 = (Ok tt, sample_stakes).
Proof. apply (StakingAccountsType_roundtrip _ _ sample_table_order). by vm_compute. Defined.
