(* ===== verification/Dex.v ===== *)
(** * Package account: DEX accounts

    Models account/dexAccount.go and account/accountsDexStates.go: the pools of
    a token, the balances held in them, their binary format and storage. *)
From S2P Require Import Prelude GoInt GoSlice Sums Common Keys Database Codec Accounts.

Record CoinTokenDetails := mk_CoinTokenDetails { CoinBalance : Z; TokenBalance : Z }.

Record DexAccount := mk_DexAccount {
  Balances : gmap addr20 CoinTokenDetails;
  CoinPool : Z;
  TokenPool : Z;
  TokenPrice : Z;
  TokenAddress : Address
}.
Definition zero_DexAccount : DexAccount := mk_DexAccount ∅ 0 0 0 zero_Address.

Abbreviation dex_map := (gmap addr20 DexAccount).

Definition GetDexAccountByAddressBytes (m : dex_map) (address : bytes) : outcome DexAccount :=
  let! p := slice_to address (Z.of_nat AddressLength) in
  Ok (default zero_DexAccount (m !! arr_of AddressLength p)).
Definition SetDexAccountByAddressBytes (m : dex_map) (address : bytes) (acc : DexAccount)
    : outcome dex_map :=
  let! p := slice_to address (Z.of_nat AddressLength) in
  Ok (<[arr_of AddressLength p := acc]> m).

Definition GetCoinLiquidityInDex (m : dex_map) : Z := sum_map CoinPool m.

(** ** Binary format of one account *)

Definition CoinTokenDetails_Marshal (ctb : CoinTokenDetails) : bytes :=
  GetByteInt64 (CoinBalance ctb) ++ GetByteInt64 (TokenBalance ctb).

Definition CoinTokenDetails_Unmarshal (b : bytes) : outcome CoinTokenDetails :=
  let! h := slice_to b 8 in
  let! c := GetInt64FromByte h in
  let! h := slice b 8 16 in
  let! t := GetInt64FromByte h in
  Ok (mk_CoinTokenDetails c t).

(** [ord] is the order in which [range da.Balances] visits the entries. *)
Definition DexAccount_Marshal (ord : list (addr20 * CoinTokenDetails)) (da : DexAccount) : bytes :=
  GetByteInt64 (CoinPool da) ++ GetByteInt64 (TokenPool da) ++ GetByteInt64 (TokenPrice da)
  ++ Address_GetBytes (TokenAddress da)
  ++ GetByteInt64 (Z.of_nat (size (Balances da)))
  ++ concat (map (fun kv => arr_bytes kv.1 ++ CoinTokenDetails_Marshal kv.2) ord).

Definition read_balance (buf : bytes) : outcome (addr20 * CoinTokenDetails * bytes) :=
  if (length buf <? 16 + AddressLength)%nat
  then Err "insufficient data for key and detail count" else
  let (addr, buf) := next_array AddressLength buf in
  let (h, buf) := buf_next 16 buf in
  let! details := CoinTokenDetails_Unmarshal h in
  Ok (addr, details, buf).

(** The receiver is a fresh account; the [Primary] flag of the token address is
    not written and stays false. *)
Definition DexAccount_Unmarshal (data : bytes) : outcome DexAccount :=
  if (length data <? 8 * 3 + AddressLength)%nat
  then Err "insufficient data for dex accounts unmarshaling" else
  let! (coinPool, buf) := next_int64 data in
  let! (tokenPool, buf) := next_int64 buf in
  let! (tokenPrice, buf) := next_int64 buf in
  let (token, buf) := next_array AddressLength buf in
  let! (detailsCount, buf) := next_int64 buf in
  let! (m, _) := read_entries read_balance (Z.to_nat detailsCount) buf ∅ in
  Ok (mk_DexAccount m coinPool tokenPool tokenPrice (mk_Address token false)).

(** ** Binary format of the table *)

(** Each account comes with the order in which its balances are visited. *)
Definition DexAccountsType_Marshal
    (ord : list (addr20 * (DexAccount * list (addr20 * CoinTokenDetails)))) (m : dex_map) : bytes :=
  GetByteInt64 (Z.of_nat (size m))
  ++ concat (map (fun kv => arr_bytes kv.1
       ++ BytesToLenAndBytes (DexAccount_Marshal kv.2.2 kv.2.1)) ord).

(** The length was written big-endian and is read little-endian.
    [buffer.Next(n)] panics when [n] is negative. *)
Definition read_dex_entry (buf : bytes) : outcome (addr20 * DexAccount * bytes) :=
  let! (address, buf) := read_address buf in
  let (h, buf) := buf_next 4 buf in
  let! nb := GetInt32FromByte h in
  if nb <? 0 then Panic else
  let (body, buf) := buf_next (Z.to_nat nb) buf in
  match DexAccount_Unmarshal body with
  | Ok acc => Ok (address, acc, buf)
  | Err _ => Err "failed to unmarshal account"
  | Panic => Panic
  end.

Definition DexAccountsType_Unmarshal (data : bytes) : outcome dex_map :=
  let! (accountCount, buf) := next_int64 data in
  let! (m, _) := read_entries read_dex_entry (Z.to_nat accountCount) buf ∅ in
  Ok m.

(** ** Storage by height *)

Section Storage.
Context {D : Type} `{RocksDB D}.

Definition dex_key (height : Z) : bytes := DexAccountsDBPrefix ++ GetByteInt64 height.

(** A failed write is only logged. *)
Definition StoreDexAccounts (db : D)
    (ord : list (addr20 * (DexAccount * list (addr20 * CoinTokenDetails)))) (m : dex_map)
    (height : Z) : outcome D :=
  match DB_Put db (dex_key height) (DexAccountsType_Marshal ord m) with
  | Ok db' => Ok db'
  | Err _ => Ok db
  | Panic => Panic
  end.

Definition RemoveDexAccountsFromDB (db : D) (height : Z) : outcome D := DB_Delete db (dex_key height).

Definition LastHeightStoredInDexAccounts (db : D) (fuel : nat) : option (Z * bool) :=
  last_height_loop dex_key db fuel 0.

Definition LoadDexAccounts (db : D) (fuel : nat) (height : Z) : option (outcome dex_map) :=
  match (if height <? 0 then fst <$> LastHeightStoredInDexAccounts db fuel else Some height) with
  | None => None
  | Some height => Some (let! b := DB_Get db (dex_key height) in DexAccountsType_Unmarshal b)
  end.
End Storage.

(** ** Round trips *)

Record dex_ok (da : DexAccount) : Prop := {
  dok_coin : in64 (CoinPool da);
  dok_token : in64 (TokenPool da);
  dok_price : in64 (TokenPrice da);
  dok_flag : addr_Primary (TokenAddress da) = false;
  dok_balances : map_Forall (fun _ d => in64 (CoinBalance d) /\ in64 (TokenBalance d)) (Balances da);
  dok_size : Z.of_nat (size (Balances da)) < 2 ^ 63
}.

Lemma CoinTokenDetails_roundtrip d :
  in64 (CoinBalance d) -> in64 (TokenBalance d) ->
  CoinTokenDetails_Unmarshal (CoinTokenDetails_Marshal d) = Ok d.
Proof.
  intros Hc Ht. unfold CoinTokenDetails_Unmarshal, CoinTokenDetails_Marshal.
  rewrite slice_prefix by (by rewrite GetByteInt64_length). cbn [obind].
  rewrite GetInt64FromByte_exact by done. cbn [obind].
  rewrite <- (app_nil_r (GetByteInt64 (TokenBalance d))).
  rewrite slice_app_exact by (by rewrite ?GetByteInt64_length). cbn [obind].
  rewrite GetInt64FromByte_exact by done. by destruct d.
Qed.

Lemma read_balance_app k d rest :
  in64 (CoinBalance d) -> in64 (TokenBalance d) ->
  read_balance ((arr_bytes k ++ CoinTokenDetails_Marshal d) ++ rest) = Ok (k, d, rest).
Proof.
  intros Hc Ht. unfold read_balance.
  assert (length (CoinTokenDetails_Marshal d) = 16%nat) as Hl
    by (unfold CoinTokenDetails_Marshal; by rewrite length_app, !GetByteInt64_length).
  replace (_ <? _)%nat with false
    by (symmetry; apply Nat.ltb_ge; rewrite !length_app, Hl, (arr_length k); lia).
  rewrite <- app_assoc, next_array_app, buf_next_app by done.
  by rewrite CoinTokenDetails_roundtrip.
Qed.

Lemma DexAccount_roundtrip da ord rest :
  dex_ok da -> enumerates ord (Balances da) ->
  DexAccount_Unmarshal (DexAccount_Marshal ord da ++ rest) = Ok da.
Proof.
  intros [] Ho. unfold DexAccount_Unmarshal, DexAccount_Marshal.
  rewrite <- !app_assoc.
  replace (_ <? _)%nat with false
    by (symmetry; apply Nat.ltb_ge; rewrite !length_app, !GetByteInt64_length, Address_GetBytes_length;
        change AddressLength with 20%nat; lia).
  do 3 (rewrite next_int64_app by done; cbn [obind]).
  unfold Address_GetBytes. rewrite next_array_app.
  rewrite next_int64_app by (unfold in64; lia). cbn [obind].
  rewrite Nat2Z.id, <- (enumerates_length _ _ Ho).
  rewrite (read_entries_app _ (fun k d => arr_bytes k ++ CoinTokenDetails_Marshal d)).
  - cbn [obind]. rewrite (insert_all_enumerates _ _ Ho).
    destruct da as [? ? ? ? [? ?]]; cbn in *. by subst.
  - intros k d r Hin. apply read_balance_app; by eapply (dok_balances0 k), enumerates_elem.
Qed.

Lemma DexAccount_Marshal_length ord da :
  enumerates ord (Balances da) ->
  length (DexAccount_Marshal ord da) = (52 + 36 * size (Balances da))%nat.
Proof.
  intros Ho. unfold DexAccount_Marshal.
  rewrite !length_app, !GetByteInt64_length, Address_GetBytes_length.
  rewrite <- (enumerates_length _ _ Ho), (concat_map_length_const _ 36).
  - change AddressLength with 20%nat. lia.
  - intros x. rewrite length_app, (arr_length x.1). unfold CoinTokenDetails_Marshal.
    by rewrite length_app, !GetByteInt64_length.
Qed.

(** The big-endian length [n < 128] reads back as [n * 2^24]. *)
Lemma GetInt32FromByte_be n : 0 <= n < 128 -> GetInt32FromByte (be_bytes 4 n) = Ok (n * 2 ^ 24).
Proof.
  intros Hn. rewrite be_bytes_4_small by lia. unfold GetInt32FromByte. cbn.
  rewrite byte_to_of_Z, Z.mod_small by lia. f_equal.
  rewrite i32_id by (unfold in32; lia). lia.
Qed.

(** An account with at most two balances is read from the whole rest of the
    buffer, whatever follows it. *)
Lemma read_dex_entry_takes_all a da ord rest :
  dex_ok da -> enumerates ord (Balances da) -> (size (Balances da) <= 2)%nat ->
  Z.of_nat (length rest) < 2 ^ 29 ->
  read_dex_entry (arr_bytes a ++ BytesToLenAndBytes (DexAccount_Marshal ord da) ++ rest)
  = Ok (a, da, []).
Proof.
  intros Hok Ho Hs Hr. pose proof (DexAccount_Marshal_length ord da Ho) as Hl.
  set (body := DexAccount_Marshal ord da) in *.
  unfold read_dex_entry. rewrite read_address_app. cbn [obind].
  assert (short body) as Hsh by (unfold short; lia).
  unfold BytesToLenAndBytes. rewrite BytesToLenAndBytes_header by done.
  rewrite <- app_assoc, buf_next_app by apply length_be_bytes.
  rewrite GetInt32FromByte_be by lia. cbn [obind].
  replace (_ <? 0) with false by (symmetry; apply Z.ltb_ge; lia).
  unfold buf_next. rewrite firstn_all2, skipn_all2 by (rewrite length_app; lia).
  unfold body. by rewrite DexAccount_roundtrip.
Qed.

(** the length of an account is written big-endian and read back
    little-endian, so the first account swallows the rest of the table and the
    second one cannot be read: a DEX table with two or more accounts, the first
    visited one with at most two balances, never decodes. *)
Theorem DexAccountsType_two_accounts_unreadable (m : dex_map) a da ord1 e ord :
  dex_ok da -> enumerates ord1 (Balances da) -> (size (Balances da) <= 2)%nat ->
  enumerates (map (fun kv => (kv.1, kv.2.1)) ((a, (da, ord1)) :: e :: ord)) m ->
  Z.of_nat (length (DexAccountsType_Marshal ((a, (da, ord1)) :: e :: ord) m)) < 2 ^ 29 ->
  DexAccountsType_Unmarshal (DexAccountsType_Marshal ((a, (da, ord1)) :: e :: ord) m)
  = Err "failed to read address".
Proof.
  intros Hok Ho Hs He. pose proof (enumerates_length _ _ He) as Hsz. rewrite length_map in Hsz.
  unfold DexAccountsType_Unmarshal, DexAccountsType_Marshal. cbn [map concat fst snd].
  set (rest := concat _). set (e1 := arr_bytes e.1 ++ _). rewrite !length_app, GetByteInt64_length.
  intros Hlen. cbn [length] in Hsz.
  assert (length ord <= length rest)%nat as Hge
    by (apply concat_map_length_ge; intros x; rewrite length_app, (arr_length x.1);
        change AddressLength with 20%nat; lia).
  rewrite <- Hsz. rewrite next_int64_app by (unfold in64; lia). cbn [obind].
  rewrite Nat2Z.id. cbn [read_entries]. rewrite <- !app_assoc.
  rewrite read_dex_entry_takes_all by (done || (rewrite length_app; lia)). done.
Qed.

Definition sample_dex (n : Z) : DexAccount :=
  mk_DexAccount {[ sample_addr 7 := mk_CoinTokenDetails 3 4 ]} n 20 2 (mk_Address (sample_addr n) false).
Definition sample_dex_order :=
  let o := [(sample_addr 7, mk_CoinTokenDetails 3 4)] in
  [(sample_addr 1, (sample_dex 1, o)); (sample_addr 2, (sample_dex 2, o))].
Definition sample_dex_table : dex_map :=
  {[ sample_addr 1 := sample_dex 1; sample_addr 2 := sample_dex 2 ]}.

Lemma sample_dex_ok : dex_ok (sample_dex 1).
Proof.
  split.
  1-4: by vm_compute.
  - apply map_Forall_singleton. split; by vm_compute.
  - by vm_compute.
Qed.

Lemma DexAccountsType_two_accounts_unreadable_witness :
  DexAccountsType_Unmarshal (DexAccountsType_Marshal sample_dex_order sample_dex_table)
  = Err "failed to read address".
Proof.
  apply DexAccountsType_two_accounts_unreadable.
  - exact sample_dex_ok.
  - unfold enumerates, sample_dex. cbn [Balances]. by rewrite map_to_list_singleton.
  - vm_compute; lia.
  - unfold enumerates, sample_dex_table. cbn [map fst snd].
    rewrite map_to_list_insert by (by vm_compute). by rewrite map_to_list_singleton.
  - by vm_compute.
Defined.
