(* ===== verification/EncScheme.v ===== *)
(** * Package oqs: descriptions of signature schemes

    Models crypto/oqs/encryptSchemes.go: the 33-byte description of a scheme, its
    decoder, and the check of a description against the liboqs library, which is
    the class [OqsLib]. *)
From S2P Require Import Prelude GoInt GoSlice Common Keys Codec.

Definition sigNameLength : nat := 20.
Definition totalLength : nat := 33.

Record ConfigEnc := mk_ConfigEnc {
  ce_PubKeyLength : Z; ce_PrivateKeyLength : Z; ce_SignatureLength : Z;
  ce_SigName : string; ce_IsPaused : bool
}.
Definition zero_ConfigEnc : ConfigEnc := mk_ConfigEnc 0 0 0 "" false.

Definition NewConfigEnc1 : ConfigEnc := mk_ConfigEnc 897 1281 752 "Falcon-512" false.
Definition NewConfigEnc2 : ConfigEnc := mk_ConfigEnc 5554 40 964 "MAYO-5" false.

Definition CreateEncryptionScheme (sigName : string) (pkl prl sgl : Z) (isPaused : bool) : ConfigEnc :=
  mk_ConfigEnc pkl prl sgl sigName isPaused.

(** What the node uses of liboqs: the lengths of an enabled scheme, the length of
    a public key it generates, and signature verification. *)
Class OqsLib := {
  oqs_Details : string -> option (Z * Z * Z);
  oqs_GenerateKeyPair : string -> option Z;
  oqs_Verify : string -> bytes -> bytes -> bytes -> option bool
}.

Definition VerifyEncConfig `{OqsLib} (c : ConfigEnc) : bool :=
  match oqs_Details (ce_SigName c) with
  | None => false
  | Some (pk, sk, sg) =>
      match oqs_GenerateKeyPair (ce_SigName c) with
      | None => false
      | Some n => negb (ce_PubKeyLength c <? n) && (pk =? ce_PubKeyLength c)
                  && (sk =? ce_PrivateKeyLength c) && (sg =? ce_SignatureLength c)
      end
  end.

Definition GenerateEncConfig `{OqsLib} (sigName : string) : outcome ConfigEnc :=
  match oqs_Details sigName with
  | None => Err "scheme not enabled"
  | Some (pk, sk, sg) => Ok (CreateEncryptionScheme sigName pk sk sg false)
  end.

(** wallet/wallet.go [Verify]: the first byte of the signature selects the
    scheme; an empty signature panics. *)
Definition verify_with `{OqsLib} (name : string) (msg sig pubkey : bytes) : bool :=
  match oqs_Details name with
  | None => false
  | Some (pk, _, _) =>
      if pk =? len pubkey
      then match oqs_Verify name msg sig pubkey with Some b => b | None => false end
      else false
  end.
Definition Verify `{OqsLib} (ec : EncryptionConfig) (msg sig pubkey : bytes) : outcome bool :=
  let! b0 := index sig 0 in
  let! sig := slice_from sig 1 in
  Ok (if (byte_to_Z b0 =? 0) && negb (IsPaused ec) then verify_with (sigName ec) msg sig pubkey
      else if negb (byte_to_Z b0 =? 0) && negb (IsPaused2 ec)
      then verify_with (sigName2 ec) msg sig pubkey else false).

(** ** The binary description *)

(** [bytes.Trim(b, "\x00")] *)
Definition TrimZeroes (b : bytes) : bytes := TrimRightZeroes (TrimLeftZeroes b).

(** [binary.Read(reader, binary.LittleEndian, &int32)] *)
Definition next_int32 (buf : bytes) : outcome (Z * bytes) :=
  let (h, buf') := buf_next 4 buf in
  let! z := GetInt32FromByte h in Ok (z, buf').

Definition GenerateParamsEncryptionSchemesFromBytes (bb : bytes)
    : outcome (string * Z * Z * Z * bool) :=
  if (length bb <? totalLength)%nat then Err "invalid byte slice length" else
  let (sigNameBytes, reader) := buf_next sigNameLength bb in
  let sigName := String.string_of_list_byte (TrimZeroes sigNameBytes) in
  let! (pkl, reader) := next_int32 reader in
  let! (prl, reader) := next_int32 reader in
  let! (sgl, reader) := next_int32 reader in
  let! isPausedByte := index reader 0 in
  Ok (sigName, pkl, prl, sgl, negb (byte_to_Z isPausedByte =? 0)).

Definition GenerateBytesFromParams (sigName : string) (pkl prl sgl : Z) (isPaused : bool) : bytes :=
  copy_bytes sigNameLength (zeros sigNameLength) (String.list_byte_of_string sigName)
  ++ GetByteInt32 (i32 pkl) ++ GetByteInt32 (i32 prl) ++ GetByteInt32 (i32 sgl)
  ++ [if isPaused then byte_of_Z 1 else byte_of_Z 0].

Definition FromBytesToEncryptionConfig `{OqsLib} (bb : bytes) : outcome ConfigEnc :=
  let! (sigName, pkl, prl, sgl, isPaused) := GenerateParamsEncryptionSchemesFromBytes bb in
  if String.eqb sigName "" then Ok zero_ConfigEnc else
  let c := CreateEncryptionScheme sigName pkl prl sgl isPaused in
  if VerifyEncConfig c then Ok c else Err "encryption scheme is invalid".

(** ** Trimming a padded name *)

Definition no_nul (b : bytes) : Prop := Forall (fun x => byte_to_Z x <> 0) b.

Lemma TrimLeftZeroes_id b s : byte_to_Z b <> 0 -> TrimLeftZeroes (b :: s) = b :: s.
Proof. intros H. cbn. by rewrite (proj2 (Z.eqb_neq _ _) H). Qed.

Lemma trim_right_zeros s n k :
  (k <= n)%nat -> trim_right_idx (s ++ zeros n) (length s + k) = trim_right_idx (s ++ zeros n) (length s).
Proof.
  induction k as [|k IH]; intros Hk; [by rewrite Nat.add_0_r|].
  rewrite <- IH by lia. replace (length s + S k)%nat with (S (length s + k)) by lia.
  cbn [trim_right_idx]. rewrite lookup_app_r by lia.
  replace (length s + k - length s)%nat with k by lia.
  unfold zeros. by rewrite (lookup_replicate_2 n) by lia.
Qed.

Lemma TrimRightZeroes_pad s b n :
  byte_to_Z b <> 0 -> TrimRightZeroes ((s ++ [b]) ++ zeros n) = s ++ [b].
Proof.
  intros Hb. unfold TrimRightZeroes. rewrite (length_app _ (zeros n)), zeros_length, trim_right_zeros by lia.
  rewrite length_app. cbn [length]. rewrite Nat.add_1_r. cbn [trim_right_idx].
  rewrite lookup_app_l by (rewrite length_app; cbn; lia). rewrite lookup_app_r by lia.
  rewrite Nat.sub_diag. cbn [lookup list_lookup]. rewrite (proj2 (Z.eqb_neq _ _) Hb).
  by rewrite take_app_length' by (rewrite length_app; cbn; lia).
Qed.

Lemma TrimZeroes_pad s n : s <> [] -> no_nul s -> TrimZeroes (s ++ zeros n) = s.
Proof.
  intros Hne Hs. unfold TrimZeroes. destruct s as [|b s]; [done|].
  apply Forall_cons in Hs as Hb. destruct Hb as [Hb _]. cbn [app].
  rewrite TrimLeftZeroes_id by done.
  destruct (exists_last Hne) as (s' & b' & E). rewrite E in *.
  change (b :: s ++ zeros n) with ((b :: s) ++ zeros n). rewrite E. apply TrimRightZeroes_pad.
  apply Forall_app in Hs as [_ Hs]. by apply Forall_cons in Hs as [? _].
Qed.

(** ** Round trip *)

Lemma next_int32_app z rest : in32 z -> next_int32 (GetByteInt32 (i32 z) ++ rest) = Ok (z, rest).
Proof.
  intros Hz. rewrite i32_id by done. unfold next_int32.
  rewrite buf_next_app by apply GetByteInt32_length. by rewrite GetInt32FromByte_exact.
Qed.

(** Descriptions the 33 bytes can carry. *)
Record enc_ok (c : ConfigEnc) : Prop := {
  eok_name : String.list_byte_of_string (ce_SigName c) <> [];
  eok_short : (String.length (ce_SigName c) <= 20)%nat;
  eok_nul : no_nul (String.list_byte_of_string (ce_SigName c));
  eok_pk : in32 (ce_PubKeyLength c);
  eok_sk : in32 (ce_PrivateKeyLength c);
  eok_sg : in32 (ce_SignatureLength c)
}.

Lemma length_list_byte_of_string s : length (String.list_byte_of_string s) = String.length s.
Proof. induction s as [|a s IH]; [done|]. cbn. f_equal. exact IH. Qed.

Lemma GenerateBytes_length name pkl prl sgl p :
  length (GenerateBytesFromParams name pkl prl sgl p) = totalLength.
Proof.
  unfold GenerateBytesFromParams.
  by rewrite !length_app, !GetByteInt32_length, copy_bytes_length by apply zeros_length.
Qed.

Lemma Generate_roundtrip c :
  enc_ok c ->
  GenerateParamsEncryptionSchemesFromBytes
    (GenerateBytesFromParams (ce_SigName c) (ce_PubKeyLength c) (ce_PrivateKeyLength c)
       (ce_SignatureLength c) (ce_IsPaused c))
  = Ok (ce_SigName c, ce_PubKeyLength c, ce_PrivateKeyLength c, ce_SignatureLength c, ce_IsPaused c).
Proof.
  intros []. unfold GenerateParamsEncryptionSchemesFromBytes. rewrite GenerateBytes_length.
  cbn [Nat.ltb Nat.leb totalLength]. unfold GenerateBytesFromParams.
  rewrite buf_next_app by (apply copy_bytes_length, zeros_length).
  rewrite !next_int32_app by done. cbn [obind].
  rewrite next_int32_app by done. cbn [obind]. rewrite next_int32_app by done. cbn [obind].
  rewrite <- length_list_byte_of_string in eok_short0.
  unfold copy_bytes. rewrite firstn_all2 by (unfold sigNameLength; lia).
  replace (drop _ (zeros sigNameLength)) with
    (zeros (sigNameLength - length (String.list_byte_of_string (ce_SigName c))))
    by (unfold zeros; by rewrite drop_replicate).
  rewrite TrimZeroes_pad by done. rewrite String.string_of_list_byte_of_string.
  by destruct (ce_IsPaused c).
Qed.

(** the description of a scheme that liboqs knows under that name with those
    lengths is decoded to the same scheme from its 33 bytes. *)
Theorem FromBytesToEncryptionConfig_roundtrip `{OqsLib} c :
  enc_ok c -> VerifyEncConfig c = true ->
  FromBytesToEncryptionConfig
    (GenerateBytesFromParams (ce_SigName c) (ce_PubKeyLength c) (ce_PrivateKeyLength c)
       (ce_SignatureLength c) (ce_IsPaused c)) = Ok c.
Proof.
  intros Hok Hv. unfold FromBytesToEncryptionConfig. rewrite Generate_roundtrip by done. cbn [obind].
  destruct Hok as [Hn _ _ _ _ _].
  destruct (String.eqb_spec (ce_SigName c) "") as [E|_]; [by rewrite E in Hn|].
  unfold CreateEncryptionScheme. destruct c; cbn in *. by rewrite Hv.
Qed.

(** A library with the two schemes the node starts with. *)
Definition two_schemes : OqsLib := {|
  oqs_Details s := if String.eqb s "Falcon-512" then Some (897, 1281, 752)
                   else if String.eqb s "MAYO-5" then Some (5554, 40, 964) else None;
  oqs_GenerateKeyPair s := if String.eqb s "Falcon-512" then Some 897
                           else if String.eqb s "MAYO-5" then Some 5554 else None;
  oqs_Verify _ msg sig _ := Some (bytes_eqb msg sig) |}.

Lemma FromBytesToEncryptionConfig_roundtrip_witness :
  @FromBytesToEncryptionConfig two_schemes
    (GenerateBytesFromParams "Falcon-512" 897 1281 752 false) = Ok NewConfigEnc1.
Proof.
  apply (@FromBytesToEncryptionConfig_roundtrip two_schemes NewConfigEnc1).
  - split; try by vm_compute.
    + vm_compute; lia.
    + repeat constructor; by vm_compute.
  - by vm_compute.
Defined.
