(* ===== verification/Json.v ===== *)
(** * encoding/json and common/marshal.go

    The node stores a few structures as JSON behind a two-byte prefix.  The codec
    of the standard library is the class [JSON]: what a value was marshalled to is
    unmarshalled to the same value.  [json_countable] is a concrete codec for any
    countable type. *)
From S2P Require Import Prelude GoInt GoSlice Common.

Class JSON (A : Type) := {
  json_Marshal : A -> outcome bytes;
  json_Unmarshal : bytes -> outcome A
}.
Class JSONLaws (A : Type) `{JSON A} := {
  json_roundtrip x b : json_Marshal x = Ok b -> json_Unmarshal b = Ok x
}.

(** [common.Marshal] and [common.Unmarshal]; fewer than two bytes leave the
    target [v] as it is. *)
Definition Marshal {A} `{JSON A} (v : A) (prefix : bytes) : outcome bytes :=
  let! b := json_Marshal v in Ok (prefix ++ b).
Definition Unmarshal {A} `{JSON A} (v : A) (b : bytes) : outcome A :=
  if (length b <? 2)%nat then Ok v else
  let! t := slice_from b 2 in json_Unmarshal t.

Lemma Unmarshal_Marshal {A} `{JSONLaws A} (v v0 : A) prefix b :
  length prefix = 2%nat -> Marshal v prefix = Ok b -> Unmarshal v0 b = Ok v.
Proof.
  intros Hp Hm. unfold Marshal in Hm. apply obind_ok_inv in Hm as (b' & Hb & [= <-]).
  unfold Unmarshal. rewrite length_app, Hp.
  replace (2 + length b' <? 2)%nat with false by (symmetry; apply Nat.ltb_ge; lia).
  rewrite slice_suffix by (by rewrite Hp). cbn [obind]. by eapply json_roundtrip.
Qed.

(** ** A concrete codec *)

Fixpoint pos_to_bits (p : positive) : bytes :=
  match p with
  | xH => []
  | xO p => byte_of_Z 0 :: pos_to_bits p
  | xI p => byte_of_Z 1 :: pos_to_bits p
  end.
Fixpoint bits_to_pos (b : bytes) : positive :=
  match b with
  | [] => xH
  | x :: b => if byte_to_Z x =? 0 then xO (bits_to_pos b) else xI (bits_to_pos b)
  end.
Lemma bits_to_pos_to_bits p : bits_to_pos (pos_to_bits p) = p.
Proof. induction p as [p IH|p IH|]; cbn; by rewrite ?IH. Qed.

Definition json_countable (A : Type) `{Countable A} : JSON A := {|
  json_Marshal x := Ok (pos_to_bits (encode x));
  json_Unmarshal b := match decode (bits_to_pos b) with
                      | Some x => Ok x
                      | None => Err "invalid character"
                      end
|}.
Lemma json_countable_laws (A : Type) `{Countable A} : @JSONLaws A (json_countable A).
Proof.
  split. intros x b [= <-]. unfold json_Unmarshal, json_countable.
  by rewrite bits_to_pos_to_bits, decode_encode.
Qed.
