(* ===== verification/Merkle.v ===== *)
(** * Merkle trees

    Models the trees of transactionsPool/merkleTree.go and pubkeys/pubKeysTrie.go:
    building a tree from its leaves, searching it, its root hash, and storing it.
    The two packages build trees with the same code.  Theorems: a tree of
    non-empty data has one root, whose hash is that of a reference on the places of
    the tree ([digest_at]); the root hash binds the leaves up to a collision
    of blake2b; and the duplication of the last node of an odd level makes two
    different lists of leaves share a root. *)
From S2P Require Import Prelude GoInt GoSlice Common Database Json.

(** [MNil] is the nil pointer. *)
Inductive MerkleNode :=
| MNil
| MNode (Left Right : MerkleNode) (Data : bytes).

Definition node_Data (n : MerkleNode) : outcome bytes :=
  match n with MNil => Panic | MNode _ _ d => Ok d end.

Section Build.
Context `{Hasher}.

Definition NewMerkleNode (left right : MerkleNode) (data : bytes) : outcome MerkleNode :=
  match left, right with
  | MNil, MNil => let! hash := CalcHashToByte data in Ok (MNode left right hash)
  | _, _ =>
      let! l := node_Data left in
      let! r := node_Data right in
      let! hash := CalcHashToByte (l ++ r) in
      Ok (MNode left right hash)
  end.

Fixpoint leaves (data : list bytes) : outcome (list MerkleNode) :=
  match data with
  | [] => Ok []
  | d :: data => let! node := NewMerkleNode MNil MNil d in
                 let! nodes := leaves data in
                 Ok (node :: nodes)
  end.

(** [if len(nodes)%2 != 0 { nodes = append(nodes, nodes[len(nodes)-1]) }] *)
Definition pad {A} (nodes : list A) : list A :=
  if Nat.odd (length nodes) then nodes ++ from_option (fun x => [x]) [] (last nodes) else nodes.

(** [for i := 0; i < len(nodes); i += 2]: [nodes[i+1]] panics at the end of a level
    of odd length. *)
Fixpoint build_level (nodes : list MerkleNode) : outcome (list MerkleNode) :=
  match nodes with
  | l :: r :: nodes => let! node := NewMerkleNode l r [] in
                       let! level := build_level nodes in
                       Ok (node :: level)
  | [_] => Panic
  | [] => Ok []
  end.

(** [for len(nodes) > 1 { ... }]; a level is at most half as long as the one
    below, rounded up, so one step per leaf is more than enough
    ([NewMerkleTree_spec]). *)
Fixpoint build_levels (fuel : nat) (nodes : list MerkleNode) : outcome (list MerkleNode) :=
  match fuel with
  | O => Ok nodes
  | S fuel => if (length nodes <=? 1)%nat then Ok nodes
              else let! level := build_level (pad nodes) in build_levels fuel level
  end.

Definition NewMerkleTree (data : list bytes) : outcome (list MerkleNode) :=
  let! nodes := leaves data in build_levels (length data) nodes.
End Build.

(** ** Searching *)

(** transactionsPool: the depth of the last match in the traversal. *)
Fixpoint containsTxHash (n : MerkleNode) (index : Z) (hash : bytes) : bool * Z :=
  match n with
  | MNil => (false, index -! 1)
  | MNode l r d =>
      let index := index +! 1 in
      if bytes_eqb d hash then (true, index -! 1) else
      let (left, indexLeft) := containsTxHash l index hash in
      let (right, indexRight) := containsTxHash r index hash in
      (left || right, if right then indexRight else if left then indexLeft else index -! 1)
  end.

(** pubkeys: the index is advanced before the nil check. *)
Fixpoint containsAddress (n : MerkleNode) (index : Z) (hash : bytes) : bool * Z :=
  let index := index +! 1 in
  match n with
  | MNil => (false, index -! 1)
  | MNode l r d =>
      if bytes_eqb d hash then (true, index -! 1) else
      let (left, indexLeft) := containsAddress l index hash in
      let (right, indexRight) := containsAddress r index hash in
      (left || right, if right then indexRight else if left then indexLeft else index -! 1)
  end.

(** [t.Root[0]] panics on the empty tree. *)
Definition IsTxHashInTree (root : list MerkleNode) (hash : bytes) : outcome bool :=
  let! r0 := index root 0 in
  if (containsTxHash r0 0 hash).1 then Ok true else
  if (1 <? Z.of_nat (length root)) then let! r1 := index root 1 in Ok (containsTxHash r1 0 hash).1
  else Ok false.

Definition IsAddressInTree `{Hasher} (root : list MerkleNode) (a : Address) : outcome bool :=
  let! hash := CalcHashToByte (Address_GetBytes a) in
  let! r0 := index root 0 in
  if (containsAddress r0 0 hash).1 then Ok true else
  if (1 <? Z.of_nat (length root)) then let! r1 := index root 1 in Ok (containsAddress r1 0 hash).1
  else Ok false.

Definition GetRootHash (root : list MerkleNode) : outcome bytes :=
  match root with
  | [] => Ok (Hash_GetBytes EmptyHash)
  | n :: _ => node_Data n
  end.

(** ** Levels of digests *)

Section Facts.
Context `{Hasher}.

Definition H2 (l r : Hash) : Hash := blake2b_256 (l ++ r).

Fixpoint pair_up (l : list Hash) : list Hash :=
  match l with
  | x :: y :: l => H2 x y :: pair_up l
  | _ => []
  end.

Fixpoint digest_levels (fuel : nat) (l : list Hash) : list Hash :=
  match fuel with
  | O => l
  | S fuel => if (length l <=? 1)%nat then l else digest_levels fuel (pair_up (pad l))
  end.

(** The nodes of one level, by their digests. *)
Definition digests (nodes : list MerkleNode) (l : list Hash) : Prop :=
  Forall2 (fun n (h : Hash) => exists a b, n = MNode a b h) nodes l.

Lemma leaves_digests data : exists nodes,
  leaves data = Ok nodes /\ digests nodes (map blake2b_256 data).
Proof.
  induction data as [|d data IH]; [by exists []; repeat constructor|].
  destruct IH as (nodes & E & Hd). cbn [leaves NewMerkleNode CalcHashToByte obind]. rewrite E.
  eexists. split; [reflexivity|]. cbn [map]. constructor; [eauto|done].
Qed.

Lemma build_level_digests : forall l nodes, digests nodes l -> Nat.Even (length l) ->
  exists level, build_level nodes = Ok level /\ digests level (pair_up l).
Proof.
  fix IH 1. intros [|x [|y l]] nodes Hd Hev.
  - inversion Hd; subst. exists []. by repeat constructor.
  - destruct Hev as [k Hk]. cbn in Hk. lia.
  - inversion Hd as [|n ? ns ? (a & b & ->) Hr]; subst.
    inversion Hr as [|n' ? ns' ? (a' & b' & ->) Hr']; subst.
    destruct (IH l ns' Hr' (proj1 (Nat.Even_succ_succ _) Hev)) as (level & E & Hl).
    cbn [build_level NewMerkleNode node_Data CalcHashToByte obind]. rewrite E. cbn [obind].
    eexists. split; [reflexivity|]. cbn [pair_up]. constructor; [|done]. by eexists _, _.
Qed.

Lemma pad_length {A} (l : list A) : length (pad l) = (2 * Nat.div2 (S (length l)))%nat.
Proof.
  unfold pad. pose proof (Nat.div2_odd (length l)) as E. set (k := Nat.div2 (length l)) in E.
  destruct (Nat.odd (length l)) eqn:Ho; cbn [Nat.b2n] in E.
  - destruct l as [|x l _] using rev_ind; [done|].
    rewrite last_snoc, (length_app (l ++ [x])), E. cbn [from_option length].
    replace (S (2 * k + 1)) with (2 * S k)%nat by lia. rewrite Nat.div2_double. lia.
  - rewrite E. replace (S (2 * k + 0)) with (S (2 * k)) by lia. rewrite Nat.div2_succ_double. lia.
Qed.

Lemma pad_even {A} (l : list A) : Nat.Even (length (pad l)).
Proof. rewrite pad_length. by eexists. Qed.

Lemma pad_digests nodes l : digests nodes l -> digests (pad nodes) (pad l).
Proof.
  intros Hd. unfold pad. rewrite (Forall2_length _ _ _ Hd). destruct (Nat.odd _); [|done].
  apply Forall2_app; [done|]. unfold digests in Hd.
  destruct l as [|h l _] using rev_ind; [apply Forall2_nil_inv_r in Hd as ->; constructor|].
  apply Forall2_app_inv_r in Hd as (ns & n & Hns & Hn & ->).
  inversion Hn as [|n0 ? ? ? Hn0 Hnil]; subst. inversion Hnil; subst.
  rewrite !last_snoc. by repeat constructor.
Qed.

Lemma build_levels_digests fuel nodes l : digests nodes l ->
  exists out, build_levels fuel nodes = Ok out /\ digests out (digest_levels fuel l).
Proof.
  revert nodes l. induction fuel as [|fuel IH]; intros nodes l Hd; [by exists nodes|].
  cbn [build_levels digest_levels]. rewrite (Forall2_length _ _ _ Hd).
  destruct (length l <=? 1)%nat; [by exists nodes|].
  destruct (build_level_digests _ _ (pad_digests _ _ Hd) (pad_even _)) as (level & -> & Hl). cbn [obind].
  by apply IH.
Qed.

Definition root_digests (data : list bytes) : list Hash :=
  digest_levels (length data) (map blake2b_256 data).

Lemma NewMerkleTree_digests data : exists root,
  NewMerkleTree data = Ok root /\ digests root (root_digests data).
Proof.
  unfold NewMerkleTree. destruct (leaves_digests data) as (nodes & -> & Hd). cbn [obind].
  by apply build_levels_digests.
Qed.

(** *** Lengths of the levels *)

Lemma pair_up_length : forall l, length (pair_up l) = Nat.div2 (length l).
Proof. fix IH 1. intros [|x [|y l]]; cbn [pair_up length Nat.div2]; [done..|]. by rewrite IH. Qed.

Lemma level_length (l : list Hash) : length (pair_up (pad l)) = Nat.div2 (S (length l)).
Proof. rewrite pair_up_length, pad_length. apply Nat.div2_double. Qed.

Lemma div2_S_lt n : (2 <= n)%nat -> (Nat.div2 (S n) < n)%nat.
Proof.
  intros Hn. pose proof (Nat.div2_odd (S n)). destruct (Nat.odd (S n)); cbn [Nat.b2n] in *; lia.
Qed.
Lemma div2_S_pos n : (1 <= n)%nat -> (1 <= Nat.div2 (S n))%nat.
Proof.
  intros Hn. pose proof (Nat.div2_odd (S n)). destruct (Nat.odd (S n)); cbn [Nat.b2n] in *; lia.
Qed.

Lemma digest_levels_length fuel l :
  (length l <= fuel)%nat -> length (digest_levels fuel l) = (if (length l =? 0)%nat then 0 else 1)%nat.
Proof.
  revert l. induction fuel as [|fuel IH]; intros l Hl; cbn [digest_levels].
  - destruct l; [done|cbn in Hl; lia].
  - destruct (length l <=? 1)%nat eqn:E.
    + apply Nat.leb_le in E. destruct l as [|? [|]]; cbn in *; [done..|lia].
    + apply Nat.leb_gt in E. pose proof (div2_S_lt (length l) E).
      pose proof (div2_S_pos (length l) ltac:(lia)).
      rewrite IH by (rewrite level_length; lia). rewrite level_length.
      by rewrite !(proj2 (Nat.eqb_neq _ _)) by lia.
Qed.

(** More fuel than leaves changes nothing. *)
Lemma digest_levels_stable fuel fuel' l :
  (length l <= fuel)%nat -> (length l <= fuel')%nat -> digest_levels fuel l = digest_levels fuel' l.
Proof.
  revert fuel' l. induction fuel as [|fuel IH]; intros [|fuel'] l H1 H2; cbn [digest_levels].
  - done.
  - destruct l; [done|cbn in *; lia].
  - destruct l; [done|cbn in *; lia].
  - destruct (length l <=? 1)%nat eqn:E; [done|]. apply Nat.leb_gt in E.
    pose proof (div2_S_lt (length l) E). apply IH; rewrite level_length; lia.
Qed.

Lemma digest_levels_step fuel l : (2 <= length l)%nat ->
  digest_levels (S fuel) l = digest_levels fuel (pair_up (pad l)).
Proof. intros Hl. cbn [digest_levels]. by rewrite (proj2 (Nat.leb_gt _ _)) by lia. Qed.

(** *** The root by positions

    The reference says what the root of some data is without building a level:
    [digest_at data k i] is the digest at place [i] of height [k] of the tree. *)

(** [n] leaves have [n / 2^k], rounded up, digests at height [k]. *)
Definition width (n k : nat) : nat := (n + 2 ^ k - 1) / 2 ^ k.

(** A digest covers the places [2 i] and [2 i + 1] of the height below; the last one
    of a height stands for a right neighbour that is missing. *)
Fixpoint digest_at (data : list bytes) (k i : nat) : Hash :=
  match k with
  | O => blake2b_256 (nth i data [])
  | S k => H2 (digest_at data k (2 * i))
              (digest_at data k (Nat.min (2 * i + 1) (width (length data) k - 1)))
  end.

(** The root is the digest at the least height that has one place. *)
Definition merkle_root (data : list bytes) : Hash :=
  match data with [] => EmptyHash | _ => digest_at data (Nat.log2_up (length data)) 0 end.

Lemma width_0 n : width n 0 = n.
Proof. unfold width. cbn [Nat.pow]. rewrite Nat.div_1_r. lia. Qed.
Lemma width_S n k : width n (S k) = Nat.div2 (S (width n k)).
Proof.
  unfold width. rewrite Nat.div2_div, Nat.pow_succ_r', (Nat.mul_comm 2), <- Nat.Div0.div_div.
  pose proof (Nat.pow_nonzero 2 k ltac:(lia)) as Hk. f_equal.
  pose proof (Nat.div_add (n + 2 ^ k - 1) 1 (2 ^ k) Hk) as E. rewrite Nat.add_1_r in E. rewrite <- E. f_equal. lia.
Qed.

(** Halving a level of at least two lowers the height that is left by one. *)
Lemma log2_up_half n : (2 <= n)%nat -> Nat.log2_up n = S (Nat.log2_up (Nat.div2 (S n))).
Proof.
  intros Hn. pose proof (Nat.div2_odd (S n)) as E. set (m := Nat.div2 (S n)) in *.
  assert (n = 2 * m \/ n = 2 * m - 1)%nat as Hm by (destruct (Nat.odd (S n)); cbn [Nat.b2n] in E; lia).
  destruct (Nat.eq_dec m 1) as [-> | Hm1]; [destruct Hm as [-> | ->]; [done|lia]|].
  destruct (Nat.log2_up_spec m ltac:(lia)) as [Lo Hi].
  pose proof (Nat.log2_up_pos m ltac:(lia)) as Hp.
  apply Nat.log2_up_unique; [lia|]. rewrite Nat.pred_succ, (Nat.pow_succ_r' 2 (Nat.log2_up m)).
  destruct (Nat.log2_up m) as [|b]; [lia|]. cbn [Nat.pred] in Lo. rewrite !Nat.pow_succ_r' in *. lia.
Qed.

(** [l] is the level of height [k]. *)
Definition level_at (data : list bytes) (k : nat) (l : list Hash) : Prop :=
  length l = width (length data) k /\
  forall i, (i < length l)%nat -> l !! i = Some (digest_at data k i).

Lemma level_at_leaves data : level_at data 0 (map blake2b_256 data).
Proof.
  split; [by rewrite length_map, width_0|]. intros i Hi. rewrite length_map in Hi. cbn [digest_at].
  change (map blake2b_256 data) with (blake2b_256 <$> data). rewrite list_lookup_fmap.
  destruct (lookup_lt_is_Some_2 data i Hi) as [d E]. rewrite E. cbn [fmap option_fmap option_map].
  by rewrite (nth_lookup_Some _ _ _ _ E).
Qed.

Lemma pad_lookup {A} (l : list A) j : (j < length (pad l))%nat -> pad l !! j = l !! Nat.min j (length l - 1).
Proof.
  unfold pad. destruct (Nat.odd (length l)) eqn:Ho; intros Hj.
  - destruct l as [|x l _] using rev_ind; [done|]. rewrite last_snoc in *. cbn [from_option] in *.
    rewrite !length_app in *. cbn [length] in *. destruct (decide (j < length l + 1)%nat) as [Hlt|Hge].
    + rewrite lookup_app_l by (rewrite length_app; cbn; lia). f_equal. lia.
    + rewrite lookup_app_r by (rewrite length_app; cbn; lia).
      rewrite length_app. cbn [length]. replace (j - (length l + 1))%nat with 0%nat by lia.
      replace (Nat.min j _) with (length l) by lia. by rewrite lookup_app_r, Nat.sub_diag by lia.
  - f_equal. lia.
Qed.
Lemma pair_up_lookup : forall l i x y,
  l !! (2 * i)%nat = Some x -> l !! (2 * i + 1)%nat = Some y -> pair_up l !! i = Some (H2 x y).
Proof.
  fix IH 1. intros [|a [|b l]] i x y Hx Hy; cbn [pair_up].
  - by rewrite lookup_nil in Hx.
  - by rewrite Nat.add_1_r in Hy.
  - destruct i as [|i]; [cbn in Hx, Hy; by simplify_eq|].
    replace (2 * S i)%nat with (S (S (2 * i))) in Hx, Hy by lia. cbn [Nat.add] in Hy. by apply IH.
Qed.

Lemma level_at_step data k l : level_at data k l -> level_at data (S k) (pair_up (pad l)).
Proof.
  intros [Hlen Hat]. split; [by rewrite level_length, width_S, Hlen|]. intros i Hi.
  rewrite level_length in Hi. pose proof (Nat.div2_odd (S (length l))) as E.
  assert (2 * i + 1 < length (pad l))%nat as Hp by (rewrite pad_length; lia).
  assert (2 * i < length l)%nat as Hl by (destruct (Nat.odd _); cbn [Nat.b2n] in E; lia).
  cbn [digest_at]. rewrite <- Hlen. apply pair_up_lookup; rewrite pad_lookup by lia.
  - replace (Nat.min _ _) with (2 * i)%nat by lia. by apply Hat.
  - apply Hat. lia.
Qed.

Lemma digest_levels_root data fuel k l : level_at data k l -> l <> [] -> (length l <= fuel)%nat ->
  digest_levels fuel l = [digest_at data (k + Nat.log2_up (length l)) 0].
Proof.
  assert (forall k l, level_at data k l -> length l = 1%nat -> l = [digest_at data (k + Nat.log2_up (length l)) 0]) as Hone.
  { intros k' l' [_ Hat] E. destruct l' as [|x [|]]; [done| |done]. rewrite Nat.add_0_r.
    specialize (Hat 0%nat ltac:(cbn; lia)). cbn [lookup list_lookup] in Hat. by injection Hat as ->. }
  revert k l. induction fuel as [|fuel IH]; intros k l Hat Hne Hf.
  { destruct l; [done|cbn in Hf; lia]. }
  assert (length l <> 0)%nat as Hl0 by (by destruct l).
  cbn [digest_levels]. destruct (length l <=? 1)%nat eqn:E.
  - apply Nat.leb_le in E. apply Hone; [done|lia].
  - apply Nat.leb_gt in E. pose proof (div2_S_lt (length l) E). pose proof (div2_S_pos (length l) ltac:(lia)).
    assert (pair_up (pad l) <> []) as Hne' by (intros En; pose proof (level_length l) as Ep; rewrite En in Ep; cbn [length] in Ep; lia).
    rewrite (IH (S k) _ (level_at_step _ _ _ Hat) Hne'), level_length, (log2_up_half (length l)) by
      (rewrite ?level_length; lia).
    by rewrite Nat.add_succ_r.
Qed.

Lemma root_digests_eq data : merkle_root data = match root_digests data with [] => EmptyHash | h :: _ => h end.
Proof.
  unfold merkle_root, root_digests. destruct data as [|d data]; [done|]. set (l := d :: data).
  rewrite (digest_levels_root l (length l) 0 _ (level_at_leaves l)); [by rewrite length_map|done|by rewrite length_map].
Qed.

Lemma NewMerkleTree_spec data : exists root,
  NewMerkleTree data = Ok root /\
  length root = (if (length data =? 0)%nat then 0 else 1)%nat /\
  GetRootHash root = Ok (arr_bytes (merkle_root data)).
Proof.
  destruct (NewMerkleTree_digests data) as (root & E & Hd). exists root. split; [done|].
  pose proof (digest_levels_length (length data) (map blake2b_256 data)) as Hl.
  rewrite length_map in Hl. specialize (Hl ltac:(lia)).
  split; [by rewrite (Forall2_length _ _ _ Hd)|].
  rewrite root_digests_eq. destruct Hd as [|n h ns hs (a & b & ->) _]; done.
Qed.

(** C40: building a tree always succeeds; no data gives the empty tree and any
    other data a single root.  Its hash is the digest at the top place of the tree
    of positions: place [i] of height [k + 1] is the digest of the places [2 i] and
    [2 i + 1] of height [k], the last place of a height standing for a missing
    neighbour, the places of height 0 are the digests of the data, and the top is
    the least height with one place. *)
Theorem NewMerkleTree_root data : exists root,
  NewMerkleTree data = Ok root /\
  length root = (if (length data =? 0)%nat then 0 else 1)%nat /\
  GetRootHash root = Ok (arr_bytes (merkle_root data)).
Proof. exact (NewMerkleTree_spec data). Qed.

(** *** The root binds the leaves *)

Fixpoint level_inputs (l : list Hash) : list bytes :=
  match l with
  | x :: y :: l => (arr_bytes x ++ arr_bytes y) :: level_inputs l
  | _ => []
  end.
Fixpoint levels_inputs (fuel : nat) (l : list Hash) : list bytes :=
  match fuel with
  | O => []
  | S fuel => if (length l <=? 1)%nat then []
              else level_inputs (pad l) ++ levels_inputs fuel (pair_up (pad l))
  end.
(** Every byte string that is hashed when the tree of [data] is built. *)
Definition hashed (data : list bytes) : list bytes :=
  data ++ levels_inputs (length data) (map blake2b_256 data).

Definition collision_free (xs : list bytes) : Prop :=
  forall x y, x ∈ xs -> y ∈ xs -> blake2b_256 x = blake2b_256 y -> x = y.

Lemma collision_free_sub xs ys : (forall x, x ∈ ys -> x ∈ xs) -> collision_free xs -> collision_free ys.
Proof. intros Hsub Hcf x y Hx Hy. apply Hcf; auto. Qed.
Lemma elem_of_app_mid (x : bytes) a b c d : x ∈ a ++ c -> x ∈ (a ++ b) ++ (c ++ d).
Proof. rewrite !elem_of_app. tauto. Qed.
Lemma elem_of_app_end (x : bytes) a b c d : x ∈ b ++ d -> x ∈ (a ++ b) ++ (c ++ d).
Proof. rewrite !elem_of_app. tauto. Qed.

Lemma pair_up_inj : forall l l', length l = length l' -> Nat.Even (length l) ->
  collision_free (level_inputs l ++ level_inputs l') -> pair_up l = pair_up l' -> l = l'.
Proof.
  fix IH 1. intros [|x [|y l]] [|x' [|y' l']] Hlen Hev Hcf Heq; try done.
  - destruct Hev as [k Hk]. cbn in Hk. lia.
  - cbn in Hlen, Heq. injection Heq as E1 E2.
    apply Hcf in E1; [|by left|rewrite elem_of_app; right; by left].
    apply app_inj_1 in E1 as [Ex Ey]; [|by rewrite !arr_length].
    apply arr_eq in Ex as ->. apply arr_eq in Ey as ->. do 2 f_equal. apply IH; [lia| | |done].
    + destruct Hev as [k Hk]. exists (k - 1)%nat. cbn in Hk. lia.
    + eapply collision_free_sub, Hcf. intros a.
      apply (elem_of_app_end a [_] (level_inputs l) [_] (level_inputs l')).
Qed.

Lemma pad_inj {A} (l l' : list A) : length l = length l' -> pad l = pad l' -> l = l'.
Proof.
  intros Hl. unfold pad. rewrite Hl. destruct (Nat.odd _); [|done].
  intros E. apply (f_equal (take (length l'))) in E.
  by rewrite <- Hl in E at 1; rewrite !take_app_length in E.
Qed.

Lemma digest_levels_inj fuel l l' : length l = length l' -> (length l <= fuel)%nat ->
  collision_free (levels_inputs fuel l ++ levels_inputs fuel l') ->
  digest_levels fuel l = digest_levels fuel l' -> l = l'.
Proof.
  revert l l'. induction fuel as [|fuel IH]; intros l l' Hl Hf Hcf Heq; [done|].
  cbn [digest_levels levels_inputs] in *. rewrite <- Hl in Heq, Hcf.
  destruct (length l <=? 1)%nat eqn:E; [done|]. apply Nat.leb_gt in E.
  pose proof (div2_S_lt (length l) E).
  apply pad_inj; [done|]. apply pair_up_inj.
  - by rewrite !pad_length, Hl.
  - rewrite pad_length. by eexists.
  - eapply collision_free_sub, Hcf. intros a. apply elem_of_app_mid.
  - apply IH; [by rewrite !level_length, Hl|rewrite level_length; lia| |done].
    eapply collision_free_sub, Hcf. intros a. apply elem_of_app_end.
Qed.

Lemma map_hash_inj data data' : length data = length data' ->
  collision_free (data ++ data') -> map blake2b_256 data = map blake2b_256 data' -> data = data'.
Proof.
  revert data'. induction data as [|x data IH]; intros [|x' data'] Hl Hcf E; try done.
  injection E as E1 E2. f_equal.
  - apply Hcf; [left|rewrite elem_of_app; right; left|done].
  - apply IH; [by injection Hl| |done]. eapply collision_free_sub, Hcf. intros a.
    apply (elem_of_app_end a [x] data [x'] data').
Qed.

(** the root hash binds the transactions of a block: two lists of the same
    length whose trees have the same root hash are equal, provided blake2b does
    not collide on the strings hashed while the two trees are built. *)
Theorem merkle_root_binding data data' root root' h :
  length data = length data' ->
  collision_free (hashed data ++ hashed data') ->
  NewMerkleTree data = Ok root -> NewMerkleTree data' = Ok root' ->
  GetRootHash root = Ok h -> GetRootHash root' = Ok h -> data = data'.
Proof.
  intros Hl Hcf E E' Hh Hh'.
  destruct (NewMerkleTree_spec data) as (r & Er & _ & Hr).
  destruct (NewMerkleTree_spec data') as (r' & Er' & _ & Hr').
  rewrite E in Er. rewrite E' in Er'. simplify_eq.
  assert (merkle_root data = merkle_root data') as Hm by (apply arr_eq; congruence).
  apply map_hash_inj; [done| |].
  { eapply collision_free_sub, Hcf. intros a. apply elem_of_app_mid. }
  apply (digest_levels_inj (length data)); [by rewrite !length_map|by rewrite length_map| |].
  { eapply collision_free_sub, Hcf. unfold hashed. rewrite <- Hl. intros a. apply elem_of_app_end. }
  rewrite !root_digests_eq in Hm. unfold root_digests in Hm. rewrite <- Hl in Hm.
  pose proof (digest_levels_length (length data) (map blake2b_256 data)) as L1.
  pose proof (digest_levels_length (length data) (map blake2b_256 data')) as L2.
  rewrite length_map in L1, L2. specialize (L1 ltac:(lia)). specialize (L2 ltac:(lia)).
  rewrite <- Hl in L2. destruct (length data =? 0)%nat.
  - destruct (digest_levels _ (map _ data)), (digest_levels _ (map _ data')); done.
  - destruct (digest_levels _ (map _ data)) as [|? [|]], (digest_levels _ (map _ data')) as [|? [|]];
      try done. by subst.
Qed.

(** the number of transactions is not bound: appending a copy of the last
    transaction to a block with an odd number of them, at least three, keeps the
    root hash. *)
Theorem merkle_root_duplicate data x root root' h :
  Nat.odd (length (data ++ [x])) = true -> data <> [] ->
  NewMerkleTree (data ++ [x]) = Ok root -> NewMerkleTree (data ++ [x; x]) = Ok root' ->
  GetRootHash root = Ok h -> GetRootHash root' = Ok h.
Proof.
  intros Hodd Hne E E' Hh.
  destruct (NewMerkleTree_spec (data ++ [x])) as (r & Er & _ & Hr).
  destruct (NewMerkleTree_spec (data ++ [x; x])) as (r' & Er' & _ & Hr').
  rewrite E in Er. rewrite E' in Er'. simplify_eq. rewrite Hr'. rewrite Hr in Hh. rewrite <- Hh.
  do 2 f_equal. rewrite !root_digests_eq. unfold root_digests.
  assert (length data <> 0)%nat by (by destruct data).
  replace (data ++ [x; x]) with ((data ++ [x]) ++ [x]) by (by rewrite <- app_assoc).
  set (l := map blake2b_256 (data ++ [x])).
  assert (length l = S (length data)) as Ll
    by (unfold l; rewrite length_map, length_app; cbn; lia).
  assert (pad (l ++ [blake2b_256 x]) = pad l) as Hpad.
  { unfold pad. rewrite length_app, Ll. cbn [length].
    rewrite length_app in Hodd. cbn [length] in Hodd. rewrite Nat.add_1_r in Hodd.
    rewrite Hodd, Nat.add_1_r, Nat.odd_succ, <- Nat.negb_odd, Hodd. cbn [negb].
    unfold l. rewrite map_app. cbn [map]. by rewrite last_snoc. }
  rewrite (map_app _ (data ++ [x])). cbn [map]. fold l.
  rewrite !length_app. cbn [length]. rewrite !Nat.add_1_r.
  rewrite digest_levels_step by (rewrite length_app, Ll; cbn; lia).
  rewrite Hpad, (digest_levels_step _ l) by (rewrite Ll; lia).
  pose proof (div2_S_lt (S (length data)) ltac:(lia)).
  rewrite (digest_levels_stable (S (length data)) (length data) (pair_up (pad l)));
    [reflexivity|rewrite level_length, Ll; lia..].
Qed.
End Facts.

(** ** Searching a built tree *)

(** The digests of all the nodes of a tree. *)
Fixpoint node_digests (n : MerkleNode) : list bytes :=
  match n with
  | MNil => []
  | MNode l r d => d :: node_digests l ++ node_digests r
  end.

Lemma bytes_eqb_iff a b : bytes_eqb a b = true <-> a = b.
Proof. unfold bytes_eqb. apply bool_decide_eq_true. Qed.

Lemma containsTxHash_spec n : forall i h, (containsTxHash n i h).1 = true <-> h ∈ node_digests n.
Proof.
  induction n as [|l IHl r IHr d]; intros i h; cbn [containsTxHash node_digests].
  - rewrite elem_of_nil. by split.
  - rewrite elem_of_cons, elem_of_app, <- (IHl (i +! 1)), <- (IHr (i +! 1)).
    destruct (bytes_eqb d h) eqn:E.
    + apply bytes_eqb_iff in E as ->. cbn. tauto.
    + assert (h <> d) by (intros ->; rewrite (proj2 (bytes_eqb_iff d d)) in E; done).
      destruct (containsTxHash l _ h), (containsTxHash r _ h). cbn [fst].
      rewrite orb_true_iff. tauto.
Qed.
Lemma containsAddress_spec n : forall i h, (containsAddress n i h).1 = true <-> h ∈ node_digests n.
Proof.
  induction n as [|l IHl r IHr d]; intros i h; cbn [containsAddress node_digests].
  - rewrite elem_of_nil. by split.
  - rewrite elem_of_cons, elem_of_app, <- (IHl (i +! 1)), <- (IHr (i +! 1)).
    destruct (bytes_eqb d h) eqn:E.
    + apply bytes_eqb_iff in E as ->. cbn. tauto.
    + assert (h <> d) by (intros ->; rewrite (proj2 (bytes_eqb_iff d d)) in E; done).
      destruct (containsAddress l _ h), (containsAddress r _ h). cbn [fst].
      rewrite orb_true_iff. tauto.
Qed.

Section Search.
Context `{Hasher}.

(** [h] is the digest of one of the strings [xs]. *)
Definition digest_of (xs : list bytes) (h : bytes) : Prop :=
  exists x, x ∈ xs /\ h = arr_bytes (blake2b_256 x).
Lemma digest_of_nil h : digest_of [] h <-> False.
Proof. split; [|done]. intros (x & Hx & _). by apply elem_of_nil in Hx. Qed.
Lemma digest_of_app xs ys h : digest_of (xs ++ ys) h <-> digest_of xs h \/ digest_of ys h.
Proof.
  split.
  - intros (x & Hx & E). apply elem_of_app in Hx as [Hx|Hx]; [left|right]; by exists x.
  - intros [(x & Hx & E)|(x & Hx & E)]; exists x; rewrite elem_of_app; auto.
Qed.
Lemma digest_of_cons x xs h :
  digest_of (x :: xs) h <-> h = arr_bytes (blake2b_256 x) \/ digest_of xs h.
Proof.
  split.
  - intros (y & Hy & E). apply elem_of_cons in Hy as [->|Hy]; [by left|right; by exists y].
  - intros [E|(y & Hy & E)]; [exists x|exists y]; rewrite elem_of_cons; auto.
Qed.

Definition forest_digests (nodes : list MerkleNode) : list bytes := concat (map node_digests nodes).

Lemma elem_of_forest (h : bytes) nodes : h ∈ forest_digests nodes <-> exists n, n ∈ nodes /\ h ∈ node_digests n.
Proof.
  unfold forest_digests. rewrite list_elem_of_In, in_concat. setoid_rewrite <- list_elem_of_In.
  split.
  - intros (x & Hx & Hh). apply list_elem_of_fmap in Hx as (n & -> & Hn). eauto.
  - intros (n & Hn & Hh). exists (node_digests n). split; [|done]. by apply list_elem_of_fmap_2.
Qed.

Lemma pad_forest (h : bytes) nodes : h ∈ forest_digests (pad nodes) <-> h ∈ forest_digests nodes.
Proof.
  rewrite !elem_of_forest. unfold pad. destruct (Nat.odd _); [|done].
  destruct nodes as [|x l _] using rev_ind; [done|]. rewrite last_snoc. cbn.
  setoid_rewrite elem_of_app at 1. setoid_rewrite list_elem_of_singleton. split.
  - intros (n & [Hn| ->] & Hh); [by exists n|exists x]. rewrite elem_of_app, list_elem_of_singleton. auto.
  - intros (n & Hn & Hh). eauto.
Qed.

(** The digests of the next level: those of the level below and the new ones. *)
Lemma build_level_forest (h : bytes) : forall nodes level, build_level nodes = Ok level ->
  Nat.Even (length nodes) -> forall l, digests nodes l ->
  h ∈ forest_digests level <-> h ∈ forest_digests nodes \/ digest_of (level_inputs l) h.
Proof.
  fix IH 1. intros [|n [|n' nodes]] level Hb Hev l Hd.
  - inversion Hd; subst. injection Hb as <-. cbn. rewrite digest_of_nil, elem_of_nil. tauto.
  - destruct Hev as [k Hk]. cbn in Hk. lia.
  - inversion Hd as [|? x ? ? (a & b & ->) Hd']; subst.
    inversion Hd' as [|? y ? ? (a' & b' & ->) Hd'']; subst.
    cbn [build_level NewMerkleNode node_Data CalcHashToByte obind] in Hb.
    apply obind_ok_inv in Hb as (lv & Hlv & [= <-]).
    assert (Nat.Even (length nodes)) as Hev'.
    { destruct Hev as [k Hk]. exists (k - 1)%nat. cbn in Hk. lia. }
    pose proof (IH nodes lv Hlv Hev' _ Hd'') as E. unfold forest_digests in *.
    cbn [map concat node_digests level_inputs].
    rewrite digest_of_cons, !elem_of_app, !elem_of_cons, !elem_of_app, !elem_of_cons, !elem_of_app, E. tauto.
Qed.

Lemma build_levels_forest (h : bytes) fuel nodes out l : digests nodes l ->
  build_levels fuel nodes = Ok out ->
  h ∈ forest_digests out <-> h ∈ forest_digests nodes \/ digest_of (levels_inputs fuel l) h.
Proof.
  revert nodes l. induction fuel as [|fuel IH]; intros nodes l Hd Hb; cbn [build_levels levels_inputs] in *.
  - injection Hb as <-. rewrite digest_of_nil. tauto.
  - rewrite (Forall2_length _ _ _ Hd) in Hb. destruct (length l <=? 1)%nat.
    + injection Hb as <-. rewrite digest_of_nil. tauto.
    + apply obind_ok_inv in Hb as (level & Hlv & Hb).
      pose proof (pad_digests _ _ Hd) as Hp.
      destruct (build_level_digests _ _ Hp (pad_even _)) as (level' & Hlv' & Hdl).
      rewrite Hlv in Hlv'. injection Hlv' as <-.
      rewrite (IH level _ Hdl Hb). rewrite (build_level_forest h _ _ Hlv) with (l := pad l); [|..|done].
      * rewrite pad_forest, digest_of_app. tauto.
      * rewrite pad_length. by eexists.
Qed.

Lemma leaves_forest (h : bytes) data nodes : leaves data = Ok nodes ->
  h ∈ forest_digests nodes <-> digest_of (data) h.
Proof.
  revert nodes. induction data as [|d data IH]; intros nodes Hl; cbn in Hl.
  - injection Hl as <-. rewrite digest_of_nil. cbn. by rewrite elem_of_nil.
  - apply obind_ok_inv in Hl as (ns & Hns & [= <-]). unfold forest_digests in *. cbn.
    rewrite elem_of_cons, (IH ns Hns), digest_of_cons. tauto.
Qed.

(** The digests of a built tree are those of the strings hashed to build it. *)
Lemma NewMerkleTree_forest (h : bytes) data root : NewMerkleTree data = Ok root ->
  h ∈ forest_digests root <-> digest_of (hashed data) h.
Proof.
  unfold NewMerkleTree. intros Hn. apply obind_ok_inv in Hn as (nodes & Hl & Hb).
  destruct (leaves_digests data) as (nodes' & Hl' & Hd). rewrite Hl in Hl'. injection Hl' as <-.
  rewrite (build_levels_forest h _ _ _ _ Hd Hb), (leaves_forest h data nodes Hl).
  unfold hashed. by rewrite digest_of_app.
Qed.

(** A tree of some data has one root. *)
Lemma NewMerkleTree_single data root : data <> [] -> NewMerkleTree data = Ok root ->
  exists r, root = [r].
Proof.
  intros Hne E. destruct (NewMerkleTree_spec data) as (r & Er & Hl & _). rewrite E in Er.
  injection Er as ->. destruct data; [done|]. cbn in Hl. destruct r as [|r0 [|]]; [done|eauto|done].
Qed.
End Search.

(** ** Storing the tree of a block *)

Section Storage.
Context {D : Type} `{RocksDB D} `{JSON (list MerkleNode)} `{Hasher}.

Definition tree_key (height : Z) : bytes := MerkleNodeDBPrefix ++ GetByteInt64 height.
Definition root_key (height : Z) : bytes := RootHashMerkleTreeDBPrefix ++ GetByteInt64 height.
Definition hashes_key (height : Z) : bytes :=
  TransactionsHashesByHeightDBPrefix ++ GetByteInt64 height.

Definition StoreTree (root : list MerkleNode) (txHashes : list bytes) (height : Z) : ST D unit :=
  do! treeb <- st_lift (Marshal root MerkleNodeDBPrefix);
  run! db_put (tree_key height) treeb;
  do! rh <- st_lift (GetRootHash root);
  run! db_put (root_key height) rh;
  db_put (hashes_key height) (concat txHashes).

(** [txbytes[32*i : 32*(i+1)]] for [i < len(txbytes)/32] *)
Fixpoint chunks (size n : nat) (b : bytes) : list bytes :=
  match n with
  | O => []
  | S n => take size b :: chunks size n (drop size b)
  end.

Definition LoadTxHashes (db : D) (height : Z) : outcome (list bytes) :=
  let! txbytes := DB_Get db (hashes_key height) in
  Ok (chunks HashLength (length txbytes / HashLength) txbytes).

Definition LoadHashMerkleTreeByHeight (db : D) (height : Z) : outcome bytes :=
  DB_Get db (root_key height).

Definition set_Data (n : MerkleNode) (d : bytes) : MerkleNode :=
  match n with MNil => MNil | MNode l r _ => MNode l r d end.

(** An empty tree comes back without an error. *)
Definition LoadTreeWithoutTxHashes (db : D) (height : Z) : outcome (list MerkleNode) :=
  let! treeb := DB_Get db (tree_key height) in
  let! root := Unmarshal [] treeb in
  match DB_Get db (root_key height), root with
  | Ok rootHash, n :: ns => Ok (set_Data n rootHash :: ns)
  | Ok _, [] => Ok []
  | Err e, _ => Err e
  | Panic, _ => Panic
  end.

Definition FindTransactionInBlocks (db : D) (targetHash : bytes) (height : Z) : outcome Z :=
  let! root := LoadTreeWithoutTxHashes db height in
  match root with
  | [] => Err "no merkle tree root hash"
  | r0 :: rs =>
      let (left, hl) := containsTxHash r0 0 targetHash in
      if left then Ok hl else
      match rs with
      | r1 :: _ => let (right, hr) := containsTxHash r1 0 targetHash in
                   if right then Ok hr else Err "tx hash not found"
      | [] => Err "tx hash not found"
      end
  end.

Definition LastHeightStoredInMerleTrie (db : D) (fuel : nat) : option (Z * bool) :=
  last_height_loop root_key db fuel 0.

Definition RemoveMerkleTrieFromDB (height : Z) : ST D unit :=
  run! db_delete (root_key height);
  run! db_delete (tree_key height);
  db_delete (hashes_key height).
End Storage.

Section StorageFacts.
Context {D : Type} `{RocksDBLaws D} `{JSONLaws (list MerkleNode)} `{Hasher}.

Lemma keys_differ (h : Z) :
  tree_key h <> root_key h /\ tree_key h <> hashes_key h /\ root_key h <> hashes_key h.
Proof. by repeat split. Qed.

Lemma chunks_concat size (l : list bytes) :
  (forall x, x ∈ l -> length x = size) -> chunks size (length l) (concat l) = l.
Proof.
  induction l as [|x l IH]; intros Hl; [done|]. cbn [concat length chunks].
  assert (length x = size) as Hx by (apply Hl; by left).
  rewrite take_app_length', drop_app_length' by done. rewrite IH; [done|].
  intros y Hy. apply Hl. by right.
Qed.

Lemma concat_length_const (l : list bytes) size :
  (forall x, x ∈ l -> length x = size) -> length (concat l) = (size * length l)%nat.
Proof.
  induction l as [|x l IH]; intros Hl; [cbn; lia|]. cbn [concat length].
  rewrite length_app, (Hl x), IH; [lia| |by left]. intros y Hy. apply Hl. by right.
Qed.

Lemma StoreTree_gets root hashes height db db' :
  StoreTree root hashes height db = (Ok tt, db') ->
  exists treeb rh, Marshal root MerkleNodeDBPrefix = Ok treeb /\ GetRootHash root = Ok rh /\
    DB_Get db' (tree_key height) = Ok treeb /\ DB_Get db' (root_key height) = Ok rh /\
    DB_Get db' (hashes_key height) = Ok (concat hashes).
Proof.
  intros Hs. unfold StoreTree in Hs.
  apply st_bind_ok_inv in Hs as (treeb & s1 & Hm & Hs). unfold st_lift in Hm. injection Hm as Hm <-.
  apply st_bind_ok_inv in Hs as ([] & db1 & P1 & Hs). apply db_put_inv in P1.
  apply st_bind_ok_inv in Hs as (rh & s2 & Hr & Hs). unfold st_lift in Hr. injection Hr as Hr <-.
  apply st_bind_ok_inv in Hs as ([] & db2 & P2 & Hs). apply db_put_inv in P2.
  apply db_put_inv in Hs.
  destruct (keys_differ height) as (N1 & N2 & N3).
  exists treeb, rh. repeat split; [done..| | |].
  - by rewrite (DB_Get_Put_ne _ _ _ _ _ Hs), (DB_Get_Put_ne _ _ _ _ _ P2), (DB_Get_Put_eq _ _ _ _ P1).
  - by rewrite (DB_Get_Put_ne _ _ _ _ _ Hs), (DB_Get_Put_eq _ _ _ _ P2).
  - by rewrite (DB_Get_Put_eq _ _ _ _ Hs).
Qed.

Lemma set_Data_root root rh : GetRootHash root = Ok rh ->
  match root with [] => [] | n :: ns => set_Data n rh :: ns end = root.
Proof. destruct root as [|[|l r d] ns]; cbn; [done..|]. by intros [= ->]. Qed.
End StorageFacts.

(** the tree stored for a block gives back the hashes of its transactions in
    order, its root hash, and the tree itself. *)
Theorem StoreTree_load {D} `{RocksDBLaws D} `{JSONLaws (list MerkleNode)} `{Hasher}
    (db db' : D) root hashes height :
  (forall x, x ∈ hashes -> length x = HashLength) ->
  StoreTree root hashes height db = (Ok tt, db') ->
  LoadTxHashes db' height = Ok hashes /\
  LoadHashMerkleTreeByHeight db' height = GetRootHash root /\
  LoadTreeWithoutTxHashes db' height = Ok root.
Proof.
  intros Hlen Hs.
  destruct (StoreTree_gets root hashes height db db' Hs) as (treeb & rh & Hm & Hr & G1 & G2 & G3).
  unfold LoadTxHashes, LoadHashMerkleTreeByHeight, LoadTreeWithoutTxHashes. rewrite G1, G2, G3, Hr.
  cbn [obind]. split; [|split; [done|]].
  - rewrite (concat_length_const _ HashLength) by done. rewrite Nat.mul_comm, Nat.div_mul by done.
    by rewrite chunks_concat.
  - rewrite (Unmarshal_Marshal root [] MerkleNodeDBPrefix treeb) by done. cbn [obind].
    pose proof (set_Data_root root rh Hr) as E. destruct root; [done|]. by rewrite E.
Qed.

(** a stored block is searched for the hash of a transaction among the
    digests of its tree, whose leaves are digests of the transaction hashes: the
    search succeeds exactly for the digests of the strings hashed to build the
    tree, so a transaction of the block is reported as not found unless its hash
    happens to be such a digest. *)
Theorem FindTransactionInBlocks_digests {D} `{RocksDBLaws D} `{JSONLaws (list MerkleNode)} `{Hasher}
    (db db' : D) root hashes height target :
  hashes <> [] -> NewMerkleTree hashes = Ok root ->
  StoreTree root hashes height db = (Ok tt, db') ->
  (exists i, FindTransactionInBlocks db' target height = Ok i) <-> digest_of (hashed hashes) target.
Proof.
  intros Hne Hn Hs.
  destruct (StoreTree_gets root hashes height db db' Hs) as (treeb & rh & Hm & Hr & G1 & G2 & _).
  unfold FindTransactionInBlocks, LoadTreeWithoutTxHashes. rewrite G1, G2. cbn [obind].
  rewrite (Unmarshal_Marshal root [] MerkleNodeDBPrefix treeb) by done. cbn [obind].
  pose proof (set_Data_root root rh Hr) as E.
  rewrite <- (NewMerkleTree_forest target hashes root Hn).
  destruct (NewMerkleTree_single _ _ Hne Hn) as [r ->]. injection E as E. rewrite E. cbn [obind].
  unfold forest_digests. cbn [map concat]. rewrite app_nil_r, <- (containsTxHash_spec r 0).
  destruct (containsTxHash r 0 target) as [[] i]; cbn [fst]; split; try done; [by eauto|].
  by intros [? ?].
Qed.

(** ** Closed examples *)

(** A toy digest: the length and the first bytes of the input. *)
Definition toy_hasher : Hasher := {|
  blake2b_160 b := arr_of AddressLength (byte_of_Z (Z.of_nat (length b)) :: b);
  blake2b_256 b := arr_of HashLength (byte_of_Z (Z.of_nat (length b)) :: b)
|}.

#[export] Instance MerkleNode_eq_dec : EqDecision MerkleNode.
Proof. solve_decision. Defined.

Fixpoint node_to_tree (n : MerkleNode) : gen_tree bytes :=
  match n with
  | MNil => GenNode 0 []
  | MNode l r d => GenNode 1 [GenLeaf d; node_to_tree l; node_to_tree r]
  end.
Fixpoint tree_to_node (t : gen_tree bytes) : MerkleNode :=
  match t with
  | GenNode 1 [GenLeaf d; l; r] => MNode (tree_to_node l) (tree_to_node r) d
  | _ => MNil
  end.
Lemma node_to_tree_to_node n : tree_to_node (node_to_tree n) = n.
Proof. induction n as [|l IHl r IHr d]; cbn; [done|]. by rewrite IHl, IHr. Qed.
#[export] Instance MerkleNode_countable : Countable MerkleNode :=
  inj_countable' node_to_tree tree_to_node node_to_tree_to_node.

Definition node_json : JSON (list MerkleNode) := json_countable (list MerkleNode).
Definition node_json_laws : @JSONLaws _ node_json := json_countable_laws (list MerkleNode).

Definition tx_hash (n : Z) : bytes := arr_bytes (arr_of HashLength [byte_of_Z n]).
Definition three_txs : list bytes := [tx_hash 7; tx_hash 8; tx_hash 9].
Definition three_root : list MerkleNode := from_ok [] (@NewMerkleTree toy_hasher three_txs).
Definition four_root : list MerkleNode :=
  from_ok [] (@NewMerkleTree toy_hasher (three_txs ++ [tx_hash 9])).

Lemma merkle_root_binding_witness :
  exists h, @GetRootHash three_root = Ok h /\ three_txs = three_txs.
Proof.
  eexists. split; [vm_compute; reflexivity|].
  apply (@merkle_root_binding toy_hasher three_txs three_txs three_root three_root
           (from_ok [] (GetRootHash three_root))); try by vm_compute.
  intros x y Hx Hy.
  assert (Forall (fun x => Forall (fun y => @blake2b_256 toy_hasher x = @blake2b_256 toy_hasher y -> x = y)
            (@hashed toy_hasher three_txs ++ @hashed toy_hasher three_txs))
            (@hashed toy_hasher three_txs ++ @hashed toy_hasher three_txs)) as Hall
    by (apply (bool_decide_unpack _); vm_compute; exact I).
  rewrite Forall_forall in Hall. specialize (Hall x Hx). rewrite Forall_forall in Hall. by apply Hall.
Defined.

Lemma merkle_root_duplicate_witness :
  GetRootHash three_root = GetRootHash four_root.
Proof.
  transitivity (Ok (from_ok [] (GetRootHash three_root))); [by vm_compute|symmetry].
  apply (@merkle_root_duplicate toy_hasher [tx_hash 7; tx_hash 8] (tx_hash 9) three_root four_root);
    by vm_compute.
Defined.

Definition three_db : gmap bytes bytes :=
  snd (@StoreTree _ _ node_json three_root three_txs 5 (∅ : gmap bytes bytes)).

Lemma three_db_stored :
  @StoreTree _ _ node_json three_root three_txs 5 (∅ : gmap bytes bytes) = (Ok tt, three_db).
Proof. vm_cast_no_check (eq_refl (Ok tt, three_db)). Qed.

Lemma StoreTree_load_witness :
  LoadTxHashes three_db 5 = Ok three_txs /\
  LoadHashMerkleTreeByHeight three_db 5 = GetRootHash three_root /\
  @LoadTreeWithoutTxHashes _ _ node_json three_db 5 = Ok three_root.
Proof.
  apply (@StoreTree_load _ _ _ node_json node_json_laws toy_hasher ∅ three_db three_root three_txs 5).
  - intros x Hx. assert (Forall (fun x => length x = HashLength) three_txs) as Hall by (by repeat constructor).
    rewrite Forall_forall in Hall. by apply Hall.
  - exact three_db_stored.
Defined.

Lemma FindTransactionInBlocks_digests_witness :
  (exists i, @FindTransactionInBlocks _ _ node_json three_db (tx_hash 7) 5 = Ok i) <->
  @digest_of toy_hasher (@hashed toy_hasher three_txs) (tx_hash 7).
Proof.
  apply (@FindTransactionInBlocks_digests _ _ _ node_json node_json_laws toy_hasher
           ∅ three_db three_root three_txs 5 (tx_hash 7)).
  - done.
  - by vm_compute.
  - exact three_db_stored.
Defined.

(** The transaction with hash 7 is in the block, and is not found. *)
Example transaction_not_found :
  @FindTransactionInBlocks _ _ node_json three_db (tx_hash 7) 5 = Err "tx hash not found".
Proof. vm_compute. reflexivity. Qed.
