(* ===== verification/PubKeys.v ===== *)
(** * Package pubkeys: the addresses and keys of a main address

    Models pubkeys/pubKeyHelper.go, the storage part of pubkeys/pubKeysTrie.go and
    the key-storing functions of blocks/processPubKey.go.  A main address owns a
    list of addresses, one per public key, and a Merkle tree over them. *)
From S2P Require Import Prelude GoInt GoSlice Common Keys Database Json Merkle.

Section PubKeys.
Context {D : Type} `{RocksDB D} `{JSON (list MerkleNode)} `{JSON PubKey} `{Hasher}.

Definition pk_tree_key (a : Address) : bytes := PubKeyMerkleTrieDBPrefix ++ Address_GetBytes a.
Definition pk_root_key (a : Address) : bytes := PubKeyRootHashMerkleTreeDBPrefix ++ Address_GetBytes a.
Definition pk_addresses_key (a : Address) : bytes := PubKeyBytesMerkleTrieDBPrefix ++ Address_GetBytes a.
Definition pk_marshal_key (a : bytes) : bytes := PubKeyMarshalDBPrefix ++ a.

(** [NewMerkleTree] of the addresses' bytes. *)
Definition BuildMerkleTree (addresses : list Address) : outcome (list MerkleNode) :=
  NewMerkleTree (map Address_GetBytes addresses).

Definition StoreAddressTree (root : list MerkleNode) (addresses : list Address) (address : Address)
    : ST D unit :=
  do! treeb <- st_lift (Marshal root MerkleNodeDBPrefix);
  run! db_put (pk_tree_key address) treeb;
  do! rh <- st_lift (GetRootHash root);
  run! db_put (pk_root_key address) rh;
  db_put (pk_addresses_key address) (concat (map Address_GetBytesWithPrimary addresses)).

Fixpoint init_addresses (l : list bytes) : outcome (list Address) :=
  match l with
  | [] => Ok []
  | b :: l => let! a := Address_Init zero_Address b in
              let! r := init_addresses l in
              Ok (a :: r)
  end.

Definition LoadAddresses (db : D) (mainAddress : Address) : outcome (list Address) :=
  let! pkbytes := DB_Get db (pk_addresses_key mainAddress) in
  init_addresses (chunks (AddressLength + 1) (length pkbytes / (AddressLength + 1)) pkbytes).

Definition LoadHashMerkleTreeByAddress (db : D) (mainAddress : Address) : outcome bytes :=
  DB_Get db (pk_root_key mainAddress).

Fixpoint all_in_tree (root : list MerkleNode) (l : list Address) : outcome bool :=
  match l with
  | [] => Ok true
  | a :: l => let! b := IsAddressInTree root a in
              if b then all_in_tree root l else Ok false
  end.

(** Build the tree of [as_], check that it holds every address, store it. *)
Definition store_checked_tree (as_ : list Address) (mainAddress : Address) (msg : string)
    : ST D unit :=
  do! root <- st_lift (BuildMerkleTree as_);
  do! ok <- st_lift (all_in_tree root as_);
  if ok then StoreAddressTree root as_ mainAddress else st_err msg.

Definition AddPubKeyToAddress (pk : PubKey) (mainAddress : Address) : ST D unit :=
  do! db <- st_get;
  do! as_ <- st_lift (LoadAddresses db mainAddress);
  do! address <- st_lift (PubKeyToAddress (pk_ByteValue pk) (pk_Primary pk));
  store_checked_tree (as_ ++ [address]) mainAddress "pubkey patricia trie fails to add pubkey".

(** A missing list of addresses counts as the empty list. *)
Definition load_or_empty (mainAddress : Address) : ST D (list Address) := fun db =>
  match LoadAddresses db mainAddress with
  | Err e => if String.eqb e "key not found" then (Ok [], db) else (Err e, db)
  | r => (r, db)
  end.

Definition CreateAddressFromFirstPubKey (p : PubKey) : ST D Address :=
  do! address <- st_lift (PubKeyToAddress (pk_ByteValue p) (pk_Primary p));
  do! as_ <- load_or_empty address;
  if (0 <? len as_) then st_err "there are just generated markle trie for given pubkey" else
  run! store_checked_tree [address] address "addresses patricia trie fails to initialize";
  st_ret address.

Definition LoadPubKey (db : D) (a : bytes) : outcome PubKey :=
  let! pkb := DB_Get db (pk_marshal_key a) in json_Unmarshal pkb.

(** The addresses are tried from the last one. *)
Fixpoint find_primary (db : D) (rev_addresses : list Address) (primary : bool) : outcome PubKey :=
  match rev_addresses with
  | [] => Err "no pubkey found"
  | addr :: l => if Bool.eqb (addr_Primary addr) primary then LoadPubKey db (Address_GetBytes addr)
                 else find_primary db l primary
  end.
Definition LoadPubKeyWithPrimary (db : D) (mainAddress : Address) (primary : bool) : outcome PubKey :=
  let! addresses := LoadAddresses db mainAddress in
  find_primary db (reverse addresses) primary.

(** ** Searching the tree of a main address *)

Definition LoadTreeWithoutAddresses (db : D) (mainAddress : Address) : outcome (list MerkleNode) :=
  let! treeb := DB_Get db (pk_tree_key mainAddress) in
  let! root := Unmarshal [] treeb in
  match DB_Get db (pk_root_key mainAddress), root with
  | Ok rootHash, n :: ns => Ok (set_Data n rootHash :: ns)
  | Ok _, [] => Ok []
  | Err e, _ => Err e
  | Panic, _ => Panic
  end.

(** The tree holds digests of addresses and is searched for the address itself. *)
Definition FindAddressForMainAddress (db : D) (mainAddress address : Address) : outcome Z :=
  let! root := LoadTreeWithoutAddresses db mainAddress in
  match root with
  | [] => Err "no merkle tree root hash"
  | r0 :: rs =>
      let (left, hl) := containsAddress r0 0 (Address_GetBytes address) in
      if left then Ok hl else
      match rs with
      | r1 :: _ => let (right, hr) := containsAddress r1 0 (Address_GetBytes address) in
                   if right then Ok hr else Err "pub key not found"
      | [] => Err "pub key not found"
      end
  end.

Definition RemoveAddressTreeFromDB (mainAddress : Address) : ST D unit :=
  run! db_delete (pk_root_key mainAddress);
  run! db_delete (pk_tree_key mainAddress);
  db_delete (pk_addresses_key mainAddress).

(** ** blocks/processPubKey.go *)

Definition StoreAddress (mainAddress : Address) (pk : PubKey) : ST D unit :=
  do! db <- st_get;
  do! index <- st_lift (FindAddressForMainAddress db mainAddress (pk_Address pk));
  if 0 <=? index then st_err "address just stored before" else
  AddPubKeyToAddress pk mainAddress.

Definition StorePubKey (pk : PubKey) : ST D unit :=
  do! a <- st_lift (PubKeyToAddress (pk_ByteValue pk) (pk_Primary pk));
  if negb (bytes_eqb (Address_GetBytes a) (Address_GetBytes (pk_Address pk)))
  then st_err "address is different in pubkey and recovered from bytes" else
  do! pkm <- st_lift (json_Marshal pk);
  db_put (pk_marshal_key (Address_GetBytes a)) pkm.

Definition StorePubKeyInPatriciaTrie (pk : PubKey) : ST D unit :=
  do! addresses <- load_or_empty (pk_MainAddress pk);
  match addresses with
  | [] =>
      do! mainAddress <- CreateAddressFromFirstPubKey pk;
      if negb (bytes_eqb (Address_GetBytes (pk_MainAddress pk)) (Address_GetBytes mainAddress))
      then st_err "error with creation of address from first pub key" else st_ret tt
  | _ =>
      if existsb (fun a => bytes_eqb (Address_GetBytes a) (Address_GetBytes (pk_Address pk))) addresses
      then st_ret tt else
      do! address <- st_lift (PubKeyToAddress (pk_ByteValue pk) (pk_Primary pk));
      store_checked_tree (addresses ++ [address]) (pk_MainAddress pk)
        "pubkey patricia trie fails to add pubkey"
  end.
End PubKeys.

(** ** The tree check never fails *)

Section Facts.
Context `{Hasher}.

Lemma all_in_tree_true root l :
  (forall a, a ∈ l -> IsAddressInTree root a = Ok true) -> all_in_tree root l = Ok true.
Proof.
  induction l as [|a l IH]; intros Hl; [done|]. cbn [all_in_tree].
  rewrite (Hl a) by (by left). cbn [obind]. apply IH. intros b Hb. apply Hl. by right.
Qed.

(** Every address of a built tree is found in it. *)
Lemma BuildMerkleTree_complete as_ : as_ <> [] ->
  exists root, BuildMerkleTree as_ = Ok root /\ all_in_tree root as_ = Ok true.
Proof.
  intros Hne. unfold BuildMerkleTree.
  destruct (NewMerkleTree_spec (map Address_GetBytes as_)) as (root & E & _ & _).
  exists root. split; [done|]. apply all_in_tree_true. intros a Ha.
  assert (map Address_GetBytes as_ <> []) as Hne' by (destruct as_; [done|discriminate]).
  destruct (NewMerkleTree_single _ _ Hne' E) as [r ->].
  assert (arr_bytes (blake2b_256 (Address_GetBytes a)) ∈ forest_digests [r]) as Hin.
  { eapply NewMerkleTree_forest; [exact E|]. exists (Address_GetBytes a). split; [|done].
    unfold hashed. rewrite elem_of_app. left. by apply list_elem_of_fmap_2. }
  unfold forest_digests in Hin. cbn in Hin. rewrite app_nil_r in Hin.
  apply (containsAddress_spec r 0) in Hin.
  unfold IsAddressInTree, CalcHashToByte. cbn [obind].
  change (index [r] 0) with (Ok r). cbn [obind]. by rewrite Hin.
Qed.

Lemma init_addresses_map l :
  init_addresses (map Address_GetBytesWithPrimary l) = Ok l.
Proof.
  induction l as [|a l IH]; [done|]. cbn [map init_addresses].
  rewrite Address_Init_GetBytesWithPrimary. cbn [obind]. by rewrite IH.
Qed.

Lemma init_addresses_chunks l :
  let b := concat (map Address_GetBytesWithPrimary l) in
  init_addresses (chunks (AddressLength + 1) (length b / (AddressLength + 1)) b) = Ok l.
Proof.
  cbv zeta.
  assert (forall x, x ∈ map Address_GetBytesWithPrimary l -> length x = (AddressLength + 1)%nat) as Hl.
  { intros x (a & -> & _)%list_elem_of_fmap. apply Address_GetBytesWithPrimary_length. }
  rewrite (concat_length_const _ (AddressLength + 1)) by done.
  rewrite Nat.mul_comm, Nat.div_mul by done. rewrite length_map.
  rewrite <- (length_map Address_GetBytesWithPrimary l), chunks_concat by done.
  apply init_addresses_map.
Qed.
End Facts.

Section StorageFacts.
Context {D : Type} `{RocksDBLaws D} `{JSON (list MerkleNode)} `{JSON PubKey} `{Hasher}.

Lemma StoreAddressTree_addresses root as_ main db db' :
  StoreAddressTree root as_ main db = (Ok tt, db') -> LoadAddresses db' main = Ok as_.
Proof.
  intros Hs. unfold StoreAddressTree in Hs.
  apply st_bind_ok_inv in Hs as (treeb & s1 & _ & Hs).
  apply st_bind_ok_inv in Hs as (? & db1 & _ & Hs).
  apply st_bind_ok_inv in Hs as (rh & s2 & _ & Hs).
  apply st_bind_ok_inv in Hs as (? & db2 & _ & Hs). apply db_put_inv in Hs.
  unfold LoadAddresses. rewrite (DB_Get_Put_eq _ _ _ _ Hs). apply init_addresses_chunks.
Qed.

Lemma store_checked_tree_inv as_ main msg db db' :
  store_checked_tree as_ main msg db = (Ok tt, db') ->
  exists root, BuildMerkleTree as_ = Ok root /\ StoreAddressTree root as_ main db = (Ok tt, db').
Proof.
  intros Hs. unfold store_checked_tree in Hs.
  apply st_bind_ok_inv in Hs as (root & s1 & Hb & Hs). unfold st_lift in Hb. injection Hb as Hb <-.
  apply st_bind_ok_inv in Hs as (ok & s2 & Ha & Hs). unfold st_lift in Ha. injection Ha as Ha <-.
  destruct ok; [eauto|done].
Qed.

(** Keys of other kinds are not touched. *)
Lemma StoreAddressTree_keeps root as_ main db db' k :
  StoreAddressTree root as_ main db = (Ok tt, db') ->
  k <> pk_tree_key main -> k <> pk_root_key main -> k <> pk_addresses_key main ->
  DB_Get db' k = DB_Get db k.
Proof.
  intros Hs N1 N2 N3. unfold StoreAddressTree in Hs.
  apply st_bind_ok_inv in Hs as (treeb & s1 & Hm & Hs). injection Hm as _ <-.
  apply st_bind_ok_inv in Hs as ([] & db1 & P1 & Hs). apply db_put_inv in P1.
  apply st_bind_ok_inv in Hs as (rh & s2 & Hr & Hs). injection Hr as _ <-.
  apply st_bind_ok_inv in Hs as ([] & db2 & P2 & Hs). apply db_put_inv in P2, Hs.
  by rewrite (DB_Get_Put_ne _ _ _ _ _ Hs), (DB_Get_Put_ne _ _ _ _ _ P2), (DB_Get_Put_ne _ _ _ _ _ P1).
Qed.

(** The key at an address is not one of the three keys of a tree. *)
Lemma marshal_key_differs a main :
  pk_marshal_key a <> pk_tree_key main /\ pk_marshal_key a <> pk_root_key main /\
  pk_marshal_key a <> pk_addresses_key main.
Proof. by repeat split. Qed.
End StorageFacts.

(** encoding/json writes an address as the text of its bytes (common/typesVM.go):
    what is read back has lost the flags of the addresses. *)
Definition forget_flags (pk : PubKey) : PubKey :=
  mk_PubKey (pk_ByteValue pk) (mk_Address (addr_ByteValue (pk_Address pk)) false)
    (mk_Address (addr_ByteValue (pk_MainAddress pk)) false) (pk_Primary pk).
Class PubKeyLaws `{JSON PubKey} := {
  pubkey_roundtrip pk b : json_Marshal pk = Ok b -> json_Unmarshal b = Ok (forget_flags pk)
}.

(** a public key announced for a main address that already has keys is
    appended to them without any proof of ownership, and from then on it is the
    key the node loads for that main address and scheme: the last key wins. *)
Theorem StorePubKey_last_key_wins {D} `{RocksDBLaws D} `{JSON (list MerkleNode)} `{PubKeyLaws}
    `{Hasher} (db db1 db2 : D) pk old :
  LoadAddresses db (pk_MainAddress pk) = Ok old -> old <> [] ->
  (forall a, a ∈ old -> Address_GetBytes a <> Address_GetBytes (pk_Address pk)) ->
  StorePubKey pk db = (Ok tt, db1) -> StorePubKeyInPatriciaTrie pk db1 = (Ok tt, db2) ->
  LoadAddresses db2 (pk_MainAddress pk) = Ok (old ++ [mk_Address (blake2b_160 (pk_ByteValue pk)) (pk_Primary pk)]) /\
  LoadPubKeyWithPrimary db2 (pk_MainAddress pk) (pk_Primary pk) = Ok (forget_flags pk).
Proof.
  intros Hold Hne Hnew Hs Ht. unfold StorePubKey in Hs. rewrite PubKeyToAddress_eq in Hs.
  apply st_bind_ok_inv in Hs as (a & s0 & Ha & Hs). injection Ha as <- <-.
  destruct (negb _) eqn:Eq; [done|]. apply negb_false_iff, bytes_eqb_iff in Eq.
  apply st_bind_ok_inv in Hs as (pkm & s1 & Hm & Hs). injection Hm as Hm <-.
  apply db_put_inv in Hs.
  set (a := mk_Address (blake2b_160 (pk_ByteValue pk)) (pk_Primary pk)) in *.
  unfold StorePubKeyInPatriciaTrie in Ht.
  apply st_bind_ok_inv in Ht as (as_ & s2 & Hl & Ht).
  assert (LoadAddresses db1 (pk_MainAddress pk) = Ok old) as Hold1.
  { unfold LoadAddresses in *. by rewrite (DB_Get_Put_ne _ _ _ _ _ Hs). }
  unfold load_or_empty in Hl. rewrite Hold1 in Hl. injection Hl as <- <-.
  destruct old as [|o old]; [done|]. set (os := o :: old) in *.
  replace (existsb _ os) with false in Ht.
  2: { symmetry. apply not_true_iff_false. rewrite existsb_exists. intros (x & Hx & E).
       apply bytes_eqb_iff in E. apply (Hnew x); [by apply list_elem_of_In|done]. }
  rewrite PubKeyToAddress_eq in Ht.
  apply st_bind_ok_inv in Ht as (a' & s3 & Ha' & Ht). injection Ha' as <- <-.
  apply store_checked_tree_inv in Ht as (root & _ & Ht).
  pose proof (StoreAddressTree_addresses _ _ _ _ _ Ht) as Hl. split; [done|].
  unfold LoadPubKeyWithPrimary. rewrite Hl. cbn [obind]. rewrite reverse_snoc. cbn [find_primary].
  fold a. rewrite eqb_reflx. unfold LoadPubKey.
  destruct (marshal_key_differs (Address_GetBytes a) (pk_MainAddress pk)) as (N1 & N2 & N3).
  rewrite (StoreAddressTree_keeps _ _ _ _ _ _ Ht N1 N2 N3), (DB_Get_Put_eq _ _ _ _ Hs). cbn [obind].
  by eapply pubkey_roundtrip.
Qed.

(** ** Closed example *)

Definition addr_pair (a : Address) := (addr_ByteValue a, addr_Primary a).
Definition pair_addr (p : array AddressLength * bool) := mk_Address p.1 p.2.
Lemma pair_addr_pair a : pair_addr (addr_pair a) = a.
Proof. by destruct a. Qed.
#[export] Instance Address_countable : Countable Address := inj_countable' addr_pair pair_addr pair_addr_pair.
#[export] Instance PubKey_eq_dec : EqDecision PubKey.
Proof. solve_decision. Defined.
Definition pk_tuple (p : PubKey) := (pk_ByteValue p, pk_Address p, pk_MainAddress p, pk_Primary p).
Definition tuple_pk (t : bytes * Address * Address * bool) : PubKey :=
  mk_PubKey t.1.1.1 t.1.1.2 t.1.2 t.2.
Lemma tuple_pk_tuple p : tuple_pk (pk_tuple p) = p.
Proof. by destruct p. Qed.
#[export] Instance PubKey_countable : Countable PubKey := inj_countable' pk_tuple tuple_pk tuple_pk_tuple.
Definition pk_json : JSON PubKey := {|
  json_Marshal pk := @json_Marshal _ (json_countable PubKey) pk;
  json_Unmarshal b := let! pk := @json_Unmarshal _ (json_countable PubKey) b in Ok (forget_flags pk) |}.
Lemma pk_json_laws : @PubKeyLaws pk_json.
Proof.
  split. intros pk b E. unfold json_Unmarshal, pk_json.
  by rewrite (@json_roundtrip _ _ (json_countable_laws PubKey) pk b E).
Qed.

Definition toy_address (b : bytes) : Address := mk_Address (@blake2b_160 toy_hasher b) true.
Definition owner_key : PubKey :=
  mk_PubKey (tx_hash 1) (toy_address (tx_hash 1)) (toy_address (tx_hash 1)) true.
(** Another key that names the owner's main address. *)
Definition other_key : PubKey :=
  mk_PubKey (tx_hash 2) (toy_address (tx_hash 2)) (toy_address (tx_hash 1)) true.

Definition owner_db : gmap bytes bytes :=
  snd (@CreateAddressFromFirstPubKey _ _ node_json toy_hasher owner_key (∅ : gmap bytes bytes)).
Definition other_db1 : gmap bytes bytes := snd (@StorePubKey _ _ pk_json toy_hasher other_key owner_db).
Definition other_db2 : gmap bytes bytes :=
  snd (@StorePubKeyInPatriciaTrie _ _ node_json toy_hasher other_key other_db1).

Lemma StorePubKey_last_key_wins_witness :
  LoadAddresses other_db2 (toy_address (tx_hash 1))
    = Ok ([toy_address (tx_hash 1)] ++ [toy_address (tx_hash 2)]) /\
  @LoadPubKeyWithPrimary _ _ pk_json other_db2 (toy_address (tx_hash 1)) true = Ok (forget_flags other_key).
Proof.
  apply (@StorePubKey_last_key_wins _ _ map_store_laws node_json pk_json pk_json_laws toy_hasher
           owner_db other_db1 other_db2 other_key [toy_address (tx_hash 1)]).
  - by vm_compute.
  - done.
  - intros a ->%list_elem_of_singleton. by vm_compute.
  - vm_cast_no_check (eq_refl (Ok tt, other_db1)).
  - vm_cast_no_check (eq_refl (Ok tt, other_db2)).
Defined.
