(* ===== verification/Tx.v ===== *)
(** * Package transactionsDefinition: transactions

    Models transactionsDefinition/baseTransaction.go, tx.go and transaction.go:
    parameters, data and transactions, their binary format and hash, storage by
    hash, and [Verify]. *)
From S2P Require Import Prelude GoInt GoSlice Common Keys Database Codec Json Accounts EncScheme.
From S2P Require Import Merkle PubKeys.

Record TxParam := mk_TxParam {
  ChainID : Z; Sender : Address; SendingTime : Z; Nonce : Z; MultiSignTx : Hash
}.

Record TxData := mk_TxData {
  Recipient : Address;
  Amount : Z;
  OptData : bytes;
  td_Pubkey : PubKey;
  td_LockedAmount : Z;
  td_ReleasePerBlock : Z;
  DelegatedAccountForLocking : Address;
  EscrowTransactionsDelay : Z;
  td_MultiSignNumber : byte;
  td_MultiSignAddresses : list addr20
}.

Record Transaction := mk_Transaction {
  tx_Data : TxData;
  tx_Param : TxParam;
  tx_Hash : Hash;
  tx_Signature : Signature;
  tx_Height : Z;
  GasPrice : Z;
  GasUsage : Z;
  OutputLogs : bytes;
  ContractAddress : Address
}.

Definition zero_TxParam : TxParam := mk_TxParam 0 zero_Address 0 0 (arr_zero _).
Definition zero_TxData : TxData :=
  mk_TxData zero_Address 0 [] zero_PubKey 0 0 zero_Address 0 (byte_of_Z 0) [].
Definition zero_Transaction : Transaction :=
  mk_Transaction zero_TxData zero_TxParam (arr_zero _) zero_Signature 0 0 0 [] zero_Address.

Definition set_Hash (tx : Transaction) (h : Hash) : Transaction :=
  mk_Transaction (tx_Data tx) (tx_Param tx) h (tx_Signature tx) (tx_Height tx) (GasPrice tx)
    (GasUsage tx) (OutputLogs tx) (ContractAddress tx).

(** ** Parameters *)

Definition TxParam_GetBytes (tp : TxParam) : bytes :=
  GetByteInt16 (ChainID tp) ++ Address_GetBytesWithPrimary (Sender tp)
  ++ GetByteInt64 (SendingTime tp) ++ GetByteInt16 (Nonce tp)
  ++ BytesToLenAndBytes (Hash_GetBytes (MultiSignTx tp)).

(** The receiver is a zero value; an all-zero hash of 32 bytes is left unset. *)
Definition TxParam_GetFromBytes (b : bytes) : outcome (TxParam * bytes) :=
  if (length b <? 34)%nat then Err "not enough bytes in TxParam unmarshaling" else
  let! s := slice_to b 2 in
  let! chainID := GetInt16FromByte s in
  let! s := slice b 2 23 in
  let! sender := BytesToAddress s in
  let! s := slice b 23 31 in
  let! sendingTime := GetInt64FromByte s in
  let! s := slice b 31 33 in
  let! nonce := GetInt16FromByte s in
  let! s := slice_from b 33 in
  match BytesWithLenToBytes s with
  | Err _ => Err "not enough bytes in TxParam unmarshaling (multisig hash tx)"
  | Panic => Panic
  | Ok (vb, rest) =>
      let h := if bytes_eqb vb (zeros HashLength) then arr_zero _ else arr_copy (arr_zero _) vb in
      Ok (mk_TxParam chainID sender sendingTime nonce h, rest)
  end.

(** ** Data *)

Definition TxData_optional (md : TxData) : bytes :=
  BytesToLenAndBytes (OptData md)
  ++ BytesToLenAndBytes (Address_GetBytesWithPrimary (pk_MainAddress (td_Pubkey md)))
  ++ BytesToLenAndBytes (pk_ByteValue (td_Pubkey md))
  ++ BytesToLenAndBytes (GetByteInt64 (td_LockedAmount md))
  ++ BytesToLenAndBytes (GetByteInt64 (td_ReleasePerBlock md))
  ++ BytesToLenAndBytes (Address_GetBytes (DelegatedAccountForLocking md))
  ++ BytesToLenAndBytes (GetByteInt64 (EscrowTransactionsDelay md))
  ++ BytesToLenAndBytes [td_MultiSignNumber md]
  ++ concat (map (fun msa => BytesToLenAndBytes (arr_bytes msa)) (td_MultiSignAddresses md)).

Definition TxData_GetBytes (md : TxData) : bytes :=
  let bl := TxData_optional md in
  Address_GetBytesWithPrimary (Recipient md) ++ GetByteInt64 (Amount md)
  ++ (if bytes_eqb bl (zeros (length bl)) then [] else BytesToLenAndBytes bl).

(** [n] length-prefixed addresses, each copied into a fresh array. *)
Fixpoint read_msas (n : nat) (rest : bytes) : outcome (list addr20) :=
  match n with
  | O => Ok []
  | S n => let! (d, rest) := BytesWithLenToBytes rest in
           let! l := read_msas n rest in
           Ok (arr_of AddressLength d :: l)
  end.

(** The multi-signature tail: the number of addresses is taken to be
    [len(left)/20], while every address takes 24 bytes. *)
Definition read_multisign (msn : byte) (rest : bytes) : outcome (list addr20) :=
  if (0 <? length rest)%nat then
    let lenAccMS := (length rest / 20)%nat in
    if Z.of_nat lenAccMS <? byte_to_Z msn
    then Err "wrongly defined multisign account in transaction" else read_msas lenAccMS rest
  else Ok [].

(** The main address: the error of the length-prefixed read is overwritten, a
    failed [Init] is accepted when the bytes after the first are zero, and
    [ma[1:]] panics on an empty slice. *)
Definition read_main_address (rest : bytes) : outcome (Address * bytes) :=
  let! (ma, rest) := match BytesWithLenToBytes rest with Err _ => Ok ([], []) | r => r end in
  let! tl := slice_from ma 1 in
  match Address_Init zero_Address ma with
  | Ok a => Ok (a, rest)
  | Err e => if bytes_eqb tl (zeros (length tl)) then Ok (zero_Address, rest) else Err e
  | Panic => Panic
  end.

(** [err != nil && len(pk) > 0] *)
Definition init_pubkey `{Hasher} (ec : EncryptionConfig) (pk : bytes) (main : Address) : outcome PubKey :=
  match PubKey_Init ec pk main with
  | Ok p => Ok p
  | Err e => if (0 <? length pk)%nat then Err e else Ok zero_PubKey
  | Panic => Panic
  end.

Definition TxData_GetFromBytes `{Hasher} (ec : EncryptionConfig) (data : bytes) : outcome (TxData * bytes) :=
  let! s := slice_to data (Z.of_nat AddressLength + 1) in
  let! recipient := BytesToAddress s in
  let! s := slice data (Z.of_nat AddressLength + 1) (Z.of_nat AddressLength + 9) in
  let! amount := GetInt64FromByte s in
  let! s := slice_from data (Z.of_nat AddressLength + 9) in
  let! (bl, leftBl) := BytesWithLenToBytes s in
  if bytes_eqb bl (zeros (length bl))
  then Ok (mk_TxData recipient amount [] zero_PubKey 0 0 zero_Address 0 (byte_of_Z 0) [], leftBl) else
  let! (opt, rest) := BytesWithLenToBytes bl in
  let! (mainAddress, rest) := read_main_address rest in
  let! (pk, rest) := BytesWithLenToBytes rest in
  let! pubkey := init_pubkey ec pk mainAddress in
  let! (la, rest) := BytesWithLenToBytes rest in
  let! lockedAmount := GetInt64FromByte la in
  let! (rpb, rest) := BytesWithLenToBytes rest in
  let! releasePerBlock := GetInt64FromByte rpb in
  let! (dal, rest) := BytesWithLenToBytes rest in
  let! delegated := BytesToAddress dal in
  let! (etd, rest) := BytesWithLenToBytes rest in
  let! escrow := GetInt64FromByte etd in
  let! (msn, rest) := BytesWithLenToBytes rest in
  let! msn0 := index msn 0 in
  let! msas := read_multisign msn0 rest in
  Ok (mk_TxData recipient amount opt pubkey lockedAmount releasePerBlock delegated escrow msn0 msas,
      leftBl).

(** ** Transactions *)

Definition GetBytesWithoutSignature (tx : Transaction) (withHash : bool) : bytes :=
  TxParam_GetBytes (tx_Param tx) ++ TxData_GetBytes (tx_Data tx)
  ++ GetByteInt64 (tx_Height tx) ++ GetByteInt64 (GasPrice tx) ++ GetByteInt64 (GasUsage tx)
  ++ (if withHash then Hash_GetBytes (tx_Hash tx) else []).

Definition CalcHashAndSet `{Hasher} (tx : Transaction) : outcome Transaction :=
  let! hash := CalcHashFromBytes (GetBytesWithoutSignature tx false) in
  Ok (set_Hash tx hash).

Definition Transaction_GetBytes (tx : Transaction) : bytes :=
  GetBytesWithoutSignature tx true
  ++ BytesToLenAndBytes (sig_ByteValue (tx_Signature tx))
  ++ Address_GetBytes (ContractAddress tx)
  ++ BytesToLenAndBytes (OutputLogs tx).

Definition Transaction_GetFromBytes `{Hasher} (ec : EncryptionConfig) (b : bytes)
    : outcome (Transaction * bytes) :=
  if (len b <? 76 + SignatureLength ec + 1) && (len b <? 76 + SignatureLength2 ec + 1)
  then Err "Not enough bytes for transaction unmarshal" else
  let! (tp, b) := TxParam_GetFromBytes b in
  let! (adata, b) := TxData_GetFromBytes ec b in
  let! s := slice_to b 8 in
  let! height := GetInt64FromByte s in
  let! s := slice b 8 16 in
  let! gasPrice := GetInt64FromByte s in
  let! s := slice b 16 24 in
  let! gasUsage := GetInt64FromByte s in
  let! s := slice b 24 56 in
  let hash := GetHashFromBytes s in
  let! s := slice_from b 56 in
  let! (vb, leftb) := BytesWithLenToBytes s in
  let! signature := GetSignatureFromBytes ec vb (Sender tp) in
  let! s := slice_to leftb 20 in
  let! contract := Address_Init zero_Address s in
  let! s := slice_from leftb 20 in
  let! (logs, leftb2) := BytesWithLenToBytes s in
  Ok (mk_Transaction adata tp hash signature height gasPrice gasUsage logs contract, leftb2).

Definition GasUsageEstimate (tx : Transaction) : Z :=
  len (OptData (tx_Data tx)) * 100 + len (pk_ByteValue (td_Pubkey (tx_Data tx))) * 100 + 30000.

Definition EmptyTransaction `{Hasher} (ec : EncryptionConfig) : outcome Transaction :=
  let tx := mk_Transaction
    (mk_TxData EmptyAddress 0 [] zero_PubKey 0 0 zero_Address 0 (byte_of_Z 0) [])
    (mk_TxParam 0 EmptyAddress 0 0 (arr_zero _)) EmptyHash zero_Signature 0 0 0 [] zero_Address in
  let! tx := CalcHashAndSet tx in
  Ok (mk_Transaction (tx_Data tx) (tx_Param tx) (tx_Hash tx) (EmptySignature ec) (tx_Height tx)
        (GasPrice tx) (GasUsage tx) (OutputLogs tx) (ContractAddress tx)).

(** ** Storage by hash *)

Section Storage.
Context {D : Type} `{RocksDB D} `{Hasher}.

Definition StoreToDBPoolTx (tx : Transaction) (prefix : bytes) : ST D unit :=
  let bt := Transaction_GetBytes tx in
  if (length bt =? 0)%nat then st_err "transaction has no body. storing fails: StoreToDBPoolTx" else
  db_put (prefix ++ Hash_GetBytes (tx_Hash tx)) bt.

Definition RemoveFromDBPoolTx (tx : Transaction) (prefix : bytes) : ST D unit :=
  db_delete (prefix ++ Hash_GetBytes (tx_Hash tx)).

Definition RemoveTransactionFromDBbyHash (prefix hash : bytes) : ST D unit := db_delete (prefix ++ hash).

(** An entry without bytes is deleted. *)
Definition LoadFromDBPoolTx (ec : EncryptionConfig) (prefix hashTransaction : bytes) : ST D Transaction :=
  do! bt <- db_get (prefix ++ hashTransaction);
  if (length bt =? 0)%nat then
    run! db_delete (prefix ++ hashTransaction);
    st_err "in database transaction has no bytes stored"
  else do! (at_, _) <- st_lift (Transaction_GetFromBytes ec bt); st_ret at_.

Definition CheckFromDBPoolTx (db : D) (prefix hashTransaction : bytes) : outcome bool :=
  match DB_IsKey db (prefix ++ hashTransaction) with
  | Err _ => Ok false
  | r => r
  end.
End Storage.

(** ** Verification *)

Section VerifyTx.
Context {D : Type} `{RocksDB D} `{JSON PubKey} `{Hasher} `{OqsLib}.

(** The checks of a locked stake. *)
Definition lock_ok (tx : Transaction) : outcome bool :=
  let td := tx_Data tx in
  if 0 <? td_LockedAmount td then
    let r := IntDelegatedAccountFromAddress (DelegatedAccountForLocking td) in
    match r with Panic => Panic | _ =>
      Ok (negb ((deleg_n r <? 0) || (256 <? deleg_n r) || negb (deleg_ok r))
          && negb (td_LockedAmount td <? 0)
          && negb (Amount td <? td_LockedAmount td)
          && negb (td_ReleasePerBlock td <? 0)
          && negb (td_LockedAmount td <? td_ReleasePerBlock td))
    end
  else Ok true.

(** The modifications of the recipient account a transaction may ask for. *)
Definition modification_ok (at_ : AccountsType) (td : TxData) : outcome bool :=
  let! can := CanBeModifiedAccount at_ (Address_GetBytes (Recipient td)) in
  if negb can && ((0 <? EscrowTransactionsDelay td) || (0 <? byte_to_Z (td_MultiSignNumber td)))
  then Ok false
  else if 0 <? EscrowTransactionsDelay td then
    if MaxTransactionDelay <? EscrowTransactionsDelay td then Ok false
    else Ok (negb ((0 <? byte_to_Z (td_MultiSignNumber td))
                   && (len (td_MultiSignAddresses td) <? byte_to_Z (td_MultiSignNumber td))))
  else if EscrowTransactionsDelay td <? 0 then Ok false
  else Ok (negb ((0 <? byte_to_Z (td_MultiSignNumber td))
                 && (len (td_MultiSignAddresses td) <? byte_to_Z (td_MultiSignNumber td)))).

(** The key that checks the signature: the one in the transaction, or the one
    stored for the sender. *)
Definition verification_key (db : D) (tx : Transaction) (primary : bool) : outcome bytes :=
  let pkb := pk_ByteValue (td_Pubkey (tx_Data tx)) in
  if (length pkb =? 0)%nat
  then ofmap pk_ByteValue (LoadPubKeyWithPrimary db (Sender (tx_Param tx)) primary)
  else Ok pkb.

(** [Verify] leaves the recomputed hash in the transaction. *)
Definition Transaction_Verify (ec : EncryptionConfig) (at_ : AccountsType) (db : D) (tx : Transaction)
    : outcome (bool * Transaction) :=
  let td := tx_Data tx in
  let r := IntDelegatedAccountFromAddress (Recipient td) in
  if (Amount td <? 0) && negb (deleg_ok r) && (deleg_n r <? 512) then Ok (false, tx) else
  let! lk := lock_ok tx in
  if negb lk then Ok (false, tx) else
  let! md := modification_ok at_ td in
  if negb md then Ok (false, tx) else
  let b := Hash_GetBytes (tx_Hash tx) in
  let! tx := CalcHashAndSet tx in
  if negb (bytes_eqb b (Hash_GetBytes (tx_Hash tx))) then Ok (false, tx) else
  let sig := sig_ByteValue (tx_Signature tx) in
  let! s0 := index sig 0 in
  match verification_key db tx (byte_to_Z s0 =? 0) with
  | Err _ => Ok (false, tx)
  | Panic => Panic
  | Ok pkb => let! ok := Verify ec b sig pkb in Ok (ok, tx)
  end.
End VerifyTx.

(** ** Round trip of the parameters *)

Record param_ok (tp : TxParam) : Prop := {
  pok_chain : in16 (ChainID tp); pok_time : in64 (SendingTime tp); pok_nonce : in16 (Nonce tp)
}.

Lemma short_arr {n} (a : array n) : Z.of_nat n < 2 ^ 32 -> short a.
Proof. intros Hn. unfold short. rewrite (arr_length a). lia. Qed.

Lemma TxParam_GetBytes_length tp : length (TxParam_GetBytes tp) = 69%nat.
Proof.
  unfold TxParam_GetBytes. rewrite !length_app, !GetByteInt16_length, GetByteInt64_length,
    Address_GetBytesWithPrimary_length, BytesToLenAndBytes_length. unfold Hash_GetBytes.
  by rewrite (arr_length (MultiSignTx tp)).
Qed.

Lemma TxParam_roundtrip tp rest : param_ok tp ->
  TxParam_GetFromBytes (TxParam_GetBytes tp ++ rest) = Ok (tp, rest).
Proof.
  intros [Hc Ht Hn]. unfold TxParam_GetFromBytes.
  rewrite length_app, TxParam_GetBytes_length. cbn [Nat.add Nat.ltb Nat.leb].
  unfold TxParam_GetBytes. rewrite <- !app_assoc.
  set (c := GetByteInt16 (ChainID tp)). set (s := Address_GetBytesWithPrimary (Sender tp)).
  set (t := GetByteInt64 (SendingTime tp)). set (n := GetByteInt16 (Nonce tp)).
  set (m := BytesToLenAndBytes _).
  assert (length c = 2%nat) as Lc by apply GetByteInt16_length.
  assert (length s = 21%nat) as Ls by apply Address_GetBytesWithPrimary_length.
  assert (length t = 8%nat) as Lt by apply GetByteInt64_length.
  assert (length n = 2%nat) as Ln by apply GetByteInt16_length.
  rewrite slice_prefix by lia. cbn [obind]. unfold c at 1.
  rewrite GetInt16FromByte_exact by done. cbn [obind].
  rewrite (slice_app_exact c s) by lia. cbn [obind]. unfold s at 1.
  rewrite BytesToAddress_GetBytesWithPrimary. cbn [obind].
  rewrite (app_assoc c s), (slice_app_exact (c ++ s) t) by (rewrite length_app; lia). cbn [obind].
  unfold t at 1. rewrite GetInt64FromByte_exact by done. cbn [obind].
  rewrite (app_assoc (c ++ s) t), (slice_app_exact ((c ++ s) ++ t) n) by (rewrite !length_app; lia).
  cbn [obind]. unfold n at 1. rewrite GetInt16FromByte_exact by done. cbn [obind].
  rewrite (app_assoc ((c ++ s) ++ t) n), slice_suffix by (rewrite !length_app; lia). cbn [obind].
  unfold m, Hash_GetBytes. rewrite BytesWithLenToBytes_app by (by apply short_arr).
  rewrite arr_copy_arr. destruct (bytes_eqb _ _) eqn:E.
  - apply bytes_eqb_iff in E. destruct tp; cbn in *. do 3 f_equal. by apply arr_eq.
  - by destruct tp.
Qed.

(** ** Round trip of the data *)

(** Data the format can carry: fields in range, byte strings that fit their
    length prefix, a public key that its initialiser rebuilds, the flag of the
    locking account set, and at most four multi-signature addresses. *)
Record data_ok `{Hasher} (ec : EncryptionConfig) (td : TxData) : Prop := {
  dok_amount : in64 (Amount td);
  dok_locked : in64 (td_LockedAmount td);
  dok_release : in64 (td_ReleasePerBlock td);
  dok_escrow : in64 (EscrowTransactionsDelay td);
  dok_opt : short (OptData td);
  dok_pk : short (pk_ByteValue (td_Pubkey td));
  dok_init : init_pubkey ec (pk_ByteValue (td_Pubkey td)) (pk_MainAddress (td_Pubkey td)) = Ok (td_Pubkey td);
  dok_flag : addr_Primary (DelegatedAccountForLocking td) = true;
  dok_msas : (length (td_MultiSignAddresses td) <= 4)%nat;
  dok_msn : td_MultiSignAddresses td = [] \/
            byte_to_Z (td_MultiSignNumber td) <= len (td_MultiSignAddresses td);
  dok_optional : short (TxData_optional td)
}.

Definition msas_bytes (l : list addr20) : bytes :=
  concat (map (fun msa => BytesToLenAndBytes (arr_bytes msa)) l).

Lemma msas_bytes_length l : length (msas_bytes l) = (24 * length l)%nat.
Proof.
  unfold msas_bytes. apply concat_map_length_const. intros x.
  rewrite BytesToLenAndBytes_length, (arr_length x). done.
Qed.

Lemma read_msas_app l : read_msas (length l) (msas_bytes l) = Ok l.
Proof.
  induction l as [|a l IH]; [done|]. unfold msas_bytes in *. cbn [length map concat read_msas].
  rewrite BytesWithLenToBytes_app by (by apply short_arr). cbn [obind]. rewrite IH. cbn [obind].
  by rewrite arr_of_arr.
Qed.

(** One address too many runs out of bytes. *)
Lemma read_msas_too_many l n : (length l < n)%nat ->
  read_msas n (msas_bytes l) = Err "input byte slice is too short".
Proof.
  revert n. induction l as [|a l IH]; intros [|n] Hn; cbn [length] in Hn; try lia.
  - done.
  - unfold msas_bytes in *. cbn [map concat read_msas].
    rewrite BytesWithLenToBytes_app by (by apply short_arr). cbn [obind]. rewrite IH by lia. done.
Qed.

Lemma read_multisign_app msn l : (length l <= 4)%nat ->
  l = [] \/ byte_to_Z msn <= len l -> read_multisign msn (msas_bytes l) = Ok l.
Proof.
  intros H4 Hm. unfold read_multisign. rewrite msas_bytes_length.
  destruct l as [|a l]; [done|]. set (l' := a :: l) in *.
  replace (0 <? 24 * length l')%nat with true by (symmetry; apply Nat.ltb_lt; cbn; lia).
  replace (24 * length l' / 20)%nat with (length l')
    by (destruct l as [|? [|? [|? [|]]]]; cbn in H4; done || lia).
  replace (_ <? _) with false; [by apply read_msas_app|].
  symmetry. apply Z.ltb_ge. destruct Hm as [|Hm]; [done|exact Hm].
Qed.

Lemma TxData_optional_not_zeros td n : bytes_eqb (TxData_optional td) (zeros n) = false.
Proof.
  apply not_true_iff_false. intros E%bytes_eqb_iff.
  assert (Forall (fun b => b = "000"%byte) (TxData_optional td)) as Hall
    by (rewrite E; apply Forall_replicate, eq_refl).
  unfold TxData_optional in Hall. apply Forall_app in Hall as [_ Hall].
  apply Forall_app in Hall as [Hall _].
  unfold BytesToLenAndBytes in Hall. rewrite Address_GetBytesWithPrimary_length in Hall.
  apply Forall_app in Hall as [Hall _].
  assert (be_bytes 4 (u32 (i32 (Z.of_nat 21))) = zeros 3 ++ [byte_of_Z 21]) as Hb by (by vm_compute).
  rewrite Hb in Hall. apply Forall_app in Hall as [_ Hall]. apply Forall_cons in Hall as [Hx _].
  by vm_compute in Hx.
Qed.

Lemma read_main_address_app a rest :
  read_main_address (BytesToLenAndBytes (Address_GetBytesWithPrimary a) ++ rest) = Ok (a, rest).
Proof.
  unfold read_main_address.
  rewrite BytesWithLenToBytes_app
    by (unfold short; rewrite Address_GetBytesWithPrimary_length; done).
  cbn [obind]. unfold slice_from. rewrite Address_GetBytesWithPrimary_length.
  rewrite slice_le by (rewrite ?Address_GetBytesWithPrimary_length; cbn; lia). cbn [obind].
  by rewrite Address_Init_GetBytesWithPrimary.
Qed.

Lemma short_int64 z : short (GetByteInt64 z).
Proof. unfold short. by rewrite GetByteInt64_length. Qed.

Section DataFacts.
Context `{Hasher}.

Lemma TxData_head (ec : EncryptionConfig) r amount bl rest : in64 amount -> short bl ->
  bytes_eqb bl (zeros (length bl)) = false ->
  forall k, TxData_GetFromBytes ec
    (Address_GetBytesWithPrimary r ++ GetByteInt64 amount ++ BytesToLenAndBytes bl ++ rest) = k ->
  (let! (opt, left_) := BytesWithLenToBytes bl in
   let! (mainAddress, left_) := read_main_address left_ in
   let! (pk, left_) := BytesWithLenToBytes left_ in
   let! pubkey := init_pubkey ec pk mainAddress in
   let! (la, left_) := BytesWithLenToBytes left_ in
   let! lockedAmount := GetInt64FromByte la in
   let! (rpb, left_) := BytesWithLenToBytes left_ in
   let! releasePerBlock := GetInt64FromByte rpb in
   let! (dal, left_) := BytesWithLenToBytes left_ in
   let! delegated := BytesToAddress dal in
   let! (etd, left_) := BytesWithLenToBytes left_ in
   let! escrow := GetInt64FromByte etd in
   let! (msn, left_) := BytesWithLenToBytes left_ in
   let! msn0 := index msn 0 in
   let! msas := read_multisign msn0 left_ in
   Ok (mk_TxData r amount opt pubkey lockedAmount releasePerBlock delegated escrow msn0 msas, rest))
  = k.
Proof.
  intros Ha Hs Hz k <-. unfold TxData_GetFromBytes.
  set (R := Address_GetBytesWithPrimary r). set (A := GetByteInt64 amount).
  assert (length R = 21%nat) as LR by apply Address_GetBytesWithPrimary_length.
  assert (length A = 8%nat) as LA by apply GetByteInt64_length.
  change (Z.of_nat AddressLength + 1) with 21. change (Z.of_nat AddressLength + 9) with 29.
  rewrite slice_prefix by lia. cbn [obind]. unfold R at 1.
  rewrite BytesToAddress_GetBytesWithPrimary. cbn [obind].
  rewrite (slice_app_exact R A) by lia. cbn [obind]. unfold A at 1.
  rewrite GetInt64FromByte_exact by done. cbn [obind].
  rewrite (app_assoc R A), slice_suffix by (rewrite length_app; lia). cbn [obind].
  rewrite BytesWithLenToBytes_app by done. cbn [obind]. by rewrite Hz.
Qed.

(** Everything of the data but its multi-signature tail is read back. *)
Lemma TxData_tail ec td rest :
  in64 (Amount td) -> in64 (td_LockedAmount td) -> in64 (td_ReleasePerBlock td) ->
  in64 (EscrowTransactionsDelay td) -> short (OptData td) -> short (pk_ByteValue (td_Pubkey td)) ->
  init_pubkey ec (pk_ByteValue (td_Pubkey td)) (pk_MainAddress (td_Pubkey td)) = Ok (td_Pubkey td) ->
  addr_Primary (DelegatedAccountForLocking td) = true -> short (TxData_optional td) ->
  TxData_GetFromBytes ec (TxData_GetBytes td ++ rest) =
  (let! msas := read_multisign (td_MultiSignNumber td) (msas_bytes (td_MultiSignAddresses td)) in
   Ok (mk_TxData (Recipient td) (Amount td) (OptData td) (td_Pubkey td) (td_LockedAmount td)
         (td_ReleasePerBlock td) (DelegatedAccountForLocking td) (EscrowTransactionsDelay td)
         (td_MultiSignNumber td) msas, rest)).
Proof.
  intros Ha Hl Hr He Ho Hp Hi Hf Hs. unfold TxData_GetBytes. cbv zeta.
  rewrite TxData_optional_not_zeros, <- !app_assoc.
  symmetry. erewrite <- (TxData_head ec (Recipient td) (Amount td) (TxData_optional td) rest);
    [|done|done|apply TxData_optional_not_zeros|reflexivity].
  symmetry. unfold TxData_optional.
  rewrite BytesWithLenToBytes_app by done. cbn [obind].
  rewrite read_main_address_app. cbn [obind].
  rewrite BytesWithLenToBytes_app by done. cbn [obind]. rewrite Hi. cbn [obind].
  do 2 (rewrite BytesWithLenToBytes_app by apply short_int64; cbn [obind];
        rewrite GetInt64FromByte_exact by done; cbn [obind]).
  rewrite BytesWithLenToBytes_app by (by apply short_arr). cbn [obind].
  rewrite BytesToAddress_GetBytes. cbn [obind].
  rewrite BytesWithLenToBytes_app by apply short_int64. cbn [obind].
  rewrite GetInt64FromByte_exact by done. cbn [obind].
  rewrite BytesWithLenToBytes_app by done. cbn [obind].
  change (index [td_MultiSignNumber td] 0) with (Ok (td_MultiSignNumber td)). cbn [obind].
  destruct (DelegatedAccountForLocking td) as [v f]. cbn in Hf |- *. by subst f.
Qed.

Lemma TxData_roundtrip ec td rest : data_ok ec td ->
  TxData_GetFromBytes ec (TxData_GetBytes td ++ rest) = Ok (td, rest).
Proof.
  intros []. rewrite TxData_tail by done. rewrite read_multisign_app by done. cbn [obind].
  by destruct td.
Qed.
End DataFacts.

(** ** Round trip of transactions *)

(** Transactions the format can carry.  The signature is one its initialiser
    rebuilds for the sender, and the encoding reaches the decoder's lower bound. *)
Record tx_ok `{Hasher} (ec : EncryptionConfig) (tx : Transaction) : Prop := {
  xok_param : param_ok (tx_Param tx);
  xok_data : data_ok ec (tx_Data tx);
  xok_height : in64 (tx_Height tx);
  xok_price : in64 (GasPrice tx);
  xok_usage : in64 (GasUsage tx);
  xok_sig_short : short (sig_ByteValue (tx_Signature tx));
  xok_sig : Signature_Init ec (sig_ByteValue (tx_Signature tx)) (Sender (tx_Param tx)) = Ok (tx_Signature tx);
  xok_contract : addr_Primary (ContractAddress tx) = true;
  xok_logs : short (OutputLogs tx);
  xok_min : 76 + SignatureLength ec + 1 <= len (Transaction_GetBytes tx) \/
            76 + SignatureLength2 ec + 1 <= len (Transaction_GetBytes tx)
}.

Section TxFacts.
Context `{Hasher}.

Lemma Transaction_roundtrip ec tx : tx_ok ec tx ->
  Transaction_GetFromBytes ec (Transaction_GetBytes tx) = Ok (tx, []).
Proof.
  intros []. unfold Transaction_GetFromBytes.
  replace ((_ <? _) && (_ <? _)) with false
    by (symmetry; apply andb_false_iff; destruct xok_min0; [left|right]; apply Z.ltb_ge; lia).
  unfold Transaction_GetBytes, GetBytesWithoutSignature. rewrite <- !app_assoc.
  rewrite TxParam_roundtrip by done. cbn [obind]. rewrite TxData_roundtrip by done. cbn [obind].
  set (h := GetByteInt64 (tx_Height tx)). set (p := GetByteInt64 (GasPrice tx)).
  set (u := GetByteInt64 (GasUsage tx)). unfold Hash_GetBytes.
  set (hh := arr_bytes (tx_Hash tx)).
  assert (length h = 8%nat) as Lh by apply GetByteInt64_length.
  assert (length p = 8%nat) as Lp by apply GetByteInt64_length.
  assert (length u = 8%nat) as Lu by apply GetByteInt64_length.
  assert (length hh = 32%nat) as Lhh by apply arr_length.
  rewrite slice_prefix by lia. cbn [obind]. unfold h at 1.
  rewrite GetInt64FromByte_exact by done. cbn [obind].
  rewrite (slice_app_exact h p) by lia. cbn [obind]. unfold p at 1.
  rewrite GetInt64FromByte_exact by done. cbn [obind].
  rewrite (app_assoc h p), (slice_app_exact (h ++ p) u) by (rewrite length_app; lia). cbn [obind].
  unfold u at 1. rewrite GetInt64FromByte_exact by done. cbn [obind].
  rewrite (app_assoc (h ++ p) u), (slice_app_exact ((h ++ p) ++ u) hh) by (rewrite !length_app; lia).
  cbn [obind].
  rewrite (app_assoc ((h ++ p) ++ u) hh), slice_suffix by (rewrite !length_app; lia). cbn [obind].
  rewrite BytesWithLenToBytes_app by done. cbn [obind].
  unfold GetSignatureFromBytes. rewrite xok_sig0. cbn [obind].
  unfold Address_GetBytes. set (c := arr_bytes (addr_ByteValue (ContractAddress tx))).
  assert (length c = 20%nat) as Lc by apply arr_length.
  rewrite slice_prefix by lia. cbn [obind].
  change (Address_Init zero_Address c) with (BytesToAddress (Address_GetBytes (ContractAddress tx))).
  rewrite BytesToAddress_GetBytes. cbn [obind]. rewrite slice_suffix by lia. cbn [obind].
  rewrite <- (app_nil_r (BytesToLenAndBytes (OutputLogs tx))), BytesWithLenToBytes_app by done.
  cbn [obind]. unfold hh. rewrite GetHashFromBytes_GetBytes.
  destruct tx as [? ? ? ? ? ? ? ? [? ?]]; cbn in *. by subst.
Qed.
End TxFacts.

Lemma StoreToDBPoolTx_loads {D} `{RocksDBLaws D} `{Hasher} ec (db db' : D) prefix tx :
  tx_ok ec tx -> StoreToDBPoolTx tx prefix db = (Ok tt, db') ->
  LoadFromDBPoolTx ec prefix (Hash_GetBytes (tx_Hash tx)) db' = (Ok tx, db').
Proof.
  intros Hok Hs. unfold StoreToDBPoolTx in Hs.
  destruct (length (Transaction_GetBytes tx) =? 0)%nat eqn:El; [done|].
  apply db_put_inv in Hs. unfold LoadFromDBPoolTx, st_bind, db_get.
  rewrite (DB_Get_Put_eq _ _ _ _ Hs), El. unfold st_lift.
  by rewrite Transaction_roundtrip.
Qed.

(** a transaction stored in the pool of a lawful store is loaded back
    unchanged under its hash. *)
Theorem Transaction_store_load {D} `{RocksDBLaws D} `{Hasher} ec (db db' : D) prefix tx :
  tx_ok ec tx -> StoreToDBPoolTx tx prefix db = (Ok tt, db') ->
  LoadFromDBPoolTx ec prefix (Hash_GetBytes (tx_Hash tx)) db' = (Ok tx, db').
Proof. apply StoreToDBPoolTx_loads. Qed.

(** five or more multi-signature addresses cannot be decoded: the number of
    addresses is computed from 20 bytes each, but each one takes 24. *)
Theorem TxData_five_approvals_undecodable `{Hasher} ec td rest :
  in64 (Amount td) -> in64 (td_LockedAmount td) -> in64 (td_ReleasePerBlock td) ->
  in64 (EscrowTransactionsDelay td) -> short (OptData td) -> short (pk_ByteValue (td_Pubkey td)) ->
  init_pubkey ec (pk_ByteValue (td_Pubkey td)) (pk_MainAddress (td_Pubkey td)) = Ok (td_Pubkey td) ->
  addr_Primary (DelegatedAccountForLocking td) = true -> short (TxData_optional td) ->
  (5 <= length (td_MultiSignAddresses td))%nat ->
  exists e, TxData_GetFromBytes ec (TxData_GetBytes td ++ rest) = Err e.
Proof.
  intros. rewrite TxData_tail by done. set (l := td_MultiSignAddresses td) in *.
  unfold read_multisign. rewrite msas_bytes_length.
  replace (0 <? 24 * length l)%nat with true by (symmetry; apply Nat.ltb_lt; lia).
  destruct (_ <? byte_to_Z _); [by eexists|].
  rewrite read_msas_too_many; [by eexists|].
  pose proof (Nat.div_mod (24 * length l) 20 ltac:(lia)).
  pose proof (Nat.mod_upper_bound (24 * length l) 20 ltac:(lia)). lia.
Qed.

(** ** What a verified transaction guarantees *)

(** C34: a transaction that passes [Verify] is returned unchanged, carries the
    digest of its own bytes, a locked stake within its amount and bound to a
    delegated account up to 256, no escrow delay above the limit, and a signature
    on its hash by the key it carries or by the key stored for its sender. *)
Theorem Verify_sound {D} `{RocksDB D} `{JSON PubKey} `{Hasher} `{OqsLib} ec at_ (db : D) tx tx' :
  Transaction_Verify ec at_ db tx = Ok (true, tx') ->
  tx' = tx /\
  tx_Hash tx = blake2b_256 (GetBytesWithoutSignature tx false) /\
  (0 < td_LockedAmount (tx_Data tx) ->
     0 <= td_ReleasePerBlock (tx_Data tx) <= td_LockedAmount (tx_Data tx) /\
     td_LockedAmount (tx_Data tx) <= Amount (tx_Data tx) /\
     exists n, IntDelegatedAccountFromAddress (DelegatedAccountForLocking (tx_Data tx)) = Ok n /\ n <= 256) /\
  0 <= EscrowTransactionsDelay (tx_Data tx) <= MaxTransactionDelay /\
  exists s0 key, index (sig_ByteValue (tx_Signature tx)) 0 = Ok s0 /\
    verification_key db tx (byte_to_Z s0 =? 0) = Ok key /\
    Verify ec (Hash_GetBytes (tx_Hash tx)) (sig_ByteValue (tx_Signature tx)) key = Ok true.
Proof.
  unfold Transaction_Verify. destruct (_ && _ && _); [done|]. intros Hv.
  apply obind_ok_inv in Hv as (lk & Hlk & Hv). destruct lk; [|done]. cbn [negb] in Hv.
  apply obind_ok_inv in Hv as (md & Hmd & Hv). destruct md; [|done]. cbn [negb] in Hv.
  unfold CalcHashAndSet in Hv. rewrite CalcHashFromBytes_eq in Hv. cbn [obind] in Hv.
  destruct (negb _) eqn:Eh; [done|]. apply negb_false_iff, bytes_eqb_iff in Eh.
  unfold Hash_GetBytes in Eh. apply arr_eq in Eh. cbn [set_Hash tx_Hash] in Eh.
  rewrite <- Eh in Hv. replace (set_Hash tx (tx_Hash tx)) with tx in Hv by (by destruct tx).
  apply obind_ok_inv in Hv as (s0 & Hs0 & Hv).
  destruct (verification_key db tx _) as [key|e|] eqn:Ek; try done.
  apply obind_ok_inv in Hv as (ok & Hok & [= -> <-]).
  split; [done|]. split; [done|]. split; [|split; [|eauto]].
  - intros Hpos. unfold lock_ok in Hlk.
    replace (0 <? _) with true in Hlk by (symmetry; apply Z.ltb_lt; lia).
    destruct (IntDelegatedAccountFromAddress _) as [n|e|] eqn:En; try done.
    cbn [deleg_n deleg_ok negb] in Hlk. injection Hlk as Hlk. zify_bool.
    repeat split; try lia. exists n. split; [done|lia].
  - unfold modification_ok in Hmd. apply obind_ok_inv in Hmd as (can & _ & Hmd).
    destruct (_ && _); [done|]. destruct (0 <? _) eqn:E1; zify_bool.
    + destruct (MaxTransactionDelay <? _) eqn:E2; [done|]. zify_bool. lia.
    + destruct (EscrowTransactionsDelay _ <? 0) eqn:E2; [done|]. zify_bool.
      unfold MaxTransactionDelay. lia.
Qed.

(** The transaction [tx] issued in the name of [sender], hashed again and signed
    with [sig]. *)
Definition reissue `{Hasher} (tx : Transaction) (sender : Address) (sig : Signature) : Transaction :=
  let p := tx_Param tx in
  let tx := mk_Transaction (tx_Data tx)
    (mk_TxParam (ChainID p) sender (SendingTime p) (Nonce p) (MultiSignTx p)) (tx_Hash tx) sig
    (tx_Height tx) (GasPrice tx) (GasUsage tx) (OutputLogs tx) (ContractAddress tx) in
  set_Hash tx (blake2b_256 (GetBytesWithoutSignature tx false)).

(** a key carried by a transaction is not tied to its sender: whoever can
    sign with that key can issue a transaction that passes [Verify] in the name of
    any address. *)
Theorem Verify_included_key_any_sender {D} `{RocksDB D} `{JSON PubKey} `{Hasher} `{OqsLib}
    ec at_ (db : D) tx sender sig :
  pk_ByteValue (td_Pubkey (tx_Data tx)) <> [] ->
  Transaction_Verify ec at_ db tx = Ok (true, tx) ->
  Verify ec (Hash_GetBytes (tx_Hash (reissue tx sender sig))) (sig_ByteValue sig)
    (pk_ByteValue (td_Pubkey (tx_Data tx))) = Ok true ->
  Transaction_Verify ec at_ db (reissue tx sender sig) = Ok (true, reissue tx sender sig).
Proof.
  intros Hpk Hv Hsig. unfold Transaction_Verify in *.
  change (tx_Data (reissue tx sender sig)) with (tx_Data tx).
  destruct (_ && _ && _); [done|].
  apply obind_ok_inv in Hv as (lk & Hlk & Hv). destruct lk; [|done].
  change (lock_ok (reissue tx sender sig)) with (lock_ok tx). rewrite Hlk. cbn [obind negb].
  cbn [negb] in Hv. apply obind_ok_inv in Hv as (md & Hmd & Hv). rewrite Hmd. cbn [obind].
  destruct md; [|done]. cbn [negb]. clear Hv.
  unfold CalcHashAndSet. rewrite CalcHashFromBytes_eq. cbn [obind].
  set (tx1 := reissue tx sender sig) in *.
  replace (set_Hash tx1 _) with tx1 by done.
  unfold bytes_eqb at 1. rewrite bool_decide_true by done. cbn [negb].
  assert (verification_key db tx1 = fun _ => Ok (pk_ByteValue (td_Pubkey (tx_Data tx)))) as Hk.
  { unfold verification_key. change (tx_Data tx1) with (tx_Data tx).
    by destruct (pk_ByteValue (td_Pubkey (tx_Data tx))). }
  change (tx_Signature tx1) with sig. rewrite Hk.
  pose proof Hsig as Hs. unfold Verify in Hs. apply obind_ok_inv in Hs as (s0 & -> & _).
  cbn [obind]. by rewrite Hsig.
Qed.

(** ** Closed examples *)

Definition test_config : EncryptionConfig := initEncryptionConfigInstance.

Definition sign_toy (tx : Transaction) : Transaction :=
  let tx := set_Hash tx (@blake2b_256 toy_hasher (GetBytesWithoutSignature tx false)) in
  mk_Transaction (tx_Data tx) (tx_Param tx) (tx_Hash tx)
    (mk_Signature (byte_of_Z 0 :: arr_bytes (tx_Hash tx)) (Sender (tx_Param tx)) true)
    (tx_Height tx) (GasPrice tx) (GasUsage tx) (OutputLogs tx) (ContractAddress tx).

Definition flagged (n : Z) : Address := mk_Address (arr_of AddressLength [byte_of_Z 9; byte_of_Z n; byte_of_Z 1]) true.

Definition toy_key : PubKey :=
  mk_PubKey (zeros 897) (mk_Address (@blake2b_160 toy_hasher (zeros 897)) true) (flagged 1) true.

Definition sample_tx : Transaction :=
  sign_toy (mk_Transaction
    (mk_TxData (flagged 2) 50 [] toy_key 0 0 (flagged 3) 0 (byte_of_Z 0) [sample_addr 4])
    (mk_TxParam 23 (flagged 1) 1700000000 7 (arr_zero _)) (arr_zero _) zero_Signature
    12 3 4 [] (flagged 0)).

Lemma sample_tx_ok : @tx_ok toy_hasher test_config sample_tx.
Proof.
  split; try by vm_compute.
  - split; try by vm_compute.
    + vm_compute. lia.
    + right. by vm_compute.
  - right. by vm_compute.
Qed.

Definition sample_tx_db : gmap bytes bytes :=
  snd (StoreToDBPoolTx sample_tx TransactionPoolHashesDBPrefix (∅ : gmap bytes bytes)).

Lemma Transaction_store_load_witness :
  @LoadFromDBPoolTx _ _ toy_hasher test_config TransactionPoolHashesDBPrefix
    (Hash_GetBytes (tx_Hash sample_tx)) sample_tx_db = (Ok sample_tx, sample_tx_db).
Proof.
  apply (@Transaction_store_load _ _ map_store_laws toy_hasher test_config ∅).
  - exact sample_tx_ok.
  - vm_cast_no_check (eq_refl (Ok tt, sample_tx_db)).
Defined.

Definition five_approvals : TxData :=
  mk_TxData (flagged 2) 50 [] zero_PubKey 0 0 (flagged 3) 0 (byte_of_Z 1) (map sample_addr [1;2;3;4;5]).

Lemma TxData_five_approvals_undecodable_witness :
  exists e, @TxData_GetFromBytes toy_hasher test_config (TxData_GetBytes five_approvals ++ []) = Err e.
Proof.
  apply TxData_five_approvals_undecodable; try by vm_compute.
Defined.

Lemma Verify_sound_witness :
  @Transaction_Verify _ _ pk_json toy_hasher two_schemes test_config
    (mk_AccountsType ∅ 0) (∅ : gmap bytes bytes) sample_tx = Ok (true, sample_tx) /\
  tx_Hash sample_tx = @blake2b_256 toy_hasher (GetBytesWithoutSignature sample_tx false).
Proof.
  assert (@Transaction_Verify _ _ pk_json toy_hasher two_schemes test_config
    (mk_AccountsType ∅ 0) (∅ : gmap bytes bytes) sample_tx = Ok (true, sample_tx)) as Hv
    by (vm_cast_no_check (eq_refl (@Ok (bool * Transaction) (true, sample_tx)))).
  split; [exact Hv|].
  exact (proj1 (proj2 (@Verify_sound _ _ pk_json toy_hasher two_schemes _ _ _ _ _ Hv))).
Defined.

(** The key of address 1 signs for address 8. *)
Definition thief_sig : Signature :=
  mk_Signature (byte_of_Z 0 :: arr_bytes (tx_Hash (@reissue toy_hasher sample_tx (flagged 8) zero_Signature)))
    (flagged 8) true.

Lemma Verify_included_key_any_sender_witness :
  let tx := @reissue toy_hasher sample_tx (flagged 8) thief_sig in
  Sender (tx_Param tx) = flagged 8 /\
  @Transaction_Verify _ _ pk_json toy_hasher two_schemes test_config
    (mk_AccountsType ∅ 0) (∅ : gmap bytes bytes) tx = Ok (true, tx).
Proof.
  cbv zeta. split; [reflexivity|].
  apply (@Verify_included_key_any_sender _ _ pk_json toy_hasher two_schemes).
  - done.
  - vm_cast_no_check (eq_refl (@Ok (bool * Transaction) (true, sample_tx))).
  - vm_cast_no_check (eq_refl (@Ok bool true)).
Defined.
