(* ===== verification/Heap.v ===== *)
(** * container/heap as transactionsPool uses it

    The operations of Go's container/heap over a slice whose [Less] compares
    priorities with [>] (transactionsPool/basePool.go): the root has the greatest
    priority.  Sifting is by index; the fuel is the number of indices a sift can
    visit, and the order lemmas below show that it is enough. *)
From S2P Require Import Prelude.
From Stdlib Require Import ZifyNat.

#[local] Ltac Zify.zify_post_hook ::= Z.div_mod_to_equations.

Section Heap.
Context {A : Type} `{Inhabited A} (prio : A -> Z).
Implicit Types (q : list A) (i j k n : nat).

Definition parent (j : nat) : nat := (j - 1) / 2.

(** [pq[i].priority > pq[j].priority] *)
Definition Less q i j : bool := prio (q !!! j) <? prio (q !!! i).

Definition Swap q i j : list A :=
  match q !! i, q !! j with
  | Some x, Some y => <[i := y]> (<[j := x]> q)
  | _, _ => q
  end.

Fixpoint up (fuel : nat) q j : list A :=
  match fuel with
  | O => q
  | S fuel => let i := parent j in
              if (i =? j)%nat || negb (Less q j i) then q else up fuel (Swap q i j) i
  end.

(** The final position comes with the slice. *)
Fixpoint down (fuel : nat) q i n : list A * nat :=
  match fuel with
  | O => (q, i)
  | S fuel =>
      let j1 := (2 * i + 1)%nat in
      if (n <=? j1)%nat then (q, i) else
      let j2 := (j1 + 1)%nat in
      let j := if (j2 <? n)%nat && Less q j2 j1 then j2 else j1 in
      if negb (Less q j i) then (q, i) else down fuel (Swap q i j) j n
  end.

Definition heap_Push q (x : A) : list A := up (S (length q)) (q ++ [x]) (length q).

(** [Pop] and [Remove] panic when the index is outside of the slice. *)
Definition heap_Pop q : outcome (A * list A) :=
  match length q with
  | O => Panic
  | S n => let (q, _) := down (S n) (Swap q 0 n) 0 n in Ok (q !!! n, take n q)
  end.

Definition heap_Remove q (i : nat) : outcome (A * list A) :=
  match length q with
  | O => Panic
  | S n =>
      if (n <? i)%nat then Panic else
      if (n =? i)%nat then Ok (q !!! n, take n q) else
      let (q1, i1) := down (S n) (Swap q i n) i n in
      let q2 := if (i <? i1)%nat then q1 else up (S i) q1 i in
      Ok (q2 !!! n, take n q2)
  end.

(** ** Permutations *)

Lemma Swap_length q i j : length (Swap q i j) = length q.
Proof. unfold Swap. destruct (q !! i), (q !! j); by rewrite ?length_insert. Qed.

Lemma Swap_perm q i j : Swap q i j ≡ₚ q.
Proof.
  unfold Swap. destruct (q !! i) as [x|] eqn:Ei; [|done]. destruct (q !! j) as [y|] eqn:Ej; [|done].
  destruct (decide (i = j)) as [->|Hne].
  - rewrite list_insert_insert_eq. by rewrite list_insert_id.
  - symmetry. apply Permutation_inj. rewrite !length_insert. split; [done|].
    exists (fun k => if decide (k = i) then j else if decide (k = j) then i else k). split.
    + intros a b. repeat case_decide; congruence.
    + intros k. repeat case_decide; subst.
      * rewrite list_lookup_insert_ne by done. by rewrite list_lookup_insert_eq by (by eapply lookup_lt_Some).
      * rewrite list_lookup_insert_eq; [done|]. rewrite length_insert. by eapply lookup_lt_Some.
      * by rewrite !list_lookup_insert_ne.
Qed.

Lemma up_perm fuel q j : up fuel q j ≡ₚ q.
Proof.
  revert q j. induction fuel as [|fuel IH]; intros q j; cbn; [done|].
  destruct (_ || _); [done|]. by rewrite IH, Swap_perm.
Qed.
Lemma down_perm fuel q i n : (down fuel q i n).1 ≡ₚ q.
Proof.
  revert q i. induction fuel as [|fuel IH]; intros q i; cbn; [done|].
  destruct (n <=? _)%nat; [done|]. destruct (negb _); [done|]. by rewrite IH, Swap_perm.
Qed.

(** ** Order *)

(** The priority at an index, and how a swap changes it. *)
Definition pr q k : Z := prio (q !!! k).

Lemma pr_Swap q i j k : (i < length q)%nat -> (j < length q)%nat ->
  pr (Swap q i j) k = if decide (k = i) then pr q j else if decide (k = j) then pr q i else pr q k.
Proof.
  intros Hi Hj. unfold pr, Swap.
  destruct (lookup_lt_is_Some_2 q i Hi) as [x Ex]. destruct (lookup_lt_is_Some_2 q j Hj) as [y Ey].
  rewrite Ex, Ey, !list_lookup_total_alt.
  repeat case_decide; subst.
  - rewrite list_lookup_insert_eq by (by rewrite length_insert). by rewrite Ey.
  - rewrite list_lookup_insert_ne by done. rewrite list_lookup_insert_eq by done. by rewrite Ex.
  - by rewrite !list_lookup_insert_ne.
Qed.

Definition edge q k : Prop := pr q k <= pr q (parent k).

(** All edges below index [n] are in order. *)
Definition heap_upto q n : Prop := forall k, (0 < k < n)%nat -> edge q k.
Definition heap q : Prop := heap_upto q (length q).

(** Everything is in order but the edge above [j], and the children of [j] are
    below its parent. *)
Definition up_inv q n j : Prop :=
  (forall k, (0 < k < n)%nat -> k <> j -> edge q k) /\
  ((0 < j)%nat -> forall k, (0 < k < n)%nat -> parent k = j -> pr q k <= pr q (parent j)).

(** Everything is in order but the edges around [i]. *)
Definition hole q n i : Prop :=
  (forall k, (0 < k < n)%nat -> k <> i -> parent k <> i -> edge q k) /\
  ((0 < i)%nat -> forall k, (0 < k < n)%nat -> parent k = i -> pr q k <= pr q (parent i)).

Lemma up_heap fuel q n j : (j < n)%nat -> (n <= length q)%nat -> (j < fuel)%nat ->
  up_inv q n j -> heap_upto (up fuel q j) n.
Proof.
  revert q j. induction fuel as [|fuel IH]; intros q j Hj Hn Hf [He Hg]; [lia|]. cbn [up].
  destruct (parent j =? j)%nat eqn:Ep; cbn [orb].
  { apply Nat.eqb_eq in Ep. unfold parent in Ep. intros k Hk. apply He; [done|lia]. }
  apply Nat.eqb_neq in Ep.
  assert (0 < j)%nat as Hpos by (unfold parent in Ep; lia).
  assert (parent j < j)%nat as Hlt by (unfold parent; lia).
  destruct (Less q j (parent j)) eqn:El; cbn [negb].
  - unfold Less in El. apply Z.ltb_lt in El. fold (pr q j) (pr q (parent j)) in El.
    set (i := parent j) in *.
    apply IH; [lia|by rewrite Swap_length|lia|]. split.
    + intros k Hk Hne. unfold edge. rewrite !pr_Swap by lia.
      destruct (decide (k = j)) as [->|Hkj].
      * fold i. repeat case_decide; lia.
      * pose proof (He k Hk Hkj) as E. unfold edge in E.
        pose proof (fun Hp => Hg Hpos k Hk Hp) as Hgk.
        repeat case_decide;
          first [done | congruence | by auto | match goal with Ei : parent k = _ |- _ => rewrite Ei in E; lia end].
    + intros Hi k Hk Hki. rewrite !pr_Swap by lia.
      assert (parent i < i)%nat by (unfold parent; lia).
      assert (i < k)%nat by (unfold parent in Hki; lia).
      pose proof (He i ltac:(lia) ltac:(lia)) as Ei. unfold edge in Ei.
      repeat case_decide; try lia.
      pose proof (He k Hk ltac:(done)) as E. unfold edge in E. rewrite Hki in E. lia.
  - unfold Less in El. apply Z.ltb_ge in El. intros k Hk.
    destruct (decide (k = j)) as [->|Hkj]; [exact El|by apply He].
Qed.

(** One step of [down]: the greater child [j] of [i] and the order it leaves. *)
Lemma down_child q i n : (2 * i + 1 < n)%nat ->
  exists j, (if (2 * i + 1 + 1 <? n)%nat && Less q (2 * i + 1 + 1) (2 * i + 1)
             then (2 * i + 1 + 1)%nat else (2 * i + 1)%nat) = j /\
    (i < j < n)%nat /\ parent j = i /\
    forall k, (0 < k < n)%nat -> parent k = i -> pr q k <= pr q j.
Proof.
  intros Hn. eexists. split; [reflexivity|]. unfold Less, parent, pr.
  destruct (2 * i + 1 + 1 <? n)%nat eqn:E2; cbn [andb].
  - apply Nat.ltb_lt in E2. destruct (_ <? _) eqn:E3.
    + apply Z.ltb_lt in E3. split; [lia|]. split; [lia|]. intros k Hk Hp.
      destruct (decide (k = 2 * i + 1)%nat) as [->|]; [lia|].
      replace k with (2 * i + 1 + 1)%nat by lia. lia.
    + apply Z.ltb_ge in E3. split; [lia|]. split; [lia|]. intros k Hk Hp.
      destruct (decide (k = 2 * i + 1)%nat) as [->|]; [lia|].
      replace k with (2 * i + 1 + 1)%nat by lia. lia.
  - apply Nat.ltb_ge in E2. split; [lia|]. split; [lia|]. intros k Hk Hp.
    replace k with (2 * i + 1)%nat by lia. lia.
Qed.

Lemma hole_Swap q n i j : (i < j < n)%nat -> (n <= length q)%nat -> parent j = i ->
  (forall k, (0 < k < n)%nat -> parent k = i -> pr q k <= pr q j) -> pr q i < pr q j ->
  hole q n i -> hole (Swap q i j) n j /\ edge (Swap q i j) j /\ ((0 < i)%nat -> edge (Swap q i j) i).
Proof.
  intros Hij Hn Hp Hmax Hlt [He Hg]. split; [split|split].
  - intros k Hk Hkj Hpk. unfold edge. rewrite !pr_Swap by lia.
    destruct (decide (k = i)) as [->|Hki].
    + assert (parent i < i)%nat by (unfold parent; lia).
      repeat case_decide; try lia. apply Hg; [lia|lia|done].
    + repeat case_decide; try done; [by apply Hmax|by apply He].
  - intros _ k Hk Hpk. rewrite Hp, !pr_Swap by lia.
    assert (j < k)%nat by (unfold parent in Hpk; lia).
    pose proof (He k Hk ltac:(lia) ltac:(lia)) as E. unfold edge in E. rewrite Hpk in E.
    repeat case_decide; lia.
  - unfold edge. rewrite Hp, !pr_Swap by lia.
    repeat case_decide; lia.
  - intros Hi. unfold edge. rewrite !pr_Swap by lia.
    assert (parent i < i)%nat by (unfold parent; lia).
    repeat case_decide; try lia. apply Hg; [lia|lia|done].
Qed.

(** [down] repairs a hole whose upper edge is in order. *)
Lemma down_heap fuel q n i : (n <= length q)%nat -> (n <= i + fuel)%nat -> (i < n)%nat ->
  hole q n i -> ((0 < i)%nat -> edge q i) -> heap_upto (down fuel q i n).1 n.
Proof.
  revert q i. induction fuel as [|fuel IH]; intros q i Hn Hf Hi Hh Hup; [lia|]. cbn [down].
  destruct (n <=? 2 * i + 1)%nat eqn:E1.
  - apply Nat.leb_le in E1. intros k Hk. destruct (decide (k = i)) as [->|]; [apply Hup; lia|].
    apply Hh; [done|done|unfold parent; lia].
  - apply Nat.leb_gt in E1. destruct (down_child q i n E1) as (j & Ej & Hj & Hp & Hmax).
    cbv zeta. rewrite Ej. destruct (Less q j i) eqn:El; cbn [negb].
    + unfold Less in El. apply Z.ltb_lt in El.
      destruct (hole_Swap q n i j) as (Hh' & He' & _); try done.
      apply IH; [by rewrite Swap_length|lia|lia|done|done].
    + unfold Less in El. apply Z.ltb_ge in El. intros k Hk.
      destruct (decide (k = i)) as [->|Hki]; [apply Hup; lia|].
      destruct (decide (parent k = i)) as [Hpk|Hpk]; [|by apply Hh].
      unfold edge. rewrite Hpk. pose proof (Hmax k Hk Hpk). unfold pr in *. cbn [fst]. lia.
Qed.

(** [down] from a hole: either nothing moves and only the upper edge may be out
    of order, or everything ends up in order. *)
Lemma down_hole fuel q n i : (n <= length q)%nat -> (n <= i + S fuel)%nat -> (i < n)%nat ->
  hole q n i ->
  let (q', i') := down (S fuel) q i n in
  (i' = i /\ q' = q /\ up_inv q n i) \/ ((i < i')%nat /\ heap_upto q' n).
Proof.
  intros Hn Hf Hi Hh. cbn [down]. destruct (n <=? 2 * i + 1)%nat eqn:E1.
  - apply Nat.leb_le in E1. left. repeat split; [|apply Hh].
    intros k Hk Hki. apply Hh; [done|done|unfold parent; lia].
  - apply Nat.leb_gt in E1. destruct (down_child q i n E1) as (j & Ej & Hj & Hp & Hmax).
    cbv zeta. rewrite Ej. destruct (Less q j i) eqn:El; cbn [negb].
    + unfold Less in El. apply Z.ltb_lt in El.
      destruct (hole_Swap q n i j) as (Hh' & He' & _); try done.
      pose proof (down_heap fuel (Swap q i j) n j ltac:(by rewrite Swap_length) ltac:(lia)
                    ltac:(lia) Hh' (fun _ => He')) as Hheap.
      assert (forall f q i, (i <= (down f q i n).2)%nat) as Hmono.
      { clear. induction f as [|f IH]; intros q i; cbn [down]; [done|].
        destruct (n <=? _)%nat; [done|]. cbv zeta. destruct (negb _); [done|].
        etrans; [|apply IH]. destruct (_ && _); lia. }
      pose proof (Hmono fuel (Swap q i j) j). destruct (down _ _ j n) as [q' i']. cbn in *.
      right. split; [lia|done].
    + unfold Less in El. apply Z.ltb_ge in El. left. repeat split; [|apply Hh].
      intros k Hk Hki. destruct (decide (parent k = i)) as [Hpk|Hpk]; [|by apply Hh].
      unfold edge. rewrite Hpk. pose proof (Hmax k Hk Hpk). unfold pr in *. lia.
Qed.

Lemma pr_app_l q x k : (k < length q)%nat -> pr (q ++ [x]) k = pr q k.
Proof.
  intros Hk. unfold pr. rewrite !list_lookup_total_alt. by rewrite lookup_app_l.
Qed.
Lemma pr_take q n k : (k < n)%nat -> pr (take n q) k = pr q k.
Proof.
  intros Hk. unfold pr. rewrite !list_lookup_total_alt. by rewrite lookup_take_lt.
Qed.

Lemma heap_take q n : (n <= length q)%nat -> heap_upto q n -> heap (take n q).
Proof.
  intros Hn Hh k Hk. rewrite length_take in Hk. unfold edge.
  rewrite !pr_take by (unfold parent; lia). apply Hh. lia.
Qed.

Lemma heap_Push_heap q x : heap q -> heap (heap_Push q x).
Proof.
  intros Hh. unfold heap_Push. set (q' := q ++ [x]).
  assert (length q' = S (length q)) as Hl by (unfold q'; rewrite length_app; cbn; lia).
  unfold heap. rewrite (Permutation_length (up_perm _ q' _)), Hl.
  apply up_heap; [lia|lia|lia|]. split.
  - intros k Hk Hne. unfold edge, q'. rewrite !pr_app_l by (unfold parent; lia). apply Hh. lia.
  - intros _ k Hk Hp. unfold parent in Hp. lia.
Qed.

Lemma heap_Push_perm q x : heap_Push q x ≡ₚ x :: q.
Proof. unfold heap_Push. rewrite up_perm. symmetry. apply Permutation_cons_append. Qed.

(** In a heap the root has the greatest priority. *)
Lemma heap_root q : heap q -> forall k, (k < length q)%nat -> pr q k <= pr q 0.
Proof.
  intros Hh k. induction k as [k IH] using lt_wf_ind. intros Hk.
  destruct k as [|k]; [lia|]. pose proof (Hh (S k) ltac:(lia)) as He. unfold edge in He.
  assert (parent (S k) < S k)%nat as Hp by (unfold parent; lia).
  specialize (IH (parent (S k)) Hp ltac:(lia)). lia.
Qed.

Lemma swap_last_hole q n i : (i < n)%nat -> length q = S n -> heap q -> hole (Swap q i n) n i.
Proof.
  intros Hi Hl Hh. split.
  - intros k Hk Hki Hp. pose proof (Hh k ltac:(lia)) as He. unfold edge in *.
    assert (parent k < k)%nat by (unfold parent; lia).
    rewrite !pr_Swap by lia. repeat case_decide; lia.
  - intros Hpos k Hk Hp. pose proof (Hh k ltac:(lia)) as He. pose proof (Hh i ltac:(lia)) as He'.
    unfold edge in *. rewrite Hp in He.
    assert (parent i < i)%nat by (unfold parent; lia).
    assert (i < k)%nat by (unfold parent in Hp; lia).
    rewrite !pr_Swap by lia. repeat case_decide; lia.
Qed.

(** Sifting from [i] below [n] does not touch position [n]. *)
Lemma Swap_last q i j n : (i < n)%nat -> (j < n)%nat -> Swap q i j !! n = q !! n.
Proof.
  intros Hi Hj. unfold Swap. destruct (q !! i), (q !! j); try done.
  by rewrite !list_lookup_insert_ne by lia.
Qed.
Lemma down_last fuel q i n : (i < n)%nat -> (down fuel q i n).1 !! n = q !! n.
Proof.
  revert q i. induction fuel as [|fuel IH]; intros q i Hi; cbn [down]; [done|].
  destruct (n <=? _)%nat eqn:E; [done|]. apply Nat.leb_gt in E. cbv zeta. destruct (negb _); [done|].
  assert ((if (2 * i + 1 + 1 <? n)%nat && Less q (2 * i + 1 + 1) (2 * i + 1)
           then (2 * i + 1 + 1)%nat else (2 * i + 1)%nat) < n)%nat as Hj.
  { destruct (_ <? n)%nat eqn:E2; cbn [andb]; [|lia]. apply Nat.ltb_lt in E2. destruct (Less _ _ _); lia. }
  rewrite IH by done. by apply Swap_last.
Qed.
Lemma up_last fuel q j n : (j < n)%nat -> up fuel q j !! n = q !! n.
Proof.
  revert q j. induction fuel as [|fuel IH]; intros q j Hj; cbn [up]; [done|].
  destruct (_ || _); [done|]. assert (parent j < n)%nat by (unfold parent; lia).
  rewrite IH by done. by apply Swap_last.
Qed.
Lemma Swap_at q i n : (i < length q)%nat -> (n < length q)%nat -> Swap q i n !! n = q !! i.
Proof.
  intros Hi Hn. unfold Swap. destruct (lookup_lt_is_Some_2 q i Hi) as [x Ex]. rewrite Ex.
  destruct (lookup_lt_is_Some_2 q n Hn) as [y Ey]. rewrite Ey.
  destruct (decide (i = n)) as [->|Hne].
  - rewrite list_lookup_insert_eq by (by rewrite length_insert). congruence.
  - rewrite list_lookup_insert_ne by done. by rewrite list_lookup_insert_eq.
Qed.

Lemma take_last_perm q n x : length q = S n -> q !! n = Some x -> q ≡ₚ x :: take n q.
Proof.
  intros Hl Hx. rewrite <- (take_drop_middle q n x Hx) at 1.
  rewrite drop_ge by lia. by rewrite <- Permutation_cons_append.
Qed.

Lemma lookup_total_eq q q' i j : q !! i = q' !! j -> q !!! i = q' !!! j.
Proof. intros E. by rewrite !list_lookup_total_alt, E. Qed.

(** Removing an index of the slice takes out exactly that item. *)
Lemma heap_Remove_perm q i : (i < length q)%nat ->
  exists q', heap_Remove q i = Ok (q !!! i, q') /\ q ≡ₚ (q !!! i) :: q'.
Proof.
  intros Hi. unfold heap_Remove. destruct (length q) as [|n] eqn:Hl; [lia|].
  replace (n <? i)%nat with false by (symmetry; apply Nat.ltb_ge; lia).
  destruct (n =? i)%nat eqn:E.
  - apply Nat.eqb_eq in E. subst. eexists. split; [reflexivity|].
    apply take_last_perm; [done|]. by apply list_lookup_lookup_total_lt; lia.
  - apply Nat.eqb_neq in E.
    pose proof (down_perm (S n) (Swap q i n) i n) as Hp.
    pose proof (down_last (S n) (Swap q i n) i n ltac:(lia)) as Hlast.
    destruct (down (S n) (Swap q i n) i n) as [q1 i1]. cbn [fst] in *.
    set (q2 := if (i <? i1)%nat then q1 else up (S i) q1 i).
    assert (q2 ≡ₚ q) as Hp2.
    { unfold q2. destruct (i <? i1)%nat; rewrite ?up_perm, Hp; apply Swap_perm. }
    assert (q2 !! n = q !! i) as Hn2.
    { transitivity (q1 !! n).
      - unfold q2. destruct (i <? i1)%nat; [done|]. apply up_last. lia.
      - rewrite Hlast. apply Swap_at; lia. }
    rewrite (lookup_total_eq q2 q n i Hn2). eexists. split; [reflexivity|].
    rewrite <- Hp2 at 1. apply take_last_perm; [by rewrite Hp2|].
    rewrite Hn2. apply list_lookup_lookup_total_lt. lia.
Qed.

Lemma heap_Remove_heap q i x q' : heap q -> heap_Remove q i = Ok (x, q') -> heap q'.
Proof.
  intros Hh. unfold heap_Remove. destruct (length q) as [|n] eqn:Hl; [done|].
  destruct (n <? i)%nat eqn:E1; [done|]. apply Nat.ltb_ge in E1.
  destruct (n =? i)%nat eqn:E.
  - apply Nat.eqb_eq in E. intros [= _ <-]. apply heap_take; [lia|].
    intros k Hk. apply Hh. lia.
  - apply Nat.eqb_neq in E.
    pose proof (swap_last_hole q n i ltac:(lia) Hl Hh) as Hhole.
    pose proof (down_hole n (Swap q i n) n i ltac:(rewrite Swap_length; lia) ltac:(lia) ltac:(lia) Hhole) as Hd.
    pose proof (Permutation_length (down_perm (S n) (Swap q i n) i n)) as Hlen. rewrite Swap_length in Hlen.
    destruct (down (S n) (Swap q i n) i n) as [q1 i1]. cbn [fst] in *. intros [= _ <-].
    destruct Hd as [(-> & -> & Hup)|(Hlt & Hheap)].
    + replace (if (i <? i)%nat then _ else _) with (up (S i) (Swap q i n) i) by (by rewrite Nat.ltb_irrefl).
      apply heap_take.
      * rewrite (Permutation_length (up_perm _ _ _)), Swap_length. lia.
      * apply up_heap; [lia|rewrite Swap_length; lia|lia|done].
    + replace (i <? i1)%nat with true by (symmetry; apply Nat.ltb_lt; lia).
      apply heap_take; [lia|done].
Qed.

Lemma heap_Pop_Remove q : heap_Pop q = heap_Remove q 0 \/ length q = 1%nat \/ q = [].
Proof.
  unfold heap_Pop, heap_Remove. destruct (length q) as [|[|n]] eqn:Hl; [|by auto|left].
  - destruct q; [by auto|done].
  - destruct (down _ _ 0 _) as [q1 i1] eqn:Ed. destruct (0 <? i1)%nat eqn:E; [done|].
    apply Nat.ltb_ge in E. done.
Qed.

(** [Pop] takes out an item of greatest priority. *)
Lemma heap_Pop_max q : heap q -> q <> [] ->
  exists x q', heap_Pop q = Ok (x, q') /\ q ≡ₚ x :: q' /\ heap q' /\
    Forall (fun y => prio y <= prio x) q.
Proof.
  intros Hh Hne.
  assert (0 < length q)%nat as Hpos by (destruct q; [done|cbn; lia]).
  assert (exists q', heap_Pop q = Ok (q !!! 0%nat, q') /\ q ≡ₚ (q !!! 0%nat) :: q' /\ heap q') as (q' & E & Hp & Hh').
  { destruct (heap_Pop_Remove q) as [Er|[Hl|]]; [| |done].
    - destruct (heap_Remove_perm q 0 Hpos) as (q' & E & Hp). exists q'. rewrite Er.
      split; [done|]. split; [done|]. by eapply heap_Remove_heap.
    - destruct q as [|x [|]]; [done| |done]. exists []. cbn. split; [done|]. split; [done|].
      intros k Hk. cbn in Hk. lia. }
  exists (q !!! 0%nat), q'. split; [done|]. split; [done|]. split; [done|].
  apply Forall_lookup. intros k y Hy. pose proof (heap_root q Hh k (lookup_lt_Some _ _ _ Hy)) as Hr.
  unfold pr in Hr. by rewrite (list_lookup_total_correct q k y Hy) in Hr.
Qed.

Lemma heap_nil : heap [].
Proof. intros k Hk. cbn in Hk. lia. Qed.
End Heap.
