(* ===== verification/Pool.v ===== *)
(** * Package transactionsPool: pools of pending transactions

    Models transactionsPool/poolTx.go and basePool.go: the pool as the map of its
    transactions, the priority queue over them, the index of every hash in the
    queue and the ban counters.  Items live in the queue only, so pointers to
    them are values; the [index] field of an item is never read and left out. *)
From S2P Require Import Prelude GoInt GoSlice Common Keys Tx Heap.

Record Item := mk_Item { it_tx : Transaction; it_value : Hash; it_priority : Z }.
#[export] Instance Item_inhabited : Inhabited Item := populate (mk_Item zero_Transaction (arr_zero _) 0).

Definition NewItem (tx : Transaction) (priority : Z) : Item :=
  mk_Item tx (arr_copy (arr_zero _) (Hash_GetBytes (tx_Hash tx))) priority.

Record TransactionPool := mk_TransactionPool {
  transactions : gmap Hash Transaction;
  transactionIndices : gmap Hash nat;
  bannedTransactions : gmap Hash Z;
  priorityQueue : list Item;
  maxTransactions : Z;
  typePool : Z
}.

Definition NewTransactionPool (max typ : Z) : TransactionPool := mk_TransactionPool ∅ ∅ ∅ [] max typ.

(** [for i := range tp.priorityQueue { tp.transactionIndices[hash] = i }] *)
Fixpoint update_from (i : nat) (q : list Item) (m : gmap Hash nat) : gmap Hash nat :=
  match q with
  | [] => m
  | it :: q => update_from (S i) q (<[arr_copy (arr_zero _) (Hash_GetBytes (tx_Hash (it_tx it))) := i]> m)
  end.

Definition updateIndices (tp : TransactionPool) : TransactionPool :=
  mk_TransactionPool (transactions tp) (update_from 0 (priorityQueue tp) (transactionIndices tp))
    (bannedTransactions tp) (priorityQueue tp) (maxTransactions tp) (typePool tp).

(** The priority of a new item; [None] for an unknown type of pool. *)
Definition item_priority (typ : Z) (tx : Transaction) (hash2check : Hash) : option (outcome Z) :=
  if typ =? 0 then Some (Ok (GasPrice tx))
  else if typ =? 1 then Some (Ok (tx_Height tx +! EscrowTransactionsDelay (tx_Data tx)))
  else if typ =? 2 then Some (GetInt64FromByte (Hash_GetBytes hash2check))
  else None.

(** For an unknown type of pool the code returns without releasing its lock; the
    program only makes pools of types 0, 1 and 2. *)
Definition AddTransaction (tp : TransactionPool) (tx : Transaction) (hash2check : Hash)
    : outcome (bool * TransactionPool) :=
  let hash := arr_copy (arr_zero _) (Hash_GetBytes (tx_Hash tx)) in
  match bannedTransactions tp !! hash with
  | Some _ => Ok (false, tp)
  | None =>
      match transactions tp !! hash with
      | Some _ => Ok (true, updateIndices tp)
      | None =>
          let txs := <[hash := tx]> (transactions tp) in
          match item_priority (typePool tp) tx hash2check with
          | None => Ok (false, mk_TransactionPool txs (transactionIndices tp) (bannedTransactions tp)
                                 (priorityQueue tp) (maxTransactions tp) (typePool tp))
          | Some p =>
              let! p := p in
              let q := heap_Push it_priority (priorityQueue tp) (NewItem tx p) in
              let! (q, txs) :=
                if maxTransactions tp <? len q then
                  let! (removed, q) := heap_Pop it_priority q in
                  Ok (q, delete (it_value removed) txs)
                else Ok (q, txs) in
              Ok (true, updateIndices
                    (mk_TransactionPool txs (transactionIndices tp) (bannedTransactions tp) q
                       (maxTransactions tp) (typePool tp)))
          end
      end
  end.

(** The first [n] items of the array that backs the queue, in array order. *)
Definition peek_item (tp : TransactionPool) (heightOrHash : Z) (it : Item) : list Transaction :=
  let tx := default zero_Transaction
              (transactions tp !! arr_copy (arr_zero _) (Hash_GetBytes (tx_Hash (it_tx it)))) in
  if typePool tp =? 0 then [tx]
  else if typePool tp =? 1 then (if it_priority it <=? heightOrHash then [tx] else [])
  else if typePool tp =? 2 then (if heightOrHash =? it_priority it then [tx] else [])
  else [].

Definition PeekTransactions (tp : TransactionPool) (n heightOrHash : Z) : list Transaction :=
  let n := if Z.of_nat (size (transactions tp)) <? n then Z.of_nat (size (transactions tp)) else n in
  concat (map (peek_item tp heightOrHash) (take (Z.to_nat n) (priorityQueue tp))).

(** Removing by hash goes through the stored index. *)
Definition remove_at_index (tp : TransactionPool) (h : Hash) (i : nat) : outcome TransactionPool :=
  let! (_, q) := heap_Remove it_priority (priorityQueue tp) i in
  Ok (mk_TransactionPool (delete h (transactions tp)) (delete h (transactionIndices tp))
        (bannedTransactions tp) q (maxTransactions tp) (typePool tp)).

Definition RemoveTransactionByHash (tp : TransactionPool) (hash : bytes) : outcome TransactionPool :=
  let h := arr_copy (arr_zero HashLength) hash in
  let! tp := match transactionIndices tp !! h with
             | Some i => remove_at_index tp h i
             | None => Ok tp
             end in
  Ok (updateIndices tp).

Definition PopTransactionByHash (tp : TransactionPool) (hash : bytes)
    : outcome (Transaction * TransactionPool) :=
  let h := arr_copy (arr_zero HashLength) hash in
  match transactionIndices tp !! h with
  | Some i => let tx := default zero_Transaction (transactions tp !! h) in
              let! tp := remove_at_index tp h i in
              Ok (tx, updateIndices tp)
  | None => Ok (zero_Transaction, updateIndices tp)
  end.

Definition BanTransactionByHash (tp : TransactionPool) (hash : bytes) : TransactionPool :=
  let h := arr_copy (arr_zero HashLength) hash in
  let n := default 0 (bannedTransactions tp !! h) + 1 in
  mk_TransactionPool (transactions tp)
    (if MaxNumberOfTxBans <? n then delete h (transactionIndices tp) else transactionIndices tp)
    (<[h := n]> (bannedTransactions tp)) (priorityQueue tp) (maxTransactions tp) (typePool tp).

Definition TransactionExists (tp : TransactionPool) (hash : bytes) : bool :=
  match transactions tp !! (arr_copy (arr_zero HashLength) hash) with Some _ => true | None => false end.

Definition NumberOfTransactions (tp : TransactionPool) : Z := Z.of_nat (size (transactions tp)).

(** ** The invariant *)

(** The queue is a heap without duplicates, its items are the transactions of the
    map under their hashes, and the index map says where every hash is. *)
Record pool_inv (tp : TransactionPool) : Prop := {
  pi_heap : heap it_priority (priorityQueue tp);
  pi_nodup : NoDup (map it_value (priorityQueue tp));
  pi_items : Forall (fun it => it_value it = tx_Hash (it_tx it)) (priorityQueue tp);
  pi_txs : forall h tx, transactions tp !! h = Some tx <->
             exists it, it ∈ priorityQueue tp /\ it_value it = h /\ it_tx it = tx;
  pi_index : forall h i, transactionIndices tp !! h = Some i <->
               exists it, priorityQueue tp !! i = Some it /\ it_value it = h
}.

Lemma pool_inv_new max typ : pool_inv (NewTransactionPool max typ).
Proof.
  split; cbn.
  - apply heap_nil.
  - constructor.
  - constructor.
  - intros h tx. rewrite lookup_empty. split; [done|]. intros (it & Hin & _). by apply elem_of_nil in Hin.
  - intros h i. rewrite lookup_empty. split; [done|]. intros (it & Hin & _). by rewrite lookup_nil in Hin.
Qed.

(** What [updateIndices] writes: the positions of the queue, over the old map. *)
Lemma update_from_spec q : forall k m h,
  Forall (fun it => it_value it = tx_Hash (it_tx it)) q -> NoDup (map it_value q) ->
  (forall i, (update_from k q m !! h = Some i) <->
     (exists j it, q !! j = Some it /\ it_value it = h /\ i = (k + j)%nat) \/
     (~ (h ∈ map it_value q) /\ (m !! h = Some i))).
Proof.
  induction q as [|it q IH]; intros k m h Hall Hnd i; cbn [update_from map].
  - split.
    + intros E. right. split; [apply not_elem_of_nil|done].
    + intros [(j & it & Hj & _)|[_ E]]; [by rewrite lookup_nil in Hj|done].
  - apply Forall_cons in Hall as [Hv Hall]. apply NoDup_cons in Hnd as [Hni Hnd].
    rewrite (IH _ _ _ Hall Hnd). unfold Hash_GetBytes. rewrite arr_copy_arr, <- Hv. clear IH.
    rewrite not_elem_of_cons. split.
    + intros [(j & it' & Hj & Hh & ->)|[Hn E]].
      * left. exists (S j), it'. repeat split; [done..|lia].
      * destruct (decide (h = it_value it)) as [->|Hne].
        -- rewrite lookup_insert_eq in E. left. exists 0%nat, it. repeat split. injection E as <-. lia.
        -- rewrite lookup_insert_ne in E by done. right. done.
    + intros [([|j] & it' & Hj & Hh & ->)|[[Hne Hn] E]].
      * injection Hj as <-. subst h. right. split; [done|]. rewrite lookup_insert_eq. f_equal. lia.
      * left. exists j, it'. repeat split; [done..|lia].
      * right. split; [done|]. by rewrite lookup_insert_ne.
Qed.

Lemma updateIndices_exact tp :
  Forall (fun it => it_value it = tx_Hash (it_tx it)) (priorityQueue tp) ->
  NoDup (map it_value (priorityQueue tp)) ->
  (forall h i, transactionIndices tp !! h = Some i -> h ∈ map it_value (priorityQueue tp)) ->
  forall h i, transactionIndices (updateIndices tp) !! h = Some i <->
    exists it, priorityQueue tp !! i = Some it /\ it_value it = h.
Proof.
  intros Hall Hnd Hold h i. unfold updateIndices. cbn [transactionIndices].
  rewrite (update_from_spec _ 0 _ h Hall Hnd i). split.
  - intros [(j & it & Hj & Hh & ->)|[Hn E]]; [by exists it|]. by apply Hold in E.
  - intros (it & Hi & Hh). left. exists i, it. done.
Qed.

Lemma pool_inv_index_elem tp h i : pool_inv tp -> transactionIndices tp !! h = Some i ->
  h ∈ map it_value (priorityQueue tp).
Proof.
  intros Hp E. apply (pi_index tp Hp) in E as (it & Hi & <-).
  apply list_elem_of_fmap. exists it. split; [done|]. by eapply list_elem_of_lookup_2.
Qed.

Lemma pool_inv_value tp h : pool_inv tp ->
  h ∈ map it_value (priorityQueue tp) <-> is_Some (transactions tp !! h).
Proof.
  intros Hp. rewrite list_elem_of_fmap. split.
  - intros (it & -> & Hin). exists (it_tx it). apply (pi_txs tp Hp). by exists it.
  - intros [tx E]. apply (pi_txs tp Hp) in E as (it & Hin & <- & _). by exists it.
Qed.

Lemma item_priority_total typ tx h : 0 <= typ <= 2 -> exists p, item_priority typ tx h = Some (Ok p).
Proof.
  intros Ht. unfold item_priority. destruct (typ =? 0) eqn:E0; [eauto|].
  destruct (typ =? 1) eqn:E1; [eauto|]. zify_bool.
  replace (typ =? 2) with true by (symmetry; apply Z.eqb_eq; lia).
  destruct (GetInt64FromByte_total (Hash_GetBytes h)) as [z ->]; [|eauto].
  unfold Hash_GetBytes. rewrite arr_length. change HashLength with 32%nat. lia.
Qed.

Lemma NewItem_value tx p : it_value (NewItem tx p) = tx_Hash tx.
Proof. apply arr_copy_arr. Qed.

Lemma pool_inv_update tp :
  heap it_priority (priorityQueue tp) -> NoDup (map it_value (priorityQueue tp)) ->
  Forall (fun it => it_value it = tx_Hash (it_tx it)) (priorityQueue tp) ->
  (forall h tx, transactions tp !! h = Some tx <->
     exists it, it ∈ priorityQueue tp /\ it_value it = h /\ it_tx it = tx) ->
  (forall h i, transactionIndices tp !! h = Some i -> h ∈ map it_value (priorityQueue tp)) ->
  pool_inv (updateIndices tp).
Proof. intros Hh Hnd Hall Htx Hidx. split; [done..|]. exact (updateIndices_exact tp Hall Hnd Hidx). Qed.

(** A transaction that is neither banned nor known, in a pool with room. *)
Lemma AddTransaction_new tp tx hash2check :
  0 <= typePool tp <= 2 ->
  bannedTransactions tp !! tx_Hash tx = None -> transactions tp !! tx_Hash tx = None ->
  len (priorityQueue tp) < maxTransactions tp -> exists p,
  AddTransaction tp tx hash2check = Ok (true, updateIndices
    (mk_TransactionPool (<[tx_Hash tx := tx]> (transactions tp)) (transactionIndices tp) (bannedTransactions tp)
      (heap_Push it_priority (priorityQueue tp) (NewItem tx p)) (maxTransactions tp) (typePool tp))).
Proof.
  intros Ht Hb Hn Hroom. unfold AddTransaction, Hash_GetBytes. rewrite arr_copy_arr, Hb, Hn.
  destruct (item_priority_total (typePool tp) tx hash2check Ht) as [p ->]. cbn [obind]. exists p.
  pose proof (heap_Push_perm it_priority (priorityQueue tp) (NewItem tx p)) as Hq.
  replace (maxTransactions tp <? _) with false
    by (symmetry; apply Z.ltb_ge; unfold len in *; rewrite Hq; cbn [length]; lia). done.
Qed.

(** a transaction that is neither banned nor known is added to a pool with
    room: it is found under its hash, nothing else changes, and the queue and the
    index map stay consistent with the map of transactions. *)
Theorem AddTransaction_room tp tx hash2check :
  pool_inv tp -> 0 <= typePool tp <= 2 ->
  bannedTransactions tp !! tx_Hash tx = None -> transactions tp !! tx_Hash tx = None ->
  len (priorityQueue tp) < maxTransactions tp ->
  exists tp', AddTransaction tp tx hash2check = Ok (true, tp') /\ pool_inv tp' /\
    transactions tp' = <[tx_Hash tx := tx]> (transactions tp).
Proof.
  intros Hp Ht Hb Hn Hroom. destruct (AddTransaction_new tp tx hash2check Ht Hb Hn Hroom) as [p ->].
  set (it := NewItem tx p). set (q := heap_Push it_priority (priorityQueue tp) it).
  assert (q ≡ₚ it :: priorityQueue tp) as Hq by apply heap_Push_perm.
  eexists. split; [reflexivity|]. split; [|done].
  assert (it_value it = tx_Hash tx) as Hv by apply NewItem_value.
  apply pool_inv_update; cbn [priorityQueue transactions transactionIndices].
  - apply heap_Push_heap, Hp.
  - rewrite Hq. cbn [map]. apply NoDup_cons. split; [|apply Hp].
    rewrite Hv, (pool_inv_value tp _ Hp), Hn. by intros [].
  - rewrite Hq. apply Forall_cons. split; [done|apply Hp].
  - intros h tx'. setoid_rewrite Hq. setoid_rewrite elem_of_cons. split.
    + intros E. destruct (decide (h = tx_Hash tx)) as [->|Hne].
      * rewrite lookup_insert_eq in E. injection E as <-. exists it. auto.
      * rewrite lookup_insert_ne in E by done. apply (pi_txs tp Hp) in E as (it' & Hin & ? & ?). eauto.
    + intros (it' & [->|Hin] & <- & <-).
      * rewrite Hv. apply lookup_insert_eq.
      * rewrite lookup_insert_ne; [apply (pi_txs tp Hp); eauto|].
        intros E. assert (is_Some (transactions tp !! it_value it')) as [? Es]
          by (apply (pool_inv_value tp _ Hp); by apply list_elem_of_fmap_2).
        congruence.
  - intros h i E. rewrite Hq. cbn [map]. right. by eapply pool_inv_index_elem.
Qed.

Lemma remove_at_index_inv tp h i : pool_inv tp -> transactionIndices tp !! h = Some i ->
  exists it q', heap_Remove it_priority (priorityQueue tp) i = Ok (it, q') /\
    priorityQueue tp ≡ₚ it :: q' /\ it_value it = h /\ heap it_priority q'.
Proof.
  intros Hp E. apply (pi_index tp Hp) in E as (it & Hi & Hv).
  assert (i < length (priorityQueue tp))%nat as Hlt by (by eapply lookup_lt_Some).
  destruct (heap_Remove_perm it_priority (priorityQueue tp) i Hlt) as (q' & Er & Hq).
  rewrite (list_lookup_total_correct _ _ _ Hi) in Er, Hq.
  exists it, q'. split; [done|]. split; [done|]. split; [done|].
  eapply heap_Remove_heap; [apply Hp|exact Er].
Qed.

(** removing a hash from a consistent pool never panics, removes exactly the
    transaction of that hash if there is one, and keeps the pool consistent. *)
Theorem RemoveTransactionByHash_inv tp (h : Hash) :
  pool_inv tp ->
  exists tp', RemoveTransactionByHash tp h = Ok tp' /\ pool_inv tp' /\
    transactions tp' = delete h (transactions tp).
Proof.
  intros Hp. unfold RemoveTransactionByHash. rewrite arr_copy_arr.
  destruct (transactionIndices tp !! h) as [i|] eqn:E.
  - destruct (remove_at_index_inv tp h i Hp E) as (it & q' & Er & Hq & Hv & Hh).
    unfold remove_at_index. rewrite Er. cbn [obind]. eexists. split; [reflexivity|]. split; [|done].
    pose proof (pi_nodup tp Hp) as Hnd. rewrite Hq in Hnd. cbn [map] in Hnd.
    apply NoDup_cons in Hnd as [Hni Hnd].
    pose proof (pi_items tp Hp) as Hall. rewrite Hq in Hall. apply Forall_cons in Hall as [Hit Hall].
    apply pool_inv_update; cbn [priorityQueue transactions transactionIndices]; try done.
    + intros h' tx. split.
      * intros Ed. apply lookup_delete_Some in Ed as [Hne Ed].
        apply (pi_txs tp Hp) in Ed as (it' & Hin & <- & <-). exists it'. split; [|done].
        rewrite Hq, elem_of_cons in Hin. destruct Hin as [->|]; [done|done].
      * intros (it' & Hin & <- & <-). rewrite lookup_delete_ne.
        -- apply (pi_txs tp Hp). exists it'. rewrite Hq, elem_of_cons. auto.
        -- intros Eq. apply Hni. rewrite Hv, Eq. by apply list_elem_of_fmap_2.
    + intros h' j Ed. apply lookup_delete_Some in Ed as [Hne Ed].
      apply (pool_inv_index_elem tp _ _ Hp) in Ed. rewrite Hq in Ed. cbn [map] in Ed.
      rewrite elem_of_cons in Ed. destruct Ed as [->|]; [done|done].
  - cbn [obind]. eexists. split; [reflexivity|]. split.
    + apply pool_inv_update; try apply Hp.
      intros h' i E'. by eapply pool_inv_index_elem.
    + cbn. symmetry. apply delete_id.
      destruct (transactions tp !! h) eqn:Et; [|done]. exfalso.
      apply (pi_txs tp Hp) in Et as (it & Hin & Hv & _). apply list_elem_of_lookup in Hin as [i Hi].
      assert (transactionIndices tp !! h = Some i) as Ei by (apply (pi_index tp Hp); eauto). congruence.
Qed.

(** a full pool that takes one more transaction gives up an item of greatest
    priority among all of them, the new one included - in the pool of standard
    transactions, the one that pays the highest gas price. *)
Theorem AddTransaction_evicts_highest tp tx hash2check p :
  pool_inv tp ->
  bannedTransactions tp !! tx_Hash tx = None -> transactions tp !! tx_Hash tx = None ->
  item_priority (typePool tp) tx hash2check = Some (Ok p) ->
  maxTransactions tp <= len (priorityQueue tp) ->
  exists tp' it, AddTransaction tp tx hash2check = Ok (true, tp') /\
    it ∈ NewItem tx p :: priorityQueue tp /\
    NewItem tx p :: priorityQueue tp ≡ₚ it :: priorityQueue tp' /\
    transactions tp' = delete (it_value it) (<[tx_Hash tx := tx]> (transactions tp)) /\
    Forall (fun it' => it_priority it' <= it_priority it) (NewItem tx p :: priorityQueue tp).
Proof.
  intros Hp Hb Hn Hprio Hfull. unfold AddTransaction, Hash_GetBytes. rewrite arr_copy_arr, Hb, Hn, Hprio.
  cbn [obind]. set (it := NewItem tx p). set (q := heap_Push it_priority (priorityQueue tp) it).
  assert (q ≡ₚ it :: priorityQueue tp) as Hq by apply heap_Push_perm.
  replace (maxTransactions tp <? len q) with true
    by (symmetry; apply Z.ltb_lt; unfold len in *; rewrite Hq; cbn [length]; lia).
  destruct (heap_Pop_max it_priority q) as (x & q' & Er & Hx & _ & Hmax).
  { apply heap_Push_heap, Hp. }
  { intros E. rewrite E in Hq. by apply Permutation_nil_cons in Hq. }
  rewrite Er. cbn [obind]. eexists _, x. split; [reflexivity|].
  split; [rewrite <- Hq, Hx; by left|]. split; [by rewrite <- Hq, Hx|]. split; [done|].
  by rewrite <- Hq.
Qed.

(** *** The hash of an evicted transaction

    [AddTransaction] does not delete the index of the item it gives up, and
    [updateIndices] never deletes: the stale index is used by a later removal. *)

Definition pool_tx (n price : Z) : Transaction :=
  mk_Transaction zero_TxData zero_TxParam (arr_of HashLength [byte_of_Z n]) zero_Signature
    0 price 1 [] zero_Address.
Definition add_or (tp : TransactionPool) (tx : Transaction) : TransactionPool :=
  snd (from_ok (false, tp) (AddTransaction tp tx (tx_Hash tx))).
Definition small_pool : TransactionPool :=
  add_or (add_or (NewTransactionPool 1 0) (pool_tx 1 9)) (pool_tx 2 5).
Definition small_pool' : TransactionPool :=
  from_ok small_pool (RemoveTransactionByHash small_pool (tx_Hash (pool_tx 1 9))).

(** in a pool for one transaction, a second cheaper transaction evicts the
    first; removing the hash of the evicted one, as the node does for every
    transaction of a block, then takes the second one out of the queue while the
    pool still counts it: it is never offered for a block again, and adding it
    again has no effect. *)
Theorem evicted_hash_removes_other :
  PeekTransactions small_pool 10 0 = [pool_tx 2 5] /\
  PeekTransactions small_pool' 10 0 = [] /\
  NumberOfTransactions small_pool' = 1 /\
  TransactionExists small_pool' (tx_Hash (pool_tx 2 5)) = true /\
  PeekTransactions (add_or small_pool' (pool_tx 2 5)) 10 0 = [].
Proof. vm_compute. repeat split; reflexivity. Qed.

(** ** Closed examples *)

Lemma AddTransaction_room_witness : exists tp',
  AddTransaction (NewTransactionPool 10 0) (pool_tx 1 9) EmptyHash = Ok (true, tp') /\ pool_inv tp' /\
  transactions tp' = <[tx_Hash (pool_tx 1 9) := pool_tx 1 9]> ∅.
Proof.
  apply (AddTransaction_room (NewTransactionPool 10 0)).
  - apply pool_inv_new.
  - cbn. lia.
  - done.
  - done.
  - by vm_compute.
Defined.

Lemma RemoveTransactionByHash_inv_witness : exists tp',
  RemoveTransactionByHash (NewTransactionPool 10 0) (tx_Hash (pool_tx 1 9)) = Ok tp' /\ pool_inv tp' /\
  transactions tp' = delete (tx_Hash (pool_tx 1 9)) ∅.
Proof. apply (RemoveTransactionByHash_inv (NewTransactionPool 10 0)), pool_inv_new. Defined.

Lemma AddTransaction_evicts_highest_witness : exists tp' it,
  AddTransaction (NewTransactionPool 0 0) (pool_tx 1 9) EmptyHash = Ok (true, tp') /\
  it ∈ [NewItem (pool_tx 1 9) 9] /\ [NewItem (pool_tx 1 9) 9] ≡ₚ it :: priorityQueue tp' /\
  transactions tp' = delete (it_value it) (<[tx_Hash (pool_tx 1 9) := pool_tx 1 9]> ∅) /\
  Forall (fun it' => it_priority it' <= it_priority it) [NewItem (pool_tx 1 9) 9].
Proof.
  apply (AddTransaction_evicts_highest (NewTransactionPool 0 0) (pool_tx 1 9) EmptyHash 9).
  - apply pool_inv_new.
  - done.
  - done.
  - done.
  - by vm_compute.
Defined.
