(* ===== verification/StateDB.v ===== *)
(** * Package stateDB: the state of the virtual machine

    Models core/stateDB/methods.go: the accounts, codes, nonces, storage slots and
    token balances of contracts, and the snapshots to which the machine and the
    node go back.  Theorems: going back never panics on a state built by these
    operations, it leaves everything but the slots alone, it does not restore the
    slot that was written, and it may overwrite another one. *)
From S2P Require Import Prelude GoInt GoSlice Common Keys Database Codec Accounts.

Record TokenInfo := mk_TokenInfo { ti_Name : string; ti_Symbols : string; ti_Decimals : Z }.

Record StateAccount := mk_StateAccount {
  sa_Accounts : gmap addr20 Account;
  sa_Codes : gmap addr20 bytes;
  sa_CodeHashes : gmap addr20 Hash;
  sa_StatesHashes : gmap addr20 (gmap Hash Hash);
  sa_Nonces : gmap addr20 Z;
  sa_States : gmap Hash bytes;
  sa_Balances : gmap addr20 (gmap addr20 Z);
  sa_Tokens : gmap addr20 TokenInfo;
  sa_SnapShotNum : Z;
  sa_SnapShotPreimage : gmap Z (gmap addr20 Hash);
  sa_HeightToSnapShotNum : gmap Z Z
}.

Definition CreateStateDB : StateAccount := mk_StateAccount ∅ ∅ ∅ ∅ ∅ ∅ ∅ ∅ 0 ∅ ∅.

Implicit Types (sa : StateAccount) (a : Address) (h v : Hash).

(** ** Single fields *)

Definition SetSnapShotNum sa (height snapNum : Z) : StateAccount :=
  mk_StateAccount (sa_Accounts sa) (sa_Codes sa) (sa_CodeHashes sa) (sa_StatesHashes sa) (sa_Nonces sa)
    (sa_States sa) (sa_Balances sa) (sa_Tokens sa) (sa_SnapShotNum sa) (sa_SnapShotPreimage sa)
    (<[height := snapNum]> (sa_HeightToSnapShotNum sa)).
Definition GetSnapShotNum sa (height : Z) : option Z := sa_HeightToSnapShotNum sa !! height.

Definition CreateAccount sa a : StateAccount :=
  mk_StateAccount (<[addr_ByteValue a := mk_Account 0 (addr_ByteValue a) 0 (byte_of_Z 0) []]> (sa_Accounts sa))
    (sa_Codes sa) (sa_CodeHashes sa) (sa_StatesHashes sa) (sa_Nonces sa) (sa_States sa) (sa_Balances sa)
    (sa_Tokens sa) (sa_SnapShotNum sa) (sa_SnapShotPreimage sa) (sa_HeightToSnapShotNum sa).

Definition GetAllRegisteredTokens sa : gmap addr20 TokenInfo := sa_Tokens sa.
Definition RegisterNewToken sa a (name symbol : string) (decimals : Z) : StateAccount :=
  mk_StateAccount (sa_Accounts sa) (sa_Codes sa) (sa_CodeHashes sa) (sa_StatesHashes sa) (sa_Nonces sa)
    (sa_States sa) (sa_Balances sa) (<[addr_ByteValue a := mk_TokenInfo name symbol decimals]> (sa_Tokens sa))
    (sa_SnapShotNum sa) (sa_SnapShotPreimage sa) (sa_HeightToSnapShotNum sa).

Definition GetNonce sa a : Z := default 0 (sa_Nonces sa !! addr_ByteValue a).
Definition SetNonce sa a (n : Z) : StateAccount :=
  mk_StateAccount (sa_Accounts sa) (sa_Codes sa) (sa_CodeHashes sa) (sa_StatesHashes sa)
    (<[addr_ByteValue a := n]> (sa_Nonces sa)) (sa_States sa) (sa_Balances sa) (sa_Tokens sa)
    (sa_SnapShotNum sa) (sa_SnapShotPreimage sa) (sa_HeightToSnapShotNum sa).

Definition GetCodeHash sa a : Hash := default (arr_zero _) (sa_CodeHashes sa !! addr_ByteValue a).
Definition GetCode sa a : bytes := default [] (sa_Codes sa !! addr_ByteValue a).
Definition GetCodeSize sa a : Z := Z.of_nat (length (GetCode sa a)).
(** [keccak] is crypto.Keccak256Hash. *)
Definition SetCode (keccak : bytes -> Hash) sa a (c : bytes) : StateAccount :=
  mk_StateAccount (sa_Accounts sa) (<[addr_ByteValue a := c]> (sa_Codes sa))
    (<[addr_ByteValue a := keccak c]> (sa_CodeHashes sa)) (sa_StatesHashes sa) (sa_Nonces sa)
    (sa_States sa) (sa_Balances sa) (sa_Tokens sa) (sa_SnapShotNum sa) (sa_SnapShotPreimage sa)
    (sa_HeightToSnapShotNum sa).

Definition AddPreimage sa h (b : bytes) : StateAccount :=
  mk_StateAccount (sa_Accounts sa) (sa_Codes sa) (sa_CodeHashes sa) (sa_StatesHashes sa) (sa_Nonces sa)
    (<[h := b]> (sa_States sa)) (sa_Balances sa) (sa_Tokens sa) (sa_SnapShotNum sa)
    (sa_SnapShotPreimage sa) (sa_HeightToSnapShotNum sa).

Definition GetCoinBalance sa acc coin : Z :=
  match sa_Balances sa !! addr_ByteValue acc with
  | Some m => default 0 (m !! addr_ByteValue coin)
  | None => 0
  end.
Definition SetCoinBalance sa acc coin (value : Z) : StateAccount :=
  let m := match sa_Balances sa !! addr_ByteValue acc with
           | Some m => <[addr_ByteValue coin := value]> m
           | None => {[addr_ByteValue coin := value]}
           end in
  mk_StateAccount (sa_Accounts sa) (sa_Codes sa) (sa_CodeHashes sa) (sa_StatesHashes sa) (sa_Nonces sa)
    (sa_States sa) (<[addr_ByteValue acc := m]> (sa_Balances sa)) (sa_Tokens sa) (sa_SnapShotNum sa)
    (sa_SnapShotPreimage sa) (sa_HeightToSnapShotNum sa).

Definition Exist sa a : bool := match sa_Accounts sa !! addr_ByteValue a with Some _ => true | None => false end.
Definition Empty sa a : bool := (GetNonce sa a =? 0) && (length (GetCode sa a) =? 0)%nat.

(** ** Storage slots and snapshots *)

Definition GetState sa a h : Hash :=
  match sa_StatesHashes sa !! addr_ByteValue a with
  | Some s => default (arr_zero _) (s !! h)
  | None => arr_zero _
  end.
(** The same code. *)
Definition GetCommittedState sa a h : Hash :=
  match sa_StatesHashes sa !! addr_ByteValue a with
  | Some s => default (arr_zero _) (s !! h)
  | None => arr_zero _
  end.

Definition with_slots sa (slots : gmap addr20 (gmap Hash Hash)) (num : Z) (pre : gmap Z (gmap addr20 Hash))
    : StateAccount :=
  mk_StateAccount (sa_Accounts sa) (sa_Codes sa) (sa_CodeHashes sa) slots (sa_Nonces sa)
    (sa_States sa) (sa_Balances sa) (sa_Tokens sa) num pre (sa_HeightToSnapShotNum sa).

(** The value that is overwritten is recorded under the address; the slot it was
    in is not recorded. *)
Definition SetState sa a h h2 : StateAccount :=
  let num := sa_SnapShotNum sa +! 1 in
  match sa_StatesHashes sa !! addr_ByteValue a with
  | Some s =>
      with_slots sa (<[addr_ByteValue a := <[h := h2]> s]> (sa_StatesHashes sa)) num
        (<[num := {[addr_ByteValue a := default (arr_zero _) (s !! h)]}]> (sa_SnapShotPreimage sa))
  | None =>
      with_slots sa (<[addr_ByteValue a := {[h := h2]}]> (sa_StatesHashes sa)) num
        (<[num := {[addr_ByteValue a := EmptyHash]}]> (sa_SnapShotPreimage sa))
  end.

Definition Snapshot sa : Z := sa_SnapShotNum sa.

(** The inner loop: the entries of one preimage.  A write to a nil map panics. *)
Fixpoint revert_entries (entries : list (addr20 * Hash)) (slots : gmap addr20 (gmap Hash Hash))
    : outcome (gmap addr20 (gmap Hash Hash)) :=
  match entries with
  | [] => Ok slots
  | (a, h) :: entries =>
      if decide (h = EmptyHash) then
        revert_entries entries
          (match slots !! a with Some s => <[a := delete h s]> slots | None => slots end)
      else match slots !! a with
           | Some s => revert_entries entries (<[a := <[h := h]> s]> slots)
           | None => Panic
           end
  end.

(** The outer loop over the [n] snapshots from [s] on. *)
Fixpoint revert_loop (pre : gmap Z (gmap addr20 Hash)) (n : nat) (s : Z)
    (slots : gmap addr20 (gmap Hash Hash)) : outcome (gmap addr20 (gmap Hash Hash)) :=
  match n with
  | O => Ok slots
  | S n => let! slots := revert_entries (map_to_list (default ∅ (pre !! s))) slots in
           revert_loop pre n (s + 1) slots
  end.

(** The number of a snapshot counts writes and stays far below 2^63. *)
Definition RevertToSnapshot sa (sn : Z) : outcome StateAccount :=
  let! slots := revert_loop (sa_SnapShotPreimage sa) (Z.to_nat (sa_SnapShotNum sa - sn)) (sn + 1)
                  (sa_StatesHashes sa) in
  Ok (with_slots sa slots sn (sa_SnapShotPreimage sa)).

(** services/helperReset.go: the greatest snapshot of the blocks up to [height]. *)
Definition snapshot_of_height (height : Z) (m : gmap Z Z) : Z :=
  foldr (fun kv lastNum => if height <? kv.1 then lastNum else if lastNum <? kv.2 then kv.2 else lastNum)
    0 (map_to_list m).
Definition RevertVMToBlockHeight sa (height : Z) : outcome StateAccount :=
  RevertToSnapshot sa (snapshot_of_height height (sa_HeightToSnapShotNum sa)).

(** ** Slots *)

Lemma EmptyHash_zero : EmptyHash = arr_zero _.
Proof. apply arr_eq. by vm_compute. Qed.

(** The value of a slot in a table. *)
Definition slot (slots : gmap addr20 (gmap Hash Hash)) (b : addr20) (k : Hash) : Hash :=
  match slots !! b with Some s => default (arr_zero _) (s !! k) | None => arr_zero _ end.

Lemma slot_insert slots b c k (s : gmap Hash Hash) :
  slot (<[b := s]> slots) c k = if decide (c = b) then default (arr_zero _) (s !! k) else slot slots c k.
Proof.
  unfold slot. case_decide as E; [subst; by rewrite lookup_insert_eq|]. by rewrite lookup_insert_ne.
Qed.

Lemma slot_write slots b h v c k s : slots !! b = Some s ->
  slot (<[b := <[h := v]> s]> slots) c k = if decide (c = b /\ k = h) then v else slot slots c k.
Proof.
  intros E. rewrite slot_insert. destruct (decide (c = b)) as [->|Hc].
  - destruct (decide (k = h)) as [->|Hk].
    + rewrite lookup_insert_eq. by rewrite decide_True.
    + rewrite lookup_insert_ne by done. rewrite decide_False by naive_solver. unfold slot. by rewrite E.
  - by rewrite decide_False by naive_solver.
Qed.

Lemma slot_delete slots b h c k s : slots !! b = Some s ->
  slot (<[b := delete h s]> slots) c k = if decide (c = b /\ k = h) then arr_zero _ else slot slots c k.
Proof.
  intros E. rewrite slot_insert. destruct (decide (c = b)) as [->|Hc].
  - destruct (decide (k = h)) as [->|Hk].
    + rewrite lookup_delete_eq. by rewrite decide_True.
    + rewrite lookup_delete_ne by done. rewrite decide_False by naive_solver. unfold slot. by rewrite E.
  - by rewrite decide_False by naive_solver.
Qed.

Lemma GetState_slot sa a h : GetState sa a h = slot (sa_StatesHashes sa) (addr_ByteValue a) h.
Proof. done. Qed.

(** A write changes its slot and no other one. *)
Lemma SetState_slot sa a h v c k :
  slot (sa_StatesHashes (SetState sa a h v)) c k =
  if decide (c = addr_ByteValue a /\ k = h) then v else slot (sa_StatesHashes sa) c k.
Proof.
  unfold SetState. destruct (sa_StatesHashes sa !! _) as [s|] eqn:E; cbn [sa_StatesHashes with_slots].
  - by apply slot_write.
  - rewrite slot_insert. destruct (decide (c = _)) as [->|Hc].
    + destruct (decide (k = h)) as [->|Hk].
      * rewrite lookup_singleton_eq. by rewrite decide_True.
      * rewrite lookup_singleton_ne by done. rewrite decide_False by naive_solver. unfold slot. by rewrite E.
    + by rewrite decide_False by naive_solver.
Qed.

(** What a write records. *)
Lemma SetState_records sa a h v :
  sa_SnapShotPreimage (SetState sa a h v) =
    <[sa_SnapShotNum sa +! 1 := {[addr_ByteValue a := GetState sa a h]}]> (sa_SnapShotPreimage sa) /\
  sa_SnapShotNum (SetState sa a h v) = sa_SnapShotNum sa +! 1 /\
  is_Some (sa_StatesHashes (SetState sa a h v) !! addr_ByteValue a).
Proof.
  unfold SetState, GetState. destruct (sa_StatesHashes sa !! _) as [s|]; cbn; rewrite lookup_insert_eq;
    rewrite ?EmptyHash_zero; eauto.
Qed.

(** Undoing one recorded value [old] writes [old] to the slot named [old]. *)
Lemma revert_entry_spec slots b old : is_Some (slots !! b) -> exists slots',
  revert_entries [(b, old)] slots = Ok slots' /\ dom slots' = dom slots /\
  forall c k, slot slots' c k = if decide (c = b /\ k = old) then old else slot slots c k.
Proof.
  intros [s E]. cbn [revert_entries]. rewrite E. assert (b ∈ dom slots) as Hb by by apply elem_of_dom.
  destruct (decide (old = EmptyHash)) as [->|Hne]; eexists; (split; [done|]); (split; [set_solver|]); intros c k.
  - rewrite (slot_delete _ _ _ _ _ _ E), EmptyHash_zero. done.
  - by rewrite (slot_write _ _ _ _ _ _ _ E).
Qed.

(** undoing one write does not restore the slot: after [SetState] of slot [h]
    and a return to the snapshot taken just before, slot [h] keeps the new value,
    and the slot whose name is the old value of [h] is overwritten with its own
    name. *)
Theorem RevertToSnapshot_after_write sa a h v : in64 (sa_SnapShotNum sa + 1) ->
  exists sa', RevertToSnapshot (SetState sa a h v) (Snapshot sa) = Ok sa' /\
    forall b k, GetState sa' b k =
      if decide (addr_ByteValue b = addr_ByteValue a /\ k = GetState sa a h) then k
      else if decide (addr_ByteValue b = addr_ByteValue a /\ k = h) then v
      else GetState sa b k.
Proof.
  intros Hn. destruct (SetState_records sa a h v) as (Hp & Hs & Hsome).
  assert (sa_SnapShotNum sa +! 1 = sa_SnapShotNum sa + 1) as Hadd by by apply i64_id.
  unfold RevertToSnapshot, Snapshot. rewrite Hs, Hp, Hadd.
  replace (Z.to_nat _) with 1%nat by lia. cbn [revert_loop].
  rewrite lookup_insert_eq. cbn [default from_option id]. rewrite map_to_list_singleton.
  destruct (revert_entry_spec _ _ (GetState sa a h) Hsome) as (slots' & -> & _ & Hslot).
  cbn [obind]. eexists. split; [done|]. intros b k. rewrite GetState_slot. cbn [sa_StatesHashes with_slots].
  rewrite Hslot, SetState_slot. destruct (decide _) as [[_ ->]|]; done.
Qed.

(** ** Reachable states *)

(** The operations of the machine and of the node. *)
Inductive vm_step (keccak : bytes -> Hash) : StateAccount -> StateAccount -> Prop :=
| step_CreateAccount sa a : vm_step keccak sa (CreateAccount sa a)
| step_RegisterNewToken sa a n s d : vm_step keccak sa (RegisterNewToken sa a n s d)
| step_SetNonce sa a n : vm_step keccak sa (SetNonce sa a n)
| step_SetCode sa a c : vm_step keccak sa (SetCode keccak sa a c)
| step_AddPreimage sa h b : vm_step keccak sa (AddPreimage sa h b)
| step_SetCoinBalance sa a c n : vm_step keccak sa (SetCoinBalance sa a c n)
| step_SetSnapShotNum sa height n : vm_step keccak sa (SetSnapShotNum sa height n)
| step_SetState sa a h v : vm_step keccak sa (SetState sa a h v)
| step_RevertToSnapshot sa sa' sn : RevertToSnapshot sa sn = Ok sa' -> vm_step keccak sa sa'.

(** Every recorded value belongs to an address that has slots. *)
Definition recorded (pre : gmap Z (gmap addr20 Hash)) (d : gset addr20) : Prop :=
  map_Forall (fun _ m => dom m ⊆ d) pre.

Lemma revert_entries_total entries : forall slots,
  (forall b h, (b, h) ∈ entries -> b ∈ dom slots) ->
  exists slots', revert_entries entries slots = Ok slots' /\ dom slots' = dom slots.
Proof.
  induction entries as [|[b h] entries IH]; intros slots Hin; cbn [revert_entries]; [by eexists|].
  assert (b ∈ dom slots) as Hb by (eapply Hin; apply list_elem_of_here).
  apply elem_of_dom in Hb as Hs. destruct Hs as [s E]. rewrite E.
  destruct (decide _).
  - destruct (IH (<[b := delete h s]> slots)) as (slots' & -> & Hd); [set_solver|].
    eexists. split; [done|]. set_solver.
  - destruct (IH (<[b := <[h := h]> s]> slots)) as (slots' & -> & Hd); [set_solver|].
    eexists. split; [done|]. set_solver.
Qed.

Lemma revert_loop_total pre n : forall s slots, recorded pre (dom slots) ->
  exists slots', revert_loop pre n s slots = Ok slots' /\ dom slots' = dom slots.
Proof.
  induction n as [|n IH]; intros s slots Hr; cbn [revert_loop]; [by eexists|].
  destruct (revert_entries_total (map_to_list (default ∅ (pre !! s))) slots) as (slots1 & -> & Hd).
  { intros b h Hin. apply elem_of_map_to_list in Hin. destruct (pre !! s) as [m|] eqn:E; [|done].
    apply (Hr _ _ E). by eapply elem_of_dom_2. }
  cbn [obind]. rewrite <- Hd in Hr |- *. by apply IH.
Qed.

Definition vm_inv sa : Prop := recorded (sa_SnapShotPreimage sa) (dom (sa_StatesHashes sa)).

Lemma RevertToSnapshot_total sa sn : vm_inv sa -> exists slots,
  RevertToSnapshot sa sn = Ok (with_slots sa slots sn (sa_SnapShotPreimage sa)) /\
  dom slots = dom (sa_StatesHashes sa).
Proof.
  intros Hi. unfold RevertToSnapshot.
  destruct (revert_loop_total (sa_SnapShotPreimage sa) (Z.to_nat (sa_SnapShotNum sa - sn)) (sn + 1) _ Hi)
    as (slots & -> & Hd). by exists slots.
Qed.

Lemma SetState_dom sa a h v :
  dom (sa_StatesHashes (SetState sa a h v)) = {[addr_ByteValue a]} ∪ dom (sa_StatesHashes sa).
Proof. unfold SetState. destruct (sa_StatesHashes sa !! _); cbn; by rewrite dom_insert_L. Qed.

Lemma vm_step_inv keccak sa sa' : vm_step keccak sa sa' -> vm_inv sa -> vm_inv sa'.
Proof.
  intros Hs Hi. destruct Hs as [| | | | | | |sa a h v|sa sa' sn Hr]; try done; unfold vm_inv.
  - destruct (SetState_records sa a h v) as (-> & _ & _). rewrite SetState_dom.
    apply map_Forall_insert_2; [rewrite dom_singleton_L; set_solver|].
    eapply map_Forall_impl; [exact Hi|]. intros. set_solver.
  - destruct (RevertToSnapshot_total sa sn Hi) as (slots & E & Hd). rewrite E in Hr. injection Hr as <-.
    unfold vm_inv in *. cbn. by rewrite Hd.
Qed.

Lemma vm_inv_init : vm_inv CreateStateDB.
Proof. apply map_Forall_empty. Qed.

Lemma vm_reachable_inv keccak sa : rtc (vm_step keccak) CreateStateDB sa -> vm_inv sa.
Proof.
  apply (rtc_ind_r vm_inv); [exact vm_inv_init|]. intros y z _ Hs Hi. exact (vm_step_inv _ _ _ Hs Hi).
Qed.

(** ** Going back to a block *)

Definition greatest_snapshot (height : Z) (l : list (Z * Z)) (n : Z) : Prop :=
  0 <= n /\ (forall b m : Z, (b, m) ∈ l -> b <= height -> m <= n) /\
  (n = 0 \/ exists b : Z, (b, n) ∈ l /\ b <= height).

Lemma snapshot_of_height_spec height m :
  greatest_snapshot height (map_to_list m) (snapshot_of_height height m).
Proof.
  unfold snapshot_of_height. induction (map_to_list m) as [|[h k] l (H0 & Hmax & Hin)]; cbn [foldr].
  - split; [done|]. split; [intros ? ? Hx; by apply elem_of_nil in Hx|by left].
  - set (n := foldr _ _ l) in *. cbn [fst snd].
    assert (Hstep : forall n', n <= n' -> (h <= height -> k <= n') ->
      forall h' m' : Z, (h', m') ∈ (h, k) :: l -> h' <= height -> m' <= n').
    { intros n' Hn Hk h' m' [[= -> ->]|Hx]%elem_of_cons Hle; [by apply Hk|].
      transitivity n; [by eapply Hmax|done]. }
    assert (Hkeep : n = 0 \/ exists h' : Z, (h', n) ∈ (h, k) :: l /\ h' <= height).
    { destruct Hin as [|(h' & Hx & Hle)]; [by left|]. right. exists h'. split; [by apply list_elem_of_further|done]. }
    destruct (height <? h) eqn:E1; zify_bool; [split; [done|]; split; [apply Hstep; lia|done]|].
    destruct (n <? k) eqn:E2; zify_bool.
    + split; [lia|]. split; [apply Hstep; lia|]. right. exists h. split; [apply list_elem_of_here|done].
    + split; [done|]. split; [apply Hstep; lia|done].
Qed.

(** C36: on every state the operations of the virtual machine reach, going back to
    a block does not panic, changes the values of slots only (no account, code,
    nonce or token appears or disappears) and takes the greatest snapshot number
    recorded for the blocks up to that height. *)
Theorem RevertVMToBlockHeight_scope keccak sa height :
  rtc (vm_step keccak) CreateStateDB sa ->
  exists slots n, RevertVMToBlockHeight sa height = Ok (with_slots sa slots n (sa_SnapShotPreimage sa)) /\
    dom slots = dom (sa_StatesHashes sa) /\
    greatest_snapshot height (map_to_list (sa_HeightToSnapShotNum sa)) n.
Proof.
  intros Hr. apply vm_reachable_inv in Hr.
  destruct (RevertToSnapshot_total sa (snapshot_of_height height (sa_HeightToSnapShotNum sa)) Hr)
    as (slots & E & Hd).
  exists slots, (snapshot_of_height height (sa_HeightToSnapShotNum sa)).
  split; [exact E|]. split; [exact Hd|]. apply snapshot_of_height_spec.
Qed.

(** ** Closed examples *)

Definition vm_addr (n : Z) : Address := mk_Address (sample_addr n) true.
Definition vm_word (n : Z) : Hash := arr_of HashLength [byte_of_Z n].

(** Slot 5 of contract 1 holds 7. *)
Definition vm_before : StateAccount := SetState CreateStateDB (vm_addr 1) (vm_word 5) (vm_word 7).

(** Slot 5 is set to 9 and the write is undone: slot 5 still holds 9, and slot 7,
    which was empty, holds 7. *)
Lemma RevertToSnapshot_after_write_witness : exists sa',
  RevertToSnapshot (SetState vm_before (vm_addr 1) (vm_word 5) (vm_word 9)) (Snapshot vm_before) = Ok sa' /\
  GetState vm_before (vm_addr 1) (vm_word 5) = vm_word 7 /\
  GetState vm_before (vm_addr 1) (vm_word 7) = EmptyHash /\
  GetState sa' (vm_addr 1) (vm_word 5) = vm_word 9 /\
  GetState sa' (vm_addr 1) (vm_word 7) = vm_word 7.
Proof.
  destruct (RevertToSnapshot_after_write vm_before (vm_addr 1) (vm_word 5) (vm_word 9)) as (sa' & E & Hs);
    [by vm_compute|].
  exists sa'. split; [exact E|]. rewrite !Hs. repeat split; vm_compute; reflexivity.
Defined.

(** A contract writes at block 3 and at block 4; the node goes back to block 3. *)
Definition vm_two_blocks : StateAccount :=
  SetSnapShotNum (SetState (SetSnapShotNum vm_before 3 1) (vm_addr 1) (vm_word 5) (vm_word 9)) 4 2.

Lemma vm_two_blocks_reachable : rtc (vm_step (fun _ => EmptyHash)) CreateStateDB vm_two_blocks.
Proof.
  unfold vm_two_blocks, vm_before. eapply rtc_l; [apply step_SetState|].
  eapply rtc_l; [apply step_SetSnapShotNum|]. eapply rtc_l; [apply step_SetState|].
  eapply rtc_l; [apply step_SetSnapShotNum|]. apply rtc_refl.
Qed.

Lemma RevertVMToBlockHeight_scope_witness : exists slots n,
  RevertVMToBlockHeight vm_two_blocks 3
  = Ok (with_slots vm_two_blocks slots n (sa_SnapShotPreimage vm_two_blocks)).
Proof.
  destruct (RevertVMToBlockHeight_scope _ _ 3 vm_two_blocks_reachable) as (slots & n & E & _).
  by exists slots, n.
Defined.
