(* ===== verification/Node.v ===== *)
(** * The state of a node and the operations on its transaction pools

    The package variables that block processing reads and writes (the accounts,
    the staking tables, the three transaction pools, the database, the two votes
    tables, the encryption configuration, the DEX accounts, the state of the virtual
    machine and the height) are the record [Node]; the operations
    of the packages modelled before are lifted to it.  Then transactionsPool/helper.go. *)
From S2P Require Import Prelude GoInt GoSlice Common Keys Database Codec Json Accounts Staking.
From S2P Require Import EncScheme Merkle Tx Heap Pool Dex StateDB.

(** voting/votingEncryptionSchemes.go [Votes] *)
Record Votes := mk_Votes { vt_Values : bytes; vt_Height : Z; vt_Staked : Z }.

Record Node (D : Type) := mk_Node {
  nd_Accounts : AccountsType;
  nd_StakingAccounts : staking_tables;
  nd_PoolsTx : TransactionPool;
  nd_PoolTxEscrow : TransactionPool;
  nd_PoolTxMultiSign : TransactionPool;
  nd_MainDB : D;
  nd_Config : EncryptionConfig;
  nd_VotesEncryption1 : gmap Z Votes;
  nd_VotesEncryption2 : gmap Z Votes;
  nd_AfterReset : bool;
  nd_DexAccounts : dex_map;
  nd_State : StateAccount;
  nd_Height : Z
}.
Arguments mk_Node {D}.
Arguments nd_Accounts {D}.
Arguments nd_StakingAccounts {D}.
Arguments nd_PoolsTx {D}.
Arguments nd_PoolTxEscrow {D}.
Arguments nd_PoolTxMultiSign {D}.
Arguments nd_MainDB {D}.
Arguments nd_Config {D}.
Arguments nd_VotesEncryption1 {D}.
Arguments nd_VotesEncryption2 {D}.
Arguments nd_AfterReset {D}.
Arguments nd_DexAccounts {D}.
Arguments nd_State {D}.
Arguments nd_Height {D}.

(** ** Lifting *)

(** A field of the node: how to read it and how to replace it. *)
Record lens (S F : Type) := mk_lens { l_get : S -> F; l_set : F -> S -> S }.
Arguments mk_lens {S F}.
Arguments l_get {S F}.
Arguments l_set {S F}.

Definition on {S F A} (l : lens S F) (m : ST F A) : ST S A :=
  fun s => let (r, f) := m (l_get l s) in (r, l_set l f s).
(** An operation that leaves its field alone when it fails. *)
Definition on_ok {S F} (l : lens S F) (m : F -> outcome F) : ST S unit :=
  fun s => match m (l_get l s) with
           | Ok f => (Ok tt, l_set l f s)
           | Err e => (Err e, s)
           | Panic => (Panic, s)
           end.
Definition reads {S F A} (l : lens S F) (m : F -> outcome A) : ST S A := fun s => (m (l_get l s), s).
(** [if err := m(); err != nil { h(); return err }] *)
Definition on_error {S A} (m : ST S A) (h : ST S unit) : ST S A :=
  fun s => match m s with
           | (Err e, s') => match h s' with (Panic, s'') => (Panic, s'') | (_, s'') => (Err e, s'') end
           | r => r
           end.
(** [if err := m(); err != nil { log }] *)
Definition logged {S} (m : ST S unit) : ST S unit :=
  fun s => match m s with (Panic, s') => (Panic, s') | (_, s') => (Ok tt, s') end.

Section WithinLifted.
Context {S F : Type} (R : relation S) `{!PreOrder R}.
Implicit Types l : lens S F.

(** A program on a field stays within [R] when it stays within a relation of the
    field that [R] allows. *)
Lemma within_on {A} (Rf : relation F) l (m : ST F A) :
  within Rf m -> (forall s x, Rf (l_get l s) x -> R s (l_set l x s)) -> within R (on l m).
Proof.
  intros Hm Hl s r s'. unfold on. destruct (m (l_get l s)) as [o x] eqn:E. intros [= _ <-].
  apply Hl. exact (Hm _ _ _ E).
Qed.
Lemma within_on_any {A} l (m : ST F A) : (forall s x, R s (l_set l x s)) -> within R (on l m).
Proof. intros Hl. by apply (within_on (fun _ _ => True)). Qed.
Lemma within_on_ok (Rf : relation F) l (m : F -> outcome F) :
  (forall x y, m x = Ok y -> Rf x y) -> (forall s x, Rf (l_get l s) x -> R s (l_set l x s)) ->
  within R (on_ok l m).
Proof.
  intros Hm Hl s r s'. unfold on_ok. destruct (m (l_get l s)) as [x|e|] eqn:E; intros [= _ <-]; [|done..].
  apply Hl, Hm, E.
Qed.
Lemma within_on_ok_any l (m : F -> outcome F) : (forall s x, R s (l_set l x s)) -> within R (on_ok l m).
Proof. intros Hl. by apply (within_on_ok (fun _ _ => True)). Qed.
Lemma within_reads {A} l (m : F -> outcome A) : within R (reads l m).
Proof. by intros s r s' [= _ <-]. Qed.
Lemma within_logged (m : ST S unit) : within R m -> within R (logged m).
Proof.
  intros Hm s r s'. unfold logged. destruct (m s) as [[a|e|] s1] eqn:E; intros [= _ <-]; exact (Hm _ _ _ E).
Qed.
Lemma within_on_error {A} (m : ST S A) (h : ST S unit) : within R m -> within R h -> within R (on_error m h).
Proof.
  intros Hm Hh s r s'. unfold on_error. destruct (m s) as [[a|e|] s1] eqn:E.
  - intros [= _ <-]. exact (Hm _ _ _ E).
  - destruct (h s1) as [o s2] eqn:E2. intros H. assert (s' = s2) as -> by (by destruct o; injection H as _ <-).
    transitivity s1; [exact (Hm _ _ _ E)|exact (Hh _ _ _ E2)].
  - intros [= _ <-]. exact (Hm _ _ _ E).
Qed.
End WithinLifted.
#[export] Hint Resolve within_reads : within.

(** Walk down the control flow of a program. *)
Ltac solve_within :=
  repeat (cbn beta; lazymatch goal with
  | |- forall _, _ => intros ?
  | |- within _ (st_bind _ _) => apply within_bind
  | |- within _ (st_try _) => apply within_try
  | |- within _ (logged _) => apply within_logged
  | |- within _ (on_error _ _) => apply within_on_error
  | |- within _ (if ?b then _ else _) => destruct b
  | |- within _ (match ?x with _ => _ end) => destruct x
  end); eauto with within.

Section Lenses.
Context {D : Type}.
Implicit Type n : Node D.

Definition accounts_l : lens (Node D) AccountsType := mk_lens nd_Accounts
  (fun x n => mk_Node x (nd_StakingAccounts n) (nd_PoolsTx n) (nd_PoolTxEscrow n)
     (nd_PoolTxMultiSign n) (nd_MainDB n) (nd_Config n) (nd_VotesEncryption1 n)
     (nd_VotesEncryption2 n) (nd_AfterReset n) (nd_DexAccounts n) (nd_State n) (nd_Height n)).
Definition staking_l : lens (Node D) staking_tables := mk_lens nd_StakingAccounts
  (fun x n => mk_Node (nd_Accounts n) x (nd_PoolsTx n) (nd_PoolTxEscrow n)
     (nd_PoolTxMultiSign n) (nd_MainDB n) (nd_Config n) (nd_VotesEncryption1 n)
     (nd_VotesEncryption2 n) (nd_AfterReset n) (nd_DexAccounts n) (nd_State n) (nd_Height n)).
Definition pools_l : lens (Node D) TransactionPool := mk_lens nd_PoolsTx
  (fun x n => mk_Node (nd_Accounts n) (nd_StakingAccounts n) x (nd_PoolTxEscrow n)
     (nd_PoolTxMultiSign n) (nd_MainDB n) (nd_Config n) (nd_VotesEncryption1 n)
     (nd_VotesEncryption2 n) (nd_AfterReset n) (nd_DexAccounts n) (nd_State n) (nd_Height n)).
Definition escrow_l : lens (Node D) TransactionPool := mk_lens nd_PoolTxEscrow
  (fun x n => mk_Node (nd_Accounts n) (nd_StakingAccounts n) (nd_PoolsTx n) x
     (nd_PoolTxMultiSign n) (nd_MainDB n) (nd_Config n) (nd_VotesEncryption1 n)
     (nd_VotesEncryption2 n) (nd_AfterReset n) (nd_DexAccounts n) (nd_State n) (nd_Height n)).
Definition multisign_l : lens (Node D) TransactionPool := mk_lens nd_PoolTxMultiSign
  (fun x n => mk_Node (nd_Accounts n) (nd_StakingAccounts n) (nd_PoolsTx n) (nd_PoolTxEscrow n)
     x (nd_MainDB n) (nd_Config n) (nd_VotesEncryption1 n)
     (nd_VotesEncryption2 n) (nd_AfterReset n) (nd_DexAccounts n) (nd_State n) (nd_Height n)).
Definition db_l : lens (Node D) D := mk_lens nd_MainDB
  (fun x n => mk_Node (nd_Accounts n) (nd_StakingAccounts n) (nd_PoolsTx n) (nd_PoolTxEscrow n)
     (nd_PoolTxMultiSign n) x (nd_Config n) (nd_VotesEncryption1 n)
     (nd_VotesEncryption2 n) (nd_AfterReset n) (nd_DexAccounts n) (nd_State n) (nd_Height n)).
Definition config_l : lens (Node D) EncryptionConfig := mk_lens nd_Config
  (fun x n => mk_Node (nd_Accounts n) (nd_StakingAccounts n) (nd_PoolsTx n) (nd_PoolTxEscrow n)
     (nd_PoolTxMultiSign n) (nd_MainDB n) x (nd_VotesEncryption1 n)
     (nd_VotesEncryption2 n) (nd_AfterReset n) (nd_DexAccounts n) (nd_State n) (nd_Height n)).
Definition votes_l : lens (Node D) (gmap Z Votes * gmap Z Votes * bool) :=
  mk_lens (fun n => (nd_VotesEncryption1 n, nd_VotesEncryption2 n, nd_AfterReset n))
  (fun x n => mk_Node (nd_Accounts n) (nd_StakingAccounts n) (nd_PoolsTx n) (nd_PoolTxEscrow n)
     (nd_PoolTxMultiSign n) (nd_MainDB n) (nd_Config n) x.1.1 x.1.2 x.2
     (nd_DexAccounts n) (nd_State n) (nd_Height n)).

Definition dex_l : lens (Node D) dex_map := mk_lens nd_DexAccounts
  (fun x n => mk_Node (nd_Accounts n) (nd_StakingAccounts n) (nd_PoolsTx n) (nd_PoolTxEscrow n)
     (nd_PoolTxMultiSign n) (nd_MainDB n) (nd_Config n) (nd_VotesEncryption1 n)
     (nd_VotesEncryption2 n) (nd_AfterReset n) x (nd_State n) (nd_Height n)).
Definition state_l : lens (Node D) StateAccount := mk_lens nd_State
  (fun x n => mk_Node (nd_Accounts n) (nd_StakingAccounts n) (nd_PoolsTx n) (nd_PoolTxEscrow n)
     (nd_PoolTxMultiSign n) (nd_MainDB n) (nd_Config n) (nd_VotesEncryption1 n)
     (nd_VotesEncryption2 n) (nd_AfterReset n) (nd_DexAccounts n) x (nd_Height n)).
Definition height_l : lens (Node D) Z := mk_lens nd_Height
  (fun x n => mk_Node (nd_Accounts n) (nd_StakingAccounts n) (nd_PoolsTx n) (nd_PoolTxEscrow n)
     (nd_PoolTxMultiSign n) (nd_MainDB n) (nd_Config n) (nd_VotesEncryption1 n)
     (nd_VotesEncryption2 n) (nd_AfterReset n) (nd_DexAccounts n) (nd_State n) x).

(** The configuration is read by the decoders of transactions. *)
Definition with_config {A} (m : EncryptionConfig -> ST D A) : ST (Node D) A :=
  fun n => on db_l (m (nd_Config n)) n.
Lemma within_with_config {A} (R : relation (Node D)) `{!PreOrder R} (Rf : relation D) (m : EncryptionConfig -> ST D A) :
  (forall ec, within Rf (m ec)) -> (forall n x, Rf (nd_MainDB n) x -> R n (l_set db_l x n)) ->
  within R (with_config m).
Proof. intros Hm Hl n r n'. exact (within_on R Rf db_l _ (Hm _) Hl n r n'). Qed.
End Lenses.

(** ** The pools of a node (transactionsPool/helper.go) *)

Section Helpers.
Context {D : Type} `{RocksDB D} `{Hasher} `{JSON (list MerkleNode)}.

(** [pool.AddTransaction(tx, hash)] with its result. *)
Definition pool_add (l : lens (Node D) TransactionPool) (tx : Transaction) (h : Hash)
    : ST (Node D) bool :=
  on l (fun tp => match AddTransaction tp tx h with
                  | Ok (b, tp') => (Ok b, tp')
                  | Err e => (Err e, tp)
                  | Panic => (Panic, tp)
                  end).
Definition pool_remove (l : lens (Node D) TransactionPool) (hash : bytes) : ST (Node D) unit :=
  on_ok l (fun tp => RemoveTransactionByHash tp hash).
Definition pool_ban (l : lens (Node D) TransactionPool) (hash : bytes) : ST (Node D) unit :=
  on_ok l (fun tp => Ok (BanTransactionByHash tp hash)).

Definition CheckTransactionInDBAndInMarkleTrie (hash : bytes) : ST (Node D) unit :=
  do! present <- reads db_l (fun db => CheckFromDBPoolTx db TransactionDBPrefix hash);
  if present then
    do! dbTx <- with_config (fun ec => LoadFromDBPoolTx ec TransactionDBPrefix hash);
    do! txHeight <- reads db_l (fun db => FindTransactionInBlocks db hash (tx_Height dbTx));
    if txHeight <? 0 then st_ret tt
    else st_err "transaction was previously added in chain: checkTransactionInDBAndInMarkleTrie"
  else st_ret tt.

Definition RemoveBadTransactionByHash (hash : bytes) (height : Z) : ST (Node D) unit :=
  run! pool_remove pools_l hash;
  run! pool_remove escrow_l hash;
  run! pool_remove multisign_l hash;
  run! logged (on db_l (RemoveTransactionFromDBbyHash TransactionPoolHashesDBPrefix hash));
  run! logged (on db_l (RemoveTransactionFromDBbyHash TransactionDBPrefix hash));
  run! logged (CheckTransactionInDBAndInMarkleTrie hash);
  run! logged (on db_l (RemoveMerkleTrieFromDB height));
  run! pool_ban pools_l hash;
  run! pool_ban escrow_l hash;
  pool_ban multisign_l hash.
End Helpers.
