(* ===== verification/Ledger.v ===== *)
(** * Package blocks: balances and the execution of transactions

    Models blocks/blockAccountState.go and blocks/processTransaction.go: the
    balance update, the supply, the check of staking transactions, the execution
    of a transaction, of the approved multi-signature transactions and of the
    delayed transactions. *)
From S2P Require Import Prelude GoInt GoSlice Sums Common Keys Database Codec Json Accounts Staking.
From S2P Require Import EncScheme Merkle Tx Heap Pool Node.

(** ** blocks/blockAccountState.go *)

(** A missing account is created with its address before the funds are checked. *)
Definition AddBalance (address : addr20) (addedAmount : Z) : ST AccountsType unit := fun at_ =>
  let (balance, at_) :=
    match AllAccounts at_ !! address with
    | Some acc => (Balance acc, at_)
    | None => (0, store_account at_ address (mk_Account 0 address 0 (byte_of_Z 0) []))
    end in
  if balance +! addedAmount <? 0 then (Err "Not enough funds on account", at_)
  else (Ok tt, SetBalance at_ address (balance +! addedAmount)).

Definition GetSupplyInAccounts (at_ : AccountsType) : Z := sum_map Balance (AllAccounts at_).
(** The nested loops add modulo 2^64, so the sums may be taken table by table. *)
Definition GetSupplyInStakedAccounts (t : staking_tables) : Z * Z :=
  (sum64 (sum_map StakedBalance) t, sum64 (sum_map StakingRewards) t).

(** ** Common parts of the functions below *)

Definition tx_fee (tx : Transaction) : Z := GasPrice tx *! GasUsage tx.

(** [n, err] computed from the account a stake is locked on, or from the
    recipient: [Some n] when [err == nil]. *)
Definition delegated_target (tx : Transaction) : outcome (option Z) :=
  if 0 <? td_LockedAmount (tx_Data tx) then
    match IntDelegatedAccountFromAddress (DelegatedAccountForLocking (tx_Data tx)) with
    | Ok n => if (n <=? 0) || (256 <=? n)
              then Err "DelegatedAccountForLocking must be a delegated account less than 256"
              else Ok (Some n)
    | Err _ => Err "DelegatedAccountForLocking must be a delegated account less than 256"
    | Panic => Panic
    end
  else
    match IntDelegatedAccountFromAddress (Recipient (tx_Data tx)) with
    | Ok n => Ok (Some n)
    | Err _ => Ok None
    | Panic => Panic
    end.

(** [bytes.Equal(tx.TxParam.MultiSignTx.GetBytes(), ZerosHash)] *)
Definition no_multisign (tx : Transaction) : bool :=
  bytes_eqb (Hash_GetBytes (MultiSignTx (tx_Param tx))) (zeros HashLength).

Definition sender_bytes (tx : Transaction) : bytes := Address_GetBytes (Sender (tx_Param tx)).
Definition sender_key (tx : Transaction) : addr20 := addr_ByteValue (Sender (tx_Param tx)).
Definition recipient_key (tx : Transaction) : addr20 := addr_ByteValue (Recipient (tx_Data tx)).

(** ** CheckStakingTransaction *)

(** The checks of a stake or an unstake on the delegated account [n]. *)
Definition stake_checks (t : staking_tables) (tx : Transaction) (n sumAmount : Z) : outcome bool :=
  let amount := Amount (tx_Data tx) in
  let small x := (x <? MinStakingUser) && (0 <? x) in
  let partial x := (x <? MinStakingUser) && negb (x =? 0) in
  if 0 <? td_LockedAmount (tx_Data tx) then
    Ok (negb ((amount <=? 0) || small amount
              || (td_LockedAmount (tx_Data tx) <? 0)
              || (amount <? td_LockedAmount (tx_Data tx))
              || (td_ReleasePerBlock (tx_Data tx) <? 0)
              || (td_LockedAmount (tx_Data tx) <? td_ReleasePerBlock (tx_Data tx))))
  else
    let! accStaking := GetStakingAccountByAddressBytes t (sender_bytes tx) n in
    Ok (negb ((negb (bytes_eqb (DelegatedAccount accStaking)
                       (Address_GetBytes (Recipient (tx_Data tx)))) && (amount <=? 0))
              || small amount || partial (StakedBalance accStaking +! amount)
              || small sumAmount || partial (StakedBalance accStaking +! sumAmount))).

(** The checks of a withdrawal of rewards. *)
Definition withdraw_checks (t : staking_tables) (tx : Transaction) (n : Z) : outcome bool :=
  let! accStaking := GetStakingAccountByAddressBytes t (sender_bytes tx) (n mod 256) in
  Ok (bytes_eqb (sa_Address accStaking) (sender_bytes tx)
      && negb (StakingRewards accStaking +! Amount (tx_Data tx) <? 0)).

Definition CheckStakingTransaction (at_ : AccountsType) (t : staking_tables) (tx : Transaction)
    (sumAmount sumFee : Z) : outcome bool :=
  let! acc := GetAccountByAddressBytes at_ (sender_bytes tx) in
  if negb (bytes_eqb (acc_Address acc) (sender_bytes tx)) then Ok false else
  if Balance acc <? tx_fee tx then Ok false else
  if Balance acc <? sumFee then Ok false else
  match delegated_target tx with
  | Panic => Panic
  | Err _ => Ok false
  | Ok None => Ok true
  | Ok (Some n) =>
      if (0 <? n) && (n <? 256) then stake_checks t tx n sumAmount
      else if (256 <=? n) && (n <? 512) then withdraw_checks t tx n
      else Ok true
  end.

(** ** ProcessMultiSignAndEscrow *)

Fixpoint init_all (l : list addr20) : outcome (list Address) :=
  match l with
  | [] => Ok []
  | a :: l => let! x := Address_Init zero_Address a in
              let! xs := init_all l in Ok (x :: xs)
  end.

Definition modify_escrow (at_ : AccountsType) (acc : Account) (td : TxData)
    : outcome (Account * AccountsType) :=
  if 0 <? EscrowTransactionsDelay td
  then ModifyAccountToEscrow at_ acc (EscrowTransactionsDelay td) else Ok (acc, at_).

Definition modify_multisign (at_ : AccountsType) (acc : Account) (td : TxData)
    : outcome (Account * AccountsType) :=
  if 0 <? byte_to_Z (td_MultiSignNumber td) then
    let! addrs := init_all (td_MultiSignAddresses td) in
    ModifyAccountToMultiSign at_ acc (td_MultiSignNumber td) addrs
  else Ok (acc, at_).

(** The account is a copy of the stored one, updated by both modifications. *)
Definition ProcessMultiSignAndEscrow (tx : Transaction) : ST AccountsType unit := fun at_ =>
  match SetAccountByAddressBytes at_ (recipient_key tx) with
  | Err e => (Err e, at_)
  | Panic => (Panic, at_)
  | Ok (acc, at1) =>
      match modify_escrow at1 acc (tx_Data tx) with
      | Err e => (Err e, at1)
      | Panic => (Panic, at1)
      | Ok (acc, at2) =>
          match modify_multisign at2 acc (tx_Data tx) with
          | Err e => (Err e, at2)
          | Panic => (Panic, at2)
          | Ok (_, at3) => (Ok tt, at3)
          end
      end
  end.

(** ** ProcessTransaction *)

Section Process.
Context {D : Type} `{RocksDB D} `{Hasher} `{JSON (list MerkleNode)}.

Definition add_balance (address : addr20) (amount : Z) : ST (Node D) unit :=
  on accounts_l (AddBalance address amount).
Definition sender_account (tx : Transaction) : ST (Node D) Account :=
  reads accounts_l (fun at_ => GetAccountByAddressBytes at_ (sender_bytes tx)).

(** A stake, an unstake, or a stake locked for the recipient, on delegated
    account [n]; then the sender pays [fee + amount]. *)
Definition process_staking (now : Z) (tx : Transaction) (height n : Z) : ST (Node D) unit :=
  let amount := Amount (tx_Data tx) in
  let operational := (0 <? length (OptData (tx_Data tx)))%nat in
  run! (if 0 <? td_LockedAmount (tx_Data tx) then
          if MinStakingUser <=? amount then
            on_ok staking_l (fun t =>
              Stake now t (Address_GetBytes (Recipient (tx_Data tx))) amount height n operational
                (td_LockedAmount (tx_Data tx)) (td_ReleasePerBlock (tx_Data tx)))
          else st_err "wrong amount in locking: ProcessTransaction"
        else
          if MinStakingUser <=? amount then
            on_ok staking_l (fun t => Stake now t (sender_bytes tx) amount height n operational 0 0)
          else if amount <? 0 then
            on_ok staking_l (fun t => Unstake now t (sender_bytes tx) amount height n)
          else st_err "wrong amount in staking/unstaking: ProcessTransaction");
  run! add_balance (sender_key tx) (0 -! tx_fee tx -! amount);
  on accounts_l (ProcessMultiSignAndEscrow tx).

(** A withdrawal of rewards; a positive amount is ignored. *)
Definition process_rewards (now : Z) (tx : Transaction) (height n : Z) : ST (Node D) unit :=
  let amount := Amount (tx_Data tx) in
  do! accStaking <- reads staking_l (fun t => GetStakingAccountByAddressBytes t (sender_bytes tx) (n mod 256));
  if negb (bytes_eqb (sa_Address accStaking) (sender_bytes tx))
  then st_err "no staking account found in check staking transaction (rewards): ProcessTransaction" else
  if 0 <? amount then st_ret tt else
  if amount <? 0 then
    run! on_ok staking_l (fun t =>
           WithdrawReward now t (arr_bytes (sa_Address accStaking)) amount height (n mod 256));
    add_balance (sender_key tx) (0 -! tx_fee tx -! amount)
  else st_err "wrong amount in rewarding: ProcessTransaction".

(** A transfer is executed, or parked in the pool of delayed transactions or in
    the pool of transactions that wait for signatures; the fee is paid at once. *)
Definition process_standard (tx : Transaction) (height : Z) : ST (Node D) unit :=
  do! senderAcc <- sender_account tx;
  run! (if (0 <? TransactionDelay senderAcc)
           && (height <? tx_Height tx +! TransactionDelay senderAcc) && no_multisign tx then
          run! pool_add escrow_l tx (tx_Hash tx); st_ret tt
        else if (0 <? byte_to_Z (MultiSignNumber senderAcc)) && no_multisign tx then
          run! pool_add multisign_l tx (tx_Hash tx); st_ret tt
        else
          run! (if no_multisign tx then st_ret true
                else pool_add multisign_l tx (MultiSignTx (tx_Param tx)));
          run! add_balance (sender_key tx) (0 -! Amount (tx_Data tx));
          add_balance (recipient_key tx) (Amount (tx_Data tx)));
  run! add_balance (sender_key tx) (0 -! tx_fee tx);
  on accounts_l (ProcessMultiSignAndEscrow tx).

Definition ProcessTransaction (now : Z) (tx : Transaction) (height : Z) : ST (Node D) unit :=
  do! target <- st_lift (delegated_target tx);
  match target with
  | Some n =>
      if (0 <? n) && (n <? 256) then process_staking now tx height n
      else if (256 <=? n) && (n <? 512) then process_rewards now tx height n
      else st_ret tt
  | None => process_standard tx height
  end.

(** ** ProcessTransactionsMultiSign *)

(** [notApprovedYet] is a slice of the approval addresses of the stored account:
    a window [off, off + ln) of the array [backing].  Removing an approver that is
    not the first shifts the rest of the window inside that array. *)
Record approvals := mk_approvals { ap_backing : list addr20; ap_off : nat; ap_len : nat; ap_num : nat }.

Definition ap_view (a : approvals) : list addr20 := take (ap_len a) (drop (ap_off a) (ap_backing a)).

Fixpoint find_approver (sender : addr20) (l : list addr20) (i : nat) : option nat :=
  match l with
  | [] => None
  | x :: l => if bool_decide (sender = x) then Some i else find_approver sender l (S i)
  end.

Definition approve (mainTx : Transaction) (a : approvals) (t : Transaction) : approvals :=
  if bytes_eqb (Address_GetBytes (Recipient (tx_Data mainTx))) (Address_GetBytes (Recipient (tx_Data t)))
     && (Amount (tx_Data t) =? 0) then
    match find_approver (sender_key t) (ap_view a) 0 with
    | None => a
    | Some O => mk_approvals (ap_backing a) (S (ap_off a)) (ap_len a - 1) (S (ap_num a))
    | Some i =>
        mk_approvals (take (ap_off a + i) (ap_backing a) ++ drop (S i) (ap_view a)
                      ++ drop (ap_off a + ap_len a - 1) (ap_backing a))
          (ap_off a) (ap_len a - 1) (S (ap_num a))
    end
  else a.

Definition set_MultiSignAddresses (acc : Account) (l : list addr20) : Account :=
  mk_Account (Balance acc) (acc_Address acc) (TransactionDelay acc) (MultiSignNumber acc) l.

(** The array is shared with the account in the table, if there is one. *)
Definition store_backing (key : addr20) (l : list addr20) : ST (Node D) unit :=
  on_ok accounts_l (fun at_ =>
    Ok (match AllAccounts at_ !! key with
        | Some acc => store_account at_ key (set_MultiSignAddresses acc l)
        | None => at_
        end)).

Definition remove_all (txs : list Transaction) : ST (Node D) unit :=
  foldr (fun t k => run! pool_remove multisign_l (Hash_GetBytes (tx_Hash t)); k) (st_ret tt) txs.

(** The transfer of an approved or delayed transaction; when the sender cannot
    pay, the transaction is removed and banned. *)
Definition transfer_or_ban (tx : Transaction) (height : Z) : ST (Node D) unit :=
  run! on_error (add_balance (sender_key tx) (0 -! Amount (tx_Data tx)))
         (RemoveBadTransactionByHash (Hash_GetBytes (tx_Hash tx)) height);
  add_balance (recipient_key tx) (Amount (tx_Data tx)).

(** The bytes of a transaction are never empty, so the guard
    [len(mainTx.GetBytes()) == 0] does not detect a missing main transaction,
    which is then the zero transaction. *)
Definition ProcessTransactionsMultiSign (tx : Transaction) (height : Z) : ST (Node D) unit :=
  if no_multisign tx then st_ret tt else
  do! key <- st_lift (GetInt64FromByte (Hash_GetBytes (MultiSignTx (tx_Param tx))));
  do! txs <- reads multisign_l (fun tp => Ok (PeekTransactions tp MaxTransactionInPool key));
  let mainTx := default zero_Transaction
    (List.find (fun t => bytes_eqb (Hash_GetBytes (tx_Hash t)) (Hash_GetBytes (MultiSignTx (tx_Param tx)))) txs) in
  if (length (Transaction_GetBytes mainTx) =? 0)%nat then
    run! remove_all txs; st_err "no main transaction in multi signature pool" else
  if MaxTransactionInMultiSigPool <? height -! tx_Height mainTx then
    run! remove_all txs; st_err "no main transaction in multi signature pool" else
  do! acc <- sender_account mainTx;
  if len txs <? byte_to_Z (MultiSignNumber acc) then st_ret tt else
  let a := foldl (approve mainTx)
             (mk_approvals (MultiSignAddresses acc) 0 (length (MultiSignAddresses acc)) 0) txs in
  run! store_backing (sender_key mainTx) (ap_backing a);
  if Z.of_nat (ap_num a) <? byte_to_Z (MultiSignNumber acc) then st_ret tt else
  do! target <- st_lift (delegated_target mainTx);
  match target with
  | Some _ => st_ret tt
  | None =>
      if (0 <? TransactionDelay acc) && (height <? tx_Height mainTx +! TransactionDelay acc)
      then st_err "transaction should not be executed, should be delayed"
      else
        run! pool_remove multisign_l (Hash_GetBytes (tx_Hash mainTx));
        transfer_or_ban mainTx height
  end.

(** ** ProcessTransactionsEscrow *)

(** The loop stops at the first transaction that is not executed: [false] means
    that the function returns [nil] at once. *)
Definition escrow_step (height : Z) (tx : Transaction) : ST (Node D) bool :=
  do! target <- st_lift (delegated_target tx);
  match target with
  | Some _ => st_ret false
  | None =>
      do! senderAcc <- sender_account tx;
      if (0 <? TransactionDelay senderAcc)
         && (height <? tx_Height tx +! TransactionDelay senderAcc) && no_multisign tx
      then st_err "transaction should not be executed"
      else if (0 <? byte_to_Z (MultiSignNumber senderAcc)) && no_multisign tx then
        do! added <- pool_add multisign_l tx (tx_Hash tx);
        run! (if added then pool_remove escrow_l (Hash_GetBytes (tx_Hash tx)) else st_ret tt);
        st_ret true
      else
        run! (if no_multisign tx then st_ret true
              else pool_add multisign_l tx (MultiSignTx (tx_Param tx)));
        run! pool_remove escrow_l (Hash_GetBytes (tx_Hash tx));
        run! transfer_or_ban tx height;
        st_ret true
  end.

Fixpoint escrow_loop (height : Z) (txs : list Transaction) : ST (Node D) unit :=
  match txs with
  | [] => st_ret tt
  | tx :: txs => do! continue <- escrow_step height tx;
                 if continue then escrow_loop height txs else st_ret tt
  end.

Definition ProcessTransactionsEscrow (height : Z) : ST (Node D) unit :=
  do! txs <- reads escrow_l (fun tp => Ok (PeekTransactions tp MaxTransactionInPool height));
  escrow_loop height txs.
End Process.
