(* ===== verification/Supply.v ===== *)
(** * The total supply of the ledger

    What the operations of Ledger.v do to the number of coins: balances, stakes
    and pending rewards together, modulo 2^64, as [GetSupplyInAccounts] and
    [GetSupplyInStakedAccounts] add them up. *)
From S2P Require Import Prelude GoInt GoSlice Sums Common Keys Database Codec Json Accounts Staking.
From S2P Require Import EncScheme Merkle Tx Heap Pool Node Ledger.

(** [GetSupplyInAccounts() + staked + rewarded] *)
Definition ledger_total (at_ : AccountsType) (t : staking_tables) : Z :=
  let (staked, rewarded) := GetSupplyInStakedAccounts t in
  GetSupplyInAccounts at_ +! staked +! rewarded.
Definition total {D} (n : Node D) : Z := ledger_total (nd_Accounts n) (nd_StakingAccounts n).

Lemma ledger_total_eq at_ t : ledger_total at_ t =
  GetSupplyInAccounts at_ +! sum64 (sum_map StakedBalance) t +! sum64 (sum_map StakingRewards) t.
Proof. done. Qed.
Ltac open_total :=
  unfold total; cbn [nd_Accounts nd_StakingAccounts accounts_l staking_l l_set];
  rewrite !ledger_total_eq.

(** Every account is filed under its own address. *)
Definition accounts_wf (at_ : AccountsType) : Prop :=
  map_Forall (fun a acc => acc_Address acc = a) (AllAccounts at_).

(** ** Updates of one account *)

Lemma store_account_wf at_ a acc : accounts_wf at_ -> acc_Address acc = a -> accounts_wf (store_account at_ a acc).
Proof. intros Hw Ha. unfold accounts_wf, store_account; cbn. by apply map_Forall_insert_2. Qed.

Lemma lookup_account_wf at_ a acc : accounts_wf at_ -> AllAccounts at_ !! a = Some acc -> acc_Address acc = a.
Proof. intros Hw Ha. exact (Hw a acc Ha). Qed.

Lemma store_account_supply at_ a acc :
  GetSupplyInAccounts (store_account at_ a acc)
  = GetSupplyInAccounts at_ +! (Balance acc -! Balance (lookup_account at_ a)).
Proof.
  unfold GetSupplyInAccounts, store_account; cbn [AllAccounts].
  rewrite (sum_map_insert Balance (AllAccounts at_) a acc zero_Account) by done. i64_solve.
Qed.

(** An update that keeps the balance keeps the supply. *)
Lemma store_account_same at_ a acc :
  Balance acc = Balance (lookup_account at_ a) ->
  GetSupplyInAccounts (store_account at_ a acc) = GetSupplyInAccounts at_.
Proof.
  intros Hb. rewrite store_account_supply, Hb.
  rewrite <- (i64_id (GetSupplyInAccounts at_)) at 2 by apply sum_map_in64. i64_solve.
Qed.

Lemma AddBalance_supply a x at_ r at' :
  accounts_wf at_ -> AddBalance a x at_ = (r, at') ->
  accounts_wf at' /\
  GetSupplyInAccounts at' = GetSupplyInAccounts at_ +! match r with Ok _ => x | _ => 0 end.
Proof.
  intros Hw. unfold AddBalance.
  assert (GetSupplyInAccounts at_ +! 0 = GetSupplyInAccounts at_) as H0
    by (apply add64_0_r, sum_map_in64).
  destruct (AllAccounts at_ !! a) as [acc|] eqn:Ea.
  - destruct (_ <? 0); intros [= <- <-]; [by rewrite H0|].
    assert (lookup_account at_ a = acc) as El by (unfold lookup_account; by rewrite Ea).
    unfold SetBalance. split.
    + apply store_account_wf; [done|]. rewrite El. exact (lookup_account_wf at_ a acc Hw Ea).
    + rewrite store_account_supply, El. cbn [Balance with_Balance]. i64_solve.
  - set (at1 := store_account at_ a _).
    assert (accounts_wf at1) as Hw1 by (by apply store_account_wf).
    assert (GetSupplyInAccounts at1 = GetSupplyInAccounts at_) as Hs1.
    { apply store_account_same. unfold lookup_account. by rewrite Ea. }
    destruct (_ <? 0); intros [= <- <-]; [by rewrite Hs1, H0|].
    assert (lookup_account at1 a = mk_Account 0 a 0 (byte_of_Z 0) []) as El
      by (unfold lookup_account, at1; cbn; by rewrite lookup_insert_eq).
    unfold SetBalance. split.
    + apply store_account_wf; [done|]. by rewrite El.
    + rewrite store_account_supply, El. cbn [Balance with_Balance]. rewrite Hs1. i64_solve.
Qed.

(** Reading an account of a well-formed table: it is stored under [a], or it is
    the zero account. *)
Lemma lookup_account_cases at_ a :
  accounts_wf at_ ->
  (AllAccounts at_ !! a = Some (lookup_account at_ a) /\ acc_Address (lookup_account at_ a) = a) \/
  (AllAccounts at_ !! a = None /\ lookup_account at_ a = zero_Account).
Proof.
  intros Hw. unfold lookup_account. destruct (AllAccounts at_ !! a) as [acc|] eqn:E; cbn.
  - left. split; [done|]. by apply (lookup_account_wf at_).
  - by right.
Qed.

(** The account that [SetAccountByAddressBytes] returns is the one its table has
    under its address, up to the balance the table lookup gives. *)
Lemma SetAccountByAddressBytes_wf at_ (a : addr20) acc at' :
  accounts_wf at_ -> SetAccountByAddressBytes at_ a = Ok (acc, at') ->
  accounts_wf at' /\ GetSupplyInAccounts at' = GetSupplyInAccounts at_ /\
  Balance acc = Balance (lookup_account at' (acc_Address acc)).
Proof.
  intros Hw. unfold SetAccountByAddressBytes. rewrite GetAccountByAddressBytes_arr. cbn [obind].
  destruct (bytes_eqb _ _) eqn:Ea.
  - apply bytes_eqb_eq, arr_eq in Ea. intros [= <- <-]. rewrite Ea. done.
  - rewrite full_slice by apply arr_length. cbn [obind]. rewrite arr_of_arr. intros [= <- <-].
    split; [by apply store_account_wf|]. cbn [acc_Address Balance]. split.
    + apply store_account_same. destruct (lookup_account_cases at_ a Hw) as [[_ E]|[_ ->]]; [|done].
      rewrite E in Ea. unfold bytes_eqb in Ea. by apply bool_decide_eq_false in Ea.
    + unfold lookup_account, store_account; cbn. by rewrite lookup_insert_eq.
Qed.

(** An account written back under its own address with its balance. *)
Lemma store_own at_ acc :
  accounts_wf at_ -> Balance acc = Balance (lookup_account at_ (acc_Address acc)) ->
  accounts_wf (store_account at_ (acc_Address acc) acc) /\
  GetSupplyInAccounts (store_account at_ (acc_Address acc) acc) = GetSupplyInAccounts at_ /\
  Balance acc = Balance (lookup_account (store_account at_ (acc_Address acc) acc) (acc_Address acc)).
Proof.
  intros Hw Hb. split; [by apply store_account_wf|]. split; [by apply store_account_same|].
  unfold lookup_account, store_account; cbn. by rewrite lookup_insert_eq.
Qed.

Lemma modify_escrow_wf at_ acc td acc' at' :
  accounts_wf at_ -> Balance acc = Balance (lookup_account at_ (acc_Address acc)) ->
  modify_escrow at_ acc td = Ok (acc', at') ->
  accounts_wf at' /\ GetSupplyInAccounts at' = GetSupplyInAccounts at_ /\
  Balance acc' = Balance (lookup_account at' (acc_Address acc')).
Proof.
  intros Hw Hb. unfold modify_escrow, ModifyAccountToEscrow.
  destruct (0 <? EscrowTransactionsDelay _); [|by intros [= <- <-]].
  destruct (0 <? _); [done|]. destruct (_ =? 0); [done|]. destruct (_ <? _); [done|].
  intros [= <- <-].
  exact (store_own at_ (mk_Account (Balance acc) (acc_Address acc) _ _ _) Hw Hb).
Qed.

Lemma modify_multisign_wf at_ acc td acc' at' :
  accounts_wf at_ -> Balance acc = Balance (lookup_account at_ (acc_Address acc)) ->
  modify_multisign at_ acc td = Ok (acc', at') ->
  accounts_wf at' /\ GetSupplyInAccounts at' = GetSupplyInAccounts at_ /\
  Balance acc' = Balance (lookup_account at' (acc_Address acc')).
Proof.
  intros Hw Hb. unfold modify_multisign, ModifyAccountToMultiSign.
  destruct (0 <? byte_to_Z (td_MultiSignNumber _)); [|by intros [= <- <-]].
  intros H. apply obind_ok_inv in H as (l & _ & H). revert H.
  destruct (0 <? _); [done|]. destruct (_ =? 0); [done|]. destruct (_ <? _); [done|].
  intros [= <- <-].
  exact (store_own at_ (mk_Account (Balance acc) (acc_Address acc) _ _ _) Hw Hb).
Qed.

(** Whatever it returns, it moves no coins. *)
Lemma ProcessMultiSignAndEscrow_supply tx at_ r at' :
  accounts_wf at_ -> ProcessMultiSignAndEscrow tx at_ = (r, at') ->
  accounts_wf at' /\ GetSupplyInAccounts at' = GetSupplyInAccounts at_.
Proof.
  intros Hw. unfold ProcessMultiSignAndEscrow.
  destruct (SetAccountByAddressBytes _ _) as [[acc at1]|e|] eqn:E1; [|by intros [= _ <-]..].
  apply SetAccountByAddressBytes_wf in E1 as (Hw1 & Hs1 & Hb1); [|done].
  destruct (modify_escrow _ _ _) as [[acc2 at2]|e|] eqn:E2; [|by intros [= _ <-]..].
  apply modify_escrow_wf in E2 as (Hw2 & Hs2 & Hb2); [|done..].
  destruct (modify_multisign _ _ _) as [[acc3 at3]|e|] eqn:E3;
    [|intros [= _ <-]; by rewrite Hs2, Hs1..].
  intros [= _ <-]. apply modify_multisign_wf in E3 as (Hw3 & Hs3 & _); [|done..].
  by rewrite Hs3, Hs2, Hs1.
Qed.

(** ** Programs that move coins *)

(** A successful run of [m] changes the total by [d]. *)
Definition moves {D A} (m : ST (Node D) A) (d : Z) : Prop := forall n a n',
  accounts_wf (nd_Accounts n) -> m n = (Ok a, n') ->
  accounts_wf (nd_Accounts n') /\ total n' = total n +! d.

Lemma total_in64 {D} (n : Node D) : in64 (total n).
Proof. unfold total, ledger_total. cbn. apply add64_in64. Qed.

Section Moves.
Context {D : Type}.
Implicit Types n : Node D.

Lemma moves_bind {A B} (m : ST (Node D) A) (k : A -> ST (Node D) B) d e :
  moves m d -> (forall a, moves (k a) e) -> moves (st_bind m k) (d + e).
Proof.
  intros Hm Hk n b n' Hw H. apply st_bind_ok_inv in H as (a & n1 & H1 & H2).
  destruct (Hm n a n1 Hw H1) as [Hw1 Ht1]. destruct (Hk a n1 b n' Hw1 H2) as [Hw2 Ht2].
  split; [done|]. rewrite Ht2, Ht1. i64_solve.
Qed.

Lemma moves_eq {A} (m : ST (Node D) A) d e : moves m d -> eq64 d e -> moves m e.
Proof.
  intros Hm He n a n' Hw H. destruct (Hm n a n' Hw H) as [? ->]. split; [done|].
  unfold add64. change (eq64 (total n + d) (total n + e)). by rewrite He.
Qed.

(** A program that only touches other parts of the node. *)
Definition same_ledger (n n' : Node D) : Prop :=
  nd_Accounts n' = nd_Accounts n /\ nd_StakingAccounts n' = nd_StakingAccounts n.
#[export] Instance same_ledger_preorder : PreOrder same_ledger.
Proof. split; [by intros n|]. intros n1 n2 n3 [E1 E2] [E3 E4]. split; congruence. Qed.
Abbreviation frames := (within same_ledger).

Lemma frames_moves {A} (m : ST (Node D) A) : frames m -> moves m 0.
Proof.
  intros Hf n a n' Hw H. destruct (Hf n _ n' H) as [Ha Hs].
  unfold total. rewrite Ha, Hs. split; [done|]. symmetry. apply add64_0_r, (total_in64 n).
Qed.
End Moves.
Abbreviation frames := (within same_ledger).

(** Pools, database, configuration and votes are not part of the ledger. *)
#[export] Hint Extern 2 (within same_ledger (on _ _)) => (apply within_on_any; first [exact _|by intros]) : within.
#[export] Hint Extern 2 (within same_ledger (on_ok _ _)) => (apply within_on_ok_any; first [exact _|by intros]) : within.
#[export] Hint Extern 2 (within same_ledger (with_config _)) =>
  (apply (within_with_config _ (fun _ _ => True)); first [exact _|by intros]) : within.
Ltac solve_frames := solve_within.

Section Helpers.
Context {D : Type} `{RocksDB D} `{Hasher} `{JSON (list MerkleNode)}.

Lemma frames_CheckTransaction hash :
  frames (CheckTransactionInDBAndInMarkleTrie (D := D) hash).
Proof. unfold CheckTransactionInDBAndInMarkleTrie. solve_frames. Qed.

Lemma frames_pool_add l tx h :
  l = pools_l \/ l = escrow_l \/ l = multisign_l -> frames (pool_add (D := D) l tx h).
Proof. intros [->|[->| ->]]; unfold pool_add; solve_frames. Qed.
Lemma frames_pool_remove l hash :
  l = pools_l \/ l = escrow_l \/ l = multisign_l -> frames (pool_remove (D := D) l hash).
Proof. intros [->|[->| ->]]; unfold pool_remove; solve_frames. Qed.

Lemma frames_RemoveBad hash height : frames (RemoveBadTransactionByHash (D := D) hash height).
Proof.
  pose proof (frames_CheckTransaction hash).
  unfold RemoveBadTransactionByHash, pool_remove, pool_ban. solve_frames.
Qed.

Lemma frames_remove_all txs : frames (remove_all (D := D) txs).
Proof. induction txs; cbn; unfold pool_remove; solve_frames. Qed.
End Helpers.
#[export] Hint Resolve frames_CheckTransaction frames_pool_add frames_pool_remove frames_RemoveBad
  frames_remove_all : within.

(** ** The building blocks of the ledger *)

Section LedgerMoves.
Context {D : Type} `{RocksDB D} `{Hasher} `{JSON (list MerkleNode)}.

Lemma moves_ret {A} (a : A) : moves (D := D) (st_ret a) 0.
Proof. apply frames_moves. solve_frames. Qed.
Lemma moves_err {A} e d : moves (D := D) (A := A) (st_err e) d.
Proof. by intros n a n' _ [=]. Qed.
Lemma moves_bind0 {A B} (m : ST (Node D) A) (k : A -> ST (Node D) B) d :
  frames m -> (forall a, moves (k a) d) -> moves (st_bind m k) d.
Proof.
  intros Hm Hk. replace d with (0 + d) by lia. apply moves_bind; [by apply frames_moves|done].
Qed.
(** A result computed without effects may be used in the rest of the program. *)
Lemma moves_bind_lift {A B} (o : outcome A) (k : A -> ST (Node D) B) d :
  (forall a, o = Ok a -> moves (k a) d) -> moves (st_bind (st_lift o) k) d.
Proof.
  intros Hk n b n' Hw. unfold st_bind, st_lift. destruct o as [a|e|]; [|done..].
  by apply Hk.
Qed.

Lemma moves_add_balance a x : moves (D := D) (add_balance a x) x.
Proof.
  intros n [] n' Hw. unfold add_balance, on. cbn [l_get accounts_l].
  destruct (AddBalance a x (nd_Accounts n)) as [r at'] eqn:E. intros [= -> <-].
  apply AddBalance_supply in E as [Hw' Hs]; [|done]. split; [done|].
  open_total. rewrite Hs. i64_solve.
Qed.

Lemma moves_multisign_escrow tx :
  moves (D := D) (on accounts_l (ProcessMultiSignAndEscrow tx)) 0.
Proof.
  intros n [] n' Hw. unfold on. cbn [l_get accounts_l].
  destruct (ProcessMultiSignAndEscrow tx (nd_Accounts n)) as [r at'] eqn:E. intros [= -> <-].
  apply ProcessMultiSignAndEscrow_supply in E as [Hw' Hs]; [|done]. split; [done|].
  open_total. rewrite Hs. i64_solve.
Qed.

Lemma moves_staking_op now o :
  moves (D := D) (on_ok staking_l (run_staking_op now o)) (op_staked o + op_rewarded o).
Proof.
  intros n [] n' Hw. unfold on_ok. cbn [l_get staking_l].
  destruct (run_staking_op now o (nd_StakingAccounts n)) as [t'|e|] eqn:E; [|done..].
  intros [= <-]. split; [done|]. apply run_staking_op_totals in E as [Hs Hr].
  open_total. unfold GetStakedInAllDelegatedAccounts, total_rewards in *.
  rewrite Hs, Hr. i64_solve.
Qed.

Lemma moves_store_backing key l : moves (D := D) (store_backing key l) 0.
Proof.
  intros n [] n' Hw. unfold store_backing, on_ok. cbn [l_get accounts_l].
  destruct (AllAccounts (nd_Accounts n) !! key) as [acc|] eqn:E; intros [= <-].
  - pose proof (lookup_account_wf _ _ _ Hw E) as Ha. split; [by apply store_account_wf|].
    open_total. rewrite store_account_same by (unfold lookup_account; by rewrite E). i64_solve.
  - split; [done|]. open_total. i64_solve.
Qed.

(** *** The execution of a transaction *)

Lemma moves_process_staking now tx h k : moves (D := D) (process_staking now tx h k) (- tx_fee tx).
Proof.
  unfold process_staking.
  apply moves_eq with (Amount (tx_Data tx) + ((0 -! tx_fee tx -! Amount (tx_Data tx)) + 0));
    [|i64_solve].
  apply moves_bind; [|intros _; apply moves_bind;
    [apply moves_add_balance|intros _; apply moves_multisign_escrow]].
  assert (forall d rel a, moves (D := D)
    (on_ok staking_l (fun t => Stake now t a (Amount (tx_Data tx)) h k
       (0 <? length (OptData (tx_Data tx)))%nat d rel)) (Amount (tx_Data tx))) as Hst.
  { intros d rel a. apply moves_eq with (Amount (tx_Data tx) + 0); [|i64_solve].
    exact (moves_staking_op now (OpStake a (Amount (tx_Data tx)) h k _ d rel)). }
  destruct (0 <? _); [destruct (_ <=? _); [apply Hst|apply moves_err]|].
  destruct (_ <=? _); [apply Hst|]. destruct (_ <? 0); [|apply moves_err].
  apply moves_eq with (Amount (tx_Data tx) + 0); [|i64_solve].
  exact (moves_staking_op now (OpUnstake (sender_bytes tx) (Amount (tx_Data tx)) h k)).
Qed.

Lemma moves_process_rewards now tx h k :
  moves (D := D) (process_rewards now tx h k) (if 0 <? Amount (tx_Data tx) then 0 else - tx_fee tx).
Proof.
  unfold process_rewards. apply moves_bind0; [solve_frames|]. intros acc.
  destruct (negb _); [apply moves_err|]. destruct (0 <? _); [apply moves_ret|].
  destruct (_ <? 0); [|apply moves_err].
  apply moves_eq with ((0 + Amount (tx_Data tx)) + (0 -! tx_fee tx -! Amount (tx_Data tx)));
    [|i64_solve].
  apply moves_bind; [|intros _; apply moves_add_balance].
  exact (moves_staking_op now (OpWithdrawReward (arr_bytes (sa_Address acc)) (Amount (tx_Data tx)) h (k mod 256))).
Qed.

Lemma moves_process_standard tx h : moves (D := D) (process_standard tx h) (- tx_fee tx).
Proof.
  unfold process_standard. apply moves_bind0; [solve_frames|]. intros acc.
  apply moves_eq with (0 + ((0 -! tx_fee tx) + 0)); [|i64_solve].
  apply moves_bind; [|intros _; apply moves_bind;
    [apply moves_add_balance|intros _; apply moves_multisign_escrow]].
  destruct (_ && _ && _); [apply frames_moves; solve_frames|].
  destruct (_ && _); [apply frames_moves; solve_frames|].
  apply moves_bind0; [solve_frames|]. intros _.
  apply moves_eq with ((0 -! Amount (tx_Data tx)) + Amount (tx_Data tx)); [|i64_solve].
  apply moves_bind; [|intros _]; apply moves_add_balance.
Qed.

(** What the ledger loses when [tx] is executed. *)
Definition charged (tx : Transaction) : Z :=
  match delegated_target tx with
  | Ok (Some n) => if n <? 256 then tx_fee tx
                   else if (n <? 512) && negb (0 <? Amount (tx_Data tx)) then tx_fee tx else 0
  | Ok None => tx_fee tx
  | _ => 0
  end.

Lemma delegated_target_pos tx n : delegated_target tx = Ok (Some n) -> 1 <= n < 65536.
Proof.
  unfold delegated_target. destruct (0 <? _).
  - destruct (IntDelegatedAccountFromAddress _) eqn:E; [|done..].
    destruct (_ || _); [done|]. intros [= <-]. apply IntDelegated_inv in E as [? _]. done.
  - destruct (IntDelegatedAccountFromAddress _) eqn:E; [|done..].
    intros [= <-]. apply IntDelegated_inv in E as [? _]. done.
Qed.

Lemma moves_ProcessTransaction now tx h : moves (D := D) (ProcessTransaction now tx h) (- charged tx).
Proof.
  unfold ProcessTransaction. apply moves_bind_lift. intros o Ho. unfold charged. rewrite Ho.
  destruct o as [n|]; [|apply moves_process_standard].
  pose proof (delegated_target_pos tx n Ho) as Hn.
  replace (0 <? n) with true by (symmetry; apply Z.ltb_lt; lia). cbn [andb].
  destruct (n <? 256) eqn:E1; [apply moves_process_staking|]. zify_bool.
  replace (256 <=? n) with true by (symmetry; apply Z.leb_le; lia). cbn [andb].
  destruct (n <? 512); cbn [andb]; [|apply moves_ret].
  pose proof (moves_process_rewards now tx h n) as Hr. by destruct (0 <? _).
Qed.
End LedgerMoves.

(** C28: executing a transaction changes the number of coins of the ledger
    (balances, stakes and rewards, modulo 2^64) by exactly the fee it is charged,
    whatever kind of transaction it is. *)
Theorem ProcessTransaction_total {D} now tx h (n n' : Node D) :
  accounts_wf (nd_Accounts n) ->
  ProcessTransaction now tx h n = (Ok tt, n') ->
  total n' = total n -! charged tx /\ accounts_wf (nd_Accounts n').
Proof.
  intros Hw E. destruct (moves_ProcessTransaction now tx h n tt n' Hw E) as [Hw' Ht].
  split; [|done]. rewrite Ht. i64_solve.
Qed.

(** ** A node for closed examples *)

Definition rich (a : Address) (b : Z) : addr20 * Account :=
  (addr_ByteValue a, mk_Account b (addr_ByteValue a) 0 (byte_of_Z 0) []).
Definition example_node : Node (gmap bytes bytes) :=
  mk_Node (mk_AccountsType (list_to_map [rich (flagged 1) 1000; rich (flagged 2) 0]) 0)
    no_stakes (NewTransactionPool 100 0) (NewTransactionPool 100 1) (NewTransactionPool 100 2)
    ∅ test_config ∅ ∅ false ∅ StateDB.CreateStateDB 5.
Definition after_sample : Node (gmap bytes bytes) :=
  snd (@ProcessTransaction _ 7 sample_tx 13 example_node).

Lemma example_node_wf : accounts_wf (nd_Accounts example_node).
Proof. apply map_Forall_to_list. vm_compute. repeat constructor. Qed.

Lemma ProcessTransaction_total_witness :
  total after_sample = total example_node -! charged sample_tx /\ charged sample_tx = 12.
Proof.
  split; [|reflexivity].
  apply (ProcessTransaction_total 7 sample_tx 13 example_node after_sample).
  - exact example_node_wf.
  - vm_cast_no_check (eq_refl (@Ok unit tt, after_sample)).
Defined.
