(* ===== verification/Transfers.v ===== *)
(** * Delayed and multi-signature transfers

    The transfers executed by [ProcessTransactionsEscrow] and
    [ProcessTransactionsMultiSign]: they conserve coins exactly, whatever the
    functions return, and a multi-signature transfer is executed only with enough
    approvals.  The approval loop works on a slice of the stored account. *)
From S2P Require Import Prelude GoInt GoSlice Sums Common Keys Database Codec Json Accounts Staking.
From S2P Require Import EncScheme Merkle Tx Heap Pool Node Ledger Supply.

(** ** The exact number of coins *)

Definition fold_coins (m : gmap addr20 Account) : Z :=
  map_fold (fun (_ : addr20) acc s => Balance acc + s) 0 m.
Definition coins (at_ : AccountsType) : Z := fold_coins (AllAccounts at_).

Lemma fold_coins_insert (m : gmap addr20 Account) a acc :
  m !! a = None -> fold_coins (<[a := acc]> m) = Balance acc + fold_coins m.
Proof.
  intros Hm. unfold fold_coins.
  apply (map_fold_insert_L (fun (_ : addr20) (acc : Account) (s : Z) => Balance acc + s)); [|done].
  intros. lia.
Qed.

Lemma coins_store at_ a acc :
  coins (store_account at_ a acc) = coins at_ + Balance acc - Balance (lookup_account at_ a).
Proof.
  unfold coins, store_account, lookup_account; cbn [AllAccounts].
  destruct (AllAccounts at_ !! a) as [x|] eqn:E; cbn [default id].
  - rewrite <- insert_delete_eq, fold_coins_insert by apply lookup_delete_eq.
    rewrite <- (insert_delete_id (AllAccounts at_) a x E) at 2.
    rewrite fold_coins_insert by apply lookup_delete_eq. unfold id. lia.
  - rewrite fold_coins_insert by done. cbn. lia.
Qed.

Definition nonneg (at_ : AccountsType) : Prop :=
  map_Forall (fun _ acc => 0 <= Balance acc) (AllAccounts at_).

Lemma coins_ge at_ a : nonneg at_ -> 0 <= Balance (lookup_account at_ a) <= coins at_.
Proof.
  intros Hn.
  assert (0 <= Balance (lookup_account at_ a)) as H0.
  { unfold lookup_account. destruct (AllAccounts at_ !! a) as [x|] eqn:E; cbn; [|lia]. by apply (Hn a x). }
  split; [done|].
  assert (forall m : gmap addr20 Account, map_Forall (fun _ acc => 0 <= Balance acc) m ->
    0 <= fold_coins m) as Hp.
  { intros m. induction m as [|i x m Hi IH] using map_ind; [done|].
    intros [Hx Hm]%map_Forall_insert; [|done].
    rewrite fold_coins_insert by done. specialize (IH Hm). lia. }
  pose proof (coins_store at_ a zero_Account) as Hs. cbn [Balance zero_Account] in Hs.
  assert (0 <= coins (store_account at_ a zero_Account)) as H1; [|lia].
  apply Hp. unfold store_account; cbn [AllAccounts]. apply map_Forall_insert_2; [cbn; lia|done].
Qed.

Lemma coins_supply at_ : GetSupplyInAccounts at_ = i64 (coins at_).
Proof.
  unfold GetSupplyInAccounts, coins. generalize (AllAccounts at_). intros m.
  induction m as [|i x m Hi IH] using map_ind; [done|].
  rewrite sum_map_insert_fresh, fold_coins_insert by done.
  rewrite IH. unfold add64. by rewrite i64_add_r.
Qed.

(** Well-formed accounts with balances that are not negative and do not overflow
    together. *)
Record solvent (at_ : AccountsType) : Prop := {
  sv_wf : accounts_wf at_;
  sv_nonneg : nonneg at_;
  sv_bound : coins at_ < 2 ^ 63
}.

Lemma store_nonneg at_ a acc : nonneg at_ -> 0 <= Balance acc -> nonneg (store_account at_ a acc).
Proof. intros. unfold nonneg, store_account; cbn. by apply map_Forall_insert_2. Qed.

(** [AddBalance] on solvent accounts is exact. *)
Lemma AddBalance_exact a x at_ r at' :
  solvent at_ -> - 2 ^ 63 < x -> coins at_ + x < 2 ^ 63 -> AddBalance a x at_ = (r, at') ->
  solvent at' /\
  ((r = Ok tt /\ coins at' = coins at_ + x /\ 0 <= Balance (lookup_account at_ a) + x) \/
   (exists e, r = Err e /\ coins at' = coins at_ /\ Balance (lookup_account at_ a) + x < 0)).
Proof.
  intros [Hw Hn Hb] Hx Hc E. pose proof (coins_ge at_ a Hn) as Hbal.
  destruct (AddBalance_supply _ _ _ _ _ Hw E) as [Hw' _]. revert E. unfold AddBalance.
  match goal with |- context [let (_, _) := ?q in _] => set (p := q) end.
  assert (exists at1, p = (Balance (lookup_account at_ a), at1) /\ coins at1 = coins at_ /\
    nonneg at1 /\ Balance (lookup_account at1 a) = Balance (lookup_account at_ a)) as (at1 & -> & Hc1 & Hn1 & Hl1).
  { unfold p, lookup_account at 1 3. destruct (AllAccounts at_ !! a) as [acc|] eqn:Ea; cbn [default id].
    - exists at_. repeat split; try done. unfold lookup_account. by rewrite Ea.
    - set (z := mk_Account 0 a 0 (byte_of_Z 0) []). exists (store_account at_ a z). split; [done|].
      split; [|split]. 
      + rewrite coins_store. unfold lookup_account. rewrite Ea. cbn. lia.
      + by apply store_nonneg.
      + unfold lookup_account, store_account; cbn. by rewrite lookup_insert_eq. }
  unfold add64. rewrite i64_id by (unfold in64; lia).
  destruct (_ <? 0) eqn:E0; zify_bool; intros [= <- <-].
  - split; [by split; [done|done|lia]|]. right. eauto.
  - assert (coins (SetBalance at1 a (Balance (lookup_account at_ a) + x)) = coins at_ + x) as Hcs.
    { unfold SetBalance. rewrite coins_store, Hl1. cbn [Balance with_Balance]. lia. }
    split; [|by left]. split; [done| |lia].
    by apply store_nonneg.
Qed.

(** ** Programs that conserve coins *)

Section Conserve.
Context {D : Type} `{RocksDB D} `{Hasher} `{JSON (list MerkleNode)}.

(** Whatever [m] returns, the coins and the stakes are what they were. *)
Definition conserves {A} (m : ST (Node D) A) : Prop := forall n r n',
  solvent (nd_Accounts n) -> m n = (r, n') ->
  solvent (nd_Accounts n') /\ coins (nd_Accounts n') = coins (nd_Accounts n) /\
  nd_StakingAccounts n' = nd_StakingAccounts n.

Lemma frames_conserves {A} (m : ST (Node D) A) : frames m -> conserves m.
Proof. intros Hf n r n' Hs E. destruct (Hf _ _ _ E) as [-> ->]. done. Qed.

Lemma conserves_bind {A B} (m : ST (Node D) A) (k : A -> ST (Node D) B) :
  conserves m -> (forall a, conserves (k a)) -> conserves (st_bind m k).
Proof.
  intros Hm Hk n r n' Hs. unfold st_bind. destruct (m n) as [[a|e|] n1] eqn:E; intros E'.
  - destruct (Hm _ _ _ Hs E) as (Hs1 & <- & <-). exact (Hk a n1 r n' Hs1 E').
  - injection E' as <- <-. exact (Hm _ _ _ Hs E).
  - injection E' as <- <-. exact (Hm _ _ _ Hs E).
Qed.

Lemma conserves_store_backing key l : conserves (store_backing key l).
Proof.
  intros n r n' [Hw Hn Hb]. unfold store_backing, on_ok. cbn [l_get accounts_l].
  destruct (AllAccounts (nd_Accounts n) !! key) as [acc|] eqn:E; intros [= _ <-]; [|done].
  cbn [nd_Accounts nd_StakingAccounts l_set].
  set (acc' := set_MultiSignAddresses acc l).
  assert (coins (store_account (nd_Accounts n) key acc') = coins (nd_Accounts n)) as Hc.
  { rewrite coins_store. unfold lookup_account. rewrite E. cbn. lia. }
  split; [|done]. split.
  - apply store_account_wf; [done|]. exact (lookup_account_wf _ _ _ Hw E).
  - apply store_nonneg; [done|]. exact (Hn key acc E).
  - by rewrite Hc.
Qed.

(** An amount a transfer can carry. *)
Definition amount_ok (tx : Transaction) : Prop := 0 <= Amount (tx_Data tx) < 2 ^ 63.

Lemma conserves_transfer tx height : amount_ok tx -> conserves (transfer_or_ban tx height).
Proof.
  intros Ha n r n' Hs. unfold transfer_or_ban, st_bind, on_error, add_balance, on. cbn [l_get accounts_l].
  unfold amount_ok in Ha. set (x := Amount (tx_Data tx)) in *.
  unfold sub64. rewrite i64_id by (unfold in64; lia).
  destruct (AddBalance (sender_key tx) (0 - x) (nd_Accounts n)) as [r1 at1] eqn:E1.
  pose proof (sv_bound _ Hs) as Hb.
  apply AddBalance_exact in E1 as [Hs1 [(-> & Hc1 & Hp)|(e & -> & Hc1 & _)]]; [| |done|lia|lia].
  - cbn [l_set l_get accounts_l nd_Accounts].
    destruct (AddBalance (recipient_key tx) x at1) as [r2 at2] eqn:E2. cbn beta iota. intros [= <- <-].
    cbn [nd_Accounts nd_StakingAccounts l_set].
    pose proof (coins_ge at1 (recipient_key tx) (sv_nonneg _ Hs1)) as Hr.
    apply AddBalance_exact in E2 as [Hs2 [(-> & Hc2 & _)|(e & -> & _ & Hneg)]]; [|lia|done|lia|lia].
    split; [done|]. split; [lia|done].
  - set (n1 := l_set _ _ _).
    destruct (RemoveBadTransactionByHash _ height n1) as [r2 n2] eqn:E2.
    apply frames_RemoveBad in E2 as [Ea Es]. intros Hn'.
    assert (n' = n2) as -> by (by destruct r2; injection Hn' as _ <-).
    rewrite Ea, Es. unfold n1. cbn [nd_Accounts nd_StakingAccounts l_set accounts_l]. done.
Qed.

Lemma conserves_escrow_loop height txs :
  Forall amount_ok txs -> conserves (escrow_loop height txs).
Proof.
  induction 1 as [|tx txs Hok _ IH]; cbn [escrow_loop]; [apply frames_conserves; solve_frames|].
  apply conserves_bind; [|intros []; [done|apply frames_conserves; solve_frames]].
  unfold escrow_step. apply conserves_bind; [apply frames_conserves; solve_frames|]. intros [n|];
    [apply frames_conserves; solve_frames|].
  apply conserves_bind; [apply frames_conserves; solve_frames|]. intros acc.
  destruct (_ && _ && _); [apply frames_conserves; solve_frames|].
  destruct (_ && _); [apply frames_conserves; solve_frames|].
  apply conserves_bind; [apply frames_conserves; solve_frames|]. intros _.
  apply conserves_bind; [apply frames_conserves; solve_frames|]. intros _.
  apply conserves_bind; [by apply conserves_transfer|]. intros _. apply frames_conserves; solve_frames.
Qed.

(** What is peeked is in the pool, or is the zero transaction. *)
Lemma PeekTransactions_Forall (P : Transaction -> Prop) tp k h :
  P zero_Transaction -> map_Forall (fun _ tx => P tx) (transactions tp) ->
  Forall P (PeekTransactions tp k h).
Proof.
  intros Hz Hp. unfold PeekTransactions. apply Forall_concat, Forall_forall.
  intros l Hl. apply list_elem_of_In, in_map_iff in Hl as (it & <- & _). unfold peek_item.
  assert (P (default zero_Transaction (transactions tp !!
    arr_copy (arr_zero _) (Hash_GetBytes (tx_Hash (it_tx it)))))) as Hd.
  { destruct (transactions tp !! _) eqn:E; cbn; [|done]. by eapply (Hp _ _ E). }
  destruct (_ =? 0); [by constructor|]. destruct (_ =? 1).
  - destruct (_ <=? _); by repeat constructor.
  - destruct (_ =? 2); [|done]. destruct (_ =? _); by repeat constructor.
Qed.

Lemma conserves_Escrow height n r n' :
  map_Forall (fun _ tx => amount_ok tx) (transactions (nd_PoolTxEscrow n)) ->
  solvent (nd_Accounts n) -> ProcessTransactionsEscrow height n = (r, n') ->
  solvent (nd_Accounts n') /\ coins (nd_Accounts n') = coins (nd_Accounts n) /\
  nd_StakingAccounts n' = nd_StakingAccounts n.
Proof.
  intros Hp. unfold ProcessTransactionsEscrow. intros Hs E.
  apply (conserves_escrow_loop height
    (PeekTransactions (nd_PoolTxEscrow n) MaxTransactionInPool height)) with (r := r); [|done|done].
  by apply PeekTransactions_Forall.
Qed.
End Conserve.

(** ** Approvals *)

(** A transaction that approves [mainTx]. *)
Definition approving (mainTx t : Transaction) : Prop :=
  recipient_key t = recipient_key mainTx /\ Amount (tx_Data t) = 0.

Lemma find_approver_Some s l k i :
  find_approver s l k = Some i -> (k <= i)%nat /\ l !! (i - k)%nat = Some s.
Proof.
  revert k. induction l as [|x l IH]; intros k; cbn; [done|].
  destruct (bool_decide _) eqn:E.
  - intros [= <-]. rewrite Nat.sub_diag. apply bool_decide_eq_true in E as ->. done.
  - intros [? Hl]%IH. split; [lia|]. replace (i - k)%nat with (S (i - S k)) by lia. done.
Qed.

(** The window is inside the array. *)
Definition ap_wf (a : approvals) : Prop := (ap_off a + ap_len a <= length (ap_backing a))%nat.

Lemma ap_view_length a : ap_wf a -> length (ap_view a) = ap_len a.
Proof. unfold ap_wf, ap_view. intros. rewrite length_take, length_drop. lia. Qed.

(** Removing entry [i] of the window in place: the window loses that entry. *)
Lemma remove_view a i x num :
  ap_wf a -> ap_view a !! i = Some x ->
  let a' := mk_approvals (take (ap_off a + i) (ap_backing a) ++ drop (S i) (ap_view a)
                          ++ drop (ap_off a + ap_len a - 1) (ap_backing a))
              (ap_off a) (ap_len a - 1) num in
  ap_wf a' /\ ap_view a' = take i (ap_view a) ++ drop (S i) (ap_view a) /\
  length (ap_backing a') = length (ap_backing a).
Proof.
  intros Hw Hi a'. pose proof (ap_view_length a Hw) as Hl. pose proof (lookup_lt_Some _ _ _ Hi) as Hlt.
  unfold ap_wf in *. destruct a as [b off ln k]; cbn [ap_backing ap_off ap_len] in *.
  set (v := ap_view _) in *.
  assert (length (take (off + i) b) = (off + i)%nat) as Ht by (rewrite length_take; lia).
  assert (length (ap_backing a') = length b) as Hb.
  { unfold a'. cbn [ap_backing]. rewrite !length_app, Ht, !length_drop. lia. }
  split; [rewrite Hb; cbn; lia|]. split; [|done].
  unfold ap_view at 1, a'. cbn [ap_backing ap_off ap_len].
  rewrite drop_app_le by (rewrite Ht; lia). rewrite skipn_firstn_comm.
  replace (off + i - off)%nat with i by lia.
  assert (take i (drop off b) = take i v) as ->.
  { unfold v, ap_view; cbn [ap_backing ap_off ap_len]. rewrite take_take. f_equal. lia. }
  rewrite app_assoc. apply take_app_length'. rewrite length_app, length_take, length_drop. lia.
Qed.

Lemma approve_step mainTx a t :
  ap_wf a ->
  ap_wf (approve mainTx a t) /\
  ((approve mainTx a t = a) \/
   (approving mainTx t /\ ap_num (approve mainTx a t) = S (ap_num a) /\
    sender_key t :: ap_view (approve mainTx a t) ≡ₚ ap_view a)).
Proof.
  intros Hw. unfold approve. destruct (_ && _) eqn:Ec; [|by split; [|left]]. zify_bool.
  assert (approving mainTx t) as Happ.
  { split; [|done]. match goal with E : bytes_eqb _ _ = true |- _ => apply bytes_eqb_eq in E;
      apply arr_eq; exact (eq_sym E) end. }
  destruct (find_approver _ _ 0) as [[|i]|] eqn:Ef; [| |by split; [|left]].
  - apply find_approver_Some in Ef as [_ Ef]. cbn [Nat.sub] in Ef.
    pose proof (ap_view_length a Hw) as Hl. pose proof (lookup_lt_Some _ _ _ Ef) as Hlt.
    split; [unfold ap_wf in *; cbn; lia|]. right. split; [done|]. split; [done|].
    unfold ap_view in Ef |- *. cbn [ap_backing ap_off ap_len].
    destruct a as [b off ln k]; cbn [ap_backing ap_off ap_len] in *. destruct ln as [|ln]; [lia|].
    rewrite lookup_take_lt, lookup_drop, Nat.add_0_r in Ef by lia.
    rewrite (drop_S _ _ _ Ef). cbn [take]. by rewrite Nat.sub_succ, Nat.sub_0_r.
  - apply find_approver_Some in Ef as [_ Ef]. rewrite Nat.sub_0_r in Ef.
    destruct (remove_view a (S i) (sender_key t) (S (ap_num a)) Hw Ef) as (Hw' & Hv & _).
    split; [done|]. right. split; [done|]. split; [done|]. rewrite Hv.
    rewrite <- (take_drop_middle _ _ _ Ef) at 3. by rewrite Permutation_middle.
Qed.

(** Each counted approval uses up one address of the list. *)
Lemma approve_all mainTx txs : forall a, ap_wf a ->
  exists used, used `sublist_of` txs /\ Forall (approving mainTx) used /\
    ap_num (foldl (approve mainTx) a txs) = (ap_num a + length used)%nat /\
    map sender_key used ++ ap_view (foldl (approve mainTx) a txs) ≡ₚ ap_view a.
Proof.
  induction txs as [|t txs IH]; intros a Hw.
  - exists []. cbn. repeat split; try constructor; try lia; done.
  - destruct (approve_step mainTx a t Hw) as [Hw1 Hst]. cbn [foldl].
    destruct (IH _ Hw1) as (used & Hsub & Hall & Hnum & Hperm).
    destruct Hst as [E|(Happ & Hn & Hp)].
    + rewrite E in *. exists used. by split; [apply sublist_cons|].
    + exists (t :: used). split; [by apply sublist_skip|]. split; [by constructor|].
      split; [rewrite Hnum, Hn; cbn; lia|]. cbn [map app]. by rewrite Hperm, Hp.
Qed.

Lemma approve_count mainTx txs l :
  let a := foldl (approve mainTx) (mk_approvals l 0 (length l) 0) txs in
  exists used, used `sublist_of` txs /\ Forall (approving mainTx) used /\
    ap_num a = length used /\ map sender_key used ⊆+ l.
Proof.
  destruct (approve_all mainTx txs (mk_approvals l 0 (length l) 0)) as (used & Hs & Hf & Hn & Hp).
  { unfold ap_wf. cbn. lia. }
  exists used. split; [done|]. split; [done|]. split; [done|].
  replace (ap_view (mk_approvals l 0 (length l) 0)) with l in Hp
    by (unfold ap_view; cbn; by rewrite firstn_all).
  rewrite <- Hp. by apply submseteq_inserts_r.
Qed.

(** ** Multi-signature execution *)

Section MultiSign.
Context {D : Type} `{RocksDB D} `{Hasher} `{JSON (list MerkleNode)}.

(** The transactions waiting under the hash that [tx] approves. *)
Definition waiting (n : Node D) (tx : Transaction) : list Transaction :=
  PeekTransactions (nd_PoolTxMultiSign n) MaxTransactionInPool
    (from_ok 0 (GetInt64FromByte (Hash_GetBytes (MultiSignTx (tx_Param tx))))).
Definition main_tx (n : Node D) (tx : Transaction) : option Transaction :=
  List.find (fun t => bytes_eqb (Hash_GetBytes (tx_Hash t)) (Hash_GetBytes (MultiSignTx (tx_Param tx))))
    (waiting n tx).
Definition main_or_zero (n : Node D) (tx : Transaction) : Transaction :=
  default zero_Transaction (main_tx n tx).

(** Enough approvals by distinct entries of the approval list of the sender. *)
Definition approved (n : Node D) (tx mainTx : Transaction) : Prop :=
  exists used, used `sublist_of` waiting n tx /\ Forall (approving mainTx) used /\
    map sender_key used ⊆+ MultiSignAddresses (lookup_account (nd_Accounts n) (sender_key mainTx)) /\
    byte_to_Z (MultiSignNumber (lookup_account (nd_Accounts n) (sender_key mainTx)))
      <= Z.of_nat (length used).

Definition same_balances (n n' : Node D) : Prop :=
  forall a, GetBalance (nd_Accounts n') a = GetBalance (nd_Accounts n) a.
(** The ledger is as it was, up to approval lists. *)
Definition unchanged (n n' : Node D) : Prop :=
  same_balances n n' /\ coins (nd_Accounts n') = coins (nd_Accounts n) /\
  nd_StakingAccounts n' = nd_StakingAccounts n /\
  (solvent (nd_Accounts n) -> solvent (nd_Accounts n')).

Lemma unchanged_refl n : unchanged n n.
Proof. split; [done|]. split; [done|]. split; [done|]. trivial. Qed.
Lemma frames_unchanged {A} (m : ST (Node D) A) n n1 r n' :
  frames m -> m n1 = (r, n') -> unchanged n n1 -> unchanged n n'.
Proof. intros Hf E (? & ? & ? & ?). unfold unchanged, same_balances. by destruct (Hf _ _ _ E) as [-> ->]. Qed.

Lemma store_backing_unchanged key l (n : Node D) :
  exists n', store_backing key l n = (Ok tt, n') /\ unchanged n n'.
Proof.
  destruct (store_backing key l n) as [r n'] eqn:E. exists n'.
  assert (r = Ok tt) as -> by (unfold store_backing, on_ok in E; by injection E as <- _).
  split; [done|].
  pose proof (fun Hs => conserves_store_backing key l n (Ok tt) n' Hs E) as Hc.
  unfold store_backing, on_ok in E. cbn [l_get accounts_l] in E. injection E as <-.
  assert (same_balances n (l_set accounts_l (match AllAccounts (nd_Accounts n) !! key with
    | Some acc => store_account (nd_Accounts n) key (set_MultiSignAddresses acc l)
    | None => nd_Accounts n end) n)) as Hb.
  { intros a. cbn [nd_Accounts l_set accounts_l].
    destruct (AllAccounts (nd_Accounts n) !! key) as [acc|] eqn:E; [|done].
    unfold GetBalance, lookup_account, store_account; cbn [AllAccounts].
    destruct (decide (key = a)) as [<-|Hne]; [by rewrite lookup_insert_eq, E|by rewrite lookup_insert_ne]. }
  split; [done|]. split; [|split; [done|]].
  - cbn [nd_Accounts l_set accounts_l].
    destruct (AllAccounts (nd_Accounts n) !! key) as [x|] eqn:E; [|done].
    rewrite coins_store. unfold lookup_account. rewrite E. cbn. lia.
  - intros Hs. exact (proj1 (Hc Hs)).
Qed.

(** Only one path of the function leads to the transfer. *)
Lemma MultiSign_inv tx height n r n' :
  ProcessTransactionsMultiSign tx height n = (r, n') ->
  unchanged n n' \/
  (approved n tx (main_or_zero n tx) /\
   exists n1, unchanged n n1 /\ transfer_or_ban (main_or_zero n tx) height n1 = (r, n')).
Proof.
  pose proof (unchanged_refl n) as Hrefl.
  unfold ProcessTransactionsMultiSign. destruct (no_multisign tx); [by intros [= _ <-]; left|].
  unfold st_bind at 1, st_lift at 1. destruct (GetInt64FromByte _) as [key|e|] eqn:Ek; [|by intros [= _ <-]; left..].
  unfold st_bind at 1, reads at 1. cbn [l_get multisign_l].
  assert (PeekTransactions (nd_PoolTxMultiSign n) MaxTransactionInPool key = waiting n tx) as ->
    by (unfold waiting; by rewrite Ek).
  fold (main_tx n tx). fold (main_or_zero n tx). set (mainTx := main_or_zero n tx).
  assert (forall e, frames (run! remove_all (D := D) (waiting n tx); st_err (A := unit) e)) as Hrem
    by (intros e; solve_frames).
  destruct (Nat.eqb _ _); [intros E; left; exact (frames_unchanged _ n n _ _ (Hrem _) E Hrefl)|].
  destruct (_ <? _); [intros E; left; exact (frames_unchanged _ n n _ _ (Hrem _) E Hrefl)|].
  unfold st_bind at 1, sender_account, reads at 1, sender_bytes, Address_GetBytes. cbn [l_get accounts_l].
  rewrite GetAccountByAddressBytes_arr. fold (sender_key mainTx).
  set (acc := lookup_account (nd_Accounts n) (sender_key mainTx)).
  destruct (_ <? byte_to_Z _); [by intros [= _ <-]; left|].
  destruct (approve_count mainTx (waiting n tx) (MultiSignAddresses acc)) as (used & Hsub & Hall & Hnum & Hincl).
  set (a := foldl _ _ _) in *. cbv zeta.
  destruct (store_backing_unchanged (sender_key mainTx) (ap_backing a) n) as (n1 & E1 & Hs1).
  unfold st_bind at 1. rewrite E1.
  destruct (_ <? byte_to_Z _) eqn:Eq; [by intros [= _ <-]; left|]. zify_bool.
  unfold st_bind at 1, st_lift at 1. destruct (delegated_target mainTx) as [[k|]|e|]; try by intros [= _ <-]; left.
  destruct (_ && _); [by intros [= _ <-]; left|].
  unfold st_bind at 1. destruct (pool_remove multisign_l _ n1) as [o n2] eqn:E2.
  assert (unchanged n n2) as Hs2 by (eapply frames_unchanged; [|exact E2|done]; solve_frames).
  destruct o as [[]|e|]; [|by intros [= _ <-]; left..].
  intros E. right. split; [|by exists n2].
  exists used. rewrite Hnum in Eq. done.
Qed.

Lemma main_tx_waiting n tx mainTx : main_tx n tx = Some mainTx -> mainTx ∈ waiting n tx.
Proof. intros E. apply List.find_some in E as [E _]. by apply list_elem_of_In. Qed.
Lemma main_or_zero_ok (P : Transaction -> Prop) n tx :
  P zero_Transaction -> map_Forall (fun _ tx => P tx) (transactions (nd_PoolTxMultiSign n)) ->
  P (main_or_zero n tx).
Proof.
  intros Hz Hp. unfold main_or_zero. destruct (main_tx n tx) as [t|] eqn:E; [|done].
  apply main_tx_waiting in E. revert t E. apply Forall_forall. by apply PeekTransactions_Forall.
Qed.

Lemma AddBalance_0 a at_ :
  solvent at_ -> exists at', AddBalance a 0 at_ = (Ok tt, at') /\ solvent at' /\
    forall b, GetBalance at' b = GetBalance at_ b.
Proof.
  intros Hs. destruct (AddBalance a 0 at_) as [r at'] eqn:E. exists at'.
  pose proof (coins_ge at_ a (sv_nonneg _ Hs)) as Hb. pose proof (sv_bound _ Hs) as Hbd.
  destruct (AddBalance_exact a 0 at_ r at' Hs) as [Hs' [(-> & _)|(e & _ & _ & Hneg)]];
    [lia|lia|done| |lia].
  split; [done|]. split; [done|]. intros b. revert E. unfold AddBalance.
  assert (0 <= Balance (lookup_account at_ a) < 2 ^ 63) as Hr by lia.
  unfold GetBalance, lookup_account in *.
  destruct (AllAccounts at_ !! a) as [acc|] eqn:Ea; cbn [default id] in Hr; unfold id in Hr;
    (rewrite add64_0_r by (unfold in64; lia)).
  - destruct (_ <? 0); [done|]. intros [= <-]. unfold SetBalance, store_account, lookup_account; cbn [AllAccounts].
    rewrite Ea. destruct (decide (a = b)) as [<-|Hne]; [by rewrite lookup_insert_eq, Ea|by rewrite lookup_insert_ne].
  - cbn [Z.ltb Z.compare]. intros [= <-]. unfold SetBalance, store_account, lookup_account; cbn [AllAccounts].
    rewrite lookup_insert_eq, insert_insert_eq.
    destruct (decide (a = b)) as [<-|Hne]; [by rewrite lookup_insert_eq, Ea|by rewrite lookup_insert_ne].
Qed.

(** The zero transaction transfers nothing. *)
Lemma transfer_zero height n r n' :
  solvent (nd_Accounts n) -> transfer_or_ban zero_Transaction height n = (r, n') -> same_balances n n'.
Proof.
  intros Hs. unfold transfer_or_ban, st_bind, on_error, add_balance, on. cbn [l_get accounts_l].
  change (0 -! Amount (tx_Data zero_Transaction)) with 0. change (Amount (tx_Data zero_Transaction)) with 0.
  destruct (AddBalance_0 (sender_key zero_Transaction) _ Hs) as (at1 & -> & Hs1 & Hb1).
  cbn [l_set l_get accounts_l nd_Accounts].
  destruct (AddBalance_0 (recipient_key zero_Transaction) _ Hs1) as (at2 & -> & _ & Hb2).
  intros [= _ <-] a. cbn [nd_Accounts]. by rewrite Hb2, Hb1.
Qed.
End MultiSign.

(** ** The theorems *)

(** C29: delayed transactions are executed without creating or losing a coin:
    whatever the function returns (it stops at the first transaction it cannot
    execute), the sum of the balances and all the stakes are what they were. *)
Theorem ProcessTransactionsEscrow_conserves {D} `{RocksDB D} `{Hasher} `{JSON (list MerkleNode)}
    height (n n' : Node D) r :
  solvent (nd_Accounts n) ->
  map_Forall (fun _ tx => amount_ok tx) (transactions (nd_PoolTxEscrow n)) ->
  ProcessTransactionsEscrow height n = (r, n') ->
  coins (nd_Accounts n') = coins (nd_Accounts n) /\
  nd_StakingAccounts n' = nd_StakingAccounts n /\ solvent (nd_Accounts n').
Proof. intros Hs Hp E. destruct (conserves_Escrow height n r n' Hp Hs E) as (? & ? & ?). done. Qed.

(** C30: a multi-signature transaction conserves coins whatever happens, and a
    balance changes only if the main transaction is in the pool and at least
    [MultiSignNumber] of the waiting transactions approve it, each from a different
    entry of the approval list of the paying account. *)
Theorem ProcessTransactionsMultiSign_approved {D} `{RocksDB D} `{Hasher} `{JSON (list MerkleNode)}
    tx height (n n' : Node D) r :
  solvent (nd_Accounts n) ->
  map_Forall (fun _ tx => amount_ok tx) (transactions (nd_PoolTxMultiSign n)) ->
  ProcessTransactionsMultiSign tx height n = (r, n') ->
  coins (nd_Accounts n') = coins (nd_Accounts n) /\
  nd_StakingAccounts n' = nd_StakingAccounts n /\
  forall a, GetBalance (nd_Accounts n') a <> GetBalance (nd_Accounts n) a ->
  exists mainTx, main_tx n tx = Some mainTx /\ approved n tx mainTx.
Proof.
  intros Hs Hp E. apply MultiSign_inv in E as [(Hb & Hc & Hst & _)|(Happ & n1 & (Hb1 & Hc1 & Hst1 & Hs1) & E)].
  - split; [done|]. split; [done|]. intros a Hne. by destruct Hne.
  - specialize (Hs1 Hs).
    destruct (conserves_transfer _ height (main_or_zero_ok amount_ok n tx ltac:(done) Hp) n1 r n' Hs1 E)
      as (_ & -> & ->). split; [done|]. split; [done|]. intros a Hne.
    unfold main_or_zero in *. destruct (main_tx n tx) as [mainTx|]; [by exists mainTx|].
    destruct Hne. rewrite (transfer_zero height n1 r n' Hs1 E a). apply Hb1.
Qed.

(** ** Closed examples *)

(** A 2-of-3 account (address 1) with the approvers 11, 12 and 13. *)
Definition joint : addr20 * Account :=
  (addr_ByteValue (flagged 1), mk_Account 1000 (addr_ByteValue (flagged 1)) 0 (byte_of_Z 2)
     (map (fun k => addr_ByteValue (flagged k)) [11; 12; 13])).
Definition plain_tx (from to amount time : Z) (multi : Hash) : Transaction :=
  sign_toy (mk_Transaction
    (mk_TxData (flagged to) amount [] zero_PubKey 0 0 zero_Address 0 (byte_of_Z 0) [])
    (mk_TxParam 23 (flagged from) time 0 multi) (arr_zero _) zero_Signature 12 1 1 [] zero_Address).
Definition joint_node : Node (gmap bytes bytes) :=
  l_set accounts_l (mk_AccountsType (list_to_map (joint :: map (fun k => rich (flagged k) 100) [11; 12; 13])) 0)
    example_node.

(** [ProcessTransaction] then [ProcessTransactionsMultiSign], as for the
    transactions of a block. *)
Definition execute (txs : list Transaction) (n : Node (gmap bytes bytes)) : Node (gmap bytes bytes) :=
  foldl (fun n tx =>
    snd ((run! ProcessTransaction 7 tx 13; @ProcessTransactionsMultiSign _ map_store toy_hasher node_json tx 13) n))
    n txs.
Definition first_payment : Transaction := plain_tx 1 2 300 1 (arr_zero _).
Definition second_payment : Transaction := plain_tx 1 2 400 2 (arr_zero _).
Definition approve_by (k time : Z) (main : Transaction) : Transaction := plain_tx k 2 0 time (tx_Hash main).
Definition balance_of (n : Node (gmap bytes bytes)) (k : Z) : Z :=
  GetBalance (nd_Accounts n) (addr_ByteValue (flagged k)).

(** Approver 12 approves the first payment; then approver 13 alone approves the
    second one, twice. *)
Definition waiting_node : Node (gmap bytes bytes) := execute [first_payment; approve_by 12 3 first_payment] joint_node.
Definition paid_node : Node (gmap bytes bytes) := execute [approve_by 13 4 first_payment] waiting_node.
Definition thirteen_node : Node (gmap bytes bytes) :=
  execute [second_payment; approve_by 13 5 second_payment; approve_by 13 6 second_payment] paid_node.

(** the approval loop works on the array of the stored account, so counting an
    approval rewrites the approval list.  On a 2-of-3 account with the approvers 11,
    12 and 13: the approval of 12 leaves the list [11; 13; 13]; when 13 also approves,
    the payment is not executed; and 13 alone, approving a later payment twice, gets
    it executed. *)
Theorem approval_list_is_rewritten :
  MultiSignAddresses (lookup_account (nd_Accounts waiting_node) (addr_ByteValue (flagged 1)))
    = map (fun k => addr_ByteValue (flagged k)) [11; 13; 13] /\
  balance_of waiting_node 2 = 0 /\ balance_of paid_node 2 = 0 /\ balance_of thirteen_node 2 = 400.
Proof. split; [vm_compute; reflexivity|]. split; [vm_compute; reflexivity|]. split; vm_compute; reflexivity. Qed.

(** A single call that executes: both approvals come before the call. *)
Definition pooled (txs : list Transaction) (n : Node (gmap bytes bytes)) : Node (gmap bytes bytes) :=
  foldl (fun n tx => snd (@ProcessTransaction _ 7 tx 13 n)) n txs.
Definition ready_node : Node (gmap bytes bytes) :=
  pooled [first_payment; approve_by 12 3 first_payment; approve_by 13 4 first_payment] joint_node.
Definition executed_node : Node (gmap bytes bytes) :=
  snd (@ProcessTransactionsMultiSign _ map_store toy_hasher node_json (approve_by 13 4 first_payment) 13 ready_node).

Definition solventb (at_ : AccountsType) : bool :=
  forallb (fun kv => bool_decide (acc_Address kv.2 = kv.1) && (0 <=? Balance kv.2))
    (map_to_list (AllAccounts at_)) && (coins at_ <? 2 ^ 63).
Lemma solventb_sound at_ : solventb at_ = true -> solvent at_.
Proof.
  unfold solventb. intros [Hf Hc]%andb_true_iff. rewrite forallb_forall in Hf. apply Z.ltb_lt in Hc.
  split; [| |done]; intros k acc Hk%elem_of_map_to_list%list_elem_of_In; specialize (Hf _ Hk);
    apply andb_true_iff in Hf as [Ha Hb].
  - by apply bool_decide_eq_true in Ha.
  - by apply Z.leb_le in Hb.
Qed.
Lemma amounts_sound (m : gmap Hash Transaction) :
  forallb (fun kv => (0 <=? Amount (tx_Data kv.2)) && (Amount (tx_Data kv.2) <? 2 ^ 63)) (map_to_list m) = true ->
  map_Forall (fun _ tx => amount_ok tx) m.
Proof.
  intros Hf k tx Hk%elem_of_map_to_list%list_elem_of_In. rewrite forallb_forall in Hf.
  specialize (Hf _ Hk). cbn in Hf. zify_bool. done.
Qed.

Lemma executed_run :
  @ProcessTransactionsMultiSign _ map_store toy_hasher node_json (approve_by 13 4 first_payment) 13 ready_node
  = (Ok tt, executed_node).
Proof.
  apply (run_result (@ProcessTransactionsMultiSign _ map_store toy_hasher node_json
    (approve_by 13 4 first_payment) 13) ready_node). vm_compute. reflexivity.
Qed.
Lemma executed_balance : GetBalance (nd_Accounts executed_node) (addr_ByteValue (flagged 2)) = 300.
Proof. vm_compute. reflexivity. Qed.
Lemma ready_balance : GetBalance (nd_Accounts ready_node) (addr_ByteValue (flagged 2)) = 0.
Proof. vm_compute. reflexivity. Qed.

Lemma ProcessTransactionsMultiSign_approved_witness :
  balance_of executed_node 2 = 300 /\
  coins (nd_Accounts executed_node) = coins (nd_Accounts ready_node) /\
  exists mainTx, main_tx ready_node (approve_by 13 4 first_payment) = Some mainTx /\
    approved ready_node (approve_by 13 4 first_payment) mainTx.
Proof.
  destruct (@ProcessTransactionsMultiSign_approved _ map_store toy_hasher node_json
    (approve_by 13 4 first_payment) 13 ready_node executed_node (Ok tt)) as (Hc & _ & Ha).
  - apply solventb_sound. vm_compute. reflexivity.
  - apply amounts_sound. vm_compute. reflexivity.
  - exact executed_run.
  - split; [exact executed_balance|]. split; [exact Hc|].
    apply (Ha (addr_ByteValue (flagged 2))). rewrite executed_balance, ready_balance. discriminate.
Defined.

(** A transfer of address 1 waits three blocks in the pool of delayed transactions. *)
Definition careful : addr20 * Account :=
  (addr_ByteValue (flagged 1), mk_Account 1000 (addr_ByteValue (flagged 1)) 3 (byte_of_Z 0) []).
Definition delayed_node : Node (gmap bytes bytes) :=
  pooled [first_payment]
    (l_set accounts_l (mk_AccountsType (list_to_map [careful]) 0) example_node).
Definition released_node : Node (gmap bytes bytes) :=
  snd (@ProcessTransactionsEscrow _ map_store toy_hasher node_json 15 delayed_node).

Lemma released_run :
  @ProcessTransactionsEscrow _ map_store toy_hasher node_json 15 delayed_node = (Ok tt, released_node).
Proof.
  apply (run_result (@ProcessTransactionsEscrow _ map_store toy_hasher node_json 15) delayed_node).
  vm_compute. reflexivity.
Qed.

Lemma ProcessTransactionsEscrow_conserves_witness :
  (balance_of delayed_node 2, balance_of released_node 2) = (0, 300) /\
  coins (nd_Accounts released_node) = coins (nd_Accounts delayed_node).
Proof.
  destruct (@ProcessTransactionsEscrow_conserves _ map_store toy_hasher node_json 15 delayed_node
    released_node (Ok tt)) as (Hc & _ & _).
  - apply solventb_sound. vm_compute. reflexivity.
  - apply amounts_sound. vm_compute. reflexivity.
  - exact released_run.
  - split; [vm_compute; reflexivity|exact Hc].
Defined.
