(* ===== verification/Block.v ===== *)
(** * Package blocks: blocks, headers and their storage

    Models blocks/baseBlock.go, blocks/Block.go and blocks/proofOfSynergy.go:
    headers, base blocks and blocks, their binary format and hash, storage by
    height and by hash, the signature check of a header, the proof of synergy and
    the adjustment of the difficulty. *)
From S2P Require Import Prelude GoInt GoSlice Common Keys Database Codec Float64 Json EncScheme.
From S2P Require Import Merkle PubKeys Tx.
From Stdlib Require Import SpecFloat.

Record BaseHeader := mk_BaseHeader {
  PreviousHash : Hash;
  Difficulty : Z;
  bh_Height : Z;
  bh_DelegatedAccount : Address;
  OperatorAccount : Address;
  RootMerkleTree : Hash;
  Encryption1 : bytes;
  Encryption2 : bytes;
  bh_Signature : Signature;
  SignatureMessage : bytes
}.

Record BaseBlock := mk_BaseBlock {
  bb_BaseHeader : BaseHeader;
  BlockHeaderHash : Hash;
  BlockTimeStamp : Z;
  RewardPercentage : Z;
  Supply : Z;
  PriceOracle : Z;
  RandOracle : Z;
  PriceOracleData : bytes;
  RandOracleData : bytes
}.

Record Block := mk_Block {
  bl_BaseBlock : BaseBlock;
  TransactionsHashes : list Hash;
  BlockHash : Hash;
  BlockFee : Z
}.

Definition bl_Header (b : Block) : BaseHeader := bb_BaseHeader (bl_BaseBlock b).
Definition set_BlockFee (b : Block) (fee : Z) : Block :=
  mk_Block (bl_BaseBlock b) (TransactionsHashes b) (BlockHash b) fee.

(** ** Headers *)

Definition GetBytesWithoutSignature (b : BaseHeader) : bytes :=
  Hash_GetBytes (PreviousHash b) ++ GetByteInt32 (Difficulty b) ++ GetByteInt64 (bh_Height b)
  ++ Address_GetBytes (bh_DelegatedAccount b) ++ Address_GetBytesWithPrimary (OperatorAccount b)
  ++ Hash_GetBytes (RootMerkleTree b)
  ++ BytesToLenAndBytes (Encryption1 b) ++ BytesToLenAndBytes (Encryption2 b).

Definition BaseHeader_GetBytes (b : BaseHeader) : bytes :=
  Hash_GetBytes (PreviousHash b) ++ GetByteInt32 (Difficulty b) ++ GetByteInt64 (bh_Height b)
  ++ Address_GetBytes (bh_DelegatedAccount b) ++ Address_GetBytesWithPrimary (OperatorAccount b)
  ++ Hash_GetBytes (RootMerkleTree b)
  ++ BytesToLenAndBytes (Encryption1 b) ++ BytesToLenAndBytes (Encryption2 b)
  ++ BytesToLenAndBytes (SignatureMessage b) ++ BytesToLenAndBytes (sig_ByteValue (bh_Signature b)).

Definition BaseHeader_GetFromBytes (ec : EncryptionConfig) (b : bytes) : outcome (BaseHeader * bytes) :=
  if (len b <? 117 + SignatureLength ec) && (len b <? 117 + SignatureLength2 ec)
  then Err "not enough bytes to decode BaseHeader" else
  let! s := slice b 0 32 in
  let previous := GetHashFromBytes s in
  let! s := slice b 32 36 in
  let! difficulty := GetInt32FromByte s in
  let! s := slice b 36 44 in
  let! height := GetInt64FromByte s in
  let! s := slice b 44 64 in
  let! delegated := BytesToAddress s in
  let! s := slice b 64 85 in
  let! operator := BytesToAddress s in
  let! s := slice b 85 117 in
  let root := GetHashFromBytes s in
  let! s := slice_from b 117 in
  let! (enc1, b) := BytesWithLenToBytes s in
  let! (enc2, b) := BytesWithLenToBytes b in
  let! (message, b) := BytesWithLenToBytes b in
  let! (sigBytes, b) := BytesWithLenToBytes b in
  let! sig := GetSignatureFromBytes ec sigBytes operator in
  Ok (mk_BaseHeader previous difficulty height delegated operator root enc1 enc2 sig message, b).

(** [CalcHash] hashes the header with its signature. *)
Definition BaseHeader_CalcHash `{Hasher} (b : BaseHeader) : outcome Hash :=
  CalcHashFromBytes (BaseHeader_GetBytes b).

(** ** Base blocks *)

Definition BaseBlock_GetBytes (bb : BaseBlock) : bytes :=
  BaseHeader_GetBytes (bb_BaseHeader bb) ++ Hash_GetBytes (BlockHeaderHash bb)
  ++ GetByteInt64 (BlockTimeStamp bb) ++ GetByteInt16 (RewardPercentage bb)
  ++ GetByteInt64 (Supply bb) ++ GetByteInt64 (PriceOracle bb) ++ GetByteInt64 (RandOracle bb)
  ++ BytesToLenAndBytes (PriceOracleData bb) ++ BytesToLenAndBytes (RandOracleData bb).

Definition BaseBlock_GetFromBytes (ec : EncryptionConfig) (b : bytes) : outcome (BaseBlock * bytes) :=
  if len b <? 116 + SignatureLength ec + 44 + 16
  then Err "not enough bytes to decode BaseBlock" else
  let! (header, b) := BaseHeader_GetFromBytes ec b in
  let! s := slice b 0 32 in
  let hash := GetHashFromBytes s in
  let! s := slice b 32 40 in
  let! time := GetInt64FromByte s in
  let! s := slice b 40 42 in
  let! reward := GetInt16FromByte s in
  let! s := slice b 42 50 in
  let! supply := GetInt64FromByte s in
  let! s := slice b 50 58 in
  let! price := GetInt64FromByte s in
  let! s := slice b 58 66 in
  let! rand := GetInt64FromByte s in
  let! s := slice_from b 66 in
  let! (priceData, b) := BytesWithLenToBytes s in
  let! (randData, b) := BytesWithLenToBytes b in
  Ok (mk_BaseBlock header hash time reward supply price rand priceData randData, b).

(** ** Blocks *)

Definition Block_GetBytes (tb : Block) : bytes :=
  BaseBlock_GetBytes (bl_BaseBlock tb) ++ Hash_GetBytes (BlockHash tb)
  ++ GetByteInt64 (BlockFee tb) ++ concat (map Hash_GetBytes (TransactionsHashes tb)).

(** [n] hashes of 32 bytes. *)
Fixpoint read_hashes (n : nat) (b : bytes) : list Hash :=
  match n with
  | O => []
  | S n => GetHashFromBytes (take 32 b) :: read_hashes n (drop 32 b)
  end.

(** The receiver of the decoder is the zero block. *)
Definition Block_GetFromBytes (ec : EncryptionConfig) (b : bytes) : outcome Block :=
  let! (base, b) := BaseBlock_GetFromBytes ec b in
  let! s := slice b 0 32 in
  let hash := GetHashFromBytes s in
  let! b := slice_from b 32 in
  let! s := slice b 0 8 in
  let! fee := GetInt64FromByte s in
  let! b := slice_from b 8 in
  if negb (length b mod 32 =? 0)%nat then Err "wrongly decompile block" else
  Ok (mk_Block base (read_hashes (length b / 32) b) hash fee).

(** The hash of a block covers its base block only. *)
Definition GetBytesForHash (tb : Block) : bytes := BaseBlock_GetBytes (bl_BaseBlock tb).
Definition CalcBlockHash `{Hasher} (tb : Block) : outcome Hash := CalcHashFromBytes (GetBytesForHash tb).

(** ** Storage *)

Section Storage.
Context {D : Type} `{RocksDB D}.

Definition block_key (hash : bytes) : bytes := BlocksDBPrefix ++ hash.
Definition height_key (height : Z) : bytes := BlockByHeightDBPrefix ++ GetByteInt64 height.

Definition StoreBlock (bl : Block) : ST D unit :=
  run! db_put (block_key (Hash_GetBytes (BlockHash bl))) (Block_GetBytes bl);
  db_put (height_key (bh_Height (bl_Header bl))) (Hash_GetBytes (BlockHash bl)).

Definition RemoveBlockFromDB (height : Z) : ST D unit :=
  do! hb <- db_get (height_key height);
  run! db_delete (block_key hb);
  db_delete (height_key height).

Definition LastHeightStoredInBlocks (db : D) (fuel : nat) : option (Z * bool) :=
  last_height_loop height_key db fuel 0.

Definition LoadHashOfBlock (db : D) (height : Z) : outcome bytes := DB_Get db (height_key height).

Definition LoadBlock (ec : EncryptionConfig) (db : D) (height : Z) : outcome Block :=
  let! hb := DB_Get db (height_key height) in
  let! abl := DB_Get db (block_key hb) in
  Block_GetFromBytes ec abl.

Definition GetTransactionsHashes (db : D) (height : Z) : outcome (list Hash) :=
  let! txsHashes := LoadTxHashes db height in Ok (map GetHashFromBytes txsHashes).
End Storage.

(** ** The signature of a header *)

(** [coin] is the random number, 0 or 1, that [GetNodeSignPrimary] draws when both schemes
    are in use, [pref] the preference of the node. *)
Definition BaseHeader_Verify {D} `{RocksDB D} `{JSON PubKey} `{Hasher} `{OqsLib} (ec : EncryptionConfig)
    (pref : bool) (coin : Z) (db : D) (bh : BaseHeader) : outcome bool :=
  let message := GetBytesWithoutSignature bh in
  if negb (bytes_eqb message (SignatureMessage bh)) then Ok false else
  let! calcHash := CalcHashToByte message in
  let primary := GetNodeSignPrimary ec pref coin (bh_Height bh) in
  match LoadPubKeyWithPrimary db (OperatorAccount bh) primary with
  | Err _ => Ok false
  | Panic => Panic
  | Ok pk => Verify ec calcHash (sig_ByteValue (bh_Signature bh)) (pk_ByteValue pk)
  end.

(** blocks.FromBytesToEncryptionConfig: no bytes stand for the current scheme. *)
Definition FromBytesToEncryptionConfig `{OqsLib} (ec : EncryptionConfig) (bb : bytes) (primary : bool)
    : outcome ConfigEnc :=
  match bb with
  | [] =>
      if negb (IsPaused ec) && primary then
        Ok (CreateEncryptionScheme (sigName ec) (PubKeyLength ec) (PrivateKeyLength ec)
              (SignatureLength ec) (IsPaused ec))
      else if negb (IsPaused2 ec) && negb primary then
        Ok (CreateEncryptionScheme (sigName2 ec) (PubKeyLength2 ec) (PrivateKeyLength2 ec)
              (SignatureLength2 ec) (IsPaused2 ec))
      else Err "no valid encyption scheme"
  | _ => EncScheme.FromBytesToEncryptionConfig bb
  end.

(** ** Proof of synergy *)

(** [math.Log2] is an argument. *)
Definition minimalHashProof (difficulty : Z) : float64 :=
  f64_sub (f64_of_int 128) (f64_div (f64_of_int (Z.quot difficulty 10)) (f64_of_int DifficultyMultiplier)).

(** [hh[i] & hh[i+16]] for the 16 bytes of the lower half. *)
Definition byte_and (hh : bytes) : bytes :=
  zip_with (fun x y => byte_of_Z (Z.land (byte_to_Z x) (byte_to_Z y))) (take 16 hh) (drop 16 hh).

Definition validProof (Log2 : float64 -> float64) (hash : Hash) (difficulty : Z) : bool :=
  let num := be_Z (byte_and (Hash_GetBytes hash)) in
  f64_leb (Log2 (f64_of_int num)) (minimalHashProof difficulty).

Definition CheckProofOfSynergy (Log2 : float64 -> float64) (block : BaseBlock) : bool :=
  validProof Log2 (BlockHeaderHash block) (Difficulty (bb_BaseHeader block)).

(** The constants [BlockTimeInterval * 1.33] and [BlockTimeInterval / 1.33]. *)
Definition slow_interval : float64 := f64_div (f64_of_int (BlockTimeInterval * 133)) (f64_of_int 100).
Definition fast_interval : float64 := f64_div (f64_of_int (BlockTimeInterval * 100)) (f64_of_int 133).

Definition AdjustDifficulty (lastDifficulty interval : Z) : Z :=
  let d :=
    if f64_ltb slow_interval (f64_of_int interval) then i32 (lastDifficulty - DifficultyChange)
    else if f64_ltb (f64_of_int interval) fast_interval then i32 (lastDifficulty + DifficultyChange)
    else lastDifficulty in
  let d := if d <? 1 then 1 else d in
  if 0xff00 <? d then 0xff00 else d.

(** ** Reading fields *)

Lemma slice_eq {A} (pre f rest s : list A) lo hi :
  s = pre ++ f ++ rest -> lo = Z.of_nat (length pre) -> hi = Z.of_nat (length pre + length f) ->
  slice s lo hi = Ok f.
Proof. intros ->. apply slice_app_exact. Qed.

Lemma arr32_length (h : Hash) : length (arr_bytes h) = 32%nat.
Proof. apply arr_length. Qed.

(** ** Round trips *)

(** Headers the format can carry: the delegated account is written without its
    flag, and the signature is one its initialiser rebuilds for the operator. *)
Record header_ok (ec : EncryptionConfig) (b : BaseHeader) : Prop := {
  hok_diff : in32 (Difficulty b);
  hok_height : in64 (bh_Height b);
  hok_deleg : addr_Primary (bh_DelegatedAccount b) = true;
  hok_enc1 : short (Encryption1 b);
  hok_enc2 : short (Encryption2 b);
  hok_msg : short (SignatureMessage b);
  hok_sig_short : short (sig_ByteValue (bh_Signature b));
  hok_sig : Signature_Init ec (sig_ByteValue (bh_Signature b)) (OperatorAccount b) = Ok (bh_Signature b);
  hok_min : 117 + SignatureLength ec <= len (BaseHeader_GetBytes b) \/
            117 + SignatureLength2 ec <= len (BaseHeader_GetBytes b)
}.

Lemma BaseHeader_roundtrip ec b rest : header_ok ec b ->
  BaseHeader_GetFromBytes ec (BaseHeader_GetBytes b ++ rest) = Ok (b, rest).
Proof.
  intros []. unfold BaseHeader_GetFromBytes.
  replace ((_ <? _) && (_ <? _)) with false
    by (symmetry; apply andb_false_iff; unfold len in *; rewrite length_app;
        destruct hok_min0; [left|right]; apply Z.ltb_ge; lia).
  clear hok_min0. unfold BaseHeader_GetBytes. rewrite <- !app_assoc. unfold Hash_GetBytes.
  set (p := arr_bytes (PreviousHash b)). set (d := GetByteInt32 (Difficulty b)).
  set (h := GetByteInt64 (bh_Height b)). set (a := Address_GetBytes (bh_DelegatedAccount b)).
  set (o := Address_GetBytesWithPrimary (OperatorAccount b)). set (r := arr_bytes (RootMerkleTree b)).
  set (e1 := BytesToLenAndBytes (Encryption1 b)). set (e2 := BytesToLenAndBytes (Encryption2 b)).
  set (m := BytesToLenAndBytes (SignatureMessage b)).
  set (g := BytesToLenAndBytes (sig_ByteValue (bh_Signature b))).
  assert (length p = 32%nat) as Lp by apply arr_length.
  assert (length d = 4%nat) as Ld by apply GetByteInt32_length.
  assert (length h = 8%nat) as Lh by apply GetByteInt64_length.
  assert (length a = 20%nat) as La by apply Address_GetBytes_length.
  assert (length o = 21%nat) as Lo by apply Address_GetBytesWithPrimary_length.
  assert (length r = 32%nat) as Lr by apply arr_length.
  set (tail := e1 ++ e2 ++ m ++ g ++ rest).
  rewrite (slice_0 p) by lia. cbn [obind].
  rewrite (slice_eq p d (h ++ a ++ o ++ r ++ tail)) by (done || rewrite ?Lp, ?Ld; lia).
  cbn [obind]. unfold d at 1. rewrite GetInt32FromByte_exact by done. cbn [obind].
  rewrite (slice_eq (p ++ d) h (a ++ o ++ r ++ tail)) by (rewrite <- ?app_assoc; done || rewrite length_app; lia).
  cbn [obind]. unfold h at 1. rewrite GetInt64FromByte_exact by done. cbn [obind].
  rewrite (slice_eq (p ++ d ++ h) a (o ++ r ++ tail)) by (rewrite <- ?app_assoc; done || rewrite !length_app; lia).
  cbn [obind]. unfold a at 1. rewrite BytesToAddress_GetBytes. cbn [obind].
  rewrite (slice_eq (p ++ d ++ h ++ a) o (r ++ tail)) by (rewrite <- ?app_assoc; done || rewrite !length_app; lia).
  cbn [obind]. unfold o at 1. rewrite BytesToAddress_GetBytesWithPrimary. cbn [obind].
  rewrite (slice_eq (p ++ d ++ h ++ a ++ o) r tail) by (rewrite <- ?app_assoc; done || rewrite !length_app; lia).
  cbn [obind].
  replace (p ++ d ++ h ++ a ++ o ++ r ++ tail) with ((p ++ d ++ h ++ a ++ o ++ r) ++ tail)
    by (by rewrite <- !app_assoc).
  rewrite slice_suffix by (rewrite !length_app; lia). cbn [obind]. unfold tail, e1, e2, m, g.
  do 4 (rewrite BytesWithLenToBytes_app by done; cbn [obind]).
  unfold GetSignatureFromBytes. rewrite hok_sig0. cbn [obind].
  unfold p, r. rewrite !GetHashFromBytes_GetBytes.
  destruct b as [? ? ? [? ?] ? ? ? ? ? ?]; cbn in *. by subst.
Qed.

Record base_ok (ec : EncryptionConfig) (bb : BaseBlock) : Prop := {
  bok_header : header_ok ec (bb_BaseHeader bb);
  bok_time : in64 (BlockTimeStamp bb);
  bok_reward : in16 (RewardPercentage bb);
  bok_supply : in64 (Supply bb);
  bok_price : in64 (PriceOracle bb);
  bok_rand : in64 (RandOracle bb);
  bok_price_data : short (PriceOracleData bb);
  bok_rand_data : short (RandOracleData bb);
  bok_min : 116 + SignatureLength ec + 44 + 16 <= len (BaseBlock_GetBytes bb)
}.

Lemma BaseBlock_roundtrip ec bb rest : base_ok ec bb ->
  BaseBlock_GetFromBytes ec (BaseBlock_GetBytes bb ++ rest) = Ok (bb, rest).
Proof.
  intros []. unfold BaseBlock_GetFromBytes.
  replace (_ <? _) with false by (symmetry; apply Z.ltb_ge; unfold len in *; rewrite length_app; lia).
  clear bok_min0. unfold BaseBlock_GetBytes. rewrite <- !app_assoc. unfold Hash_GetBytes.
  rewrite BaseHeader_roundtrip by done. cbn [obind].
  set (h := arr_bytes (BlockHeaderHash bb)). set (t := GetByteInt64 (BlockTimeStamp bb)).
  set (w := GetByteInt16 (RewardPercentage bb)). set (s := GetByteInt64 (Supply bb)).
  set (p := GetByteInt64 (PriceOracle bb)). set (q := GetByteInt64 (RandOracle bb)).
  assert (length h = 32%nat) as Lh by apply arr_length.
  assert (length t = 8%nat) as Lt by apply GetByteInt64_length.
  assert (length w = 2%nat) as Lw by apply GetByteInt16_length.
  assert (length s = 8%nat) as Ls by apply GetByteInt64_length.
  assert (length p = 8%nat) as Lp by apply GetByteInt64_length.
  assert (length q = 8%nat) as Lq by apply GetByteInt64_length.
  set (tail := BytesToLenAndBytes (PriceOracleData bb) ++ _).
  rewrite (slice_0 h) by lia. cbn [obind].
  rewrite (slice_eq h t (w ++ s ++ p ++ q ++ tail)) by (done || lia).
  cbn [obind]. unfold t at 1. rewrite GetInt64FromByte_exact by done. cbn [obind].
  rewrite (slice_eq (h ++ t) w (s ++ p ++ q ++ tail)) by (rewrite <- ?app_assoc; done || rewrite length_app; lia).
  cbn [obind]. unfold w at 1. rewrite GetInt16FromByte_exact by done. cbn [obind].
  rewrite (slice_eq (h ++ t ++ w) s (p ++ q ++ tail)) by (rewrite <- ?app_assoc; done || rewrite !length_app; lia).
  cbn [obind]. unfold s at 1. rewrite GetInt64FromByte_exact by done. cbn [obind].
  rewrite (slice_eq (h ++ t ++ w ++ s) p (q ++ tail)) by (rewrite <- ?app_assoc; done || rewrite !length_app; lia).
  cbn [obind]. unfold p at 1. rewrite GetInt64FromByte_exact by done. cbn [obind].
  rewrite (slice_eq (h ++ t ++ w ++ s ++ p) q tail) by (rewrite <- ?app_assoc; done || rewrite !length_app; lia).
  cbn [obind]. unfold q at 1. rewrite GetInt64FromByte_exact by done. cbn [obind].
  replace (h ++ t ++ w ++ s ++ p ++ q ++ tail) with ((h ++ t ++ w ++ s ++ p ++ q) ++ tail)
    by (by rewrite <- !app_assoc).
  rewrite slice_suffix by (rewrite !length_app; lia). cbn [obind]. unfold tail.
  do 2 (rewrite BytesWithLenToBytes_app by done; cbn [obind]).
  unfold h. rewrite GetHashFromBytes_GetBytes. by destruct bb.
Qed.

(** Blocks whose base the format can carry. *)
Record block_ok (ec : EncryptionConfig) (tb : Block) : Prop := {
  blok_base : base_ok ec (bl_BaseBlock tb);
  blok_fee : in64 (BlockFee tb)
}.

Lemma read_hashes_concat l : read_hashes (length l) (concat (map Hash_GetBytes l)) = l.
Proof.
  induction l as [|h l IH]; [done|]. cbn [length map concat read_hashes]. unfold Hash_GetBytes at 1 3.
  rewrite take_app_length', drop_app_length' by (symmetry; apply arr_length). by rewrite GetHashFromBytes_GetBytes, IH.
Qed.

Lemma Block_roundtrip ec tb : block_ok ec tb -> Block_GetFromBytes ec (Block_GetBytes tb) = Ok tb.
Proof.
  intros [Hb Hf]. unfold Block_GetFromBytes, Block_GetBytes. rewrite BaseBlock_roundtrip by done. cbn [obind].
  assert (length (Hash_GetBytes (BlockHash tb)) = 32%nat) as Lh by apply arr_length.
  assert (length (GetByteInt64 (BlockFee tb)) = 8%nat) as Lf by apply GetByteInt64_length.
  rewrite slice_0 by lia. cbn [obind]. rewrite slice_suffix by lia. cbn [obind].
  rewrite slice_0 by lia. cbn [obind]. rewrite GetInt64FromByte_exact by done. cbn [obind].
  rewrite slice_suffix by lia. cbn [obind].
  assert (length (concat (map Hash_GetBytes (TransactionsHashes tb)))
          = (32 * length (TransactionsHashes tb))%nat) as ->
    by (apply concat_map_length_const; intros; apply arr_length).
  rewrite Nat.mul_comm, Nat.Div0.mod_mul, Nat.div_mul by lia. cbn [Nat.eqb negb].
  rewrite read_hashes_concat, GetHashFromBytes_GetBytes. by destruct tb.
Qed.

Lemma block_key_ne h height : block_key h <> height_key height.
Proof. done. Qed.

(** a block stored by a node is loaded back from its height, unchanged, and so
    is its hash. *)
Theorem StoreBlock_load {D} `{RocksDBLaws D} ec (db db' : D) bl :
  block_ok ec bl -> StoreBlock bl db = (Ok tt, db') ->
  LoadBlock ec db' (bh_Height (bl_Header bl)) = Ok bl /\
  LoadHashOfBlock db' (bh_Height (bl_Header bl)) = Ok (Hash_GetBytes (BlockHash bl)).
Proof.
  intros Hok Hs. unfold StoreBlock in Hs.
  apply st_bind_ok_inv in Hs as ([] & db1 & E1 & E2). apply db_put_inv in E1, E2.
  unfold LoadBlock, LoadHashOfBlock. rewrite (DB_Get_Put_eq _ _ _ _ E2). split; [|done]. cbn [obind].
  rewrite (DB_Get_Put_ne _ _ _ _ _ E2) by (intros E; by apply (block_key_ne _ _ (eq_sym E))).
  rewrite (DB_Get_Put_eq _ _ _ _ E1). cbn [obind]. by apply Block_roundtrip.
Qed.

(** removing a height removes both entries of its block: neither the hash nor
    the block is found any more. *)
Theorem RemoveBlockFromDB_gone {D} `{RocksDBLaws D} ec (db db' : D) height hb :
  LoadHashOfBlock db height = Ok hb -> RemoveBlockFromDB height db = (Ok tt, db') ->
  LoadHashOfBlock db' height = Err "key not found" /\
  LoadBlock ec db' height = Err "key not found" /\
  DB_Get db' (block_key hb) = Err "key not found".
Proof.
  intros Hl. unfold RemoveBlockFromDB, st_bind, db_get. unfold LoadHashOfBlock in *. rewrite Hl.
  unfold db_delete. destruct (DB_Delete db (block_key hb)) as [db1|e|] eqn:E1; [|done..].
  destruct (DB_Delete db1 (height_key height)) as [db2|e|] eqn:E2; [|done..]. intros [= <-].
  unfold LoadBlock. rewrite (DB_Get_Delete_eq _ _ _ E2). split; [done|]. split; [done|].
  rewrite (DB_Get_Delete_ne _ _ _ _ E2) by (intros E; by apply (block_key_ne _ _ (eq_sym E))).
  by rewrite (DB_Get_Delete_eq _ _ _ E1).
Qed.

(** C37: the difficulty stays between 1 and 65280 whatever the last one was, and
    moves by at most ten when the last one was in that range. *)
Theorem AdjustDifficulty_bounds d interval :
  1 <= AdjustDifficulty d interval <= 65280 /\
  (1 <= d <= 65280 -> Z.abs (AdjustDifficulty d interval - d) <= DifficultyChange).
Proof.
  unfold AdjustDifficulty, DifficultyChange. change 0xff00 with 65280. split.
  - set (x := if f64_ltb _ _ then _ else _). destruct (x <? 1) eqn:E; zify_bool;
      destruct (65280 <? _) eqn:E2; zify_bool; lia.
  - intros Hd. rewrite !i32_id by (unfold in32; lia).
    destruct (f64_ltb _ _); [|destruct (f64_ltb _ _)];
      destruct (_ <? 1) eqn:E; zify_bool; destruct (65280 <? _) eqn:E2; zify_bool; lia.
Qed.

Definition with_header_hash (bb : BaseBlock) (h : Hash) : BaseBlock :=
  mk_BaseBlock (bb_BaseHeader bb) h (BlockTimeStamp bb) (RewardPercentage bb) (Supply bb)
    (PriceOracle bb) (RandOracle bb) (PriceOracleData bb) (RandOracleData bb).

(** the proof of synergy costs nothing: the hash it bounds is a field of the
    block that no check compares with the header, so a block of any difficulty
    passes with the zero hash in that field. *)
Theorem CheckProofOfSynergy_zero_hash (Log2 : float64 -> float64) bb :
  Log2 f64_zero = S754_infinity true ->
  CheckProofOfSynergy Log2 (with_header_hash bb (arr_zero _)) = true.
Proof.
  intros Hlog. unfold CheckProofOfSynergy, validProof. cbn [BlockHeaderHash with_header_hash bb_BaseHeader].
  change (f64_of_int _) with f64_zero. rewrite Hlog. apply minus_infinity_leb.
  apply f64_sub_not_nan; [reflexivity|]. apply f64_div_not_nan; [apply f64_of_int_not_nan|reflexivity].
Qed.

(** when both schemes are in use, the scheme that verifies the header of a
    block is drawn at random: a header signed with the other scheme is rejected,
    whatever the signature, as soon as the public keys of the two schemes have
    different lengths. *)
Theorem BaseHeader_Verify_other_coin {D} `{RocksDB D} `{JSON PubKey} `{Hasher} `{OqsLib}
    ec pref coin (db : D) bh s0 n1 n2 x1 x2 :
  IsPaused ec = false -> IsPaused2 ec = false -> bh_Height bh <> 0 ->
  oqs_Details (sigName ec) = Some (n1, x1.1, x1.2) -> oqs_Details (sigName2 ec) = Some (n2, x2.1, x2.2) ->
  n1 <> n2 ->
  (forall p pk, LoadPubKeyWithPrimary db (OperatorAccount bh) p = Ok pk ->
     len (pk_ByteValue pk) = if p : bool then n1 else n2) ->
  index (sig_ByteValue (bh_Signature bh)) 0 = Ok s0 ->
  (byte_to_Z s0 =? 0) <> (coin =? 0) ->
  BaseHeader_Verify ec pref coin db bh <> Ok true.
Proof.
  intros P1 P2 Hh D1 D2 Hne Hkeys Hs0 Hcoin. unfold BaseHeader_Verify.
  destruct (negb _); [done|]. cbn [CalcHashToByte obind].
  assert (GetNodeSignPrimary ec pref coin (bh_Height bh) = (coin =? 0)) as ->.
  { unfold GetNodeSignPrimary. rewrite P1, P2. by rewrite (proj2 (Z.eqb_neq _ _) Hh). }
  destruct (LoadPubKeyWithPrimary db _ (coin =? 0)) as [pk|e|] eqn:Ek; [|done..].
  specialize (Hkeys _ _ Ek). unfold Verify. rewrite Hs0. cbn [obind].
  destruct (slice_from _ 1) as [sig|e|]; [|done..]. cbn [obind]. rewrite P1, P2.
  unfold verify_with. rewrite D1, D2, Hkeys.
  destruct (byte_to_Z s0 =? 0), (coin =? 0); cbn [negb andb]; try done.
  - replace (n1 =? n2) with false by (symmetry; by apply Z.eqb_neq). done.
  - replace (n2 =? n1) with false by (symmetry; apply Z.eqb_neq; congruence). done.
Qed.

(** ** Closed examples *)

Definition scheme_bytes (c : ConfigEnc) : bytes :=
  GenerateBytesFromParams (ce_SigName c) (ce_PubKeyLength c) (ce_PrivateKeyLength c)
    (ce_SignatureLength c) (ce_IsPaused c).
(** A header of height [h] with a signature of the first scheme. *)
Definition sample_header (h : Z) (prev root : Hash) : BaseHeader :=
  let hd := mk_BaseHeader prev 100 h (mk_Address (arr_of AddressLength [byte_of_Z 0; byte_of_Z 3]) true)
    (flagged 1) root (scheme_bytes NewConfigEnc1) (scheme_bytes NewConfigEnc2) zero_Signature [] in
  mk_BaseHeader prev 100 h (bh_DelegatedAccount hd) (flagged 1) root (Encryption1 hd) (Encryption2 hd)
    (mk_Signature (byte_of_Z 0 :: arr_bytes (@blake2b_256 toy_hasher (GetBytesWithoutSignature hd)) ++ zeros 720)
       (flagged 1) true) (GetBytesWithoutSignature hd).
Definition sample_block (h : Z) (prev : Hash) (supply : Z) (txs : list Hash) (root : Hash) (fee : Z) : Block :=
  let base := mk_BaseBlock (sample_header h prev root) (arr_zero _) 1700000000 100 supply 5 6 [] [] in
  mk_Block base txs (@blake2b_256 toy_hasher (BaseBlock_GetBytes base)) fee.
Definition block_7 : Block := sample_block 7 (arr_zero _) 1000 [arr_zero _] (arr_zero _) 5.

Lemma sample_header_ok : header_ok test_config (bl_Header block_7).
Proof. split; try by vm_compute. left. vm_compute. discriminate. Qed.
Lemma block_7_ok : block_ok test_config block_7.
Proof.
  split; [|by vm_compute].
  split; [exact sample_header_ok|by vm_compute..|]. vm_compute. discriminate.
Qed.
Definition block_7_db : gmap bytes bytes := snd (StoreBlock block_7 (∅ : gmap bytes bytes)).

Lemma StoreBlock_load_witness : LoadBlock test_config block_7_db 7 = Ok block_7.
Proof.
  apply (@StoreBlock_load _ map_store map_store_laws test_config ∅ block_7_db block_7).
  - exact block_7_ok.
  - vm_cast_no_check (eq_refl (@Ok unit tt, block_7_db)).
Defined.

Lemma RemoveBlockFromDB_gone_witness :
  LoadHashOfBlock block_7_db 7 = Ok (Hash_GetBytes (BlockHash block_7)) /\
  LoadBlock test_config (snd (RemoveBlockFromDB 7 block_7_db)) 7 = Err "key not found".
Proof.
  assert (LoadHashOfBlock block_7_db 7 = Ok (Hash_GetBytes (BlockHash block_7))) as Hl
    by (vm_cast_no_check (eq_refl (Ok (Hash_GetBytes (BlockHash block_7))))).
  split; [exact Hl|].
  apply (@RemoveBlockFromDB_gone _ map_store map_store_laws test_config block_7_db _ 7 _ Hl).
  vm_cast_no_check (eq_refl (@Ok unit tt, snd (RemoveBlockFromDB 7 block_7_db))).
Defined.

(** The keys of the operator, one per scheme. *)
Definition operator_key (n : Z) (p : bool) : PubKey :=
  mk_PubKey (zeros (Z.to_nat n)) (flagged n) (flagged 1) p.

(** Two schemes with public keys of 3 and 5 bytes that accept every signature, and
    an operator with a key of each. *)
Definition small_schemes : OqsLib := {|
  oqs_Details s := if String.eqb s "Falcon-512" then Some (3, 1, 1)
                   else if String.eqb s "MAYO-5" then Some (5, 1, 1) else None;
  oqs_GenerateKeyPair s := None;
  oqs_Verify _ _ _ _ := Some true |}.
Definition op_key (n : nat) (p : bool) : PubKey :=
  mk_PubKey (zeros n) (mk_Address (@blake2b_160 toy_hasher (zeros n)) p) (toy_address (zeros 3)) p.
Definition op_db : gmap bytes bytes :=
  let db := snd (@CreateAddressFromFirstPubKey _ _ node_json toy_hasher (op_key 3 true) (∅ : gmap bytes bytes)) in
  let db := snd (@StorePubKeyInPatriciaTrie _ _ node_json toy_hasher (op_key 5 false) db) in
  let db := snd (@StorePubKey _ _ pk_json toy_hasher (op_key 3 true) db) in
  snd (@StorePubKey _ _ pk_json toy_hasher (op_key 5 false) db).
Definition op_header : BaseHeader :=
  let b := bl_Header block_7 in
  let f s m := mk_BaseHeader (PreviousHash b) 100 7 (bh_DelegatedAccount b) (toy_address (zeros 3))
    (RootMerkleTree b) [] [] s m in
  f (mk_Signature (zeros 4) (toy_address (zeros 3)) true) (GetBytesWithoutSignature (f zero_Signature [])).
Definition op_verify (coin : Z) : outcome bool :=
  @BaseHeader_Verify _ _ pk_json toy_hasher small_schemes test_config true coin op_db op_header.

Lemma BaseHeader_Verify_other_coin_witness : op_verify 0 = Ok true /\ op_verify 1 <> Ok true.
Proof.
  split; [by vm_compute|].
  apply (@BaseHeader_Verify_other_coin _ map_store pk_json toy_hasher small_schemes test_config true 1
    op_db op_header (byte_of_Z 0) 3 5 (1, 1) (1, 1)); try by vm_compute.
  intros [|] pk; change (OperatorAccount op_header) with (toy_address (zeros 3)).
  - intros E. assert (@LoadPubKeyWithPrimary _ _ pk_json op_db (toy_address (zeros 3)) true = Ok (forget_flags (op_key 3 true)))
      as E' by (vm_cast_no_check (eq_refl (Ok (forget_flags (op_key 3 true))))).
    rewrite E' in E. by injection E as <-.
  - intros E. assert (@LoadPubKeyWithPrimary _ _ pk_json op_db (toy_address (zeros 3)) false = Ok (forget_flags (op_key 5 false)))
      as E' by (vm_cast_no_check (eq_refl (Ok (forget_flags (op_key 5 false))))).
    rewrite E' in E. by injection E as <-.
Defined.

(** A rejected block is accepted with the zero hash in place of its header hash;
    [math.Log2] is reduced to its value at 0 and an upper bound elsewhere. *)
Definition coarse_Log2 (x : float64) : float64 :=
  match x with S754_zero _ => S754_infinity true | _ => f64_of_int 128 end.
Definition unmined : BaseBlock := with_header_hash (bl_BaseBlock block_7) (arr_of _ (replicate 32 (byte_of_Z 255))).
Lemma CheckProofOfSynergy_zero_hash_witness :
  CheckProofOfSynergy coarse_Log2 unmined = false /\
  CheckProofOfSynergy coarse_Log2 (with_header_hash unmined (arr_zero _)) = true.
Proof.
  split; [vm_compute; reflexivity|].
  apply (CheckProofOfSynergy_zero_hash coarse_Log2 unmined). reflexivity.
Defined.

Lemma AdjustDifficulty_bounds_witness : AdjustDifficulty 65275 3 = 65280 /\
  Z.abs (AdjustDifficulty 65275 3 - 65275) <= DifficultyChange.
Proof. split; [vm_compute; reflexivity|]. apply (AdjustDifficulty_bounds 65275 3). lia. Defined.
