(* ===== verification/Voting.v ===== *)
(** * Package voting: votes on the signature schemes

    Models voting/votingEncryptionSchemes.go: the two tables of votes, saving and
    resetting them, the data written into nonce messages, and the decisions to
    pause or to replace a scheme. *)
From S2P Require Import Prelude GoInt GoSlice Sums Common Keys Database Codec Float64 Accounts.
From S2P Require Import Staking Node.

Abbreviation votes_map := (gmap Z Votes).

(** ** Saving and resetting *)

(** The key is [uint8(id)]. *)
Definition save_vote (err : string) (m : votes_map) (value : bytes) (height : Z)
    (delegatedAccount : Address) (staked : Z) : outcome votes_map :=
  match value with
  | [] => Ok m
  | _ =>
      let! id := GetIDFromDelegatedAccountAddress delegatedAccount in
      if 256 <=? id then Err "delegated account is invalid" else
      match m !! (id mod 256) with
      | Some po => if vt_Height po <=? height then Ok (<[id mod 256 := mk_Votes value height staked]> m)
                   else Err err
      | None => Ok (<[id mod 256 := mk_Votes value height staked]> m)
      end
  end.
Definition SaveVotesEncryption1 := save_vote "invalid height in voting, 1".
Definition SaveVotesEncryption2 := save_vote "invalid height in voting, 2".

(** [for i := uint8(0); i < uint8(255); i++ { delete }] *)
Fixpoint delete_votes (n : nat) (i : Z) (m : votes_map) : votes_map :=
  match n with
  | O => m
  | S n => delete_votes n (i + 1) (delete i m)
  end.
Definition ResetLastVoting (v : votes_map * votes_map * bool) : votes_map * votes_map * bool :=
  (delete_votes 255 0 v.1.1, delete_votes 255 0 v.1.2, true).

(** ** The data of a nonce message *)

Definition fresh (height : Z) (po : Votes) : bool :=
  (height <=? vt_Height po +! VotingHeightDistance) && (0 <? length (vt_Values po))%nat.

(** [ord] is the order in which the map is visited; stale votes are deleted. *)
Definition generate_data (height : Z) (ord : list (Z * Votes)) (m : votes_map)
    : bytes * list bytes * Z * votes_map :=
  let good := List.filter (fun kv => fresh height kv.2) ord in
  let bad := List.filter (fun kv => negb (fresh height kv.2)) ord in
  (concat (map (fun kv => byte_of_Z kv.1 :: GetByteInt64 (vt_Height kv.2)
                          ++ BytesToLenAndBytes (vt_Values kv.2)) good),
   map (fun kv => vt_Values kv.2) good,
   foldl (fun s kv => s +! vt_Staked kv.2) 0 good,
   foldl (fun m kv => delete kv.1 m) m bad).
Definition GenerateEncryption1Data := generate_data.
Definition GenerateEncryption2Data := generate_data.

(** The loop advances its index by 17 while it also cuts the buffer it reads from.
    [stake] is the stake of a delegated account. *)
Fixpoint parse_votes (n : nat) (stake : Z -> outcome Z) (i : Z) (b : bytes)
    (parsed : votes_map) (values : list bytes) (allStaked : Z)
    : outcome (votes_map * list bytes * Z) :=
  match n with
  | O => Ok (parsed, values, allStaked)
  | S n =>
      let! id := index b i in
      let! s := slice b (i + 1) (i + 9) in
      let! height := GetInt64FromByte s in
      let! s := slice_from b (i + 9) in
      let! (value, b) := BytesWithLenToBytes s in
      let! staked := stake (byte_to_Z id) in
      parse_votes n stake (i + 17) b (<[byte_to_Z id := mk_Votes value height staked]> parsed)
        (values ++ [value]) (allStaked +! staked)
  end.
Definition ParseVotesData (stake : Z -> outcome Z) (votingData : bytes) : outcome (votes_map * list bytes * Z) :=
  if negb (length votingData mod 17 =? 0)%nat then Err "invalid priceData length" else
  parse_votes (length votingData / 17) stake 0 votingData ∅ [] 0.

(** ** Decisions *)

(** The most frequent value; among equally frequent ones, the first to reach the
    count. *)
Definition count (v : bytes) (l : list bytes) : nat := length (List.filter (bytes_eqb v) l).
Fixpoint common_pattern (before values : list bytes) (maxCount : nat) (commonPattern : bytes) : bytes :=
  match values with
  | [] => commonPattern
  | v :: values =>
      let n := S (count v before) in
      if (maxCount <? n)%nat then common_pattern (before ++ [v]) values n v
      else common_pattern (before ++ [v]) values maxCount commonPattern
  end.
(** Drops the first value that differs from [p]. *)
Fixpoint drop_outlier (p : bytes) (values : list bytes) : list bytes :=
  match values with
  | [] => []
  | v :: values => if bytes_eqb v p then v :: drop_outlier p values else values
  end.
Definition removeOneDifferent (values : list bytes) : list bytes :=
  if (length values <=? 1)%nat then values
  else drop_outlier (common_pattern [] values 0 []) values.

Definition is_same (values : list bytes) : bool :=
  match values with
  | [] => false
  | first :: _ => forallb (bytes_eqb first) values
  end.
Definition agreed (values : list bytes) : bool :=
  is_same (if (2 <? length values)%nat then removeOneDifferent values else values).

(** The table of the scheme is pruned as a side effect. *)
Definition VerifyEncryptionForPausing (height totalStaked : Z) (ord : list (Z * Votes)) (m : votes_map)
    : bool * votes_map :=
  let '(_, values, staked, m) := generate_data height ord m in
  (negb (staked <=? Z.quot totalStaked 3) && agreed values, m).
Definition VerifyEncryptionForReplacing (height totalStaked : Z) (ord : list (Z * Votes)) (m : votes_map)
    : bool * votes_map :=
  let '(_, values, staked, m) := generate_data height ord m in
  (negb (staked <=? Z.quot (2 *! totalStaked) 3) && agreed values, m).

(** ** The decision rule *)

Definition others (v : bytes) (l : list bytes) : nat :=
  length (List.filter (fun w => negb (bytes_eqb v w)) l).
(** The rule the code means: all values equal, up to one when there are more than
    two of them. *)
Definition consensus (values : list bytes) : Prop :=
  values <> [] /\ exists v, (others v values <= if (2 <? length values)%nat then 1 else 0)%nat.

Lemma count_cons v w l : count v (w :: l) = ((if bytes_eqb v w then 1 else 0) + count v l)%nat.
Proof. unfold count. cbn. by destruct (bytes_eqb v w). Qed.
Lemma others_cons v w l : others v (w :: l) = ((if bytes_eqb v w then 0 else 1) + others v l)%nat.
Proof. unfold others. cbn. by destruct (bytes_eqb v w). Qed.
Lemma count_app v l l' : count v (l ++ l') = (count v l + count v l')%nat.
Proof. unfold count. by rewrite List.filter_app, length_app. Qed.
Lemma others_app v l l' : others v (l ++ l') = (others v l + others v l')%nat.
Proof. unfold others. by rewrite List.filter_app, length_app. Qed.
Lemma count_others v l : (count v l + others v l = length l)%nat.
Proof.
  induction l as [|w l IH]; [done|]. rewrite count_cons, others_cons. cbn [length].
  destruct (bytes_eqb v w); lia.
Qed.
Lemma others_0 v l : others v l = 0%nat <-> Forall (eq v) l.
Proof.
  induction l as [|w l IH]; [done|]. rewrite others_cons, Forall_cons, <- IH.
  destruct (bytes_eqb v w) eqn:E.
  - apply bytes_eqb_eq in E as ->. split; [by split|by intros [_ ?]].
  - split; [done|]. intros [-> _]. by rewrite bytes_eqb_refl in E.
Qed.
Lemma others_perm v l l' : l ≡ₚ l' -> others v l = others v l'.
Proof.
  induction 1 as [|x l l' _ IH|x y l|l l' l'' _ IH1 _ IH2]; [done| | |congruence];
    rewrite !others_cons; [by rewrite IH|lia].
Qed.

(** No value is more frequent than the common pattern. *)
Lemma common_pattern_max values : forall before m p,
  count p before = m -> (forall w, (count w before <= m)%nat) ->
  forall w, (count w (before ++ values) <= count (common_pattern before values m p) (before ++ values))%nat.
Proof.
  induction values as [|v values IH]; intros before m p Hp Hmax w; cbn [common_pattern].
  - rewrite !app_nil_r, Hp. apply Hmax.
  - change (v :: values) with ([v] ++ values). rewrite (app_assoc before [v] values).
    assert (forall w, count w (before ++ [v]) = (count w before + if bytes_eqb w v then 1 else 0)%nat) as Hc
      by (intros u; rewrite count_app, count_cons; change (count u []) with 0%nat; lia).
    destruct (m <? S (count v before))%nat eqn:E; zify_bool; apply IH.
    + rewrite Hc, bytes_eqb_refl. lia.
    + intros u. rewrite Hc. pose proof (Hmax u). pose proof (Hmax v). destruct (bytes_eqb u v); lia.
    + rewrite Hc, <- Hp. destruct (bytes_eqb p v) eqn:E2; [|lia].
      apply bytes_eqb_eq in E2 as ->. lia.
    + intros u. rewrite Hc. destruct (bytes_eqb u v) eqn:E2; [|pose proof (Hmax u); lia].
      apply bytes_eqb_eq in E2 as ->. lia.
Qed.

Lemma drop_outlier_cases p values :
  (drop_outlier p values = values /\ Forall (eq p) values) \/
  exists l x l', values = l ++ x :: l' /\ p <> x /\ drop_outlier p values = l ++ l' /\ Forall (eq p) l.
Proof.
  induction values as [|v values IH]; [by left|]. cbn [drop_outlier].
  destruct (bytes_eqb v p) eqn:E.
  - apply bytes_eqb_eq in E as ->. destruct IH as [[-> Hf]|(l & x & l' & -> & Hx & -> & Hf)].
    + left. split; [done|by constructor].
    + right. exists (p :: l), x, l'. repeat split; try done. by constructor.
  - right. exists [], v, values. repeat split; try done. intros ->. by rewrite bytes_eqb_refl in E.
Qed.

Lemma is_same_spec values : is_same values = true <-> exists v, values <> [] /\ Forall (eq v) values.
Proof.
  destruct values as [|f values]; [split; [done|by intros (v & ? & _)]|]. cbn [is_same].
  rewrite forallb_forall. split.
  - intros H. exists f. split; [done|]. apply Forall_forall. intros x Hx%list_elem_of_In.
    by apply bytes_eqb_eq, H.
  - intros (v & _ & Hf) x Hx%list_elem_of_In. rewrite Forall_forall in Hf.
    rewrite <- (Hf x Hx), <- (Hf f) by left. apply bytes_eqb_refl.
Qed.

(** The procedure decides the rule, so the order of the votes does not matter. *)
Lemma agreed_consensus values : agreed values = true <-> consensus values.
Proof.
  unfold agreed, consensus, removeOneDifferent.
  destruct (2 <? length values)%nat eqn:El; zify_bool.
  2: { rewrite is_same_spec. split; intros Hc.
    - destruct Hc as (v & Hne & Hf). split; [done|]. exists v. apply others_0 in Hf. lia.
    - destruct Hc as (Hne & v & Ho). exists v. split; [done|]. apply others_0. lia. }
  replace (length values <=? 1)%nat with false by (symmetry; apply Nat.leb_gt; lia).
  pose proof (common_pattern_max values [] 0 [] eq_refl (fun _ => Nat.le_refl 0)) as Hmax.
  cbn [app] in Hmax. set (p := common_pattern _ _ _ _) in *. rewrite is_same_spec.
  destruct (drop_outlier_cases p values) as [[-> Hf]|(l & x & l' & E & Hx & -> & Hf)].
  - assert (values <> []) as Hne by (intros ->; cbn in El; lia).
    split; intros _; [|by exists p].
    split; [done|]. exists p. apply others_0 in Hf. lia.
  - split.
    + intros (v & Hne & Hv). apply Forall_app in Hv as [H1 H2].
      split; [by rewrite E; destruct l|]. exists v. apply others_0 in H1, H2.
      rewrite E, others_app, others_cons, H1, H2. destruct (bytes_eqb v x); lia.
    + intros (_ & v & Ho). exists p. split.
      { rewrite E, length_app in El. cbn in El. destruct l, l'; done || (cbn in El; lia). }
      assert (p = v) as ->.
      { specialize (Hmax v). pose proof (count_others v values) as Hv. pose proof (count_others p values) as Hp.
        destruct (decide (p = v)) as [|Hne]; [done|exfalso].
        (* more than two values: [v] appears at least twice, [p] at most once *)
        assert (forall l0, (count p l0 <= others v l0)%nat) as Hle.
        { induction l0 as [|y l0 IH]; [done|]. rewrite count_cons, others_cons.
          destruct (bytes_eqb p y) eqn:E1; [|destruct (bytes_eqb v y); lia].
          apply bytes_eqb_eq in E1 as <-. rewrite (bytes_eqb_ne v p) by congruence. lia. }
        specialize (Hle values). lia. }
      rewrite E, others_app, others_cons, (bytes_eqb_ne v x Hx) in Ho.
      apply Forall_app; split; [done|]. apply others_0. lia.
Qed.

Lemma consensus_perm l l' : l ≡ₚ l' -> consensus l -> consensus l'.
Proof.
  intros Hp (Hne & v & Ho). rewrite (others_perm v l l' Hp), (Permutation_length Hp) in Ho.
  split; [|eauto]. intros ->. by apply Permutation_nil_r in Hp.
Qed.

(** ** Theorems *)

Lemma foldl_add64 {A} (f : A -> Z) l s : in64 s -> foldl (fun s x => s +! f x) s l = s +! sum64 f l.
Proof.
  revert s. induction l as [|x l IH]; intros s Hs; cbn [foldl].
  - symmetry. by apply add64_0_r.
  - rewrite IH by apply add64_in64. by rewrite sum64_cons, add64_assoc.
Qed.
Lemma sum64_filter {A} (p : A -> bool) (f : A -> Z) l :
  sum64 f (List.filter p l) = sum64 (fun x => if p x then f x else 0) l.
Proof.
  induction l as [|x l IH]; [done|]. cbn. destruct (p x); rewrite ?sum64_cons; unfold sum64 in *; cbn; rewrite IH.
  - done.
  - symmetry. apply add64_0_l, sum64_in64.
Qed.

Definition fresh_stake (height : Z) (m : votes_map) : Z :=
  sum_map (fun v => if fresh height v then vt_Staked v else 0) m.
Definition fresh_values (height : Z) (m : votes_map) : list bytes :=
  map (fun kv => vt_Values kv.2) (List.filter (fun kv => fresh height kv.2) (map_to_list m)).
Definition prune (height : Z) (m : votes_map) : votes_map :=
  filter (fun kv => fresh height kv.2 = true) m.

Lemma filter_perm {A} (p : A -> bool) l l' : l ≡ₚ l' -> List.filter p l ≡ₚ List.filter p l'.
Proof.
  induction 1 as [|x l l' _ IH|x y l|l l' l'' _ IH1 _ IH2]; cbn.
  - done.
  - destruct (p x); by rewrite IH.
  - destruct (p x), (p y); done || apply Permutation_swap.
  - by rewrite IH1.
Qed.

Lemma foldl_delete_lookup (l : list (Z * Votes)) m k :
  foldl (fun m kv => delete kv.1 m) m l !! k = if decide (k ∈ l.*1) then None else (m : votes_map) !! k.
Proof.
  revert m. induction l as [|[k' v] l IH]; intros m; cbn [foldl]; [done|].
  rewrite IH, fmap_cons. cbn [fst].
  destruct (decide (k ∈ l.*1)) as [Hin|Hin];
    destruct (decide (k ∈ k' :: l.*1)) as [Hin'|Hin']; rewrite elem_of_cons in Hin'; try done.
  - tauto.
  - destruct Hin' as [->|?]; [apply lookup_delete_eq|done].
  - apply lookup_delete_ne. intros ->. tauto.
Qed.

(** What the generator returns, whatever the order. *)
Lemma generate_data_spec height ord m data values staked m' :
  enumerates ord m -> generate_data height ord m = (data, values, staked, m') ->
  values ≡ₚ fresh_values height m /\ staked = fresh_stake height m /\ m' = prune height m.
Proof.
  unfold generate_data, fresh_values, fresh_stake, prune. intros Ho [= _ <- <- <-]. split; [|split].
  - apply Permutation_map, filter_perm, Ho.
  - rewrite foldl_add64 by (unfold in64; lia). rewrite add64_0_l by apply sum64_in64.
    rewrite (sum64_filter (fun kv => fresh height kv.2) (fun kv => vt_Staked kv.2) ord).
    exact (sum_map_order (fun v => if fresh height v then vt_Staked v else 0) m ord Ho).
  - apply map_eq. intros k. rewrite foldl_delete_lookup, map_lookup_filter.
    destruct (m !! k) as [v|] eqn:Ek; cbn.
    + assert ((k, v) ∈ ord) as Hin by (rewrite Ho; by apply elem_of_map_to_list).
      destruct (decide _) as [Hk|Hk].
      * apply list_elem_of_fmap in Hk as ([k' v'] & E & Hk). cbn in E. subst k'.
        apply list_elem_of_In, filter_In in Hk as [Hk%list_elem_of_In Hf].
        apply (enumerates_elem _ _ _ _ Ho) in Hk. rewrite Ek in Hk. injection Hk as <-.
        cbn in Hf. apply negb_true_iff in Hf. by rewrite option_guard_False by (cbn; by rewrite Hf).
      * destruct (fresh height v) eqn:Ef; [by rewrite option_guard_True|]. exfalso. apply Hk.
        apply list_elem_of_fmap. exists (k, v). split; [done|].
        apply list_elem_of_In, filter_In. split; [by apply list_elem_of_In|]. cbn. by rewrite Ef.
    + by destruct (decide _).
Qed.

Definition decide_votes (replacing : bool) :=
  if replacing then VerifyEncryptionForReplacing else VerifyEncryptionForPausing.
Definition threshold (replacing : bool) (totalStaked : Z) : Z :=
  if replacing then Z.quot (2 *! totalStaked) 3 else Z.quot totalStaked 3.

(** C38: a scheme is replaced (paused) exactly when the fresh votes carry more than
    two thirds (one third) of the stake and at most one of more than two of them
    differs from the others; stale votes are forgotten.  The order in which the map
    of votes is visited has no influence. *)
Theorem VerifyEncryption_decision replacing height total ord (m m' : votes_map) b :
  enumerates ord m -> decide_votes replacing height total ord m = (b, m') ->
  (b = true <-> threshold replacing total < fresh_stake height m /\ consensus (fresh_values height m)) /\
  m' = prune height m.
Proof.
  intros Ho.
  assert (decide_votes replacing height total ord m =
    let '(_, values, staked, m) := generate_data height ord m in
    (negb (staked <=? threshold replacing total) && agreed values, m)) as -> by (by destruct replacing).
  destruct (generate_data height ord m) as [[[data values] staked] m1] eqn:E.
  apply generate_data_spec in E as (Hv & -> & ->); [|done]. intros [= <- <-]. split; [|done].
  rewrite andb_true_iff, negb_true_iff, Z.leb_gt, agreed_consensus.
  split; intros [H1 H2]; (split; [done|]); by eapply consensus_perm.
Qed.

(** a reset does not reach the vote of delegated account 255: it is kept, and
    all the others are deleted. *)
Theorem ResetLastVoting_keeps_255 (v : votes_map * votes_map * bool) :
  (ResetLastVoting v).1.1 !! 255 = v.1.1 !! 255 /\ (ResetLastVoting v).1.2 !! 255 = v.1.2 !! 255 /\
  forall i, 0 <= i < 255 -> (ResetLastVoting v).1.1 !! i = None /\ (ResetLastVoting v).1.2 !! i = None.
Proof.
  assert (forall n j (m : votes_map) i, delete_votes n j m !! i
    = if decide (j <= i < j + Z.of_nat n) then None else m !! i) as H.
  { induction n as [|n IH]; intros j m i; cbn [delete_votes].
    - destruct (decide _); [lia|done].
    - rewrite IH. destruct (decide (j = i)) as [->|Hne].
      + rewrite lookup_delete_eq. destruct (decide _), (decide _); done || lia.
      + rewrite lookup_delete_ne by done. destruct (decide _), (decide _); done || lia. }
  unfold ResetLastVoting. cbn [fst snd]. rewrite !H. change (Z.of_nat 255) with 255.
  split; [by destruct (decide _); [lia|]|]. split; [by destruct (decide _); [lia|]|].
  intros i Hi. rewrite !H. change (Z.of_nat 255) with 255. by destruct (decide _); [|lia].
Qed.

(** Two accounts with one coin each vote for [x], an account with 100 coins votes
    for [y]. *)
Definition vote_x : bytes := [byte_of_Z 1].
Definition vote_y : bytes := [byte_of_Z 2].
Definition split_votes : votes_map :=
  list_to_map [(1, mk_Votes vote_x 10 1); (2, mk_Votes vote_x 10 1); (3, mk_Votes vote_y 10 100)].

(** the stake of a discarded vote still counts: with 2 coins for a scheme and
    100 coins against it, out of 102, the replacement passes. *)
Theorem replacing_against_the_majority :
  fst (VerifyEncryptionForReplacing 12 102 (map_to_list split_votes) split_votes) = true.
Proof. vm_compute. reflexivity. Qed.

Lemma VerifyEncryption_decision_witness :
  (true = true <-> threshold true 102 < fresh_stake 12 split_votes /\ consensus (fresh_values 12 split_votes)) /\
  split_votes = prune 12 split_votes.
Proof.
  apply (VerifyEncryption_decision true 12 102 (map_to_list split_votes) split_votes split_votes true).
  - unfold enumerates. reflexivity.
  - vm_cast_no_check (eq_refl (true, split_votes)).
Defined.

(** The vote of account 7 is removed, the one of account 255 is not. *)
Definition two_votes : votes_map := {[ 7 := mk_Votes vote_x 9 10; 255 := mk_Votes vote_y 9 10 ]}.
Lemma ResetLastVoting_keeps_255_witness :
  (ResetLastVoting (two_votes, two_votes, false)).1.1 !! 255 = Some (mk_Votes vote_y 9 10) /\
  (ResetLastVoting (two_votes, two_votes, false)).1.1 !! 7 = None.
Proof.
  destruct (ResetLastVoting_keeps_255 (two_votes, two_votes, false)) as (H1 & _ & Hd).
  split; [rewrite H1; reflexivity|]. apply (Hd 7). lia.
Defined.
