(* ===== verification/Oracles.v ===== *)
(** * Package oracles: prices and random numbers

    Models oracles/oraclesDefinition.go: the two tables of propositions, the data
    a block producer puts into a block, and its verification against the stakes. *)
From stdpp Require Import sorting.
From S2P Require Import Prelude GoInt GoSlice Sums Common Keys Database Codec Float64 Accounts.
From S2P Require Import Staking Merkle.

(** [PriceOracle] and [RandOracle] have the same shape; the value is the price or
    the random number. *)
Record Proposition_ := mk_Proposition { op_Value : Z; op_Height : Z; op_Staked : Z }.
Abbreviation oracle_map := (gmap Z Proposition_).

Definition save_oracle (err : string) (m : oracle_map) (value height : Z) (delegatedAccount : Address)
    (staked : Z) : outcome oracle_map :=
  let! id := GetIDFromDelegatedAccountAddress delegatedAccount in
  if (id <=? 0) || (256 <=? id) then Err "delegated account is invalid" else
  match m !! (id mod 256) with
  | Some po => if op_Height po <=? height then Ok (<[id mod 256 := mk_Proposition value height staked]> m)
               else Err err
  | None => Ok (<[id mod 256 := mk_Proposition value height staked]> m)
  end.
Definition SavePriceOracle := save_oracle "invalid height in price oracle".
Definition SaveRandOracle := save_oracle "invalid height in rand oracle".

(** ** The data of a block *)

Definition current (height : Z) (po : Proposition_) : bool :=
  (height <=? op_Height po +! OraclesHeightDistance) && (0 <? op_Value po).
(** One entry: the account, the height and the value, 17 bytes. *)
Definition entry_bytes (kv : Z * Proposition_) : bytes :=
  byte_of_Z kv.1 :: GetByteInt64 (op_Height kv.2) ++ GetByteInt64 (op_Value kv.2).

(** [ord] is the order in which the map is visited. *)
Definition GeneratePriceData (height : Z) (ord : list (Z * Proposition_)) : bytes * list Z * Z :=
  let good := List.filter (fun kv => current height kv.2) ord in
  (concat (map entry_bytes good), map (fun kv => op_Value kv.2) good,
   foldl (fun s kv => s +! op_Staked kv.2) 0 good).
Definition GenerateRandData (height : Z) (ord : list (Z * Proposition_)) : bytes * bytes * Z :=
  let good := List.filter (fun kv => current height kv.2) ord in
  (concat (map entry_bytes good), concat (map (fun kv => GetByteInt64 (op_Value kv.2)) good),
   foldl (fun s kv => s +! op_Staked kv.2) 0 good).

(** [_, staked, _ := GetStakedInDelegatedAccount(id); int64(staked)]: the sum does
    not depend on the order of the visit. *)
Definition stake_of (t : staking_tables) (id : Z) : outcome Z :=
  let! m := index t id in
  Ok (f64_to_int64 (GetStakedInDelegatedAccount (map_to_list m)).1.2).

(** Entry [i] of the data, for [n] entries. *)
Fixpoint parse_entries (n : nat) (t : staking_tables) (data : bytes) (i : Z)
    (parsed : oracle_map) (values : list Z) (allStaked : Z) : outcome (oracle_map * list Z * Z) :=
  match n with
  | O => Ok (parsed, values, allStaked)
  | S n =>
      let! id := index data i in
      let! s := slice data (i + 1) (i + 9) in
      let! height := GetInt64FromByte s in
      let! s := slice data (i + 9) (i + 17) in
      let! value := GetInt64FromByte s in
      let! staked := stake_of t (byte_to_Z id) in
      parse_entries n t data (i + 17)
        (<[byte_to_Z id := mk_Proposition value height staked]> parsed)
        (values ++ [value]) (allStaked +! staked)
  end.
Definition ParsePriceData (t : staking_tables) (priceData : bytes) : outcome (oracle_map * list Z * Z) :=
  if negb (length priceData mod 17 =? 0)%nat then Err "invalid priceData length" else
  parse_entries (length priceData / 17) t priceData 0 ∅ [] 0.
(** The bytes of the random numbers are the bytes they were decoded from. *)
Definition ParseRandData (t : staking_tables) (randData : bytes) : outcome (oracle_map * bytes * Z) :=
  if negb (length randData mod 17 =? 0)%nat then Err "invalid randData length" else
  let! (parsed, values, allStaked) := parse_entries (length randData / 17) t randData 0 ∅ [] 0 in
  Ok (parsed, concat (map GetByteInt64 values), allStaked).

(** ** The price *)

(** [sort.Slice] with [<]. *)
Definition sort_prices (prices : list Z) : list Z := merge_sort Z.le prices.
(** The smallest and the largest of more than two prices are left out. *)
Definition trim_prices (prices : list Z) : list Z :=
  if (2 <? length prices)%nat
  then take (length prices - 2) (drop 1 (sort_prices prices)) else prices.

Definition Median (prices : list Z) : outcome Z :=
  let mid := Z.quot (len prices) 2 in
  if (Z.rem (len prices) 2 =? 0) then
    let! a := index prices (mid - 1) in
    let! b := index prices mid in
    Ok (Z.quot (a +! b) 2)
  else index prices mid.

Definition quorum (totalStaked : Z) : Z := Z.quot (2 *! totalStaked) 3.

(** The data is returned with an error too. *)
Definition CalculatePriceOracle (height totalStaked : Z) (ord : list (Z * Proposition_))
    : outcome (Z * bytes * option string) :=
  let '(priceData, prices, staked) := GeneratePriceData height ord in
  if staked <=? quorum totalStaked
  then Ok (0, priceData, Some "in price, there is not enough staked value for 2/3"%string) else
  let prices := trim_prices prices in
  if (length prices =? 0)%nat
  then Ok (0, priceData, Some "not enough prices propositions after removing min and max"%string) else
  let! price := Median prices in Ok (price, priceData, None).

Definition VerifyPriceOracle (t : staking_tables) (totalStaked priceBlock : Z) (priceData : bytes)
    : outcome bool :=
  match ParsePriceData t priceData with
  | Err _ => Ok false
  | Panic => Panic
  | Ok (_, prices, staked) =>
      if staked <=? quorum totalStaked then Ok (priceBlock =? 0) else
      let prices := trim_prices prices in
      if (length prices =? 0)%nat then Ok false else
      let! price := Median prices in Ok (price =? priceBlock)
  end.

(** ** The random number *)

(** [common.GetInt64FromByte(hash[24:])] *)
Definition rand_of_hash `{Hasher} (rands : bytes) : outcome Z :=
  let! h := CalcHashFromBytes rands in
  let! s := slice_from (arr_bytes h) 24 in
  GetInt64FromByte s.

Definition CalculateRandOracle `{Hasher} (height totalStaked : Z) (ord : list (Z * Proposition_))
    : outcome (Z * bytes * option string) :=
  let '(randData, rands, staked) := GenerateRandData height ord in
  if staked <=? quorum totalStaked
  then Ok (0, randData, Some "in rand, there is not enough staked value for 2/3"%string) else
  if (length rands =? 0)%nat then Ok (0, randData, Some "not enough rands propositions"%string) else
  let! rand := rand_of_hash rands in Ok (rand, randData, None).

Definition VerifyRandOracle `{Hasher} (t : staking_tables) (totalStaked randBlock : Z) (randData : bytes)
    : outcome bool :=
  match ParseRandData t randData with
  | Err _ => Ok false
  | Panic => Panic
  | Ok (_, rands, staked) =>
      if staked <=? quorum totalStaked then Ok (randBlock =? 0) else
      if (length rands =? 0)%nat then Ok false else
      let! rand := rand_of_hash rands in Ok (rand =? randBlock)
  end.

(** ** Reading back what was written *)

Lemma entry_bytes_length kv : length (entry_bytes kv) = 17%nat.
Proof. unfold entry_bytes. cbn [length]. by rewrite length_app, !GetByteInt64_length. Qed.

(** An entry a table can produce. *)
Definition entry_in (kv : Z * Proposition_) : Prop :=
  0 <= kv.1 < 256 /\ in64 (op_Height kv.2) /\ in64 (op_Value kv.2).

Lemma index_app_exact {A} (pre : list A) x rest i :
  i = Z.of_nat (length pre) -> index (pre ++ x :: rest) i = Ok x.
Proof.
  intros ->. unfold index. replace (_ <? 0) with false by (symmetry; apply Z.ltb_ge; lia).
  by rewrite Nat2Z.id, list_lookup_middle.
Qed.

Lemma parse_entries_app t l : forall pre parsed values s,
  Forall entry_in l -> Forall (fun kv => stake_of t kv.1 = Ok (op_Staked kv.2)) l ->
  exists parsed', parse_entries (length l) t (pre ++ concat (map entry_bytes l)) (Z.of_nat (length pre))
      parsed values s
    = Ok (parsed', values ++ map (fun kv => op_Value kv.2) l, foldl (fun s kv => s +! op_Staked kv.2) s l).
Proof.
  induction l as [|[k po] l IH]; intros pre parsed values s Hin Hst.
  - exists parsed. cbn. by rewrite app_nil_r.
  - apply Forall_cons in Hin as [(Hk & Hh & Hv) Hin]. apply Forall_cons in Hst as [Hs Hst]. cbn in Hk, Hh, Hv, Hs.
    cbn [length map concat parse_entries].
    set (rest := concat (map entry_bytes l)).
    set (hb := GetByteInt64 (op_Height po)). set (vb := GetByteInt64 (op_Value po)).
    assert (length hb = 8%nat) as Lh by apply GetByteInt64_length.
    assert (length vb = 8%nat) as Lv by apply GetByteInt64_length.
    change (entry_bytes (k, po)) with (byte_of_Z k :: hb ++ vb). cbn [app].
    rewrite index_app_exact by done. cbn [obind].
    assert (forall a, pre ++ byte_of_Z k :: a = (pre ++ [byte_of_Z k]) ++ a) as Hcons
      by (intros; by rewrite <- app_assoc).
    rewrite Hcons, <- (app_assoc hb vb rest).
    rewrite (slice_app_exact (pre ++ [byte_of_Z k]) hb) by (rewrite length_app; cbn; lia). cbn [obind].
    unfold hb at 1. rewrite GetInt64FromByte_exact by done. cbn [obind].
    rewrite (app_assoc _ hb), (slice_app_exact ((pre ++ [byte_of_Z k]) ++ hb) vb)
      by (rewrite !length_app; cbn; lia). cbn [obind].
    unfold vb at 1. rewrite GetInt64FromByte_exact by done. cbn [obind].
    rewrite byte_to_of_Z, Z.mod_small, Hs by lia. cbn [obind].
    rewrite (app_assoc _ vb).
    replace (Z.of_nat (length pre) + 17) with (Z.of_nat (length (((pre ++ [byte_of_Z k]) ++ hb) ++ vb)))
      by (rewrite !length_app; cbn; lia).
    edestruct IH as [parsed' ->]; [done|done|]. exists parsed'.
    by rewrite <- app_assoc.
Qed.

Lemma ParsePriceData_entries t l :
  Forall entry_in l -> Forall (fun kv => stake_of t kv.1 = Ok (op_Staked kv.2)) l ->
  exists parsed, ParsePriceData t (concat (map entry_bytes l))
    = Ok (parsed, map (fun kv => op_Value kv.2) l, foldl (fun s kv => s +! op_Staked kv.2) 0 l).
Proof.
  intros Hin Hst. unfold ParsePriceData.
  rewrite (concat_map_length_const entry_bytes 17) by apply entry_bytes_length.
  rewrite Nat.mul_comm, Nat.Div0.mod_mul, Nat.div_mul by lia. cbn [Nat.eqb negb].
  destruct (parse_entries_app t l [] ∅ [] 0 Hin Hst) as [parsed E]. by exists parsed.
Qed.

(** ** Theorems *)

(** The recorded stakes are the stakes of the delegated accounts. *)
Definition honest (t : staking_tables) (height : Z) (ord : list (Z * Proposition_)) : Prop :=
  Forall (fun kv => current height kv.2 = true -> entry_in kv /\ stake_of t kv.1 = Ok (op_Staked kv.2)) ord.

Lemma honest_current t height ord : honest t height ord ->
  let good := List.filter (fun kv => current height kv.2) ord in
  Forall entry_in good /\ Forall (fun kv => stake_of t kv.1 = Ok (op_Staked kv.2)) good.
Proof.
  intros Hord good. apply Forall_and, Forall_forall.
  intros kv [Hin%list_elem_of_In Hc]%list_elem_of_In%filter_In. unfold honest in Hord.
  rewrite Forall_forall in Hord. by apply Hord.
Qed.

Lemma trim_nonempty prices : prices <> [] -> trim_prices prices <> [].
Proof.
  intros Hp. unfold trim_prices. destruct (2 <? length prices)%nat eqn:E; [|done]. zify_bool.
  intros Ht. apply (f_equal length) in Ht. rewrite length_take, length_drop in Ht.
  unfold sort_prices in Ht. rewrite merge_sort_Permutation in Ht. cbn in Ht. lia.
Qed.
Lemma Median_total prices : prices <> [] -> exists p, Median prices = Ok p.
Proof.
  intros Hp. assert (0 < len prices) as Hl by (destruct prices; [done|unfold len; cbn; lia]).
  assert (forall i, 0 <= i < len prices -> exists p, index prices i = Ok p) as Hi.
  { intros i Hi. unfold index. replace (i <? 0) with false by (symmetry; apply Z.ltb_ge; lia).
    destruct (lookup_lt_is_Some_2 prices (Z.to_nat i)) as [p ->]; [unfold len in *; lia|by exists p]. }
  unfold Median. rewrite Z.quot_div_nonneg, Z.rem_mod_nonneg by lia.
  pose proof (Z.div_mod (len prices) 2 ltac:(lia)) as Hd.
  pose proof (Z.mod_pos_bound (len prices) 2 ltac:(lia)) as Hm.
  destruct (_ =? 0) eqn:E; zify_bool; [|apply Hi; lia].
  destruct (Hi (len prices / 2 - 1)) as [a ->]; [lia|]. destruct (Hi (len prices / 2)) as [b ->]; [lia|].
  by eexists.
Qed.

Lemma calculated_price t height total ord : honest t height ord -> 0 <= quorum total ->
  exists price data err, CalculatePriceOracle height total ord = Ok (price, data, err) /\
    VerifyPriceOracle t total price data = Ok true.
Proof.
  intros Hord Hq. destruct (honest_current _ _ _ Hord) as [Hin Hst]. unfold CalculatePriceOracle, GeneratePriceData.
  set (good := List.filter _ ord) in *. unfold VerifyPriceOracle.
  destruct (ParsePriceData_entries t good Hin Hst) as [parsed E].
  destruct (_ <=? _) eqn:Eq; [do 3 eexists; split; [reflexivity|]; by rewrite E, Eq|].
  assert (map (fun kv => op_Value kv.2) good <> []) as Hne.
  { intros Hn. apply map_eq_nil in Hn. rewrite Hn in Eq. zify_bool. cbn in Eq. lia. }
  apply trim_nonempty in Hne. destruct (Median_total _ Hne) as [p Hp].
  destruct (Nat.eqb _ 0) eqn:El; [by apply Nat.eqb_eq, nil_length_inv in El|].
  rewrite Hp. do 3 eexists. split; [reflexivity|]. rewrite E, Eq, El, Hp. cbn [obind]. by rewrite Z.eqb_refl.
Qed.

Lemma calculated_rand `{Hasher} t height total ord : honest t height ord -> 0 <= quorum total ->
  exists rand data err, CalculateRandOracle height total ord = Ok (rand, data, err) /\
    VerifyRandOracle t total rand data = Ok true.
Proof.
  intros Hord Hq. destruct (honest_current _ _ _ Hord) as [Hin Hst]. unfold CalculateRandOracle, GenerateRandData.
  set (good := List.filter _ ord) in *. unfold VerifyRandOracle.
  assert (exists parsed, ParseRandData t (concat (map entry_bytes good)) =
    Ok (parsed, concat (map (fun kv => GetByteInt64 (op_Value kv.2)) good),
        foldl (fun s kv => s +! op_Staked kv.2) 0 good)) as [parsed E].
  { destruct (ParsePriceData_entries t good Hin Hst) as [parsed E]. exists parsed. revert E.
    unfold ParsePriceData, ParseRandData. destruct (negb _); [done|]. intros ->. cbn [obind]. by rewrite map_map. }
  destruct (_ <=? _) eqn:Eq; [do 3 eexists; split; [reflexivity|]; by rewrite E, Eq|].
  destruct (Nat.eqb _ 0) eqn:El.
  { destruct good as [|kv good]; [zify_bool; cbn in Eq; lia|]. apply Nat.eqb_eq in El. cbn in El.
    rewrite length_app, GetByteInt64_length in El. lia. }
  assert (exists r, rand_of_hash (concat (map (fun kv => GetByteInt64 (op_Value kv.2)) good)) = Ok r) as [r Hr].
  { unfold rand_of_hash. rewrite CalcHashFromBytes_eq. cbn [obind].
    set (h := blake2b_256 _). assert (length (arr_bytes h) = 32%nat) as Hl by apply arr_length.
    unfold slice_from, len. rewrite slice_le by (rewrite ?Hl; lia). cbn [obind].
    apply GetInt64FromByte_total. rewrite length_take, length_drop, Hl. lia. }
  rewrite Hr. do 3 eexists. split; [reflexivity|]. rewrite E, Eq, El, Hr. cbn [obind]. by rewrite Z.eqb_refl.
Qed.

(** C39: the price, the random number and the data a block producer computes,
    with or without an error, are accepted by every node on which the stakes
    recorded with the propositions are the stakes of the delegated accounts,
    whatever the order in which the producer visited its maps. *)
Theorem calculated_oracles_verify `{Hasher} t height total prices rands :
  honest t height prices -> honest t height rands -> 0 <= quorum total ->
  exists price priceData err1 rand randData err2,
    CalculatePriceOracle height total prices = Ok (price, priceData, err1) /\
    CalculateRandOracle height total rands = Ok (rand, randData, err2) /\
    VerifyPriceOracle t total price priceData = Ok true /\ VerifyRandOracle t total rand randData = Ok true.
Proof.
  intros Hp Hr Hq. destruct (calculated_price _ _ _ _ Hp Hq) as (p & pd & e1 & E1 & V1).
  destruct (calculated_rand _ _ _ _ Hr Hq) as (r & rd & e2 & E2 & V2). by do 6 eexists.
Qed.

Lemma sort_replicate k p : sort_prices (replicate k p) = replicate k p.
Proof.
  unfold sort_prices. symmetry. apply replicate_as_elem_of. split.
  - by rewrite merge_sort_Permutation, length_replicate.
  - intros x. rewrite merge_sort_Permutation. intros [-> _]%elem_of_replicate. done.
Qed.
Lemma trim_replicate k p : (0 < k)%nat -> exists j, trim_prices (replicate k p) = replicate (S j) p.
Proof.
  intros Hk. unfold trim_prices. rewrite length_replicate. destruct (2 <? k)%nat eqn:E; zify_bool.
  - rewrite sort_replicate, drop_replicate, take_replicate. exists (k - 3)%nat. f_equal. lia.
  - exists (k - 1)%nat. f_equal. lia.
Qed.
Lemma Median_replicate k p : - 2 ^ 62 <= p < 2 ^ 62 -> Median (replicate (S k) p) = Ok p.
Proof.
  intros Hp. unfold Median, len. rewrite length_replicate.
  assert (forall i, 0 <= i < Z.of_nat (S k) -> index (replicate (S k) p) i = Ok p) as Hi.
  { intros i Hi. unfold index. replace (i <? 0) with false by (symmetry; apply Z.ltb_ge; lia).
    by rewrite (lookup_replicate_2 (S k)) by lia. }
  rewrite Z.quot_div_nonneg, Z.rem_mod_nonneg by lia.
  pose proof (Z.div_mod (Z.of_nat (S k)) 2 ltac:(lia)) as Hd.
  pose proof (Z.mod_pos_bound (Z.of_nat (S k)) 2 ltac:(lia)) as Hm.
  destruct (_ =? 0) eqn:E; zify_bool.
  - rewrite !Hi by lia. cbn [obind]. f_equal. unfold add64. rewrite i64_id by (unfold in64; lia).
    replace (p + p) with (p * 2) by lia. by apply Z.quot_mul.
  - apply Hi. lia.
Qed.
Lemma sum_replicate (kv : Z * Proposition_) k s : in64 s ->
  0 <= s -> 0 <= op_Staked kv.2 -> s + Z.of_nat k * op_Staked kv.2 < 2 ^ 63 ->
  foldl (fun s kv => s +! op_Staked kv.2) s (replicate k kv) = s + Z.of_nat k * op_Staked kv.2.
Proof.
  revert s. induction k as [|k IH]; intros s Hs H0 H1 Hb; cbn [replicate foldl]; [lia|].
  assert (s +! op_Staked kv.2 = s + op_Staked kv.2) as -> by (apply i64_id; unfold in64 in *; lia).
  rewrite IH; unfold in64 in *; lia.
Qed.

(** nothing stops a producer from repeating an entry: the stake of one
    delegated account is counted once per repetition, so with enough copies any
    price is accepted, however small the stake is. *)
Theorem VerifyPriceOracle_repeated_entry t total id s price height k :
  0 <= id < 256 -> stake_of t id = Ok s -> 0 < s -> in64 height -> - 2 ^ 62 <= price < 2 ^ 62 ->
  quorum total < Z.of_nat k * s -> Z.of_nat k * s < 2 ^ 63 -> (0 < k)%nat ->
  VerifyPriceOracle t total price
    (concat (replicate k (entry_bytes (id, mk_Proposition price height s)))) = Ok true.
Proof.
  intros Hid Hst Hs Hh Hp Hq Hov Hk. set (kv := (id, mk_Proposition price height s)).
  rewrite <- (fmap_replicate entry_bytes k kv). unfold VerifyPriceOracle.
  destruct (ParsePriceData_entries t (replicate k kv)) as [parsed E].
  - apply Forall_replicate. unfold entry_in, in64 in *; cbn. lia.
  - by apply Forall_replicate.
  - change (map entry_bytes (replicate k kv)) with (entry_bytes <$> replicate k kv) in E. rewrite E.
    rewrite (sum_replicate kv k 0) by (unfold in64; cbn; lia). cbn [op_Staked snd kv].
    replace (_ <=? _) with false by (symmetry; apply Z.leb_gt; cbn; lia).
    change (map (fun kv => op_Value kv.2) (replicate k kv)) with ((fun kv => op_Value kv.2) <$> replicate k kv).
    rewrite fmap_replicate. cbn [op_Value snd kv].
    destruct (trim_replicate k price Hk) as [j ->]. rewrite length_replicate. cbn [Nat.eqb].
    rewrite Median_replicate by done. cbn [obind]. by rewrite Z.eqb_refl.
Qed.

(** ** Closed examples *)

(** Delegated account 3 has a stake of 500. *)
Definition one_price : list (Z * Proposition_) := [(3, mk_Proposition 70 10 500)].
Definition one_price_data : bytes := concat (map entry_bytes one_price).
Lemma one_stake_of : stake_of one_stake 3 = Ok 500.
Proof. by vm_compute. Qed.

Lemma one_price_honest : honest one_stake 12 one_price.
Proof. apply Forall_singleton. intros _. split; [unfold entry_in, in64; cbn; lia|exact one_stake_of]. Qed.
Lemma one_price_calculated : CalculatePriceOracle 12 600 one_price = Ok (70, one_price_data, None).
Proof. vm_compute. reflexivity. Qed.

Lemma calculated_oracles_verify_witness :
  CalculatePriceOracle 12 600 one_price = Ok (70, one_price_data, None) /\
  VerifyPriceOracle one_stake 600 70 one_price_data = Ok true.
Proof.
  split; [exact one_price_calculated|].
  destruct (@calculated_oracles_verify toy_hasher one_stake 12 600 one_price one_price one_price_honest one_price_honest)
    as (p & d & e1 & r & rd & e2 & E1 & _ & V1 & _); [by vm_compute|].
  rewrite one_price_calculated in E1. injection E1 as <- <- <-. exact V1.
Defined.

(** 500 coins out of 6000 fix the price, with nine copies. *)
Lemma VerifyPriceOracle_repeated_entry_witness :
  VerifyPriceOracle one_stake 6000 123456
    (concat (replicate 9 (entry_bytes (3, mk_Proposition 123456 10 500)))) = Ok true.
Proof.
  apply VerifyPriceOracle_repeated_entry; try lia.
  - exact one_stake_of.
  - unfold in64. lia.
  - vm_compute. reflexivity.
Defined.
