(* ===== verification/BlockProcess.v ===== *)
(** * Package blocks: checking and executing blocks

    Models blocks/processBlock.go, blocks/processEncryption.go and the block level
    of blocks/processPubKey.go.  What the node reads from its surroundings (clock,
    syncing flag, random coin, iteration orders, wallet) is the record [Env];
    the evaluation of smart contracts is an argument. *)
From S2P Require Import Prelude GoInt GoSlice Sums Common Keys Database Codec Float64 Json Accounts.
From S2P Require Import Staking EncScheme Merkle PubKeys Tx Heap Pool Node Ledger Block Voting.
From S2P Require Import Oracles.

Record Env := mk_Env {
  env_now : Z;
  env_syncing : bool;
  env_pref : bool;
  env_coin : Z;
  env_Log2 : float64 -> float64;
  env_visit : staking_map -> list (addr20 * StakingAccount);
  env_visit_votes : votes_map -> list (Z * Votes);
  env_wallet_key : string -> bool -> outcome PubKey;
  env_store_wallet : outcome unit
}.

Section BlockProcess.
Context {D : Type} `{RocksDB D} `{JSON PubKey} `{JSON (list MerkleNode)} `{Hasher} `{OqsLib}.
Implicit Types (e : Env) (b newBlock lastBlock : Block).

Definition get_config : ST (Node D) EncryptionConfig := reads config_l (fun ec => Ok ec).
Definition load_pool_tx (prefix hash : bytes) : ST (Node D) Transaction :=
  with_config (fun ec => LoadFromDBPoolTx ec prefix hash).

(** [_, sum, op := account.GetStakedInDelegatedAccount(n)] *)
Definition staked_in e (n : Z) : ST (Node D) (list Account * float64 * Account) :=
  reads staking_l (fun t => let! m := index t n in Ok (GetStakedInDelegatedAccount (env_visit e m))).

(** ** CheckBaseBlock *)

(** The slice of leaves is made with its final length and then appended to, so
    one empty leaf per transaction comes first. *)
Definition block_leaves (txs : list Hash) : list bytes :=
  replicate (length txs) [] ++ map Hash_GetBytes txs.
Definition BuildBlockTree (txsBytes : list bytes) : outcome (list MerkleNode * list bytes) :=
  let! root := NewMerkleTree txsBytes in Ok (root, txsBytes).

(** The decision of the votes on one scheme. *)
Definition votes_decide e (primary replacing : bool) (height totalStaked : Z) : ST (Node D) bool :=
  on votes_l (fun v =>
    let m := if primary then v.1.1 else v.1.2 in
    let (ok, m') := (if replacing then VerifyEncryptionForReplacing else VerifyEncryptionForPausing)
                      height totalStaked (env_visit_votes e m) m in
    (Ok ok, if primary then (m', v.1.2, v.2) else (v.1.1, m', v.2))).

(** The change of a scheme that a block asks for. *)
Definition check_encryption e (primary shouldCheck : bool) (height totalStaked : Z)
    (newEnc lastEnc : bytes) : ST (Node D) unit :=
  if env_syncing e || bytes_eqb newEnc lastEnc then st_ret tt else
  do! ec <- get_config;
  do! enc <- st_lift (FromBytesToEncryptionConfig ec newEnc primary);
  let name := if primary then sigName ec else sigName2 ec in
  let other := if primary then sigName2 ec else sigName ec in
  let paused := if primary then IsPaused ec else IsPaused2 ec in
  let same := String.eqb (ce_SigName enc) name in
  if same && Bool.eqb (ce_IsPaused enc) paused then st_ret tt else
  if negb (VerifyEncConfig enc) then st_err "encryption verification fails" else
  if negb paused && negb same then st_err "you need to pause first to replace encryption" else
  if ce_IsPaused enc && paused && same then st_err "pausing fails, encryption is just puased" else
  if negb same && ce_IsPaused enc
  then st_err "new encryption has to be fully functional from beginning, so no paused" else
  do! replaced <- (if shouldCheck && negb same then votes_decide e primary true height totalStaked
                   else st_ret true);
  if negb replaced then st_err "voting replacement encryption check fails" else
  do! pausing <- (if shouldCheck && ce_IsPaused enc && same
                  then votes_decide e primary false height totalStaked else st_ret true);
  if negb pausing then st_err "voting pausing check fails" else
  if String.eqb (ce_SigName enc) other then st_err "cannot exist 2 the same ecnryptions schemes"
  else st_ret tt.

Definition CheckBaseBlock e newBlock lastBlock : ST (Node D) (list MerkleNode * list bytes) :=
  let base := bl_BaseBlock newBlock in
  let header := bb_BaseHeader base in
  let lastHeader := bl_Header lastBlock in
  if MaxTotalSupply <? Supply base then st_err "supply is too high" else
  if negb (bytes_eqb (BlockHash lastBlock) (PreviousHash header))
  then st_err "last block hash not match to one stored in new block" else
  if negb (CheckProofOfSynergy (env_Log2 e) base) then st_err "proof of synergy fails of block" else
  do! hash <- st_lift (CalcBlockHash newBlock);
  if negb (bytes_eqb hash (BlockHash newBlock)) then st_err "wrong hash of block" else
  do! merkleTrie <- st_lift (BuildBlockTree (block_leaves (TransactionsHashes newBlock)));
  do! rootHash <- st_lift (GetRootHash merkleTrie.1);
  if negb (bytes_eqb rootHash (RootMerkleTree header)) then st_err "root merkleTrie hash check fails" else
  do! t <- reads staking_l (fun t => Ok t);
  let totalStaked := GetStakedInAllDelegatedAccounts t in
  do! price <- (if env_syncing e then st_ret true else
                st_lift (VerifyPriceOracle t totalStaked (PriceOracle base) (PriceOracleData base)));
  if negb price then st_err "price oracle check fails" else
  do! rand <- (if env_syncing e then st_ret true else
               st_lift (VerifyRandOracle t totalStaked (RandOracle base) (RandOracleData base)));
  if negb rand then st_err "rand oracle check fails" else
  if (length (Encryption1 header) =? 0)%nat || (length (Encryption2 header) =? 0)%nat
  then st_err "encryption opt data should be always present in block" else
  let shouldCheck :=
    negb (BlockTimeInterval * VotingHeightDistance <? env_now e -! BlockTimeStamp base) in
  run! check_encryption e true shouldCheck (bh_Height header) totalStaked
         (Encryption1 header) (Encryption1 lastHeader);
  run! check_encryption e false shouldCheck (bh_Height header) totalStaked
         (Encryption2 header) (Encryption2 lastHeader);
  st_ret merkleTrie.

Definition IsAllTransactions (db : D) b : outcome (list bytes) :=
  foldr (fun h k =>
    let! isKey := CheckFromDBPoolTx db TransactionPoolHashesDBPrefix (Hash_GetBytes h) in
    let! hashes := k in
    Ok (if isKey then hashes else Hash_GetBytes h :: hashes)) (Ok []) (TransactionsHashes b).

(** ** CheckBlockTransfers *)

(** The copies of accounts and staking accounts that the loop updates, both by
    address, and the fees so far. *)
Record transfers := mk_transfers {
  tr_accounts : gmap addr20 Account;
  tr_stakingAccounts : gmap addr20 StakingAccount;
  tr_totalFee : Z
}.

(** The transaction of a hash; a syncing node takes it from the chain. *)
Definition load_block_tx e (hash : bytes) : ST (Node D) Transaction := fun n =>
  match load_pool_tx TransactionPoolHashesDBPrefix hash n with
  | (Err err, n) =>
      (run! logged (on db_l (RemoveTransactionFromDBbyHash TransactionPoolHashesDBPrefix hash));
       if env_syncing e then
         do! poolTx <- load_pool_tx TransactionDBPrefix hash;
         run! on db_l (StoreToDBPoolTx poolTx TransactionPoolHashesDBPrefix);
         st_ret poolTx
       else st_err err) n
  | r => r
  end.

Definition bad_tx b (tx : Transaction) (err : string) {A} : ST (Node D) A :=
  run! RemoveBadTransactionByHash (Hash_GetBytes (tx_Hash tx)) (bh_Height (bl_Header b));
  st_err err.

Definition with_stake (sa : StakingAccount) (staked rewards : Z) : StakingAccount :=
  mk_StakingAccount staked rewards (LockedAmount sa) (ReleasePerBlock sa) (LockedInitBlock sa)
    (DelegatedAccount sa) (sa_Address sa) (OperationalAccount sa) (StakingDetails sa).
Definition with_addresses (sa : StakingAccount) (delegated a : addr20) : StakingAccount :=
  mk_StakingAccount (StakedBalance sa) (StakingRewards sa) (LockedAmount sa) (ReleasePerBlock sa)
    (LockedInitBlock sa) delegated a (OperationalAccount sa) (StakingDetails sa).

(** The running totals of the sender on its staking account; the rewards field of
    the copy holds the fees. *)
Definition check_staking b (tx : Transaction) (n : Z) (s : transfers) : ST (Node D) transfers :=
  do! t <- reads staking_l (fun t => Ok t);
  do! at_ <- reads accounts_l (fun at_ => Ok at_);
  do! stakingAcc <- st_lift (GetStakingAccountByAddressBytes t (sender_bytes tx) (n mod 256));
  let stakingAcc :=
    if bytes_eqb (sa_Address stakingAcc) (sender_bytes tx) then stakingAcc
    else with_addresses stakingAcc
           (arr_copy (DelegatedAccount stakingAcc) (Address_GetBytes (Recipient (tx_Data tx))))
           (arr_copy (sa_Address stakingAcc) (sender_bytes tx)) in
  let stakingAcc := default stakingAcc (tr_stakingAccounts s !! sa_Address stakingAcc) in
  let stakingAcc := with_stake stakingAcc (StakedBalance stakingAcc +! Amount (tx_Data tx))
                      (StakingRewards stakingAcc +! tx_fee tx) in
  do! ret <- st_lift (CheckStakingTransaction at_ t tx (StakedBalance stakingAcc) (StakingRewards stakingAcc));
  if negb ret then bad_tx b tx "staking transactions checking fails: CheckBlockTransfers"
  else st_ret (mk_transfers (tr_accounts s) (<[sa_Address stakingAcc := stakingAcc]> (tr_stakingAccounts s))
                 (tr_totalFee s)).

Definition check_transfer e b (s : transfers) (h : Hash) : ST (Node D) transfers :=
  let hash := Hash_GetBytes h in
  do! poolTx <- load_block_tx e hash;
  run! CheckTransactionInDBAndInMarkleTrie hash;
  let fee := tx_fee poolTx in
  let total_amount := fee +! Amount (tx_Data poolTx) in
  let s := mk_transfers (tr_accounts s) (tr_stakingAccounts s) (tr_totalFee s +! fee) in
  do! target <- st_lift (delegated_target poolTx);
  do! s <- (match target with
            | Some n => if n <? 512 then check_staking b poolTx n s else st_ret s
            | None => st_ret s
            end);
  do! acc <- sender_account poolTx;
  if negb (bytes_eqb (acc_Address acc) (sender_bytes poolTx))
  then bad_tx b poolTx "no account found in check block transafer: CheckBlockTransfers" else
  let td := tx_Data poolTx in
  if negb (no_multisign poolTx)
     && ((0 <? Amount td) || (0 <? length (OptData td))%nat || (0 <? td_LockedAmount td)
         || (0 <? byte_to_Z (td_MultiSignNumber td)))
  then bad_tx b poolTx "transaction which confirms in multi signature account should have amount == 0" else
  let acc := default acc (tr_accounts s !! acc_Address acc) in
  let acc := with_Balance acc (Balance acc -! total_amount) in
  let s := mk_transfers (<[acc_Address acc := acc]> (tr_accounts s)) (tr_stakingAccounts s) (tr_totalFee s) in
  if Balance acc <? 0 then bad_tx b poolTx "not enough funds on account: CheckBlockTransfers"
  else st_ret s.

Fixpoint check_transfers e b (s : transfers) (txs : list Hash) : ST (Node D) transfers :=
  match txs with
  | [] => st_ret s
  | h :: txs => do! s <- check_transfer e b s h; check_transfers e b s txs
  end.

(** The reward and the fees of the block. *)
Definition CheckBlockTransfers e b lastBlock : ST (Node D) (Z * Z) :=
  do! s <- check_transfers e b (mk_transfers ∅ ∅ 0) (TransactionsHashes b);
  let lastSupply := Supply (bl_BaseBlock lastBlock) in
  let reward := GetReward lastSupply in
  if negb (lastSupply +! reward =? Supply (bl_BaseBlock b))
  then st_err "block supply checking fails: CheckBlockTransfers"
  else st_ret (reward, tr_totalFee s).

(** ** ProcessBlockTransfers *)

(** The number of the delegated account of a block. *)
Definition block_delegated (b : Block) : outcome Z :=
  match IntDelegatedAccountFromAddress (bh_DelegatedAccount (bl_Header b)) with
  | Ok n => if (n <? 1) || (255 <? n) then Err "wrong delegated account" else Ok n
  | Err _ => Err "wrong delegated account"
  | Panic => Panic
  end.

Definition process_block_tx e b (h : Hash) : ST (Node D) unit :=
  let hash := Hash_GetBytes h in
  let height := bh_Height (bl_Header b) in
  run! CheckTransactionInDBAndInMarkleTrie hash;
  do! poolTx <- load_pool_tx TransactionPoolHashesDBPrefix hash;
  let remove := RemoveBadTransactionByHash (Hash_GetBytes (tx_Hash poolTx)) height in
  if height <? tx_Height poolTx then bad_tx b poolTx "transaction height is wrong: ProcessBlockTransfers" else
  run! on_error (ProcessTransaction (env_now e) poolTx height) remove;
  on_error (ProcessTransactionsMultiSign poolTx height) remove.

Fixpoint process_block_txs e b (txs : list Hash) : ST (Node D) unit :=
  match txs with
  | [] => st_ret tt
  | h :: txs => run! process_block_tx e b h; process_block_txs e b txs
  end.

Definition reward_to e (accb : bytes) (reward height n : Z) : ST (Node D) unit :=
  on_ok staking_l (fun t => Reward (env_now e) t accb reward height n).

Definition operator_reward (reward perc : Z) : Z :=
  f64_to_int64 (f64_div (f64_mul (f64_of_int reward) (f64_of_int perc)) (f64_of_int 1000)).
Definition user_reward (reward balance : Z) (sum : float64) : Z :=
  f64_to_int64 (f64_div (f64_mul (f64_of_int reward) (f64_of_int balance)) sum).

(** Rewards the stakers; the result is what is left of [rest]. *)
Fixpoint reward_stakers e (height n reward : Z) (sum : float64) (staked : list Account) (rest : Z)
    : ST (Node D) Z :=
  match staked with
  | [] => st_ret rest
  | acc :: staked =>
      if 0 <? Balance acc then
        let userReward := user_reward reward (Balance acc) sum in
        run! reward_to e (arr_bytes (acc_Address acc)) userReward height n;
        reward_stakers e height n reward sum staked (rest -! userReward)
      else reward_stakers e height n reward sum staked rest
  end.

Definition distribute_reward e b (reward : Z) : ST (Node D) unit :=
  let height := bh_Height (bl_Header b) in
  let addr := arr_bytes (addr_ByteValue (OperatorAccount (bl_Header b))) in
  do! n <- st_lift (block_delegated b);
  do! (staked, sum, _) <- staked_in e n;
  if f64_leb sum f64_zero
  then st_err "no staked amount in delegated account which was rewarded: ProcessBlockTransfers" else
  let rewardPerc := RewardPercentage (bl_BaseBlock b) in
  if 500 <? rewardPerc then st_err "reward has to be smaller than 50" else
  let rewardOper := operator_reward reward rewardPerc in
  run! reward_to e addr rewardOper height n;
  let reward := reward -! rewardOper in
  do! rest <- reward_stakers e height n reward sum staked reward;
  if 0 <? rest then reward_to e addr rest height n
  else if rest <? 0 then st_err "this shouldn't happen anytime: ProcessBlockTransfers"
  else st_ret tt.

(** An error of the delayed transactions is only logged. *)
Definition ProcessBlockTransfers e b (reward : Z) : ST (Node D) unit :=
  run! logged (ProcessTransactionsEscrow (bh_Height (bl_Header b)));
  run! process_block_txs e b (TransactionsHashes b);
  distribute_reward e b reward.

Fixpoint remove_related (txs : list Hash) : ST (Node D) unit :=
  match txs with
  | [] => st_ret tt
  | h :: txs =>
      run! pool_remove pools_l (Hash_GetBytes h);
      run! logged (on db_l (RemoveTransactionFromDBbyHash TransactionPoolHashesDBPrefix (Hash_GetBytes h)));
      remove_related txs
  end.
Definition RemoveAllTransactionsRelatedToBlock b : ST (Node D) unit := remove_related (TransactionsHashes b).

(** ** Public keys and signature schemes of a block *)

(** The first transaction without a main address ends the loop. *)
Fixpoint process_pubkeys (txs : list Hash) : ST (Node D) unit :=
  match txs with
  | [] => st_ret tt
  | h :: txs =>
      do! t <- load_pool_tx TransactionPoolHashesDBPrefix (Hash_GetBytes h);
      let pk := td_Pubkey (tx_Data t) in
      if bytes_eqb (Address_GetBytes (pk_MainAddress pk)) (zeros AddressLength) then st_ret tt else
      run! on db_l (StorePubKey pk);
      run! on db_l (StorePubKeyInPatriciaTrie pk);
      process_pubkeys txs
  end.
Definition ProcessBlockPubKey b : ST (Node D) unit := process_pubkeys (TransactionsHashes b).

Definition set_encryption (primary : bool) (enc : ConfigEnc) : ST (Node D) unit :=
  on config_l (st_modify (fun ec => SetEncryption ec (ce_SigName enc) (ce_PubKeyLength enc)
    (ce_PrivateKeyLength enc) (ce_SignatureLength enc) (ce_IsPaused enc) primary)).

Definition SetEncryptionFromBytes (enc : bytes) (primary : bool) : ST (Node D) unit :=
  do! ec <- get_config;
  do! enc1 <- st_lift (FromBytesToEncryptionConfig ec enc primary);
  set_encryption primary enc1.

Definition SetEncryptionFromBlock (height : Z) : ST (Node D) unit :=
  do! ec <- get_config;
  do! block <- reads db_l (fun db => LoadBlock ec db height);
  let header := bl_Header block in
  do! enc1 <- st_lift (FromBytesToEncryptionConfig ec (Encryption1 header) true);
  run! set_encryption true enc1;
  do! ec <- get_config;
  do! enc2 <- st_lift (FromBytesToEncryptionConfig ec (Encryption2 header) false);
  set_encryption false enc2.

(** The goroutine at the other end of the channel applies the bytes and answers;
    its error is only logged. *)
Definition SetVoteEncryption (enc : bytes) (primary : bool) : ST (Node D) unit :=
  logged (SetEncryptionFromBytes enc primary).

(** The wallet generates the key of the scheme; the node stores it. *)
Definition AddNewPubKeyToActiveWallet e (name : string) (primary : bool) : ST (Node D) unit :=
  do! pk <- st_lift (env_wallet_key e name primary);
  run! on db_l (StorePubKey pk);
  run! on db_l (StorePubKeyInPatriciaTrie pk);
  st_lift (env_store_wallet e).

Definition process_encryption e (primary : bool) (enc lastEnc : bytes) : ST (Node D) unit :=
  if bytes_eqb enc lastEnc then st_ret tt else
  do! ec <- get_config;
  do! enc1 <- st_lift (FromBytesToEncryptionConfig ec enc primary);
  run! SetVoteEncryption enc primary;
  run! on votes_l (st_modify ResetLastVoting);
  AddNewPubKeyToActiveWallet e (ce_SigName enc1) primary.

Definition ProcessBlockEncryption e b lastBlock : ST (Node D) unit :=
  if bh_Height (bl_Header lastBlock) <? 3 then st_ret tt else
  run! process_encryption e true (Encryption1 (bl_Header b)) (Encryption1 (bl_Header lastBlock));
  process_encryption e false (Encryption2 (bl_Header b)) (Encryption2 (bl_Header lastBlock)).

(** ** CheckBlockAndTransferFunds *)

(** The transactions of an executed block move from the pool to the chain. *)
Fixpoint archive_txs (txs : list Hash) : ST (Node D) unit :=
  match txs with
  | [] => st_ret tt
  | h :: txs =>
      do! tx <- st_try (load_pool_tx TransactionPoolHashesDBPrefix (Hash_GetBytes h));
      match tx with
      | None => archive_txs txs
      | Some tx =>
          run! on db_l (StoreToDBPoolTx tx TransactionDBPrefix);
          run! pool_remove pools_l (Hash_GetBytes h);
          run! logged (on db_l (RemoveFromDBPoolTx tx TransactionPoolHashesDBPrefix));
          archive_txs txs
      end
  end.

(** [GetSupplyInAccounts() + staked + rewarded + reward + lastBlock.BlockFee] *)
Definition supply_sum (at_ : AccountsType) (t : staking_tables) (reward fee : Z) : Z :=
  let (staked, rewarded) := GetSupplyInStakedAccounts t in
  GetSupplyInAccounts at_ +! staked +! rewarded +! reward +! fee.

(** [defer]: [m] runs whatever the outcome is. *)
Definition deferred {A} (d : ST (Node D) unit) (m : ST (Node D) A) : ST (Node D) A := fun n =>
  let (r, n) := m n in
  match d n with (Panic, n) => (Panic, n) | (_, n) => (r, n) end.

(** The evaluation of the smart contracts of a block; [false] stops the block. *)
Variable EvaluateSmartContracts : Block -> ST (Node D) bool.

(** The tree of a block, [None] for a nil pointer. *)
Definition store_merkle (merkleTrie : option (list MerkleNode * list bytes)) (height : Z) : ST D unit :=
  match merkleTrie with
  | Some t => StoreTree t.1 t.2 height
  | None => st_err "merkle tree is nil"
  end.

(** The result is the block with the fee that the function writes into it. *)
Definition check_and_transfer e newBlock lastBlock (merkleTrie : option (list MerkleNode * list bytes))
    : ST (Node D) Block :=
  let header := bl_Header newBlock in
  do! n <- st_lift (block_delegated newBlock);
  do! (_, sumStaked, opAcc) <- staked_in e n;
  if (f64_to_int64 sumStaked <? MinStakingForNode)
     || negb (bytes_eqb (acc_Address opAcc) (Address_GetBytes (OperatorAccount header)))
  then st_err "not enough staked coins to be a node or not valid operetional account" else
  do! (reward, totalFee) <- CheckBlockTransfers e newBlock lastBlock;
  let newBlock := set_BlockFee newBlock (totalFee +! BlockFee lastBlock) in
  do! evaluated <- EvaluateSmartContracts newBlock;
  if negb evaluated then st_err "evaluation of smart contracts in block fails" else
  do! at_ <- reads accounts_l (fun at_ => Ok at_);
  do! t <- reads staking_l (fun t => Ok t);
  if negb (supply_sum at_ t reward (BlockFee lastBlock) =? Supply (bl_BaseBlock newBlock))
  then st_err "block supply checking fails vs account balances" else
  run! ProcessBlockPubKey newBlock;
  do! ec <- get_config;
  do! verified <- reads db_l (fun db => BaseHeader_Verify ec (env_pref e) (env_coin e) db header);
  if negb verified then st_err "header fails to verify: CheckBlockAndTransferFunds" else
  run! on db_l (store_merkle merkleTrie (bh_Height header));
  run! ProcessBlockTransfers e newBlock reward;
  run! archive_txs (TransactionsHashes newBlock);
  run! logged (ProcessBlockEncryption e newBlock lastBlock);
  st_ret newBlock.

Definition CheckBlockAndTransferFunds e newBlock lastBlock merkleTrie : ST (Node D) Block :=
  deferred (RemoveAllTransactionsRelatedToBlock newBlock)
    (check_and_transfer e newBlock lastBlock merkleTrie).
End BlockProcess.
