(* ===== verification/Evaluate.v ===== *)
(** * Package blocks: smart contracts and the decentralised exchange

    Models blocks/evaluate.go and [EvaluateSmartContracts] of
    blocks/processBlock.go.  The three entry points of the virtual machine that
    the code calls (Create, Call and StaticCall of core/evm) are the record
    [VMachine], programs on the state of StateDB.v; their output is the bytes whose
    hexadecimal form the tracer keeps. *)
From S2P Require Import Prelude GoInt GoSlice Sums Common Keys Database Codec Float64 Json Accounts.
From S2P Require Import Staking Dex EncScheme Merkle PubKeys Tx Heap Pool StateDB Node Ledger Supply.
From S2P Require Import Block BlockProcess.

(** account/helper.go, common/typesVM.go *)
Definition Int64toFloat64ByDecimals (value decimals : Z) : float64 :=
  f64_mul (f64_of_int value) (f64_Pow10 (- decimals)).
Definition Int64toFloat64 (value : Z) : float64 := Int64toFloat64ByDecimals value Decimals.
Definition RoundToken (v : float64) (decimal : Z) : float64 :=
  f64_mul (f64_Round (f64_mul v (f64_Pow10 decimal))) (f64_Pow10 (- decimal)).
Definition RoundCoin (v : float64) : float64 := RoundToken v Decimals.

(** [code[0:32]] is the word before the length word of an encoded string. *)
Definition GetStringFromSCBytes (code : bytes) (startIndex : Z) : outcome bytes :=
  let! o1 := slice code startIndex (startIndex + 32) in
  let! l := GetUintFromSCByte o1 in
  slice code (startIndex + 64) (startIndex + 64 + l).

(** core/stateDB/const.go *)
Definition selector (a b c d : Z) : bytes := map byte_of_Z [a; b; c; d].
Definition BalanceOfFunc : bytes := selector 0x70 0xa0 0x82 0x31.
Definition TransferFunc : bytes := selector 0x6a 0xfd 0x30 0x7b.
Definition NameFunc : bytes := selector 0x06 0xfd 0xde 0x03.
Definition SymbolFunc : bytes := selector 0x95 0xd8 0x9b 0x41.
Definition DecimalsFunc : bytes := selector 0x31 0x3c 0xe5 0x67.

(** [bytes.Index(code, f) >= 0] *)
Fixpoint contains (f code : bytes) : bool :=
  bool_decide (take (length f) code = f)
  || match code with [] => false | _ :: code => contains f code end.

Definition IsTokenToRegister (code : bytes) : bool :=
  contains NameFunc code && contains BalanceOfFunc code && contains TransferFunc code
  && contains SymbolFunc code && contains DecimalsFunc code.

Record BlockContext := mk_BlockContext {
  bc_GetHash : Z -> Hash;
  bc_GasLimit : Z;
  bc_BlockNumber : Z;
  bc_Time : Z;
  bc_Difficulty : Z
}.

(** Origin, code or receiver and input, gas, nonce; logs, result, new address.
    Of a static call only the logged output is used, its error is not. *)
Record VMachine := mk_VMachine {
  vm_Create : BlockContext -> Address -> bytes -> Z -> Z -> ST StateAccount (bytes * bytes * Address);
  vm_Call : BlockContext -> Address -> Address -> bytes -> Z -> ST StateAccount (bytes * bytes);
  vm_StaticCall : BlockContext -> Address -> bytes -> Z -> StateAccount -> bytes * StateAccount
}.

Definition MaxGasUsage : Z := 13700000.

(** The order that a transaction places: the call data for the token, who calls,
    the coins and tokens that move to the sender, the price. *)
Record dex_deal := mk_dex_deal {
  dd_optData : bytes; dd_from : Address; dd_coins : Z; dd_tokens : Z; dd_price : float64
}.

(** What the evaluation of a block collects by transaction hash and by contract. *)
Record sc_results := mk_sc_results {
  sr_logs : gmap Hash bytes;
  sr_addresses : gmap Hash Address;
  sr_optDatas : gmap addr20 bytes;
  sr_rets : gmap Hash bytes
}.
Definition no_results : sc_results := mk_sc_results ∅ ∅ ∅ ∅.

Definition set_OutputLogs (tx : Transaction) (l : bytes) : Transaction :=
  mk_Transaction (tx_Data tx) (tx_Param tx) (tx_Hash tx) (tx_Signature tx) (tx_Height tx)
    (GasPrice tx) (GasUsage tx) l (ContractAddress tx).
Definition set_ContractAddress (tx : Transaction) (a : Address) : Transaction :=
  mk_Transaction (tx_Data tx) (tx_Param tx) (tx_Hash tx) (tx_Signature tx) (tx_Height tx)
    (GasPrice tx) (GasUsage tx) (OutputLogs tx) a.

(** ** Prices and amounts of an order *)

(** [common.Decimals + ti.Decimals] is a sum of bytes. *)
Definition price_decimals (ti : TokenInfo) : Z := (Decimals + ti_Decimals ti) mod 256.

Definition dex_refused (operation amountCoin amountToken : Z) : bool :=
  ((operation =? 2) && ((amountCoin <? 0) || (amountToken <? 0)))
  || (((operation =? 3) || (operation =? 4)) && (amountToken =? 0))
  || ((operation =? 5) && (amountToken =? 0)) || ((operation =? 6) && (amountCoin =? 0)).

(** Coins, tokens and price of the operation on the pools of [accDex]. *)
Definition dex_amounts (operation amountCoin amountToken : Z) (ti : TokenInfo) (accDex : DexAccount)
    : outcome (Z * Z * float64) :=
  let d := price_decimals ti in
  let one_coin := f64_Pow10 Decimals in
  let one_token := f64_Pow10 (ti_Decimals ti) in
  let tokenPool := Int64toFloat64ByDecimals (TokenPool accDex) (ti_Decimals ti) in
  let coinPool := Int64toFloat64 (CoinPool accDex) in
  let token := Int64toFloat64ByDecimals amountToken (ti_Decimals ti) in
  let coin := Int64toFloat64ByDecimals amountCoin Decimals in
  let pos f := f64_ltb f64_zero f in
  let poolPrice := if pos coinPool && pos tokenPool then RoundToken (f64_div coinPool tokenPool) d else f64_zero in
  let trade (token : float64) :=
    let rest := f64_sub tokenPool (f64_mul (f64_of_int 2) token) in
    let price := if pos coinPool && pos rest then RoundToken (f64_div coinPool rest) d else f64_zero in
    if pos price
    then (f64_to_int64 (f64_mul (RoundCoin (f64_mul (f64_neg price) token)) one_coin),
          f64_to_int64 (f64_mul token one_token), price)
    else (0, 0, price) in
  if operation =? 2 then
    Ok (f64_to_int64 (f64_mul (f64_neg coin) one_coin), f64_to_int64 (f64_mul (f64_neg token) one_token),
        RoundToken (f64_div coin token) d)
  else if operation =? 5 then
    Ok (if pos poolPrice
        then (f64_to_int64 (f64_mul (RoundCoin (f64_mul poolPrice token)) one_coin),
              f64_to_int64 (f64_mul token one_token), poolPrice)
        else (0, 0, f64_zero))
  else if operation =? 6 then
    Ok (if pos poolPrice
        then (f64_to_int64 (f64_mul coin one_coin),
              f64_to_int64 (f64_mul (RoundToken (f64_mul (f64_div (f64_of_int 1) poolPrice) coin) (ti_Decimals ti)) one_token),
              poolPrice)
        else (0, 0, f64_zero))
  else if operation =? 3 then Ok (trade token)
  else if operation =? 4 then Ok (trade (f64_mul token (f64_of_int (-1))))
  else Err "wrong operation on dex".

(** The call that moves the tokens. *)
Definition transfer_call (dex sender : Address) (tokens : Z) : bytes * Address :=
  let call to amount := TransferFunc ++ LeftPadBytes to 32 ++ LeftPadBytes (GetInt64ToBytesSC amount) 32 in
  if 0 <? tokens then (call (Address_GetBytes sender) tokens, dex)
  else if tokens <? 0 then (call (Address_GetBytes dex) (0 -! tokens), sender)
  else ([], zero_Address).

(** ** The pools after an order *)

Definition dex_share (part : float64) (v decimals : Z) : Z :=
  f64_to_int64 (RoundToken (f64_mul part (f64_of_int v)) decimals).
Definition balance_of (acc : DexAccount) (a : addr20) : CoinTokenDetails :=
  default (mk_CoinTokenDetails 0 0) (Balances acc !! a).

(** Adding or withdrawing changes the balances of the sender; a trade is shared
    among all balances in proportion. *)
Definition dex_balances (operation coins tokens : Z) (ti : TokenInfo) (sender : addr20) (acc : DexAccount)
    : gmap addr20 CoinTokenDetails :=
  if (operation =? 2) || (4 <? operation) then
    let own := balance_of acc sender in
    <[sender := mk_CoinTokenDetails (CoinBalance own -! coins) (TokenBalance own -! tokens)]> (Balances acc)
  else
    let coinPart := f64_div (f64_of_int (0 -! coins)) (f64_of_int (CoinPool acc)) in
    let tokenPart := f64_div (f64_of_int (0 -! tokens)) (f64_of_int (TokenPool acc)) in
    (fun b => mk_CoinTokenDetails (CoinBalance b +! dex_share coinPart (CoinBalance b) Decimals)
                                  (TokenBalance b +! dex_share tokenPart (TokenBalance b) (ti_Decimals ti)))
    <$> Balances acc.

Definition dex_after (operation : Z) (deal : dex_deal) (ti : TokenInfo) (sender : addr20) (acc : DexAccount)
    : DexAccount :=
  mk_DexAccount (dex_balances operation (dd_coins deal) (dd_tokens deal) ti sender acc)
    (CoinPool acc +! (0 -! dd_coins deal)) (TokenPool acc +! (0 -! dd_tokens deal))
    (f64_to_int64 (f64_mul (dd_price deal) (f64_Pow10 (price_decimals ti)))) (TokenAddress acc).

Section Evaluate.
Context {D : Type} `{RocksDB D} `{JSON PubKey} `{JSON (list MerkleNode)} `{Hasher} `{OqsLib}.
Variable vm : VMachine.
Implicit Types (e : Env) (bl : Block) (tx : Transaction).

(** The context of a run: the hashes are read from the database of the node. *)
Definition block_context e bl (gasLimit : Z) (n : Node D) : BlockContext :=
  mk_BlockContext
    (fun height => BytesToHash (match LoadHashOfBlock (nd_MainDB n) (i64 height) with Ok h => h | _ => [] end))
    gasLimit (bh_Height (bl_Header bl)) (env_now e) (Difficulty (bl_Header bl)).

Definition with_vm e bl (gasLimit : Z) {A} (run : BlockContext -> ST StateAccount A) : ST (Node D) A :=
  fun n => on state_l (run (block_context e bl gasLimit n)) n.

(** ** Calls of the virtual machine *)

Definition EvaluateSC e tx bl : ST (Node D) (bytes * bytes * Address) :=
  let origin := Sender (tx_Param tx) in
  let code := OptData (tx_Data tx) in
  let gas := u64 (u64 (GasUsage tx) * 10) in
  if (length code =? 0)%nat then st_ret ([], [], zero_Address) else
  with_vm e bl (MaxGasUsage * 10) (fun bc =>
    if bool_decide (Recipient (tx_Data tx) = EmptyAddress)
    then vm_Create vm bc origin code gas (u64 (Nonce (tx_Param tx)))
    else do! (l, ret) <- vm_Call vm bc origin (Recipient (tx_Data tx)) code gas;
         st_ret (l, ret, Recipient (tx_Data tx))).

Definition EvaluateSCDex e (tokenAddress sender : Address) (optData : bytes) bl : ST (Node D) (bytes * bytes) :=
  with_vm e bl (MaxGasUsage * 10) (fun bc => vm_Call vm bc sender tokenAddress optData 210000).

Definition GetViewFunctionReturns e (contractAddr : Address) (optData : bytes) bl : ST (Node D) bytes :=
  with_vm e bl MaxGasUsage (fun bc sa =>
    let (output, sa') := vm_StaticCall vm bc contractAddr optData MaxGasUsage sa in (Ok output, sa')).

(** [GetBalance] of blocks/evaluate.go: the token balance of an owner. *)
Definition GetTokenBalance e (coin owner : Address) : ST (Node D) Z :=
  let inputs := BalanceOfFunc ++ LeftPadBytes (Address_GetBytes owner) 32 in
  do! h <- reads height_l (fun h => Ok h);
  do! ec <- get_config;
  do! bl <- reads db_l (fun db => LoadBlock ec db (h -! 1));
  do! output <- GetViewFunctionReturns e coin inputs bl;
  if (length output =? 0)%nat then st_ret 0 else st_lift (GetInt64FromSCByte output).

(** ** The exchange *)

Definition dex_account (token : Address) : ST (Node D) DexAccount :=
  reads dex_l (fun m => GetDexAccountByAddressBytes m (Address_GetBytes token)).
Definition token_info (token : Address) : ST (Node D) TokenInfo :=
  reads state_l (fun sa => match sa_Tokens sa !! addr_ByteValue token with
                           | Some ti => Ok ti
                           | None => Err "no token with a given address"
                           end).

Definition GenerateOptDataDEX e tx (operation : Z) : ST (Node D) dex_deal :=
  let td := tx_Data tx in
  let sender := Sender (tx_Param tx) in
  let token := ContractAddress tx in
  let dex := GetDexAccountAddress in
  do! amountToken <- st_lift (GetInt64FromByte (OptData td));
  if dex_refused operation (Amount td) amountToken
  then st_err "withdraw one can perform on one currency the second should be 0" else
  do! accDex <- dex_account token;
  do! balanceToken <- GetTokenBalance e token sender;
  do! ti <- token_info token;
  do! (coins, tokens, price) <- st_lift (dex_amounts operation (Amount td) amountToken ti accDex);
  do! senderAccount <- sender_account tx;
  if negb (bytes_eqb (acc_Address senderAccount) (Address_GetBytes sender))
  then st_err "no account found in dex transfer" else
  do! dexAccount <- on accounts_l (fun at_ =>
    match SetAccountByAddressBytes at_ (Address_GetBytes dex) with
    | Ok (acc, at_) => (Ok acc, at_)
    | Err err => (Err err, at_)
    | Panic => (Panic, at_)
    end);
  if Balance dexAccount -! coins <? 0 then st_err "not enough coins in dex account" else
  do! balanceDexToken <- GetTokenBalance e token dex;
  if balanceDexToken -! tokens <? 0 then st_err "not enough tokens in dex account" else
  if Balance senderAccount +! coins <? 0 then st_err "not enough coins in account" else
  if balanceToken +! tokens <? 0 then st_err "not enough tokens in account" else
  let own := balance_of accDex (acc_Address senderAccount) in
  let withdraws := (operation =? 6) || (operation =? 5) in
  if (CoinBalance own -! coins <? 0) && withdraws then st_err "not enough coins in dex account" else
  if (TokenBalance own -! tokens <? 0) && withdraws then st_err "not enough tokens in dex account" else
  let (optData, from) := transfer_call dex sender tokens in
  st_ret (mk_dex_deal optData from coins tokens price).

Definition dex_order_step e tx bl (poolprefix : bytes) (operation : Z) : ST (Node D) unit :=
  let sender := arr_of AddressLength (Address_GetBytes (Sender (tx_Param tx))) in
  let token := ContractAddress tx in
  do! deal <- GenerateOptDataDEX e tx operation;
  do! (l, _) <- EvaluateSCDex e token (dd_from deal) (dd_optData deal) bl;
  run! on db_l (StoreToDBPoolTx (set_OutputLogs tx l) poolprefix);
  run! add_balance sender (dd_coins deal);
  run! add_balance (arr_of AddressLength (Address_GetBytes GetDexAccountAddress)) (0 -! dd_coins deal);
  do! ti <- token_info token;
  do! accDex <- dex_account token;
  on_ok dex_l (fun m => SetDexAccountByAddressBytes m (Address_GetBytes token)
                          (dex_after operation deal ti sender accDex)).

(** ** The contracts of a block *)

Definition register_token e (address : Address) bl : ST (Node D) unit :=
  do! output <- GetViewFunctionReturns e address NameFunc bl;
  do! name <- st_lift (GetStringFromSCBytes output 0);
  do! output <- GetViewFunctionReturns e address SymbolFunc bl;
  do! symbol <- st_lift (GetStringFromSCBytes output 0);
  do! output <- GetViewFunctionReturns e address DecimalsFunc bl;
  do! decimals <- st_lift (GetUintFromSCByte output);
  on state_l (st_modify (fun sa => RegisterNewToken sa address
    (String.string_of_list_byte name) (String.string_of_list_byte symbol) (decimals mod 256))).

Definition contract_step e tx bl (poolprefix : bytes) (r : sc_results) : ST (Node D) sc_results :=
  do! (l, ret, address) <- EvaluateSC e tx bl;
  run! (if bool_decide (Recipient (tx_Data tx) = EmptyAddress) && IsTokenToRegister (OptData (tx_Data tx))
        then register_token e address bl else st_ret tt);
  let tx := set_OutputLogs (set_ContractAddress tx address) l in
  run! on db_l (StoreToDBPoolTx tx poolprefix);
  let hh := arr_of HashLength (Hash_GetBytes (tx_Hash tx)) in
  let aa := arr_of AddressLength (Address_GetBytes address) in
  st_ret (mk_sc_results (<[hh := l]> (sr_logs r)) (<[hh := address]> (sr_addresses r))
            (<[aa := OptData (tx_Data tx)]> (sr_optDatas r)) (<[hh := ret]> (sr_rets r))).

(** A transaction of the block, from the pool or from the chain, and where it
    was found. *)
Definition load_any (hash : bytes) : ST (Node D) (Transaction * bytes) :=
  do! found <- st_try (load_pool_tx TransactionPoolHashesDBPrefix hash);
  match found with
  | Some tx => st_ret (tx, TransactionPoolHashesDBPrefix)
  | None => do! tx <- load_pool_tx TransactionDBPrefix hash; st_ret (tx, TransactionDBPrefix)
  end.

Definition eval_tx e bl (r : sc_results) (th : Hash) : ST (Node D) sc_results :=
  do! (tx, poolprefix) <- load_any (Hash_GetBytes th);
  do! senderAcc <- sender_account tx;
  if (0 <? TransactionDelay senderAcc)
     && (bh_Height (bl_Header bl) <? tx_Height tx +! TransactionDelay senderAcc)
  then st_ret r else
  if 0 <? byte_to_Z (MultiSignNumber senderAcc) then st_ret r else
  match IntDelegatedAccountFromAddress (Recipient (tx_Data tx)) with
  | Panic => st_panic
  | Ok n => if 512 <? n then run! dex_order_step e tx bl poolprefix (n - 512); st_ret r else st_ret r
  | Err _ => if (length (OptData (tx_Data tx)) =? 0)%nat then st_ret r
             else contract_step e tx bl poolprefix r
  end.

Fixpoint eval_txs e bl (r : sc_results) (txs : list Hash) : ST (Node D) sc_results :=
  match txs with
  | [] => st_ret r
  | th :: txs => do! r <- eval_tx e bl r th; eval_txs e bl r txs
  end.

(** Any error makes the code return [false]; [None] stands for it. *)
Definition EvaluateSCForBlock e bl : ST (Node D) (option sc_results) :=
  st_try (eval_txs e bl no_results (TransactionsHashes bl)).

(** The logs and the code of every contract that ran; the keys differ, so the
    order of the map matters only for which write fails first. *)
Fixpoint store_results (r : sc_results) (addresses : list (Hash * Address)) : ST (Node D) unit :=
  match addresses with
  | [] => st_ret tt
  | (th, a) :: addresses =>
      run! on db_l (db_put (OutputLogsHashesDBPrefix ++ arr_bytes th) (default [] (sr_logs r !! th)));
      run! on db_l (db_put (OutputAddressesHashesDBPrefix ++ arr_bytes th)
             (default [] (sr_optDatas r !! arr_of AddressLength (Address_GetBytes a))));
      store_results r addresses
  end.

Definition EvaluateSmartContracts e bl : ST (Node D) bool :=
  do! r <- EvaluateSCForBlock e bl;
  match r with
  | None => st_ret false
  | Some r =>
      run! on state_l (st_modify (fun sa => SetSnapShotNum sa (bh_Height (bl_Header bl)) (Snapshot sa)));
      do! stored <- st_try (store_results r (map_to_list (sr_addresses r)));
      st_ret (match stored with Some _ => true | None => false end)
  end.
End Evaluate.
