(* ===== verification/Quiet.v ===== *)
(** * What the checks of a block leave alone

    Before a block is executed, the node checks it, stores its public keys and
    its Merkle tree.  None of this touches the ledger or adds a transaction: the
    relation [quiet] between the states of a node says so, and its weaker form
    [shrinks] holds for the execution of transactions too. *)
From S2P Require Import Prelude GoInt GoSlice Sums Common Keys Database Codec Float64 Json Accounts.
From S2P Require Import Staking EncScheme Merkle PubKeys Tx Heap Pool Node Ledger Supply Transfers.
From S2P Require Import Block BlockProcess.

(** The key of a transaction of the pool. *)
Definition pool_key (hash : bytes) : bytes := TransactionPoolHashesDBPrefix ++ hash.

(** ** The database *)

Section Db.
Context {D : Type} `{RocksDBLaws D}.

(** A stored pool transaction was stored before. *)
Definition db_shrinks (db db' : D) : Prop := forall h v,
  DB_Get db' (pool_key h) = Ok v -> DB_Get db (pool_key h) = Ok v.
#[export] Instance db_shrinks_preorder : PreOrder db_shrinks.
Proof. split; [by intros db h v|]. intros a b c H1 H2 h v E. by apply H1, H2. Qed.

Lemma within_db_put k v : (forall h, k <> pool_key h) -> within db_shrinks (db_put k v).
Proof.
  intros Hk db r db'. unfold db_put. destruct (DB_Put db k v) as [d|e|] eqn:E; intros [= _ <-]; [|done..].
  intros h w. by rewrite (DB_Get_Put_ne _ _ _ _ _ E (Hk h)).
Qed.
Lemma within_db_delete k : within db_shrinks (db_delete k).
Proof.
  intros db r db'. unfold db_delete. destruct (DB_Delete db k) as [d|e|] eqn:E; intros [= _ <-]; [|done..].
  intros h w. destruct (decide (k = pool_key h)) as [->|Hne].
  - by rewrite (DB_Get_Delete_eq _ _ _ E).
  - by rewrite (DB_Get_Delete_ne _ _ _ _ E Hne).
Qed.
Lemma within_db_get k : within db_shrinks (db_get k).
Proof. by intros db r db' [= _ <-]. Qed.
End Db.
#[export] Hint Resolve within_db_delete within_db_get : within.
#[export] Hint Extern 2 (within db_shrinks (db_put _ _)) => (apply within_db_put; by intros) : within.

Section DbPrograms.
Context {D : Type} `{RocksDBLaws D} `{JSON PubKey} `{JSON (list MerkleNode)} `{Hasher}.

Lemma within_load_db ec prefix hash : within db_shrinks (LoadFromDBPoolTx (D := D) ec prefix hash).
Proof. unfold LoadFromDBPoolTx. solve_within. Qed.
Lemma within_remove_tx prefix hash : within db_shrinks (RemoveTransactionFromDBbyHash (D := D) prefix hash).
Proof. apply within_db_delete. Qed.
Lemma within_RemoveMerkleTrie height : within db_shrinks (RemoveMerkleTrieFromDB (D := D) height).
Proof. unfold RemoveMerkleTrieFromDB. solve_within. Qed.
Lemma within_StoreTree root hashes height : within db_shrinks (StoreTree (D := D) root hashes height).
Proof. unfold StoreTree. solve_within. Qed.
Lemma within_StorePubKey pk : within db_shrinks (StorePubKey (D := D) pk).
Proof. unfold StorePubKey. solve_within. Qed.
Lemma within_store_checked_tree as_ main msg : within db_shrinks (store_checked_tree (D := D) as_ main msg).
Proof. unfold store_checked_tree, StoreAddressTree. solve_within. Qed.
Lemma within_load_or_empty main : within db_shrinks (load_or_empty (D := D) main).
Proof.
  intros db r db'. unfold load_or_empty. destruct (LoadAddresses db main); [by intros [= _ <-]| |by intros [= _ <-]].
  by destruct (String.eqb _ _); intros [= _ <-].
Qed.
Lemma within_FirstPubKey pk : within db_shrinks (CreateAddressFromFirstPubKey (D := D) pk).
Proof.
  pose proof within_store_checked_tree. pose proof within_load_or_empty.
  unfold CreateAddressFromFirstPubKey. solve_within.
Qed.
Lemma within_StoreTrie pk : within db_shrinks (StorePubKeyInPatriciaTrie (D := D) pk).
Proof.
  pose proof within_store_checked_tree. pose proof within_load_or_empty. pose proof within_FirstPubKey.
  unfold StorePubKeyInPatriciaTrie. solve_within.
Qed.
End DbPrograms.
#[export] Hint Resolve within_load_db within_remove_tx within_RemoveMerkleTrie within_StoreTree
  within_StorePubKey within_StoreTrie : within.

(** ** The node *)

Section Relations.
Context {D : Type} `{RocksDB D}.

(** Configuration kept, no pool transaction added to the database. *)
Definition shrinks (n n' : Node D) : Prop :=
  nd_Config n' = nd_Config n /\ db_shrinks (nd_MainDB n) (nd_MainDB n').
#[export] Instance shrinks_preorder : PreOrder shrinks.
Proof.
  split; [by intros n|]. intros a b c [E1 S1] [E2 S2]. split; [congruence|]. by transitivity (nd_MainDB b).
Qed.

(** Moreover, same ledger and no delayed transaction added. *)
Definition quiet (n n' : Node D) : Prop :=
  shrinks n n' /\ same_ledger n n' /\
  transactions (nd_PoolTxEscrow n') ⊆ transactions (nd_PoolTxEscrow n).
#[export] Instance quiet_preorder : PreOrder quiet.
Proof.
  split; [by intros n|]. intros a b c (S1 & L1 & E1) (S2 & L2 & E2).
  split; [by transitivity b|]. split; [by transitivity b|]. by transitivity (transactions (nd_PoolTxEscrow b)).
Qed.
End Relations.

(** Lenses outside the database and the configuration. *)
#[export] Hint Extern 2 (within shrinks (on db_l _)) => (eapply within_on; [eauto with within|by intros]) : within.
#[export] Hint Extern 3 (within shrinks (on _ _)) => (apply within_on_any; by intros) : within.
#[export] Hint Extern 2 (within shrinks (on_ok _ _)) =>
  (apply within_on_ok_any; first [exact _|by intros]) : within.
#[export] Hint Extern 2 (within shrinks (with_config _)) =>
  (eapply within_with_config; [exact _|intros; eauto with within|by intros]) : within.
#[export] Hint Extern 2 (within quiet (on db_l _)) => (eapply within_on; [eauto with within|by intros]) : within.
#[export] Hint Extern 2 (within quiet (on_ok _ _)) =>
  (apply within_on_ok_any; first [exact _|by intros]) : within.
#[export] Hint Extern 2 (within quiet (with_config _)) =>
  (eapply within_with_config; [exact _|intros; eauto with within|by intros]) : within.

Section Programs.
Context {D : Type} `{RocksDBLaws D} `{JSON PubKey} `{JSON (list MerkleNode)} `{Hasher} `{OqsLib}.

Lemma quiet_CheckTransaction hash : within quiet (CheckTransactionInDBAndInMarkleTrie (D := D) hash).
Proof. unfold CheckTransactionInDBAndInMarkleTrie. solve_within. Qed.

Lemma remove_at_index_transactions tp h i tp' :
  remove_at_index tp h i = Ok tp' -> transactions tp' ⊆ transactions tp.
Proof.
  unfold remove_at_index. intros E. ok_steps E; cbn; apply delete_subseteq.
Qed.
Lemma remove_transactions tp hash tp' :
  RemoveTransactionByHash tp hash = Ok tp' -> transactions tp' ⊆ transactions tp.
Proof.
  unfold RemoveTransactionByHash. destruct (transactionIndices tp !! _) as [i|]; [|by intros [= <-]].
  intros (tp1 & E & [= <-])%obind_ok_inv. exact (remove_at_index_transactions _ _ _ _ E).
Qed.

Lemma quiet_pool_remove l hash : l = pools_l \/ l = escrow_l \/ l = multisign_l ->
  within quiet (pool_remove (D := D) l hash).
Proof.
  intros [->|[->| ->]]; unfold pool_remove; try (apply within_on_ok_any; [exact _|by intros]).
  eapply within_on_ok; [exact _|intros x y; apply remove_transactions|]. by intros n x Hx.
Qed.
Lemma quiet_pool_ban l hash : l = pools_l \/ l = escrow_l \/ l = multisign_l ->
  within quiet (pool_ban (D := D) l hash).
Proof.
  intros [->|[->| ->]]; unfold pool_ban; try (apply within_on_ok_any; [exact _|by intros]).
  apply (within_on_ok quiet (fun x y => transactions y ⊆ transactions x)); [by intros x y [= <-]|].
  by intros n x Hx.
Qed.
Lemma quiet_RemoveBad hash height : within quiet (RemoveBadTransactionByHash (D := D) hash height).
Proof.
  pose proof (quiet_CheckTransaction hash). pose proof quiet_pool_remove. pose proof quiet_pool_ban.
  unfold RemoveBadTransactionByHash. solve_within.
Qed.
Hint Resolve quiet_CheckTransaction quiet_RemoveBad : within.

Lemma quiet_bad_tx {A} b tx e : within quiet (bad_tx (D := D) (A := A) b tx e).
Proof. unfold bad_tx. solve_within. Qed.
Hint Resolve quiet_bad_tx : within.

(** A node that is not syncing takes transactions from its pool only. *)
Lemma quiet_load_block_tx e hash : env_syncing e = false -> within quiet (load_block_tx (D := D) e hash).
Proof.
  intros He n r n'. unfold load_block_tx. rewrite He.
  destruct (load_pool_tx _ hash n) as [[tx|err|] n1] eqn:E.
  all: assert (quiet n n1) as Hq by
    (revert E; apply (within_with_config quiet db_shrinks); [intros; apply within_load_db|by intros]).
  - by intros [= _ <-].
  - intros E2. transitivity n1; [done|]. revert E2.
    assert (within quiet (run! logged (on db_l (RemoveTransactionFromDBbyHash (D := D) TransactionPoolHashesDBPrefix hash));
      st_err (A := Transaction) err)) as Hw by solve_within. exact (Hw n1 r n').
  - by intros [= _ <-].
Qed.

Lemma quiet_check_transfer e b s h : env_syncing e = false -> within quiet (check_transfer (D := D) e b s h).
Proof.
  intros He. pose proof (quiet_load_block_tx e (Hash_GetBytes h) He).
  unfold check_transfer, check_staking, sender_account. solve_within.
Qed.
Lemma quiet_check_transfers e b txs : env_syncing e = false ->
  forall s, within quiet (check_transfers (D := D) e b s txs).
Proof. intros He. induction txs; intros s; cbn; pose proof quiet_check_transfer; solve_within. Qed.
Lemma quiet_CheckBlockTransfers e b last : env_syncing e = false ->
  within quiet (CheckBlockTransfers (D := D) e b last).
Proof. intros He. pose proof quiet_check_transfers. unfold CheckBlockTransfers. solve_within. Qed.
Lemma quiet_ProcessBlockPubKey b : within quiet (ProcessBlockPubKey (D := D) b).
Proof.
  unfold ProcessBlockPubKey. generalize (TransactionsHashes b). intros txs.
  induction txs; cbn; unfold load_pool_tx; solve_within.
Qed.
Lemma quiet_staked_in e k : within quiet (staked_in (D := D) e k).
Proof. unfold staked_in. solve_within. Qed.

(** The execution of transactions. *)
Lemma shrinks_AddBalance a x : within shrinks (add_balance (D := D) a x).
Proof. unfold add_balance. solve_within. Qed.
Lemma shrinks_ProcessTransaction now tx h : within shrinks (ProcessTransaction (D := D) now tx h).
Proof.
  unfold ProcessTransaction, process_staking, process_rewards, process_standard, add_balance, sender_account,
    pool_add. solve_within.
Qed.
Lemma shrinks_RemoveBad hash height : within shrinks (RemoveBadTransactionByHash (D := D) hash height).
Proof. apply (within_mono quiet); [by intros n n' (? & _)|apply quiet_RemoveBad]. Qed.
Lemma shrinks_transfer tx h : within shrinks (transfer_or_ban (D := D) tx h).
Proof. pose proof shrinks_RemoveBad. unfold transfer_or_ban, add_balance. solve_within. Qed.
Lemma shrinks_Escrow h : within shrinks (ProcessTransactionsEscrow (D := D) h).
Proof.
  unfold ProcessTransactionsEscrow. apply within_bind; [solve_within..|]. intros txs.
  induction txs as [|tx txs IH]; cbn; [solve_within|]. pose proof shrinks_transfer.
  unfold escrow_step, pool_add, pool_remove, sender_account. solve_within.
Qed.
Lemma shrinks_MultiSign tx h : within shrinks (ProcessTransactionsMultiSign (D := D) tx h).
Proof.
  assert (forall txs, within shrinks (remove_all (D := D) txs)) as Hr.
  { intros txs. induction txs; cbn; unfold pool_remove; solve_within. }
  pose proof shrinks_transfer.
  unfold ProcessTransactionsMultiSign, store_backing, pool_remove, sender_account. solve_within.
Qed.
End Programs.
