(* ===== verification/DexSupply.v ===== *)
(** * Coins on the exchange

    Smart contracts and orders on the exchange, whatever the virtual machine
    does, neither create nor lose a coin; and an order moves coins between the
    exchange's account and its sender by exactly what it takes from the pool of
    the token, so that the account keeps backing the pools. *)
From S2P Require Import Prelude GoInt GoSlice Sums Common Keys Database Codec Float64 Json Accounts.
From S2P Require Import Staking Dex EncScheme Merkle PubKeys Tx Heap Pool StateDB Node Ledger Supply.
From S2P Require Import Transfers Block BlockProcess Evaluate.

Definition dex_key20 : addr20 := addr_ByteValue GetDexAccountAddress.

(** What the account of the exchange holds beyond the coins of the pools. *)
Definition unpooled {D} (n : Node D) : Z :=
  GetBalance (nd_Accounts n) dex_key20 - GetCoinLiquidityInDex (nd_DexAccounts n).

(** ** Programs that move no coins and change no pool *)

Definition keeps {D} (n n' : Node D) : Prop := accounts_wf (nd_Accounts n) ->
  accounts_wf (nd_Accounts n') /\ total n' = total n /\
  (forall a, GetBalance (nd_Accounts n') a = GetBalance (nd_Accounts n) a) /\
  nd_DexAccounts n' = nd_DexAccounts n /\ coins (nd_Accounts n') = coins (nd_Accounts n).
#[export] Instance keeps_preorder {D} : PreOrder (keeps (D := D)).
Proof.
  split; [by intros n|]. intros a b c H1 H2 Hw. destruct (H1 Hw) as (Hw1 & T1 & B1 & D1 & C1).
  destruct (H2 Hw1) as (Hw2 & T2 & B2 & D2 & C2). repeat split; [done|congruence| |congruence..].
  intros x. by rewrite B2.
Qed.

Lemma keeps_same {D} (n n' : Node D) :
  nd_Accounts n' = nd_Accounts n -> nd_StakingAccounts n' = nd_StakingAccounts n ->
  nd_DexAccounts n' = nd_DexAccounts n -> keeps n n'.
Proof. intros Ea Es Ed Hw. unfold total. by rewrite Ea, Es, Ed. Qed.
Ltac solve_keeps_set := intros; by apply keeps_same.
#[export] Hint Extern 2 (within keeps (on db_l _)) =>
  (apply within_on_any; first [exact _|solve_keeps_set]) : within.
#[export] Hint Extern 2 (within keeps (on state_l _)) =>
  (apply within_on_any; first [exact _|solve_keeps_set]) : within.
#[export] Hint Extern 2 (within keeps (with_config _)) =>
  (apply (within_with_config _ (fun _ _ => True)); first [exact _|done|solve_keeps_set]) : within.

Lemma SetAccountByAddressBytes_balances at_ (a : addr20) acc at' :
  accounts_wf at_ -> SetAccountByAddressBytes at_ a = Ok (acc, at') ->
  (forall b, GetBalance at' b = GetBalance at_ b) /\ coins at' = coins at_.
Proof.
  intros Hw. unfold SetAccountByAddressBytes. rewrite GetAccountByAddressBytes_arr. cbn [obind].
  destruct (bytes_eqb _ _) eqn:Ea; [by intros [= <- <-]|].
  rewrite full_slice by apply arr_length. cbn [obind]. rewrite arr_of_arr. intros [= <- <-].
  assert (lookup_account at_ a = zero_Account) as Hz.
  { destruct (lookup_account_cases at_ a Hw) as [[_ E]|[_ E]]; [|done].
    rewrite E in Ea. unfold bytes_eqb in Ea. by apply bool_decide_eq_false in Ea. }
  split; [|rewrite coins_store, Hz; cbn; lia].
  intros b. unfold GetBalance. destruct (decide (b = a)) as [->|Hne].
  - rewrite Hz. unfold lookup_account, store_account. cbn. by rewrite lookup_insert_eq.
  - unfold lookup_account, store_account. cbn. by rewrite lookup_insert_ne.
Qed.

Section Keeps.
Context {D : Type} `{RocksDB D} `{JSON PubKey} `{JSON (list MerkleNode)} `{Hasher} `{OqsLib}.
Variable vm : VMachine.
Implicit Types (n : Node D) (e : Env) (bl : Block) (tx : Transaction).

Lemma keeps_set_account (a : addr20) : within keeps (on (accounts_l (D := D)) (fun at_ =>
    match SetAccountByAddressBytes at_ a with
    | Ok (acc, at_) => (Ok acc, at_)
    | Err err => (Err err, at_)
    | Panic => (Panic, at_)
    end)).
Proof.
  intros n r n'. unfold on. cbn [l_get accounts_l].
  destruct (SetAccountByAddressBytes (nd_Accounts n) a) as [[acc at']|err|] eqn:E; intros [= _ <-];
    [|by apply keeps_same..].
  intros Hw. destruct (SetAccountByAddressBytes_wf _ _ _ _ Hw E) as (Hw' & Hs & _).
  split; [done|]. split; [by open_total; rewrite Hs|].
  destruct (SetAccountByAddressBytes_balances _ _ _ _ Hw E) as [Hb Hc]. done.
Qed.

Lemma keeps_with_vm e bl g {A} (run : BlockContext -> ST StateAccount A) :
  within keeps (with_vm (D := D) e bl g run).
Proof.
  intros n r n'. unfold with_vm.
  assert (within (keeps (D := D)) (on state_l (run (block_context e bl g n)))) as Hw
    by (apply within_on_any; solve_keeps_set). exact (Hw n r n').
Qed.
Hint Resolve keeps_with_vm : within.

Lemma keeps_view e a o bl : within keeps (GetViewFunctionReturns (D := D) vm e a o bl).
Proof. apply keeps_with_vm. Qed.
Hint Resolve keeps_view : within.
Lemma keeps_token_balance e coin owner : within keeps (GetTokenBalance (D := D) vm e coin owner).
Proof. unfold GetTokenBalance, get_config. solve_within. Qed.
Hint Resolve keeps_token_balance : within.

Lemma keeps_GenerateOptDataDEX e tx op : within keeps (GenerateOptDataDEX (D := D) vm e tx op).
Proof.
  pose proof keeps_set_account. unfold GenerateOptDataDEX, dex_account, token_info, sender_account.
  solve_within.
Qed.
Lemma keeps_register e a bl : within keeps (register_token (D := D) vm e a bl).
Proof. unfold register_token. solve_within. Qed.
Hint Resolve keeps_register : within.
Lemma keeps_contract_step e tx bl p r : within keeps (contract_step (D := D) vm e tx bl p r).
Proof. unfold contract_step, EvaluateSC. solve_within. Qed.
Lemma keeps_load_any h : within keeps (load_any (D := D) h).
Proof. unfold load_any, load_pool_tx. solve_within. Qed.
Lemma keeps_store_results r l : within keeps (store_results (D := D) r l).
Proof. induction l as [|[th a] l IH]; cbn; solve_within. Qed.
End Keeps.

(** ** The effect of an order *)

Lemma AddBalance_lookup a x at_ at' b :
  AddBalance a x at_ = (Ok tt, at') ->
  GetBalance at' b = if decide (b = a) then GetBalance at_ a +! x else GetBalance at_ b.
Proof.
  unfold AddBalance, GetBalance, SetBalance, lookup_account, store_account.
  destruct (AllAccounts at_ !! a) as [acc|] eqn:Ea; cbn [default AllAccounts].
  - destruct (_ <? 0); [done|]. intros [= <-]. cbn [AllAccounts]. rewrite Ea. cbn [default].
    destruct (decide (b = a)) as [->|Hne]; [by rewrite lookup_insert_eq|by rewrite lookup_insert_ne].
  - destruct (_ <? 0); [done|]. intros [= <-]. cbn [AllAccounts]. rewrite lookup_insert_eq. cbn [default].
    destruct (decide (b = a)) as [->|Hne]; [by rewrite lookup_insert_eq|by rewrite !lookup_insert_ne by done].
Qed.

Lemma dex_lookup (m : dex_map) (a : addr20) :
  GetDexAccountByAddressBytes m a = Ok (default zero_DexAccount (m !! a)).
Proof. unfold GetDexAccountByAddressBytes. rewrite full_slice by apply arr_length. cbn [obind]. by rewrite arr_of_arr. Qed.
Lemma dex_store (m : dex_map) (a : addr20) acc : SetDexAccountByAddressBytes m a acc = Ok (<[a := acc]> m).
Proof. unfold SetDexAccountByAddressBytes. rewrite full_slice by apply arr_length. cbn [obind]. by rewrite arr_of_arr. Qed.

Section Orders.
Context {D : Type} `{RocksDB D} `{JSON PubKey} `{JSON (list MerkleNode)} `{Hasher} `{OqsLib}.
Variable vm : VMachine.
Implicit Types (n : Node D) (e : Env) (bl : Block) (tx : Transaction).

Lemma add_balance_effect (a : addr20) x n n' :
  accounts_wf (nd_Accounts n) -> add_balance a x n = (Ok tt, n') ->
  accounts_wf (nd_Accounts n') /\ total n' = total n +! x /\ nd_DexAccounts n' = nd_DexAccounts n /\
  forall b, GetBalance (nd_Accounts n') b
    = if decide (b = a) then GetBalance (nd_Accounts n) a +! x else GetBalance (nd_Accounts n) b.
Proof.
  intros Hw E. destruct (moves_add_balance a x n tt n' Hw E) as [Hw' Ht].
  split; [done|]. split; [done|]. unfold add_balance, on in E. cbn [l_get accounts_l] in E.
  destruct (AddBalance a x (nd_Accounts n)) as [r at'] eqn:E2. injection E as -> <-.
  split; [done|]. intros b. exact (AddBalance_lookup _ _ _ _ b E2).
Qed.

(** A placed order: the deal it made, and where its coins went. *)
Record ordered tx (coins : Z) n n' : Prop := {
  ord_wf : accounts_wf (nd_Accounts n');
  ord_total : total n' = total n;
  ord_sender : GetBalance (nd_Accounts n') (sender_key tx) = GetBalance (nd_Accounts n) (sender_key tx) +! coins;
  ord_dex : GetBalance (nd_Accounts n') dex_key20 = GetBalance (nd_Accounts n) dex_key20 -! coins;
  ord_pool : eq64 (GetCoinLiquidityInDex (nd_DexAccounts n')) (GetCoinLiquidityInDex (nd_DexAccounts n) - coins)
}.

Lemma dex_order_step_ok e tx bl p op n n' :
  accounts_wf (nd_Accounts n) -> sender_key tx <> dex_key20 ->
  dex_order_step vm e tx bl p op n = (Ok tt, n') -> exists coins, ordered tx coins n n'.
Proof.
  intros Hw Hne. unfold dex_order_step. unfold Address_GetBytes. rewrite !arr_of_arr.
  fold dex_key20. intros E.
  apply st_bind_ok_inv in E as (deal & n1 & E1 & E).
  apply st_bind_ok_inv in E as ([l ret] & n2 & E2 & E).
  apply st_bind_ok_inv in E as ([] & n3 & E3 & E).
  assert (keeps n n3) as Hk.
  { transitivity n1; [revert E1; apply keeps_GenerateOptDataDEX|].
    transitivity n2; [revert E2; apply keeps_with_vm|].
    assert (within (keeps (D := D)) (on db_l (StoreToDBPoolTx (set_OutputLogs tx l) p))) as Hs by auto with within.
    exact (Hs _ _ _ E3). }
  destruct (Hk Hw) as (Hw3 & T3 & B3 & D3 & _). clear Hk E1 E2 E3.
  apply st_bind_ok_inv in E as ([] & n4 & E4 & E).
  apply add_balance_effect in E4 as (Hw4 & T4 & D4 & B4); [|done].
  apply st_bind_ok_inv in E as ([] & n5 & E5 & E).
  apply add_balance_effect in E5 as (Hw5 & T5 & D5 & B5); [|done].
  apply st_bind_ok_inv in E as (ti & n6 & E6 & E). injection E6 as _ <-.
  apply st_bind_ok_inv in E as (acc & n7 & E7 & E). injection E7 as E7 <-.
  cbn [l_get dex_l] in E7. unfold Address_GetBytes in E7. rewrite dex_lookup in E7.
  unfold on_ok in E. cbn [l_get dex_l] in E. rewrite dex_store in E. injection E as <-.
  exists (dd_coins deal). split; cbn [nd_Accounts l_set dex_l nd_DexAccounts].
  - done.
  - transitivity (total n5); [done|]. rewrite T5, T4, T3. transitivity (total n +! 0); [i64_solve|].
    apply add64_0_r, total_in64.
  - rewrite B5, decide_False, B4, decide_True, B3 by done. done.
  - rewrite B5, decide_True, B4, decide_False, B3 by (done || by apply not_eq_sym). i64_solve.
  - unfold GetCoinLiquidityInDex. rewrite (sum_map_insert CoinPool _ _ _ zero_DexAccount) by done.
    rewrite D5, D4, D3 in *. injection E7 as ->. cbn [CoinPool dex_after]. i64_solve.
Qed.
End Orders.

(** ** The contracts of a block *)

Section Blocks.
Context {D : Type} `{RocksDB D} `{JSON PubKey} `{JSON (list MerkleNode)} `{Hasher} `{OqsLib}.
Variable vm : VMachine.
Implicit Types (n : Node D) (e : Env) (bl : Block) (tx : Transaction).

Lemma keeps_moves {A} (m : ST (Node D) A) : within keeps m -> moves m 0.
Proof.
  intros Hk n a n' Hw E. destruct (Hk _ _ _ E Hw) as (Hw' & Ht & _). split; [done|].
  rewrite Ht. symmetry. apply add64_0_r, total_in64.
Qed.
Lemma moves_bind_keeps {A B} (m : ST (Node D) A) (k : A -> ST (Node D) B) d :
  within keeps m -> (forall a, moves (k a) d) -> moves (st_bind m k) d.
Proof. intros Hm Hk. replace d with (0 + d) by lia. apply moves_bind; [by apply keeps_moves|done]. Qed.

Lemma moves_dex_order e tx bl p op : moves (D := D) (dex_order_step vm e tx bl p op) 0.
Proof.
  unfold dex_order_step, token_info, dex_account.
  apply moves_bind_keeps; [apply keeps_GenerateOptDataDEX|]. intros deal.
  apply moves_bind_keeps; [apply keeps_with_vm|]. intros [l ret].
  apply moves_bind_keeps; [auto with within|]. intros _.
  apply moves_eq with (dd_coins deal + ((0 -! dd_coins deal) + 0)); [|i64_solve].
  apply moves_bind; [apply moves_add_balance|]. intros _.
  apply moves_bind; [apply moves_add_balance|]. intros _.
  apply frames_moves. solve_frames.
Qed.

Lemma moves_eval_tx e bl r th : moves (D := D) (eval_tx vm e bl r th) 0.
Proof.
  unfold eval_tx, sender_account. apply moves_bind_keeps; [apply keeps_load_any|]. intros [tx p].
  apply moves_bind_keeps; [solve_within|]. intros acc.
  destruct (_ && _); [apply moves_ret|]. destruct (0 <? _); [apply moves_ret|].
  destruct (IntDelegatedAccountFromAddress _) as [k|err|]; [| |by intros n a n' _ [=]].
  - destruct (512 <? k); [|apply moves_ret]. replace 0 with (0 + 0) by done.
    apply moves_bind; [apply moves_dex_order|intros _; apply moves_ret].
  - destruct (Nat.eqb _ _); [apply moves_ret|]. apply keeps_moves, keeps_contract_step.
Qed.
Lemma moves_eval_txs e bl txs : forall r, moves (D := D) (eval_txs vm e bl r txs) 0.
Proof.
  induction txs as [|th txs IH]; intros r; cbn [eval_txs]; [apply moves_ret|].
  replace 0 with (0 + 0) by done. apply moves_bind; [apply moves_eval_tx|]. intros r'. apply IH.
Qed.

(** The coins of the ledger are what they were. *)
Lemma EvaluateSmartContracts_total e bl n n' :
  accounts_wf (nd_Accounts n) -> EvaluateSmartContracts vm e bl n = (Ok true, n') ->
  accounts_wf (nd_Accounts n') /\ total n' = total n.
Proof.
  intros Hw. unfold EvaluateSmartContracts. intros E. apply st_bind_ok_inv in E as (r & n1 & E1 & E).
  destruct r as [r|]; [|done]. unfold EvaluateSCForBlock, st_try in E1.
  destruct (eval_txs vm e bl no_results (TransactionsHashes bl) n) as [[x|err|] n2] eqn:E2; [|done..].
  injection E1 as -> <-.
  destruct (moves_eval_txs e bl _ _ n r n2 Hw E2) as [Hw1 Ht1].
  assert (moves (D := D) (run! on state_l (st_modify (fun sa => SetSnapShotNum sa (bh_Height (bl_Header bl)) (Snapshot sa)));
      do! stored <- st_try (store_results r (map_to_list (sr_addresses r)));
      st_ret (match stored with Some _ => true | None => false end)) 0) as Hm.
  { apply keeps_moves. pose proof (keeps_store_results (D := D) r). solve_within. }
  destruct (Hm n2 true n' Hw1 E) as [Hw' Ht']. split; [done|].
  rewrite Ht', Ht1. rewrite !add64_0_r by apply add64_in64 || apply total_in64. done.
Qed.

(** C23: an order on the exchange that succeeds moves [coins] between its sender
    and the exchange's account, the fee of the order is not charged, and the coins
    that the exchange holds beyond those its liquidity records count are the same
    before and after, modulo 2^64: every coin of a pool is backed by one of the
    exchange's account. *)
Theorem dex_order_backed e tx bl p op n n' :
  accounts_wf (nd_Accounts n) -> sender_key tx <> dex_key20 ->
  dex_order_step vm e tx bl p op n = (Ok tt, n') ->
  (exists coins, ordered tx coins n n') /\ eq64 (unpooled n') (unpooled n).
Proof.
  intros Hw Hne E. destruct (dex_order_step_ok _ _ _ _ _ _ _ _ Hw Hne E) as [coins Ho].
  split; [by exists coins|]. destruct Ho. unfold unpooled. rewrite ord_pool0, ord_dex0. i64_solve.
Qed.
End Blocks.

(** ** Closed examples *)

#[local] Existing Instance map_store.
#[local] Existing Instance pk_json.
#[local] Existing Instance toy_hasher.
#[local] Existing Instance small_schemes.

(** Every call succeeds and every balance is 10^12. *)
Definition toy_vm : VMachine := mk_VMachine (fun _ _ _ _ _ => st_err "no contracts") (fun _ _ _ _ _ => st_ret ([], []))
  (fun _ _ _ _ sa => (GetInt64ToBytesSC 1000000000000, sa)).
Definition toy_env : Env := mk_Env 1700000100 false true 0 (fun f => f) map_to_list map_to_list
  (fun _ _ => Err "no wallet") (Ok tt).
Definition token_addr : Address := flagged 5.

(** Address 1 adds 500 coins and 1000 tokens: operation 2. *)
Definition add_liquidity : Transaction :=
  sign_toy (mk_Transaction
    (mk_TxData (mk_Address (arr_of AddressLength [byte_of_Z 2; byte_of_Z 2]) true) 500
       (GetByteInt64 1000 ++ zeros 800) zero_PubKey 0 0 (mk_Address (arr_zero _) true) 0 (byte_of_Z 0) [])
    (mk_TxParam 23 (flagged 1) 1700000000 7 (arr_zero _)) (arr_zero _) zero_Signature
    5 3 4 [] token_addr).

Definition dex_node : Node (gmap bytes bytes) :=
  mk_Node (mk_AccountsType (list_to_map [rich (flagged 1) 1000]) 0)
    no_stakes (NewTransactionPool 100 0) (NewTransactionPool 100 1) (NewTransactionPool 100 2)
    (snd (StoreToDBPoolTx add_liquidity TransactionPoolHashesDBPrefix block_7_db)) test_config ∅ ∅ false
    {[ addr_ByteValue token_addr := mk_DexAccount ∅ 100 200 0 token_addr ]}
    (RegisterNewToken CreateStateDB token_addr "Token" "TOK" 2) 8.
Definition order_8 : Block := sample_block 8 (arr_zero _) 1000 [tx_Hash add_liquidity] (arr_zero _) 5.

Lemma dex_node_wf : accounts_wf (nd_Accounts dex_node).
Proof. apply map_Forall_to_list. vm_compute. repeat constructor. Qed.

Definition run_order : outcome unit * Node (gmap bytes bytes) :=
  dex_order_step toy_vm toy_env add_liquidity order_8 TransactionPoolHashesDBPrefix 2 dex_node.
Definition run_contracts : outcome bool * Node (gmap bytes bytes) :=
  EvaluateSmartContracts toy_vm toy_env order_8 dex_node.

Lemma run_order_ok : run_order = (Ok tt, snd run_order).
Proof. unfold run_order. apply run_result. vm_compute. reflexivity. Qed.
Lemma order_coins : GetBalance (nd_Accounts (snd run_order)) dex_key20 = 500.
Proof. vm_compute. reflexivity. Qed.

(** The exchange receives 500 coins, which the pool takes over. *)
Lemma dex_order_backed_witness :
  GetBalance (nd_Accounts (snd run_order)) dex_key20 = 500 /\ eq64 (unpooled (snd run_order)) (unpooled dex_node).
Proof.
  split; [exact order_coins|].
  refine (proj2 (dex_order_backed toy_vm toy_env add_liquidity order_8 TransactionPoolHashesDBPrefix 2
    dex_node (snd run_order) dex_node_wf _ run_order_ok)).
  by vm_compute.
Defined.
