(* ===== verification/Settle.v ===== *)
(** * What the evaluation of contracts leaves alone

    The evaluation of the contracts of a block moves coins between accounts, and
    writes its logs and the addresses of new contracts into the stored
    transactions.  The relation [settled] says what the check of a block relies
    on: the coins of the ledger, the delayed transactions and the fees of the
    stored transactions stay what they were.  [contracts_settled]
    proves it for the code, whatever the virtual machine does; [spares] says what
    the evaluation cannot reach, whatever its outcome. *)
From S2P Require Import Prelude GoInt GoSlice Sums Common Keys Database Codec Float64 Json Accounts.
From S2P Require Import Staking Dex EncScheme Merkle PubKeys Tx Heap Pool StateDB Node Ledger Supply.
From S2P Require Import Transfers Block BlockProcess Evaluate Quiet DexSupply.

(** ** The pool transactions of a node *)

Section PoolTx.
Context {D : Type} `{RocksDBLaws D} `{JSON PubKey} `{JSON (list MerkleNode)} `{Hasher} `{OqsLib}.
Implicit Types (n : Node D).

(** The transaction that a node has in its pool under a hash. *)
Definition pool_tx n (h : Hash) (tx : Transaction) : Prop :=
  fst (load_pool_tx TransactionPoolHashesDBPrefix (Hash_GetBytes h) n) = Ok tx.

Lemma load_pool_tx_ok n h tx n' :
  load_pool_tx TransactionPoolHashesDBPrefix (Hash_GetBytes h) n = (Ok tx, n') ->
  pool_tx n h tx /\ quiet n n'.
Proof.
  intros E. split; [unfold pool_tx; by rewrite E|]. revert E.
  apply (within_with_config quiet db_shrinks); [intros; apply within_load_db|by intros].
Qed.

(** What the database says. *)
Lemma pool_tx_stored n h tx : pool_tx n h tx <-> exists bt rest,
  DB_Get (nd_MainDB n) (pool_key (Hash_GetBytes h)) = Ok bt /\ bt <> [] /\
  Transaction_GetFromBytes (nd_Config n) bt = Ok (tx, rest).
Proof.
  unfold pool_tx, load_pool_tx, with_config, on, LoadFromDBPoolTx. cbn [l_get db_l].
  unfold st_bind at 1, db_get, pool_key. destruct (DB_Get _ _) as [bt|err|]; [|by split; [|intros (? & ? & ? & _)]..].
  destruct bt as [|x bt]; cbn [length Nat.eqb].
  - unfold st_bind, db_delete. split; [|by intros (? & ? & [= <-] & ? & _)].
    by destruct (DB_Delete _ _).
  - unfold st_bind, st_lift. destruct (Transaction_GetFromBytes _ _) as [[t rest]|err|] eqn:E; cbn; split; try done.
    + intros [= ->]. exists (x :: bt), rest. done.
    + intros (? & ? & [= <-] & _ & E'). rewrite E' in E. by injection E as -> _.
    + intros (? & ? & [= <-] & _ & E'). by rewrite E' in E.
    + intros (? & ? & [= <-] & _ & E'). by rewrite E' in E.
Qed.
Lemma pool_tx_shrinks n n' h tx : shrinks n n' -> pool_tx n' h tx -> pool_tx n h tx.
Proof.
  intros [Ec Hs]. rewrite !pool_tx_stored, Ec. intros (bt & rest & Hg & ?). exists bt, rest.
  split; [by apply Hs|done].
Qed.
Lemma pool_tx_fun n h tx tx' : pool_tx n h tx -> pool_tx n h tx' -> tx = tx'.
Proof. unfold pool_tx. congruence. Qed.
Lemma pool_txs_fun n hs : forall txs txs',
  Forall2 (pool_tx n) hs txs -> Forall2 (pool_tx n) hs txs' -> txs = txs'.
Proof.
  induction hs as [|h hs IH]; intros txs txs'; [by intros ->%Forall2_nil_inv_l ->%Forall2_nil_inv_l|].
  intros (tx & l & ? & ? & ->)%Forall2_cons_inv_l (tx' & l' & ? & ? & ->)%Forall2_cons_inv_l.
  f_equal; [by eapply pool_tx_fun|by apply IH].
Qed.
Lemma pool_txs_shrinks n n' hs txs : shrinks n n' -> Forall2 (pool_tx n') hs txs -> Forall2 (pool_tx n) hs txs.
Proof. intros Hs Hf. eapply Forall2_impl; [exact Hf|]. intros h tx. by apply pool_tx_shrinks. Qed.


(** A transaction that loads is loaded without changing the node. *)
Lemma load_pool_tx_same n prefix hash tx n' : load_pool_tx prefix hash n = (Ok tx, n') -> n' = n.
Proof.
  unfold load_pool_tx, with_config, on, LoadFromDBPoolTx, st_bind, db_get, db_delete, st_lift.
  cbn [l_get db_l]. destruct (DB_Get _ _) as [bt|err|]; [|done..].
  destruct (length bt =? 0)%nat; [by destruct (DB_Delete _ _)|].
  destruct (Transaction_GetFromBytes _ _) as [[t rest]|err|]; [|done..]. intros [= _ <-]. by destruct n.
Qed.

(** ** Rewritten logs *)

Definition same_charges (tx tx' : Transaction) : Prop := tx_fee tx' = tx_fee tx /\ charged tx' = charged tx.

(** Every stored pool transaction is filed under its hash, and can be written
    without its logs and read back. *)
Definition consistent n : Prop := forall h tx, pool_tx n h tx ->
  tx_Hash tx = h /\ tx_ok (nd_Config n) (set_OutputLogs tx []).

(** The stored transactions of [n'] are those of [n], with other logs: none is new,
    and none is lost. *)
Definition rewrites n n' : Prop :=
  nd_Config n' = nd_Config n /\ nd_PoolTxEscrow n' = nd_PoolTxEscrow n /\
  (consistent n -> consistent n' /\
     (forall h tx', pool_tx n' h tx' -> exists tx, pool_tx n h tx /\ same_charges tx tx') /\
     (forall h tx, pool_tx n h tx -> exists tx', pool_tx n' h tx' /\ same_charges tx tx')).
#[export] Instance rewrites_preorder : PreOrder rewrites.
Proof.
  split.
  - intros n. split; [done|]. split; [done|]. intros Hc. split; [done|]. split; intros h tx Hp; by exists tx.
  - intros a b c (E1 & P1 & W1) (E2 & P2 & W2). split; [congruence|]. split; [congruence|].
    intros Hc. destruct (W1 Hc) as (Hb & R1 & F1). destruct (W2 Hb) as (Hc' & R2 & F2). split; [done|]. split.
    + intros h tx' Hp. destruct (R2 _ _ Hp) as (tx1 & Hp1 & [G1 C1]).
      destruct (R1 _ _ Hp1) as (tx & Hp0 & [G0 C0]). exists tx. split; [done|]. split; congruence.
    + intros h tx Hp. destruct (F1 _ _ Hp) as (tx1 & Hp1 & [G1 C1]).
      destruct (F2 _ _ Hp1) as (tx' & Hp' & [G0 C0]). exists tx'. split; [done|]. split; congruence.
Qed.

(** The databases agree on the entries of the pool that hold a transaction. *)
Definition pool_agrees (db db' : D) : Prop := forall h v, v <> [] ->
  DB_Get db' (pool_key h) = Ok v <-> DB_Get db (pool_key h) = Ok v.
#[export] Instance pool_agrees_preorder : PreOrder pool_agrees.
Proof. split; [by intros db h v|]. intros a b c A1 A2 h v Hv. by rewrite (A2 h v Hv), (A1 h v Hv). Qed.

Lemma agrees_put k v : (forall h, k <> pool_key h) -> within pool_agrees (db_put k v).
Proof.
  intros Hk db r db'. unfold db_put. destruct (DB_Put db k v) as [d|e|] eqn:E; intros [= _ <-]; [|done..].
  intros h w _. by rewrite (DB_Get_Put_ne _ _ _ _ _ E (Hk h)).
Qed.
(** Only an entry without bytes is deleted. *)
Lemma agrees_load ec prefix hash : within pool_agrees (LoadFromDBPoolTx (D := D) ec prefix hash).
Proof.
  intros db r db'. unfold LoadFromDBPoolTx, st_bind at 1, db_get.
  destruct (DB_Get db (prefix ++ hash)) as [bt|err|] eqn:Eg; [|by intros [= _ <-]..].
  destruct bt as [|x bt]; cbn [length Nat.eqb].
  - unfold st_bind, db_delete. destruct (DB_Delete db _) as [d|err|] eqn:E; intros [= _ <-]; [|done..].
    intros h v Hv. destruct (decide (prefix ++ hash = pool_key h)) as [Ek|Hne].
    + rewrite Ek in E, Eg. rewrite (DB_Get_Delete_eq _ _ _ E), Eg. split; [done|]. intros [= <-]. done.
    + by rewrite (DB_Get_Delete_ne _ _ _ _ E Hne).
  - unfold st_bind, st_lift. destruct (Transaction_GetFromBytes _ _) as [[t rest]|err|]; by intros [= _ <-].
Qed.

Lemma pool_agrees_pool_tx n n' h tx : nd_Config n' = nd_Config n -> pool_agrees (nd_MainDB n) (nd_MainDB n') ->
  pool_tx n' h tx <-> pool_tx n h tx.
Proof.
  intros Ec Ha. rewrite !pool_tx_stored, Ec.
  split; intros (bt & rest & Hg & Hne & Hd); exists bt, rest; (split; [by apply Ha|done]).
Qed.
Lemma pool_agrees_rewrites n n' : nd_Config n' = nd_Config n -> nd_PoolTxEscrow n' = nd_PoolTxEscrow n ->
  pool_agrees (nd_MainDB n) (nd_MainDB n') -> rewrites n n'.
Proof.
  intros Ec He Ha. split; [done|]. split; [done|]. intros Hc.
  assert (forall h tx, pool_tx n' h tx <-> pool_tx n h tx) as Hp by (intros; by apply pool_agrees_pool_tx).
  split; [intros h tx; rewrite Hp, Ec; apply Hc|]. split; intros h tx Hx; exists tx; by rewrite ?Hp in *.
Qed.

Definition same_pools n n' : Prop :=
  nd_MainDB n' = nd_MainDB n /\ nd_Config n' = nd_Config n /\ nd_PoolTxEscrow n' = nd_PoolTxEscrow n.
#[export] Instance same_pools_preorder : PreOrder same_pools.
Proof. split; [by intros n|]. intros a b c (? & ? & ?) (? & ? & ?). repeat split; congruence. Qed.
Lemma same_pools_rewrites n n' : same_pools n n' -> rewrites n n'.
Proof.
  intros (Ed & Ec & Ee). apply pool_agrees_rewrites; [done..|]. by rewrite Ed.
Qed.
Lemma same_pools_pool_tx n n' h tx : same_pools n n' -> pool_tx n h tx -> pool_tx n' h tx.
Proof. intros (Ed & Ec & _). rewrite !pool_tx_stored, Ed, Ec. done. Qed.
End PoolTx.

#[export] Hint Extern 2 (within pool_agrees (db_put _ _)) => (apply agrees_put; by intros) : within.
#[export] Hint Extern 2 (within same_pools (on accounts_l _)) =>
  (apply within_on_any; first [exact _|by intros]) : within.
#[export] Hint Extern 2 (within same_pools (on state_l _)) =>
  (apply within_on_any; first [exact _|by intros]) : within.
#[export] Hint Extern 2 (within same_pools (on_ok dex_l _)) =>
  (apply within_on_ok_any; first [exact _|by intros]) : within.

(** ** The virtual machine and the exchange touch no stored transaction *)

Section SamePools.
Context {D : Type} `{RocksDB D} `{JSON PubKey} `{JSON (list MerkleNode)} `{Hasher} `{OqsLib}.
Variable vm : VMachine.

Lemma same_pools_with_vm e bl g {A} (run : BlockContext -> ST StateAccount A) :
  within same_pools (with_vm (D := D) e bl g run).
Proof.
  intros n r n'. unfold with_vm.
  assert (within (same_pools (D := D)) (on state_l (run (block_context e bl g n)))) as Hw by auto with within.
  exact (Hw n r n').
Qed.
Hint Resolve same_pools_with_vm : within.
Lemma same_pools_view e a o bl : within same_pools (GetViewFunctionReturns (D := D) vm e a o bl).
Proof. apply same_pools_with_vm. Qed.
Hint Resolve same_pools_view : within.
Lemma same_pools_token_balance e coin owner : within same_pools (GetTokenBalance (D := D) vm e coin owner).
Proof. unfold GetTokenBalance, get_config. solve_within. Qed.
Hint Resolve same_pools_token_balance : within.
Lemma same_pools_GenerateOptDataDEX e tx op : within same_pools (GenerateOptDataDEX (D := D) vm e tx op).
Proof. unfold GenerateOptDataDEX, dex_account, token_info, sender_account. solve_within. Qed.
Lemma same_pools_register e a bl : within same_pools (register_token (D := D) vm e a bl).
Proof. unfold register_token. solve_within. Qed.
Lemma same_pools_add_balance a x : within same_pools (add_balance (D := D) a x).
Proof. unfold add_balance. solve_within. Qed.
End SamePools.

(** ** Writing the logs *)

Definition short_logs (vm : VMachine) : Prop :=
  (forall bc o c g k sa l ret a sa', vm_Create vm bc o c g k sa = (Ok (l, ret, a), sa') -> short l) /\
  (forall bc o a c g sa l ret sa', vm_Call vm bc o a c g sa = (Ok (l, ret), sa') -> short l).

Definition with_logs (tx : Transaction) (a : Address) (l : bytes) : Transaction :=
  set_OutputLogs (set_ContractAddress tx a) l.

Lemma with_logs_own tx l : set_OutputLogs tx l = with_logs tx (ContractAddress tx) l.
Proof. by destruct tx. Qed.
Lemma with_logs_bytes tx a l :
  Transaction_GetBytes (with_logs tx a l) = Transaction_GetBytes (with_logs tx (mk_Address (addr_ByteValue a) true) l).
Proof. done. Qed.
Lemma with_logs_charges tx a l : same_charges tx (with_logs tx a l).
Proof. by destruct tx. Qed.
Lemma with_logs_hash tx a l : tx_Hash (with_logs tx a l) = tx_Hash tx.
Proof. done. Qed.

Lemma with_logs_length tx v l :
  len (Transaction_GetBytes (set_OutputLogs tx [])) <= len (Transaction_GetBytes (with_logs tx (mk_Address v true) l)).
Proof.
  unfold len, Transaction_GetBytes, Tx.GetBytesWithoutSignature, with_logs, set_OutputLogs, set_ContractAddress.
  cbn [tx_Param tx_Data tx_Height GasPrice GasUsage tx_Hash tx_Signature ContractAddress OutputLogs].
  rewrite !length_app, !BytesToLenAndBytes_length, !Address_GetBytes_length. cbn [length]. lia.
Qed.

Lemma with_logs_ok `{Hasher} ec tx v l :
  tx_ok ec (set_OutputLogs tx []) -> short l -> tx_ok ec (with_logs tx (mk_Address v true) l).
Proof.
  intros [] Hs. pose proof (with_logs_length tx v l). split; try done.
  destruct xok_min; [left|right]; lia.
Qed.

Section Store.
Context {D : Type} `{RocksDBLaws D} `{JSON PubKey} `{JSON (list MerkleNode)} `{Hasher} `{OqsLib}.
Variable vm : VMachine.
Implicit Types (n : Node D).

Lemma store_pool_rewrites tx a l n r n' :
  consistent n -> pool_tx n (tx_Hash tx) tx -> short l ->
  on db_l (StoreToDBPoolTx (with_logs tx a l) TransactionPoolHashesDBPrefix) n = (r, n') -> rewrites n n'.
Proof.
  intros Hc Hp Hl. unfold on, StoreToDBPoolTx. cbn [l_get db_l].
  assert (forall o : outcome unit, (o, l_set db_l (nd_MainDB n) n) = (r, n') -> rewrites n n') as Hsame
    by (intros o [= _ <-]; by apply same_pools_rewrites).
  destruct (length _ =? 0)%nat eqn:El; [apply Hsame|]. unfold db_put.
  rewrite with_logs_bytes, with_logs_hash in *. set (tx1 := with_logs tx (mk_Address _ true) l).
  destruct (DB_Put _ _ _) as [db|err|] eqn:E; [|apply Hsame..]. intros [= _ <-].
  destruct (Hc _ _ Hp) as [_ Hbare]. pose proof Hbare as Hok. apply (with_logs_ok _ _ (addr_ByteValue a) l) in Hok; [|done].
  set (n' := l_set db_l db n).
  assert (forall h tx', pool_tx n' h tx' ->
    (h = tx_Hash tx /\ tx' = tx1) \/ (h <> tx_Hash tx /\ pool_tx n h tx')) as Hnew.
  { intros h tx' Hx. apply pool_tx_stored in Hx as (bt & rest & Hg & Hne & Hd).
    destruct (decide (h = tx_Hash tx)) as [->|Hdiff].
    - left. split; [done|]. cbn [nd_MainDB n' l_set db_l] in Hg. unfold pool_key in Hg.
      rewrite (DB_Get_Put_eq _ _ _ _ E) in Hg. injection Hg as <-.
      cbn [nd_Config n' l_set db_l] in Hd. unfold tx1 in *.
      rewrite Transaction_roundtrip in Hd by done. by injection Hd.
    - right. split; [done|]. apply pool_tx_stored. exists bt, rest. split; [|done].
      cbn [nd_MainDB n' l_set db_l] in Hg. unfold pool_key in Hg |- *.
      rewrite (DB_Get_Put_ne _ _ _ _ _ E) in Hg; [done|].
      intros Heq. apply app_inv_head in Heq. apply Hdiff. symmetry. by apply arr_eq. }
  split; [done|]. split; [done|]. intros _. split; [|split].
  - intros h tx' Hx. destruct (Hnew _ _ Hx) as [[-> ->]|[_ Hx']]; [|exact (Hc _ _ Hx')].
    split; [done|]. exact (with_logs_ok (nd_Config n) tx (addr_ByteValue a) [] Hbare eq_refl).
  - intros h tx' Hx. destruct (Hnew _ _ Hx) as [[-> ->]|[_ Hx']].
    + exists tx. split; [done|]. apply with_logs_charges.
    + by exists tx'.
  - intros h tx' Hx. destruct (decide (h = tx_Hash tx)) as [-> | Hdiff].
    + assert (tx' = tx) as -> by (by eapply pool_tx_fun). exists tx1. split; [|apply with_logs_charges].
      apply pool_tx_stored. exists (Transaction_GetBytes tx1), []. cbn [nd_MainDB nd_Config n' l_set db_l].
      split; [exact (DB_Get_Put_eq _ _ _ _ E)|]. split; [|by apply Transaction_roundtrip].
      intros En. fold tx1 in El. by rewrite En in El.
    + exists tx'. split; [|done]. revert Hx. rewrite !pool_tx_stored. intros (bt & rest & Hg & ?). exists bt, rest.
      split; [|done]. cbn [nd_MainDB n' l_set db_l]. rewrite (DB_Get_Put_ne _ _ _ _ _ E); [exact Hg|].
      unfold pool_key. intros Heq. apply app_inv_head in Heq. apply Hdiff. symmetry. by apply arr_eq.
Qed.

(** Logs written outside the pool leave it alone. *)
Lemma store_chain_rewrites tx n r n' :
  on db_l (StoreToDBPoolTx tx TransactionDBPrefix) n = (r, n') -> rewrites n n'.
Proof.
  assert (within pool_agrees (StoreToDBPoolTx (D := D) tx TransactionDBPrefix)) as Hw
    by (unfold StoreToDBPoolTx; solve_within).
  unfold on. cbn [l_get db_l]. destruct (StoreToDBPoolTx _ _ (nd_MainDB n)) as [o db] eqn:E. intros [= _ <-].
  apply pool_agrees_rewrites; [done..|]. exact (Hw _ _ _ E).
Qed.
End Store.

(** ** The contracts of a block *)

Section Contracts.
Context {D : Type} `{RocksDBLaws D} `{JSON PubKey} `{JSON (list MerkleNode)} `{Hasher} `{OqsLib}.
Variable vm : VMachine.
Hypothesis Hvm : short_logs vm.
Implicit Types (n : Node D).

Lemma within_db_rewrites {A} (m : ST D A) : within pool_agrees m -> within rewrites (on db_l m).
Proof.
  intros Hm n r n' E. unfold on in E. cbn [l_get db_l] in E. destruct (m (nd_MainDB n)) as [o db] eqn:E1.
  injection E as _ <-. apply pool_agrees_rewrites; [done..|]. exact (Hm _ _ _ E1).
Qed.
Lemma load_pool_tx_rewrites prefix hash n r n' : load_pool_tx prefix hash n = (r, n') -> rewrites n n'.
Proof. intros E. exact (within_db_rewrites _ (agrees_load _ _ _) n r n' E). Qed.

(** Where the evaluation found a transaction. *)
Definition found_at (p : bytes) tx n : Prop :=
  (p = TransactionPoolHashesDBPrefix /\ pool_tx n (tx_Hash tx) tx) \/ p = TransactionDBPrefix.
Lemma found_at_same p tx n n' : same_pools n n' -> found_at p tx n -> found_at p tx n'.
Proof. intros Hs [[-> Hp]|Hp]; [left; split; [done|by eapply same_pools_pool_tx]|by right]. Qed.

Lemma load_any_ok h n tx p n' : consistent n -> load_any (Hash_GetBytes h) n = (Ok (tx, p), n') ->
  rewrites n n' /\ found_at p tx n'.
Proof.
  intros Hc E. unfold load_any in E. apply st_bind_ok_inv in E as (found & n1 & E1 & E).
  unfold st_try in E1. destruct (load_pool_tx _ _ n) as [[t|err|] n2] eqn:E2; [| |done]; injection E1 as <- <-.
  - injection E as <- <- <-. pose proof (load_pool_tx_same _ _ _ _ _ E2) as ->. split; [reflexivity|].
    assert (pool_tx n h t) as Hp by (unfold pool_tx; by rewrite E2).
    left. split; [done|]. by destruct (Hc _ _ Hp) as [-> _].
  - apply st_bind_ok_inv in E as (t & n3 & E3 & E). injection E as <- <- <-. split; [|by right].
    transitivity n2; by eapply load_pool_tx_rewrites.
Qed.

Lemma store_rewrites p tx a l n r n' : consistent n -> found_at p tx n -> short l ->
  on db_l (StoreToDBPoolTx (with_logs tx a l) p) n = (r, n') -> rewrites n n'.
Proof.
  intros Hc [[-> Hp]| ->] Hl E; [by eapply store_pool_rewrites|by eapply store_chain_rewrites].
Qed.

(** Everything before the logs are written leaves the pools alone, everything
    after it does too. *)
Lemma step_rewrites {A} (k : ST (Node D) A) p tx a l n n1 n2 n3 x r :
  consistent n -> found_at p tx n -> short l -> same_pools n n1 ->
  on db_l (StoreToDBPoolTx (with_logs tx a l) p) n1 = (x, n2) -> within same_pools k ->
  k n2 = (r, n3) -> rewrites n n3.
Proof.
  intros Hc Hf Hl S1 E1 Hk E2. pose proof (same_pools_rewrites _ _ S1) as R1.
  transitivity n1; [done|]. transitivity n2.
  - eapply store_rewrites; [|by eapply found_at_same|done|exact E1]. by apply R1.
  - apply same_pools_rewrites. exact (Hk _ _ _ E2).
Qed.

Lemma dex_order_rewrites e tx bl p op n n' : consistent n -> found_at p tx n ->
  dex_order_step vm e tx bl p op n = (Ok tt, n') -> rewrites n n'.
Proof.
  intros Hc Hf E. unfold dex_order_step in E.
  apply st_bind_ok_inv in E as (deal & n1 & E1 & E). apply same_pools_GenerateOptDataDEX in E1.
  apply st_bind_ok_inv in E as ([l ret] & n2 & E2 & E).
  assert (short l) as Hl.
  { unfold EvaluateSCDex, with_vm, on in E2. destruct (vm_Call _ _ _ _ _ _ _) as [o sa] eqn:Ev.
    injection E2 as -> _. exact (proj2 Hvm _ _ _ _ _ _ _ _ _ Ev). }
  unfold EvaluateSCDex in E2. apply same_pools_with_vm in E2. apply st_bind_ok_inv in E as ([] & n3 & E3 & E).
  rewrite with_logs_own in E3.
  eapply (step_rewrites _ p tx (ContractAddress tx) l n n2 n3 n'); [done..| |exact E3| |exact E];
    [by transitivity n1|].
  unfold token_info, dex_account, add_balance. solve_within.
Qed.

Lemma contract_step_rewrites e tx bl p r n r' n' : consistent n -> found_at p tx n ->
  OptData (tx_Data tx) <> [] ->
  contract_step vm e tx bl p r n = (Ok r', n') -> rewrites n n'.
Proof.
  intros Hc Hf Hne E. unfold contract_step in E.
  apply st_bind_ok_inv in E as ([[l ret] a] & n1 & E1 & E).
  assert (short l) as Hl.
  { unfold EvaluateSC in E1. destruct (length _ =? 0)%nat eqn:El; [zify_bool; by apply length_zero_iff_nil in El|].
    unfold with_vm, on in E1. case_bool_decide.
    - destruct (vm_Create _ _ _ _ _ _ _) as [o sa] eqn:Ev. injection E1 as -> _. exact (proj1 Hvm _ _ _ _ _ _ _ _ _ _ Ev).
    - unfold st_bind in E1. destruct (vm_Call _ _ _ _ _ _ _) as [[[l' ret']|err|] sa] eqn:Ev; [|done..].
      injection E1 as -> _ _ _. exact (proj2 Hvm _ _ _ _ _ _ _ _ _ Ev). }
  assert (same_pools n n1) as S1.
  { unfold EvaluateSC in E1. destruct (length _ =? 0)%nat; [by injection E1 as _ _ _ <-|].
    by apply same_pools_with_vm in E1. }
  apply st_bind_ok_inv in E as ([] & n2 & E2 & E).
  assert (same_pools n1 n2) as S2.
  { destruct (_ && _); [by apply same_pools_register in E2|by injection E2 as <-]. }
  apply st_bind_ok_inv in E as ([] & n3 & E3 & E).
  eapply (step_rewrites _ p tx a l n n2 n3 n'); [done..| |exact E3| |exact E]; [by transitivity n1|].
  auto with within.
Qed.

Lemma eval_tx_rewrites e bl r th n r' n' : consistent n ->
  eval_tx vm e bl r th n = (Ok r', n') -> rewrites n n'.
Proof.
  intros Hc E. unfold eval_tx in E.
  apply st_bind_ok_inv in E as ([tx p] & n1 & E1 & E). apply load_any_ok in E1 as [R1 Hf]; [|done].
  assert (consistent n1) as Hc1 by by apply R1.
  apply st_bind_ok_inv in E as (acc & n2 & E2 & E). unfold sender_account in E2. injection E2 as _ <-.
  transitivity n1; [done|].
  destruct (_ && _); [by injection E as _ <-|]. destruct (0 <? _); [by injection E as _ <-|].
  destruct (IntDelegatedAccountFromAddress _) as [k|err|]; [| |done].
  - destruct (512 <? k); [|by injection E as _ <-]. apply st_bind_ok_inv in E as ([] & n3 & E3 & E).
    injection E as _ <-. by eapply dex_order_rewrites.
  - destruct (length _ =? 0)%nat eqn:El; [by injection E as _ <-|].
    eapply contract_step_rewrites; [done|done| |exact E]. intros Hn. by rewrite Hn in El.
Qed.
Lemma eval_txs_rewrites e bl txs : forall r n r' n', consistent n ->
  eval_txs vm e bl r txs n = (Ok r', n') -> rewrites n n'.
Proof.
  induction txs as [|th txs IH]; intros r n r' n' Hc; cbn [eval_txs]; [by intros [= _ <-]|].
  intros E. apply st_bind_ok_inv in E as (r1 & n1 & E1 & E). apply eval_tx_rewrites in E1; [|done].
  transitivity n1; [done|]. apply IH in E; [done|]. by apply E1.
Qed.
End Contracts.

(** ** Solvency *)

(** Well-formed accounts with balances in range, without a bound on their sum. *)
Definition in_range (at_ : AccountsType) : Prop :=
  accounts_wf at_ /\ map_Forall (fun _ acc => 0 <= Balance acc < 2 ^ 63) (AllAccounts at_).

Lemma solvent_in_range at_ : solvent at_ -> in_range at_.
Proof.
  intros [Hw Hn Hb]. split; [done|]. intros a acc E. pose proof (coins_ge at_ a Hn) as Hc.
  unfold lookup_account in Hc. rewrite E in Hc. cbn in Hc. lia.
Qed.
Lemma in_range_solvent at_ : in_range at_ -> coins at_ < 2 ^ 63 -> solvent at_.
Proof. intros [Hw Hr] Hc. split; [done| |done]. eapply map_Forall_impl; [exact Hr|]. cbn. lia. Qed.

Lemma in_range_store at_ a acc :
  in_range at_ -> acc_Address acc = a -> 0 <= Balance acc < 2 ^ 63 -> in_range (store_account at_ a acc).
Proof. intros [Hw Hr] Ha Hb. split; [by apply store_account_wf|]. unfold store_account; cbn. by apply map_Forall_insert_2. Qed.

(** The sum does not wrap when [AddBalance] succeeds. *)
Lemma no_wrap b x : 0 <= b < 2 ^ 63 -> in64 x -> 0 <= b +! x -> b +! x = b + x /\ 0 <= b + x < 2 ^ 63.
Proof.
  unfold in64. intros Hb Hx H0. pose proof (i64_in64 (b + x)) as Hin. unfold in64, add64 in *.
  destruct (i64_repr (b + x)) as [k Hk]. rewrite Hk in *. assert (k = 0) as -> by nia. lia.
Qed.

Lemma AddBalance_success a x at_ at' : in_range at_ -> in64 x -> AddBalance a x at_ = (Ok tt, at') ->
  in_range at' /\ coins at' = coins at_ + x.
Proof.
  intros Hr Hx. unfold AddBalance, SetBalance. destruct (AllAccounts at_ !! a) as [acc|] eqn:Ea.
  - destruct (_ <? 0) eqn:E0; [done|]. zify_bool. intros [= <-].
    destruct (proj2 Hr a acc Ea) as [Hb0 Hb1].
    destruct (no_wrap (Balance acc) x ltac:(lia) Hx E0) as [-> Hb].
    assert (lookup_account at_ a = acc) as -> by (unfold lookup_account; by rewrite Ea). split.
    + apply in_range_store; [done| |done]. exact (proj1 Hr a acc Ea).
    + rewrite coins_store. unfold lookup_account. rewrite Ea. cbn. lia.
  - set (z := mk_Account 0 a 0 (byte_of_Z 0) []). set (at1 := store_account at_ a z).
    destruct (_ <? 0) eqn:E0; [done|]. zify_bool. intros [= <-].
    destruct (no_wrap 0 x ltac:(lia) Hx E0) as [-> Hb].
    assert (in_range at1) as Hr1 by (apply in_range_store; [done|done|cbn; lia]).
    assert (lookup_account at1 a = z) as Hl by (unfold lookup_account, at1; cbn; by rewrite lookup_insert_eq).
    assert (coins at1 = coins at_) as Hc1.
    { unfold at1. rewrite coins_store. unfold lookup_account. rewrite Ea. cbn. lia. }
    rewrite Hl. split; [by apply in_range_store|]. rewrite coins_store, Hl, Hc1. cbn. lia.
Qed.

(** Programs that keep the accounts solvent, and their coins, when they succeed. *)
Definition sound_books {D A} (m : ST (Node D) A) : Prop := forall n a n',
  solvent (nd_Accounts n) -> m n = (Ok a, n') ->
  solvent (nd_Accounts n') /\ coins (nd_Accounts n') = coins (nd_Accounts n).

Lemma sound_bind {D A B} (m : ST (Node D) A) (k : A -> ST (Node D) B) :
  sound_books m -> (forall a, sound_books (k a)) -> sound_books (st_bind m k).
Proof.
  intros Hm Hk n b n' Hs E. apply st_bind_ok_inv in E as (a & n1 & E1 & E2).
  destruct (Hm _ _ _ Hs E1) as [Hs1 <-]. exact (Hk _ _ _ _ Hs1 E2).
Qed.
Lemma sound_ret {D A} (a : A) : sound_books (D := D) (st_ret a).
Proof. by intros n x n' Hs [= _ <-]. Qed.
Lemma sound_keeps {D A} (m : ST (Node D) A) : within keeps m -> sound_books m.
Proof.
  intros Hk n a n' Hs E. destruct (Hk _ _ _ E (sv_wf _ Hs)) as (Hw & _ & Hb & _ & Hc).
  split; [|done]. split; [done| |rewrite Hc; exact (sv_bound _ Hs)].
  intros x acc Ex. pose proof (coins_ge _ x (sv_nonneg _ Hs)) as [H0 _].
  specialize (Hb x). unfold GetBalance in Hb. rewrite <- Hb in H0. unfold lookup_account in H0.
  by rewrite Ex in H0.
Qed.

Section SoundContracts.
Context {D : Type} `{RocksDBLaws D} `{JSON PubKey} `{JSON (list MerkleNode)} `{Hasher} `{OqsLib}.
Variable vm : VMachine.
Implicit Types (n : Node D).

Lemma dex_amounts_in64 op c t ti acc coins tokens price :
  dex_amounts op c t ti acc = Ok (coins, tokens, price) -> in64 coins.
Proof.
  assert (in64 0) by (unfold in64; lia). unfold dex_amounts.
  repeat (case_match; try done); intros [= <- _ _]; done || apply f64_to_int64_in64.
Qed.
Lemma deal_in64 e tx op n deal n' : GenerateOptDataDEX vm e tx op n = (Ok deal, n') -> in64 (dd_coins deal).
Proof.
  unfold GenerateOptDataDEX. intros E. apply st_bind_ok_inv in E as (amt & ? & _ & E).
  destruct (dex_refused _ _ _); [done|].
  do 3 (apply st_bind_ok_inv in E as (? & ? & _ & E)).
  apply st_bind_ok_inv in E as ([[coins tokens] price] & ? & Ea & E). injection Ea as Ea _.
  apply dex_amounts_in64 in Ea.
  apply st_bind_ok_inv in E as (? & ? & _ & E). destruct (negb _); [done|].
  apply st_bind_ok_inv in E as (? & ? & _ & E). destruct (_ <? 0); [done|].
  apply st_bind_ok_inv in E as (? & ? & _ & E). do 3 (destruct (_ <? 0); [done|]).
  do 2 (destruct (_ && _); [done|]). destruct (transfer_call _ _ _). by injection E as <- _.
Qed.

(** What the sender gets, the exchange gives. *)
Lemma add_twice (a b : addr20) x n n1 n' : in64 x -> solvent (nd_Accounts n) ->
  add_balance a x n = (Ok tt, n1) -> add_balance b (0 -! x) n1 = (Ok tt, n') ->
  solvent (nd_Accounts n') /\ coins (nd_Accounts n') = coins (nd_Accounts n).
Proof.
  intros Hx Hs E1 E2. unfold add_balance, on in *. cbn [l_get accounts_l] in *.
  destruct (AddBalance a x (nd_Accounts n)) as [r1 at1] eqn:A1. injection E1 as -> <-.
  cbn [nd_Accounts l_set accounts_l] in E2.
  destruct (AddBalance b (0 -! x) at1) as [r2 at2] eqn:A2. injection E2 as -> <-.
  cbn [nd_Accounts l_set accounts_l].
  destruct (AddBalance_success _ _ _ _ (solvent_in_range _ Hs) Hx A1) as [Hr1 Hc1].
  destruct (AddBalance_success _ _ _ _ Hr1 ltac:(apply sub64_in64) A2) as [Hr2 Hc2].
  assert (0 <= coins at2) as Hpos.
  { refine (Z.le_trans _ _ _ _ (proj2 (coins_ge at2 (arr_zero _) _))); [apply (coins_ge at2 (arr_zero _))|];
      (eapply map_Forall_impl; [exact (proj2 Hr2)|cbn; lia]). }
  pose proof (sv_bound _ Hs) as Hb. unfold in64 in Hx.
  assert (0 -! x = - x) as Hneg.
  { unfold sub64. destruct (decide (x = - 2 ^ 63)) as [->|Hne]; [|apply i64_id; unfold in64; lia].
    exfalso. change (0 -! - 2 ^ 63) with (- 2 ^ 63) in Hc2. lia. }
  assert (coins at2 = coins (nd_Accounts n)) as Hc by lia.
  split; [|done]. apply in_range_solvent; [done|by rewrite Hc].
Qed.

Lemma sound_dex_order e tx bl p op : sound_books (D := D) (dex_order_step vm e tx bl p op).
Proof.
  intros n [] n' Hs E. unfold dex_order_step in E.
  apply st_bind_ok_inv in E as (deal & n1 & E1 & E). pose proof (deal_in64 _ _ _ _ _ _ E1) as Hd.
  apply (sound_keeps _ (keeps_GenerateOptDataDEX vm e tx op)) in E1 as [Hs1 <-]; [|done].
  apply st_bind_ok_inv in E as ([l ret] & n2 & E2 & E).
  unfold EvaluateSCDex in E2. apply (sound_keeps _ (keeps_with_vm e bl _ _)) in E2 as [Hs2 <-]; [|done].
  apply st_bind_ok_inv in E as ([] & n3 & E3 & E).
  assert (within (keeps (D := D)) (on db_l (StoreToDBPoolTx (set_OutputLogs tx l) p))) as Hk by auto with within.
  apply (sound_keeps _ Hk) in E3 as [Hs3 <-]; [|done].
  apply st_bind_ok_inv in E as ([] & n4 & E4 & E). apply st_bind_ok_inv in E as ([] & n5 & E5 & E).
  destruct (add_twice _ _ _ _ _ _ Hd Hs3 E4 E5) as [Hs5 <-].
  assert (within same_ledger (do! ti <- token_info (D := D) (ContractAddress tx);
    do! accDex <- dex_account (ContractAddress tx);
    on_ok dex_l (fun m => SetDexAccountByAddressBytes m (Address_GetBytes (ContractAddress tx))
      (dex_after op deal ti (arr_of AddressLength (Address_GetBytes (Sender (tx_Param tx)))) accDex)))) as Hf
    by (unfold token_info, dex_account; solve_within).
  destruct (Hf _ _ _ E) as [-> _]. done.
Qed.

Lemma sound_eval_tx e bl r th : sound_books (D := D) (eval_tx vm e bl r th).
Proof.
  unfold eval_tx, sender_account. apply sound_bind; [apply sound_keeps, keeps_load_any|]. intros [tx p].
  apply sound_bind; [apply sound_keeps; solve_within|]. intros acc.
  destruct (_ && _); [apply sound_ret|]. destruct (0 <? _); [apply sound_ret|].
  destruct (IntDelegatedAccountFromAddress _) as [k|err|]; [| |by intros n a n' _ [=]].
  - destruct (512 <? k); [|apply sound_ret].
    apply sound_bind; [apply sound_dex_order|intros _; apply sound_ret].
  - destruct (Nat.eqb _ _); [apply sound_ret|]. apply sound_keeps, keeps_contract_step.
Qed.
Lemma sound_eval_txs e bl txs : forall r, sound_books (D := D) (eval_txs vm e bl r txs).
Proof.
  induction txs as [|th txs IH]; intros r; cbn [eval_txs]; [apply sound_ret|].
  apply sound_bind; [apply sound_eval_tx|]. intros r'. apply IH.
Qed.

(** ** The evaluation settles *)

(** The state [n'] after the evaluation, for a block that is checked in [n]. *)
Record settled n n' : Prop := {
  st_rewrites : rewrites n n';
  st_solvent : solvent (nd_Accounts n');
  st_total : total n' = total n
}.

(** The bookkeeping after the contracts ran. *)
Definition record_results bl r : ST (Node D) bool :=
  run! on state_l (st_modify (fun sa => SetSnapShotNum sa (bh_Height (bl_Header bl)) (Snapshot sa)));
  do! stored <- st_try (store_results r (map_to_list (sr_addresses r)));
  st_ret (match stored with Some _ => true | None => false end).

Lemma within_results_db (r : sc_results) l : within rewrites (store_results (D := D) r l).
Proof.
  induction l as [|[th a] l IH]; cbn [store_results]; [apply within_ret; exact _|].
  apply within_bind; [exact _|apply within_db_rewrites; auto with within|intros _].
  apply within_bind; [exact _|apply within_db_rewrites; auto with within|intros _]. exact IH.
Qed.

Lemma within_record_rewrites bl r : within rewrites (record_results bl r).
Proof.
  pose proof (within_results_db r (map_to_list (sr_addresses r))) as Hr.
  assert (forall m : StateAccount -> StateAccount, within (rewrites (D := D)) (on state_l (st_modify m))) as Hst.
  { intros m n x n' [= _ <-]. apply same_pools_rewrites. done. }
  unfold record_results. solve_within.
Qed.
Lemma within_record_keeps bl r : within keeps (record_results bl r).
Proof. pose proof (keeps_store_results (D := D) r). unfold record_results. solve_within. Qed.
End SoundContracts.

(** ** What is out of reach of the evaluation

    Contracts and orders change the accounts, the exchange, the tokens and the
    database, and nothing else of the node, whatever the outcome. *)

Definition spares {D} (n n' : Node D) : Prop :=
  nd_StakingAccounts n' = nd_StakingAccounts n /\
  (nd_PoolsTx n' = nd_PoolsTx n /\ nd_PoolTxEscrow n' = nd_PoolTxEscrow n /\
   nd_PoolTxMultiSign n' = nd_PoolTxMultiSign n) /\
  (nd_VotesEncryption1 n' = nd_VotesEncryption1 n /\ nd_VotesEncryption2 n' = nd_VotesEncryption2 n /\
   nd_AfterReset n' = nd_AfterReset n) /\
  nd_Config n' = nd_Config n /\ nd_Height n' = nd_Height n.
#[export] Instance spares_preorder {D} : PreOrder (spares (D := D)).
Proof. split; [by intros n|]. intros a b c. unfold spares. intuition congruence. Qed.
Lemma spares_with_config {D A} (m : EncryptionConfig -> ST D A) : within spares (with_config m).
Proof. by apply (within_with_config _ (fun _ _ => True)). Qed.
#[export] Hint Resolve spares_with_config : within.
#[export] Hint Extern 2 (within spares (on _ _)) => (apply within_on_any; first [exact _|by intros]) : within.
#[export] Hint Extern 2 (within spares (on_ok _ _)) => (apply within_on_ok_any; first [exact _|by intros]) : within.

Section Spared.
Context {D : Type} `{RocksDB D} `{JSON PubKey} `{JSON (list MerkleNode)} `{Hasher} `{OqsLib}.
Variable vm : VMachine.

Lemma spares_with_vm e bl g {A} (run : BlockContext -> ST StateAccount A) :
  within spares (with_vm (D := D) e bl g run).
Proof. intros n r n'. unfold with_vm. apply (within_on_any spares state_l). by intros. Qed.
Hint Resolve spares_with_vm : within.
Lemma spares_view e a o bl : within spares (GetViewFunctionReturns (D := D) vm e a o bl).
Proof. apply spares_with_vm. Qed.
Hint Resolve spares_view : within.
Lemma spares_token_balance e coin owner : within spares (GetTokenBalance (D := D) vm e coin owner).
Proof. unfold GetTokenBalance, get_config. solve_within. Qed.
Hint Resolve spares_token_balance : within.
Lemma spares_dex_order e tx bl p op : within spares (dex_order_step (D := D) vm e tx bl p op).
Proof.
  unfold dex_order_step, GenerateOptDataDEX, EvaluateSCDex, dex_account, token_info, sender_account, add_balance.
  solve_within.
Qed.
Lemma spares_contract e tx bl p r : within spares (contract_step (D := D) vm e tx bl p r).
Proof. unfold contract_step, EvaluateSC, register_token. solve_within. Qed.
Hint Resolve spares_dex_order spares_contract : within.
Lemma spares_eval_txs e bl txs : forall r, within spares (eval_txs (D := D) vm e bl r txs).
Proof.
  induction txs as [|th txs IH]; intros r; cbn [eval_txs]; unfold eval_tx, load_any, load_pool_tx, sender_account;
    solve_within.
Qed.
Lemma spares_store_results r l : within spares (store_results (D := D) r l).
Proof. induction l as [|[th a] l IH]; cbn; solve_within. Qed.
Hint Resolve spares_eval_txs spares_store_results : within.
Lemma spares_contracts e bl : within spares (EvaluateSmartContracts (D := D) vm e bl).
Proof. unfold EvaluateSmartContracts, EvaluateSCForBlock. solve_within. Qed.
End Spared.

Lemma contracts_settled {D} `{RocksDBLaws D} `{JSON PubKey} `{JSON (list MerkleNode)} `{Hasher} `{OqsLib}
    vm e bl (n n' : Node D) :
  short_logs vm -> consistent n -> solvent (nd_Accounts n) ->
  EvaluateSmartContracts vm e bl n = (Ok true, n') -> settled n n'.
Proof.
  intros Hvm Hc Hs E. pose proof (EvaluateSmartContracts_total _ _ _ _ _ (sv_wf _ Hs) E) as [_ Ht].
  apply st_bind_ok_inv in E as (r & n1 & E1 & E). destruct r as [r|]; [|done].
  unfold EvaluateSCForBlock, st_try in E1.
  destruct (eval_txs _ _ _ _ _ n) as [[x|err|] n2] eqn:E2; [|done..]. injection E1 as -> <-.
  destruct (sound_eval_txs vm e bl _ _ _ _ _ Hs E2) as [Hs2 _].
  apply (eval_txs_rewrites vm Hvm) in E2; [|done]. fold (record_results bl r) in E. split.
  - transitivity n2; [done|]. exact (within_record_rewrites bl r _ _ _ E).
  - exact (proj1 (sound_keeps _ (within_record_keeps bl r) _ _ _ Hs2 E)).
  - done.
Qed.
