(* ===== verification/Kept.v ===== *)
(** * What a refused block leaves in the database

    A block that fails may have changed transactions, public keys, the tree of its
    height and the tables in memory.  The relation [untouched] says what no step of
    its execution changes: the keys a reset reads, the height, the shape of the
    staking tables and the invariant of the virtual machine. *)
From S2P Require Import Prelude GoInt GoSlice Sums Common Keys Database Codec Float64 Json Accounts.
From S2P Require Import Staking StakingCodec Dex EncScheme Merkle PubKeys Tx Heap Pool StateDB Node Ledger.
From S2P Require Import Block Voting BlockProcess Evaluate.

(** The keys of the chain: tables, blocks, and the trees of other heights. *)
Definition chain_prefix (p : bytes) : bool :=
  existsb (bytes_eqb p)
    [AccountsDBPrefix; StakingAccountsDBPrefix; DexAccountsDBPrefix; BlocksDBPrefix; BlockByHeightDBPrefix].
Definition chain_key (hb : Z) (k : bytes) : Prop :=
  chain_prefix (take 2 k) = true \/ take 2 k = RootHashMerkleTreeDBPrefix /\ k <> root_key hb.

(** Where transactions are stored. *)
Definition tx_prefix (p : bytes) : Prop := p = TransactionPoolHashesDBPrefix \/ p = TransactionDBPrefix.

Lemma foreign_tx hb p h : tx_prefix p -> ~ chain_key hb (p ++ h).
Proof. by intros [-> | ->] [|[]]. Qed.
Lemma foreign_root hb : ~ chain_key hb (root_key hb).
Proof. by intros [|[]]. Qed.
Lemma tx_prefix_pool : tx_prefix TransactionPoolHashesDBPrefix.
Proof. by left. Qed.
Lemma tx_prefix_chain : tx_prefix TransactionDBPrefix.
Proof. by right. Qed.
#[export] Hint Resolve foreign_tx foreign_root tx_prefix_pool tx_prefix_chain : within.

Section Db.
Context {D : Type} `{RocksDBLaws D}.

Definition kept (hb : Z) (db db' : D) : Prop := forall k, chain_key hb k -> rdb_get db' k = rdb_get db k.
#[export] Instance kept_preorder hb : PreOrder (kept hb).
Proof. split; [by intros db k|]. intros a b c K1 K2 k Hk. rewrite K2 by done. by apply K1. Qed.

Lemma kept_put hb k v : ~ chain_key hb k -> within (kept hb) (db_put (D := D) k v).
Proof.
  intros Hk db r db'. unfold db_put. destruct (DB_Put db k v) as [d|e|] eqn:E; intros [= _ <-]; [|done..].
  intros k' Hk'. unfold DB_Put in E. destruct k as [|c k]; [done|].
  destruct (rdb_put db (c :: k) v) as [d'|e|] eqn:E'; [|done..].
  injection E as ->. apply (rdb_get_put_ne _ _ _ _ _ E'). by intros <-.
Qed.
Lemma kept_delete hb k : ~ chain_key hb k -> within (kept hb) (db_delete (D := D) k).
Proof.
  intros Hk db r db'. unfold db_delete. destruct (DB_Delete db k) as [d|e|] eqn:E; intros [= _ <-]; [|done..].
  intros k' Hk'. unfold DB_Delete in E. destruct k as [|c k]; [done|].
  apply (rdb_get_delete_ne _ _ _ _ E). by intros <-.
Qed.
Lemma kept_get hb k : within (kept hb) (db_get (D := D) k).
Proof. by intros db r db' [= _ <-]. Qed.
End Db.
#[export] Hint Resolve kept_get : within.
#[export] Hint Extern 2 (within (kept _) (db_put _ _)) =>
  (apply kept_put; first [solve [eauto with within]|by intros [|[]]]) : within.
#[export] Hint Extern 2 (within (kept _) (db_delete _)) =>
  (apply kept_delete; first [solve [eauto with within]|by intros [|[]]]) : within.

Section DbPrograms.
Context {D : Type} `{RocksDBLaws D} `{JSON PubKey} `{JSON (list MerkleNode)} `{Hasher}.

Lemma kept_load ec p h hb : tx_prefix p -> within (kept hb) (LoadFromDBPoolTx (D := D) ec p h).
Proof. intros Hp. unfold LoadFromDBPoolTx. solve_within. Qed.
Lemma kept_remove_tx p h hb : tx_prefix p -> within (kept hb) (RemoveTransactionFromDBbyHash (D := D) p h).
Proof. intros Hp. unfold RemoveTransactionFromDBbyHash. solve_within. Qed.
Lemma kept_remove_stored tx p hb : tx_prefix p -> within (kept hb) (RemoveFromDBPoolTx (D := D) tx p).
Proof. intros Hp. unfold RemoveFromDBPoolTx. solve_within. Qed.
Lemma kept_store tx p hb : tx_prefix p -> within (kept hb) (StoreToDBPoolTx (D := D) tx p).
Proof. intros Hp. unfold StoreToDBPoolTx. solve_within. Qed.
Lemma kept_RemoveMerkleTrie hb : within (kept hb) (RemoveMerkleTrieFromDB (D := D) hb).
Proof. unfold RemoveMerkleTrieFromDB. solve_within. Qed.
Lemma kept_StoreTree root hashes hb : within (kept hb) (StoreTree (D := D) root hashes hb).
Proof. unfold StoreTree. solve_within. Qed.
Lemma kept_store_merkle trie hb : within (kept hb) (store_merkle (D := D) trie hb).
Proof. destruct trie; cbn [store_merkle]; [apply kept_StoreTree|solve_within]. Qed.
Lemma kept_StorePubKey pk hb : within (kept hb) (StorePubKey (D := D) pk).
Proof. unfold StorePubKey. solve_within. Qed.
Lemma kept_checked_tree as_ main msg hb : within (kept hb) (store_checked_tree (D := D) as_ main msg).
Proof. unfold store_checked_tree, StoreAddressTree. solve_within. Qed.
Lemma kept_load_or_empty main hb : within (kept hb) (load_or_empty (D := D) main).
Proof.
  intros db r db'. unfold load_or_empty. destruct (LoadAddresses db main); [by intros [= _ <-]| |by intros [= _ <-]].
  by destruct (String.eqb _ _); intros [= _ <-].
Qed.
Lemma kept_FirstPubKey pk hb : within (kept hb) (CreateAddressFromFirstPubKey (D := D) pk).
Proof.
  pose proof kept_checked_tree. pose proof kept_load_or_empty. unfold CreateAddressFromFirstPubKey. solve_within.
Qed.
Lemma kept_StoreTrie pk hb : within (kept hb) (StorePubKeyInPatriciaTrie (D := D) pk).
Proof.
  pose proof kept_checked_tree. pose proof kept_load_or_empty. pose proof kept_FirstPubKey.
  unfold StorePubKeyInPatriciaTrie. solve_within.
Qed.
End DbPrograms.
#[export] Hint Resolve kept_load kept_remove_tx kept_remove_stored kept_store kept_RemoveMerkleTrie kept_StoreTree kept_store_merkle
  kept_StorePubKey kept_StoreTrie : within.

(** ** The node *)

Section Relation.
Context {D : Type} `{RocksDB D}.

Definition untouched (hb : Z) (n n' : Node D) : Prop :=
  (nd_Height n' = nd_Height n /\ nd_Config n' = nd_Config n) /\ kept hb (nd_MainDB n) (nd_MainDB n') /\
  length (nd_StakingAccounts n') = length (nd_StakingAccounts n) /\ (vm_inv (nd_State n) -> vm_inv (nd_State n')).
#[export] Instance untouched_preorder hb : PreOrder (untouched hb).
Proof.
  split; [by intros n|]. intros a b c (H1' & K1 & L1 & V1) (H2' & K2 & L2 & V2).
  split; [intuition congruence|]. split; [by transitivity (nd_MainDB b)|]. split; [congruence|auto].
Qed.
End Relation.

#[export] Hint Extern 2 (within (untouched _) (on db_l _)) =>
  (eapply within_on; [eauto with within|by intros]) : within.
#[export] Hint Extern 3 (within (untouched _) (on _ _)) => (apply within_on_any; by intros) : within.
#[export] Hint Extern 3 (within (untouched _) (on_ok _ _)) => (apply within_on_ok_any; first [exact _|by intros]) : within.
#[export] Hint Extern 2 (within (untouched _) (with_config _)) =>
  (eapply within_with_config; [exact _|intros; eauto with within|by intros]) : within.

(** ** Errors *)

(** When [m] returns an error, the states before and after are related by [R]. *)
Definition errs_within {S A} (R : relation S) (m : ST S A) : Prop := forall s e s', m s = (Err e, s') -> R s s'.

Section Errs.
Context {S : Type} (R : relation S) `{!PreOrder R}.

Lemma errs_of_within {A} (m : ST S A) : within R m -> errs_within R m.
Proof. intros Hm s e s'. apply Hm. Qed.
Lemma errs_bind {A B} (m : ST S A) (k : A -> ST S B) :
  within R m -> (forall a, errs_within R (k a)) -> errs_within R (st_bind m k).
Proof.
  intros Hm Hk s e s'. unfold st_bind. destruct (m s) as [[a|err|] s1] eqn:E; [|intros [= _ <-]; exact (Hm _ _ _ E)|done].
  intros E2. transitivity s1; [exact (Hm _ _ _ E)|exact (Hk a _ _ _ E2)].
Qed.
Lemma errs_logged (m : ST S unit) {A} (a : A) : errs_within R (run! logged m; st_ret a).
Proof. intros s e s'. unfold st_bind, logged. by destruct (m s) as [[] ?]. Qed.
End Errs.
Lemma errs_deferred {D A} (R : relation (Node D)) `{!PreOrder R} (d : ST (Node D) unit) (m : ST (Node D) A) :
  within R d -> errs_within R m -> errs_within R (deferred d m).
Proof.
  intros Hd Hm n e n'. unfold deferred. destruct (m n) as [r n1] eqn:E. destruct (d n1) as [o n2] eqn:E2.
  intros H. assert (r = Err e /\ n2 = n') as [-> <-] by (by destruct o; injection H).
  transitivity n1; [exact (Hm _ _ _ E)|exact (Hd _ _ _ E2)].
Qed.

Lemma within_deferred {D A} (R : relation (Node D)) `{!PreOrder R} (d : ST (Node D) unit) (m : ST (Node D) A) :
  within R d -> within R m -> within R (deferred d m).
Proof.
  intros Hd Hm n r n'. unfold deferred. destruct (m n) as [o n1] eqn:E. destruct (d n1) as [o2 n2] eqn:E2.
  intros H. assert (n2 = n') as <- by (by destruct o2; injection H).
  transitivity n1; [exact (Hm _ _ _ E)|exact (Hd _ _ _ E2)].
Qed.

(** Walk down a program that ends in logged steps. *)
Ltac errs_steps :=
  repeat (cbn beta zeta; lazymatch goal with
  | |- errs_within _ (st_bind (logged _) (fun _ => st_ret _)) => apply errs_logged
  | |- errs_within _ (st_bind _ _) => apply errs_bind; [exact _|solve [solve_within]|intros ?]
  | |- errs_within _ (if ?b then _ else _) => destruct b
  | |- errs_within _ (match ?x with _ => _ end) => destruct x
  end); try (apply errs_of_within; solve_within).

(** Staking operations replace tables and never add one. *)
Lemma staking_op_length now op t t' : run_staking_op now op t = Ok t' -> length t' = length t.
Proof.
  intros (d & a & acc & acc' & (_ & m & _ & _ & ->) & _)%run_staking_op_inv. by rewrite length_insert.
Qed.

(** A machine that works on its state through the operations of StateDB.v. *)
Record vm_works (keccak : bytes -> Hash) (vm : VMachine) : Prop := {
  works_Create bc a code gas nonce : within (rtc (vm_step keccak)) (vm_Create vm bc a code gas nonce);
  works_Call bc a b input gas : within (rtc (vm_step keccak)) (vm_Call vm bc a b input gas);
  works_StaticCall bc a input gas sa : rtc (vm_step keccak) sa (vm_StaticCall vm bc a input gas sa).2
}.

Section Programs.
Context {D : Type} `{RocksDBLaws D} `{JSON PubKey} `{JSON (list MerkleNode)} `{Hasher} `{OqsLib}.
Variable hb : Z.
Abbreviation untouched_by m := (within (untouched (D := D) hb) m).

Lemma untouched_staking (m : staking_tables -> outcome staking_tables) :
  (forall t t', m t = Ok t' -> length t' = length t) -> untouched_by (on_ok staking_l m).
Proof.
  intros Hm. apply (within_on_ok _ (fun t t' => length t' = length t)); [exact Hm|]. intros n t Ht. by split.
Qed.
Lemma untouched_staking_op now op : untouched_by (on_ok staking_l (run_staking_op now op)).
Proof. apply untouched_staking. intros t t'. apply staking_op_length. Qed.
Lemma untouched_Stake now a am h d op lk rpb : untouched_by (on_ok staking_l (fun t => Stake now t a am h d op lk rpb)).
Proof. exact (untouched_staking_op now (OpStake a am h d op lk rpb)). Qed.
Lemma untouched_Unstake now a am h d : untouched_by (on_ok staking_l (fun t => Unstake now t a am h d)).
Proof. exact (untouched_staking_op now (OpUnstake a am h d)). Qed.
Lemma untouched_Reward now a am h d : untouched_by (on_ok staking_l (fun t => Reward now t a am h d)).
Proof. exact (untouched_staking_op now (OpReward a am h d)). Qed.
Lemma untouched_Withdraw now a am h d : untouched_by (on_ok staking_l (fun t => WithdrawReward now t a am h d)).
Proof. exact (untouched_staking_op now (OpWithdrawReward a am h d)). Qed.
Lemma untouched_state {A} (m : ST StateAccount A) :
  within (fun sa sa' => vm_inv sa -> vm_inv sa') m -> untouched_by (on state_l m).
Proof. intros Hm. eapply within_on; [exact Hm|]. intros n sa Hsa. by split. Qed.
Lemma untouched_state_step keccak f : (forall sa, vm_step keccak sa (f sa)) ->
  untouched_by (on state_l (st_modify f)).
Proof.
  intros Hf. apply untouched_state. intros sa r sa' [= _ <-]. exact (vm_step_inv keccak _ _ (Hf sa)).
Qed.

Lemma untouched_CheckTransaction hash : untouched_by (CheckTransactionInDBAndInMarkleTrie hash).
Proof. unfold CheckTransactionInDBAndInMarkleTrie. solve_within. Qed.
Lemma untouched_pool_remove l hash : l = pools_l \/ l = escrow_l \/ l = multisign_l ->
  untouched_by (pool_remove l hash).
Proof. intros [->|[->| ->]]; unfold pool_remove; solve_within. Qed.
Lemma untouched_pool_ban l hash : l = pools_l \/ l = escrow_l \/ l = multisign_l ->
  untouched_by (pool_ban l hash).
Proof. intros [->|[->| ->]]; unfold pool_ban; solve_within. Qed.
Lemma untouched_pool_add l tx h : l = pools_l \/ l = escrow_l \/ l = multisign_l ->
  untouched_by (pool_add l tx h).
Proof. intros [->|[->| ->]]; unfold pool_add; solve_within. Qed.
Lemma untouched_RemoveBad hash : untouched_by (RemoveBadTransactionByHash hash hb).
Proof.
  pose proof (untouched_CheckTransaction hash). pose proof untouched_pool_remove. pose proof untouched_pool_ban.
  unfold RemoveBadTransactionByHash. solve_within.
Qed.
Hint Resolve untouched_Stake untouched_Unstake untouched_Reward untouched_Withdraw untouched_CheckTransaction untouched_pool_remove untouched_pool_add
  untouched_RemoveBad : within.

Lemma untouched_load_pool_tx p hash : tx_prefix p -> untouched_by (load_pool_tx p hash).
Proof. intros Hp. unfold load_pool_tx. solve_within. Qed.
Hint Resolve untouched_load_pool_tx : within.

(** ** The check of the transfers *)

Lemma untouched_load_block_tx e hash : untouched_by (load_block_tx e hash).
Proof.
  intros n r n'. unfold load_block_tx.
  pose proof (untouched_load_pool_tx TransactionPoolHashesDBPrefix hash tx_prefix_pool n) as Hl.
  destruct (load_pool_tx _ hash n) as [[tx|err|] n1] eqn:E; specialize (Hl _ _ eq_refl).
  - by intros [= _ <-].
  - intros E2. transitivity n1; [done|]. revert E2. match goal with |- ?m n1 = _ -> _ =>
      assert (untouched_by m) as Hw by solve_within; exact (Hw n1 r n') end.
  - by intros [= _ <-].
Qed.
Hint Resolve untouched_load_block_tx : within.

Variable b : Block.
Hypothesis Hb : bh_Height (bl_Header b) = hb.

Lemma untouched_bad_tx {A} tx e : untouched_by (bad_tx (A := A) b tx e).
Proof. unfold bad_tx. rewrite Hb. solve_within. Qed.
Hint Resolve untouched_bad_tx : within.

Lemma untouched_check_transfer e s h : untouched_by (check_transfer e b s h).
Proof. unfold check_transfer, check_staking, sender_account. solve_within. Qed.
Hint Resolve untouched_check_transfer : within.
Lemma untouched_CheckBlockTransfers e last : untouched_by (CheckBlockTransfers e b last).
Proof.
  unfold CheckBlockTransfers. apply within_bind; [exact _| |intros s; solve_within].
  generalize (mk_transfers ∅ ∅ 0). generalize (TransactionsHashes b) as txs.
  induction txs; intros s; cbn; solve_within.
Qed.

(** ** The execution of the transfers *)

Lemma untouched_ProcessTransaction now tx h : untouched_by (ProcessTransaction now tx h).
Proof.
  unfold ProcessTransaction, process_staking, process_rewards, process_standard, add_balance, sender_account.
  solve_within.
Qed.
Lemma untouched_transfer tx : untouched_by (transfer_or_ban tx hb).
Proof. unfold transfer_or_ban, add_balance. solve_within. Qed.
Hint Resolve untouched_transfer : within.
Lemma untouched_Escrow : untouched_by (ProcessTransactionsEscrow hb).
Proof.
  unfold ProcessTransactionsEscrow. apply within_bind; [solve_within..|]. intros txs.
  induction txs as [|tx txs IH]; cbn; [solve_within|]. unfold escrow_step, sender_account. solve_within.
Qed.
Lemma untouched_MultiSign tx : untouched_by (ProcessTransactionsMultiSign tx hb).
Proof.
  assert (forall txs, untouched_by (remove_all txs)) as Hr by (intros txs; induction txs; cbn; solve_within).
  unfold ProcessTransactionsMultiSign, store_backing, sender_account. solve_within.
Qed.

(** ** The reward, the public keys, the schemes *)

Lemma untouched_reward_to e a r h k : untouched_by (reward_to e a r h k).
Proof. apply untouched_Reward. Qed.
Hint Resolve untouched_reward_to : within.
Lemma untouched_stakers e h k reward sum staked : forall rest,
  untouched_by (reward_stakers e h k reward sum staked rest).
Proof. induction staked as [|acc staked IH]; intros rest; cbn [reward_stakers]; solve_within. Qed.
Lemma untouched_staked_in e k : untouched_by (staked_in e k).
Proof. unfold staked_in. solve_within. Qed.
Hint Resolve untouched_staked_in untouched_stakers untouched_ProcessTransaction untouched_Escrow untouched_MultiSign
  : within.
Lemma untouched_ProcessBlockTransfers e reward : untouched_by (ProcessBlockTransfers e b reward).
Proof.
  unfold ProcessBlockTransfers, distribute_reward. rewrite Hb.
  apply within_bind; [exact _|solve_within|intros _].
  apply within_bind; [exact _| |intros _; solve_within].
  generalize (TransactionsHashes b) as txs. induction txs; cbn; [solve_within|].
  unfold process_block_tx. rewrite Hb. solve_within.
Qed.
Lemma untouched_ProcessBlockPubKey : untouched_by (ProcessBlockPubKey b).
Proof.
  unfold ProcessBlockPubKey. generalize (TransactionsHashes b) as txs. induction txs; cbn; solve_within.
Qed.
Lemma untouched_related : untouched_by (RemoveAllTransactionsRelatedToBlock b).
Proof.
  unfold RemoveAllTransactionsRelatedToBlock. generalize (TransactionsHashes b) as txs.
  induction txs; cbn; solve_within.
Qed.
Lemma untouched_archive txs : untouched_by (archive_txs txs).
Proof. induction txs; cbn; solve_within. Qed.
(** ** The contracts *)

Variables (keccak : bytes -> Hash) (vm : VMachine).
Hypothesis Hvm : vm_works keccak vm.

Lemma works_inv {A} (m : ST StateAccount A) : within (rtc (vm_step keccak)) m ->
  within (fun sa sa' => vm_inv sa -> vm_inv sa') m.
Proof.
  apply within_mono. intros sa sa' Hs Hi. revert Hi. induction Hs as [|x y z Hxy _ IH]; [done|].
  intros Hi. apply IH, (vm_step_inv keccak _ _ Hxy Hi).
Qed.
Lemma untouched_with_vm {A} e bl gas (run : BlockContext -> ST StateAccount A) :
  (forall bc, within (rtc (vm_step keccak)) (run bc)) -> untouched_by (with_vm e bl gas run).
Proof. intros Hr n r n'. exact (untouched_state _ (works_inv _ (Hr _)) n r n'). Qed.
Lemma untouched_EvaluateSC e tx bl : untouched_by (EvaluateSC vm e tx bl).
Proof.
  unfold EvaluateSC. destruct (Nat.eqb _ _); [solve_within|]. apply untouched_with_vm. intros bc.
  destruct (bool_decide _); [apply Hvm|]. apply within_bind; [exact _|apply Hvm|intros []; solve_within].
Qed.
Lemma untouched_view e a input bl : untouched_by (GetViewFunctionReturns vm e a input bl).
Proof.
  apply untouched_with_vm. intros bc sa r sa'. pose proof (works_StaticCall keccak vm Hvm bc a input MaxGasUsage sa) as Hs.
  destruct (vm_StaticCall vm bc a input MaxGasUsage sa) as [out sa1]. by intros [= _ <-].
Qed.
Lemma untouched_EvaluateSCDex e a s input bl : untouched_by (EvaluateSCDex vm e a s input bl).
Proof. apply untouched_with_vm. intros bc. apply Hvm. Qed.
Hint Resolve untouched_EvaluateSC untouched_view untouched_EvaluateSCDex : within.
Lemma untouched_token_balance e coin owner : untouched_by (GetTokenBalance vm e coin owner).
Proof. unfold GetTokenBalance, get_config. solve_within. Qed.
Hint Resolve untouched_token_balance : within.
Lemma untouched_deal e tx op : untouched_by (GenerateOptDataDEX vm e tx op).
Proof. unfold GenerateOptDataDEX, dex_account, token_info, sender_account. solve_within. Qed.
Hint Resolve untouched_deal : within.
Lemma untouched_dex_order e tx bl p op : tx_prefix p -> untouched_by (dex_order_step vm e tx bl p op).
Proof. intros Hp. unfold dex_order_step, add_balance, token_info, dex_account. solve_within. Qed.
Lemma untouched_register e a bl : untouched_by (register_token vm e a bl).
Proof.
  pose proof (untouched_state_step keccak). unfold register_token. solve_within.
  eapply untouched_state_step. intros sa. apply (step_RegisterNewToken keccak).
Qed.
Hint Resolve untouched_dex_order untouched_register : within.
Lemma untouched_contract e tx bl p r : tx_prefix p -> untouched_by (contract_step vm e tx bl p r).
Proof. intros Hp. unfold contract_step. solve_within. Qed.
Hint Resolve untouched_contract : within.

(** A transaction is found under one of the two prefixes. *)
Lemma untouched_load_any {B} hash (k : Transaction * bytes -> ST (Node D) B) :
  (forall tx p, tx_prefix p -> untouched_by (k (tx, p))) -> untouched_by (do! x <- load_any hash; k x).
Proof.
  intros Hk. unfold load_any. intros n r n' E.
  assert (untouched_by (st_try (load_pool_tx TransactionPoolHashesDBPrefix hash))) as Ht by solve_within.
  unfold st_bind in E. destruct (st_try _ n) as [[[tx|]|err|] n1] eqn:E1; pose proof (Ht _ _ _ E1).
  - transitivity n1; [done|]. exact (Hk tx _ tx_prefix_pool n1 r n' E).
  - pose proof (untouched_load_pool_tx TransactionDBPrefix hash tx_prefix_chain n1) as Hl.
    destruct (load_pool_tx TransactionDBPrefix hash n1) as [[tx|err|] n2]; specialize (Hl _ _ eq_refl);
      (transitivity n1; [done|]); (transitivity n2; [done|]); [|by injection E as _ <-..].
    exact (Hk tx _ tx_prefix_chain n2 r n' E).
  - by injection E as _ <-.
  - by injection E as _ <-.
Qed.
Lemma untouched_eval_tx e bl r th : untouched_by (eval_tx vm e bl r th).
Proof. unfold eval_tx. apply untouched_load_any. intros tx p Hp. unfold sender_account. solve_within. Qed.
Hint Resolve untouched_eval_tx : within.
Lemma untouched_EvaluateSmartContracts e bl : untouched_by (EvaluateSmartContracts vm e bl).
Proof.
  assert (forall r, untouched_by (on state_l (st_modify (fun sa => SetSnapShotNum sa r (Snapshot sa))))) as Hs
    by (intros r; eapply untouched_state_step; intros sa; apply (step_SetSnapShotNum keccak)).
  assert (forall r l, untouched_by (store_results r l)) as Hst
    by (intros r l; induction l as [|[th a] l IH]; cbn; solve_within).
  assert (forall txs r, untouched_by (eval_txs vm e bl r txs)) as He
    by (intros txs; induction txs; intros r; cbn; solve_within).
  unfold EvaluateSmartContracts, EvaluateSCForBlock. solve_within.
Qed.
End Programs.

(** ** The whole execution *)

Section Execution.
Context {D : Type} `{RocksDBLaws D} `{JSON PubKey} `{JSON (list MerkleNode)} `{Hasher} `{OqsLib}.
Variables (keccak : bytes -> Hash) (vm : VMachine).
Hypothesis Hvm : vm_works keccak vm.

Lemma untouched_execution e b last trie :
  errs_within (untouched (D := D) (bh_Height (bl_Header b)))
    (CheckBlockAndTransferFunds (EvaluateSmartContracts vm e) e b last trie).
Proof.
  set (hb := bh_Height (bl_Header b)).
  pose proof (untouched_related (D := D) hb b) as Hrel.
  pose proof (untouched_staked_in (D := D) hb) as Hstaked.
  pose proof (untouched_CheckBlockTransfers (D := D) hb b eq_refl) as Hcheck.
  assert (forall fee r, within (untouched (D := D) hb) (ProcessBlockTransfers e (set_BlockFee b fee) r)) as Hprocess
    by (intros fee r; by apply untouched_ProcessBlockTransfers).
  assert (forall fee, within (untouched (D := D) hb) (ProcessBlockPubKey (set_BlockFee b fee))) as Hkeys
    by (intros fee; apply untouched_ProcessBlockPubKey).
  pose proof (fun bl => untouched_EvaluateSmartContracts (D := D) hb keccak vm Hvm e bl) as Hev.
  pose proof (untouched_archive (D := D) hb) as Har.
  unfold CheckBlockAndTransferFunds. apply errs_deferred; [exact _|exact Hrel|].
  unfold check_and_transfer, get_config. fold hb. errs_steps.
Qed.

(** An execution that succeeds may change the configuration, nothing else of these. *)
Definition untouched_but_config (hb : Z) (n n' : Node D) : Prop :=
  exists c, untouched hb n (l_set config_l c n').
#[local] Instance but_config_preorder hb : PreOrder (untouched_but_config hb).
Proof.
  split; [intros n; exists (nd_Config n); by destruct n|].
  intros x y z [c1 ((E1 & C1) & K1 & L1 & V1)] [c2 ((E2 & C2) & K2 & L2 & V2)]. exists c1. cbn in *.
  split; [split; cbn; congruence|]. cbn. split; [by transitivity (nd_MainDB y)|]. split; [congruence|auto].
Qed.
Lemma but_config_of {A} hb (m : ST (Node D) A) : within (untouched hb) m -> within (untouched_but_config hb) m.
Proof. apply within_mono. intros n n' Hu. exists (nd_Config n'). by destruct n'. Qed.

Lemma but_config_encryption hb e b last : within (untouched_but_config hb) (ProcessBlockEncryption (D := D) e b last).
Proof.
  assert (forall A (m : ST EncryptionConfig A), within (untouched_but_config hb) (on config_l m)) as Hc
    by (intros A m; apply within_on_any; intros n x; exists (nd_Config n); by destruct n).
  assert (forall v, within (untouched_but_config hb) (on votes_l (st_modify v))) as Hv
    by (intros v; apply but_config_of; solve_within).
  assert (forall m, within (kept hb) m -> within (untouched_but_config hb) (on db_l (A := unit) m)) as Hd
    by (intros m Hm; apply but_config_of; eapply within_on; [exact Hm|by intros]).
  pose proof (fun pk => Hd _ (kept_StorePubKey (D := D) pk hb)). pose proof (fun pk => Hd _ (kept_StoreTrie (D := D) pk hb)).
  unfold ProcessBlockEncryption, process_encryption, SetVoteEncryption, SetEncryptionFromBytes, set_encryption,
    AddNewPubKeyToActiveWallet, get_config. solve_within.
Qed.
Lemma executed_block evaluate e b last trie n b' n' :
  CheckBlockAndTransferFunds evaluate e b last trie n = (Ok b', n') -> exists fee, b' = set_BlockFee b fee.
Proof.
  unfold CheckBlockAndTransferFunds, deferred. destruct (check_and_transfer _ _ _ _ _ n) as [r n1] eqn:E.
  intros H6. assert (r = Ok b') as -> by (destruct (RemoveAllTransactionsRelatedToBlock b n1) as [[] ?]; by injection H6).
  clear H6. revert E. unfold check_and_transfer. intros E.
  apply st_bind_ok_inv in E as (? & ? & _ & E). apply st_bind_ok_inv in E as ([[? ?] ?] & ? & _ & E).
  destruct (_ || _); [done|]. apply st_bind_ok_inv in E as ([reward fee] & ? & _ & E). cbv zeta in E.
  apply st_bind_ok_inv in E as (ok & ? & _ & E). destruct (negb ok); [done|].
  do 2 (apply st_bind_ok_inv in E as (? & ? & _ & E)). destruct (negb _); [done|].
  do 3 (apply st_bind_ok_inv in E as (? & ? & _ & E)). destruct (negb _); [done|].
  do 4 (apply st_bind_ok_inv in E as (? & ? & _ & E)). exists (fee +! BlockFee last). by injection E as <- _.
Qed.

(** The whole execution changes nothing else either, whatever it returns. *)
Lemma but_config_execution e b last trie :
  within (untouched_but_config (bh_Height (bl_Header b)))
    (CheckBlockAndTransferFunds (D := D) (EvaluateSmartContracts vm e) e b last trie).
Proof.
  set (hb := bh_Height (bl_Header b)).
  pose proof (but_config_of hb _ (untouched_related (D := D) hb b)) as Hrel.
  pose proof (fun e k => but_config_of hb _ (untouched_staked_in (D := D) hb e k)) as Hstaked.
  pose proof (but_config_of hb _ (untouched_CheckBlockTransfers (D := D) hb b eq_refl e last)) as Hcheck.
  assert (forall fee r, within (untouched_but_config hb) (ProcessBlockTransfers (D := D) e (set_BlockFee b fee) r)) as Hprocess
    by (intros fee r; by apply but_config_of, untouched_ProcessBlockTransfers).
  assert (forall fee, within (untouched_but_config hb) (ProcessBlockPubKey (D := D) (set_BlockFee b fee))) as Hkeys
    by (intros fee; apply but_config_of, untouched_ProcessBlockPubKey).
  pose proof (fun bl => but_config_of hb _ (untouched_EvaluateSmartContracts (D := D) hb keccak vm Hvm e bl)) as Hev.
  pose proof (fun txs => but_config_of hb _ (untouched_archive (D := D) hb txs)) as Har.
  pose proof (but_config_encryption hb) as Henc.
  assert (within (untouched_but_config hb) (on db_l (store_merkle (D := D) trie hb))) as Htree
    by (apply but_config_of; solve_within).
  unfold CheckBlockAndTransferFunds. apply within_deferred; [exact _|exact Hrel|].
  unfold check_and_transfer, get_config. fold hb. solve_within.
Qed.
End Execution.
