(* ===== verification/BlockSupply.v ===== *)
(** * The supply over a block

    An accepted block balances the books: the coins of the ledger, the collected
    fees and the declared supply agree before it, and after it they differ by the
    fees that its transactions declare but are not charged. *)
From S2P Require Import Prelude GoInt GoSlice Sums Common Keys Database Codec Float64 Json Accounts.
From S2P Require Import Staking EncScheme Merkle PubKeys Tx Heap Pool Node Ledger Supply Transfers.
From S2P Require Import StateDB Block BlockProcess Evaluate Quiet DexSupply Settle.

(** Fees add modulo 2^64. *)
Definition sum_fees (f : Transaction -> Z) (txs : list Transaction) : Z :=
  foldr (fun tx s => f tx + s) 0 txs.
Lemma sum_fees_cons f tx txs : sum_fees f (tx :: txs) = f tx + sum_fees f txs.
Proof. done. Qed.

(** What a transaction declares as fee and the ledger is not charged for. *)
Definition uncharged (tx : Transaction) : Z := tx_fee tx - charged tx.

Section Programs.
Context {D : Type} `{RocksDBLaws D} `{JSON PubKey} `{JSON (list MerkleNode)} `{Hasher} `{OqsLib}.
Implicit Types (n : Node D) (e : Env) (b newBlock lastBlock : Block).

(** ** The check of the transfers *)

Lemma load_block_tx_ok e h n tx n' : env_syncing e = false ->
  load_block_tx e (Hash_GetBytes h) n = (Ok tx, n') -> pool_tx n h tx /\ quiet n n'.
Proof.
  intros He E. split; [|by eapply quiet_load_block_tx].
  revert E. unfold load_block_tx, pool_tx. rewrite He.
  destruct (load_pool_tx _ _ n) as [[t|err|] n1]; [by intros [= -> _]| |done].
  intros E. apply st_bind_ok_inv in E as (? & ? & _ & E). done.
Qed.

Lemma check_staking_fee b tx k s n s' n' :
  check_staking b tx k s n = (Ok s', n') -> tr_totalFee s' = tr_totalFee s.
Proof.
  unfold check_staking. intros E.
  do 4 (apply st_bind_ok_inv in E as (? & ? & _ & E)).
  destruct (negb _); [|by injection E as <- _].
  apply st_bind_ok_inv in E as (? & ? & _ & E). done.
Qed.

Lemma check_transfer_ok e b s h n s' n' : env_syncing e = false ->
  check_transfer e b s h n = (Ok s', n') ->
  exists tx, pool_tx n h tx /\ tr_totalFee s' = tr_totalFee s +! tx_fee tx.
Proof.
  intros He. unfold check_transfer. intros E.
  apply st_bind_ok_inv in E as (tx & n1 & E1 & E). apply load_block_tx_ok in E1 as [Hp _]; [|done].
  exists tx. split; [done|].
  apply st_bind_ok_inv in E as (? & n2 & _ & E). cbv zeta in E.
  apply st_bind_ok_inv in E as (target & n3 & _ & E).
  apply st_bind_ok_inv in E as (s1 & n4 & E4 & E).
  assert (tr_totalFee s1 = tr_totalFee s +! tx_fee tx) as Hs1.
  { destruct target as [k|]; [|by injection E4 as <- _]. destruct (k <? 512); [|by injection E4 as <- _].
    exact (check_staking_fee _ _ _ _ _ _ _ E4). }
  apply st_bind_ok_inv in E as (acc & n5 & _ & E).
  assert (forall m, bad_tx (D := D) b tx m n5 = (Ok s', n') -> False) as Hbad.
  { unfold bad_tx. intros m Hm. apply st_bind_ok_inv in Hm as (? & ? & _ & Hm). done. }
  destruct (negb _); [by apply Hbad in E|]. destruct (_ && _); [by apply Hbad in E|].
  destruct (_ <? 0); [by apply Hbad in E|]. by injection E as <- _.
Qed.

Lemma check_transfers_ok e b : env_syncing e = false -> forall hs s n s' n',
  check_transfers e b s hs n = (Ok s', n') ->
  exists txs, Forall2 (pool_tx n) hs txs /\ eq64 (tr_totalFee s') (tr_totalFee s + sum_fees tx_fee txs).
Proof.
  intros He. induction hs as [|h hs IH]; intros s n s' n'; cbn [check_transfers].
  - intros [= <- _]. exists []. split; [constructor|]. cbn. by rewrite Z.add_0_r.
  - intros E. apply st_bind_ok_inv in E as (s1 & n1 & E1 & E).
    pose proof (quiet_check_transfer e b s h He _ _ _ E1) as [Hs _].
    apply check_transfer_ok in E1 as (tx & Hp & Hf); [|done].
    apply IH in E as (txs & Hps & Hfs). exists (tx :: txs).
    split; [constructor; [done|by eapply pool_txs_shrinks]|].
    rewrite Hfs, Hf, sum_fees_cons. i64_solve.
Qed.

Lemma CheckBlockTransfers_ok e b lastBlock n reward fee n' : env_syncing e = false ->
  CheckBlockTransfers e b lastBlock n = (Ok (reward, fee), n') ->
  reward = GetReward (Supply (bl_BaseBlock lastBlock)) /\
  Supply (bl_BaseBlock b) = Supply (bl_BaseBlock lastBlock) +! reward /\
  exists txs, Forall2 (pool_tx n) (TransactionsHashes b) txs /\ eq64 fee (sum_fees tx_fee txs).
Proof.
  intros He. unfold CheckBlockTransfers. intros E. apply st_bind_ok_inv in E as (s & n1 & E1 & E).
  destruct (negb _) eqn:Eq; [done|]. zify_bool. injection E as <- <- _.
  split; [done|]. split; [done|]. apply check_transfers_ok in E1 as (txs & Hp & Hf); [|done].
  exists txs. by split.
Qed.

(** ** The execution of the transactions *)

Lemma moves_on_error {A} (m : ST (Node D) A) h d : moves m d -> moves (on_error m h) d.
Proof.
  intros Hm n a n' Hw. unfold on_error. destruct (m n) as [[x|err|] n1] eqn:E; [| |done].
  - intros [= <- <-]. exact (Hm _ _ _ Hw E).
  - by destruct (h n1) as [[] ?].
Qed.

Lemma moves_transfer tx h : moves (D := D) (transfer_or_ban tx h) 0.
Proof.
  unfold transfer_or_ban. apply moves_eq with ((0 -! Amount (tx_Data tx)) + Amount (tx_Data tx)); [|i64_solve].
  apply moves_bind; [apply moves_on_error, moves_add_balance|intros _; apply moves_add_balance].
Qed.

Lemma moves_MultiSign tx h : moves (D := D) (ProcessTransactionsMultiSign tx h) 0.
Proof.
  unfold ProcessTransactionsMultiSign, sender_account.
  destruct (no_multisign tx); [apply moves_ret|].
  do 2 (apply moves_bind0; [solve_frames|]; intros ?). cbv zeta.
  destruct (Nat.eqb _ _); [apply frames_moves; solve_frames|].
  destruct (_ <? _); [apply frames_moves; solve_frames|].
  apply moves_bind0; [solve_frames|]. intros acc.
  destruct (_ <? _); [apply moves_ret|]. replace 0 with (0 + 0) by done.
  apply moves_bind; [apply moves_store_backing|]. intros _.
  destruct (_ <? _); [apply moves_ret|]. apply moves_bind0; [solve_frames|]. intros [k|]; [apply moves_ret|].
  destruct (_ && _); [apply moves_err|]. apply moves_bind0; [solve_frames|]. intros _. apply moves_transfer.
Qed.

Lemma process_block_tx_ok e b h n n' :
  accounts_wf (nd_Accounts n) -> process_block_tx e b h n = (Ok tt, n') ->
  shrinks n n' /\ accounts_wf (nd_Accounts n') /\
  exists tx, pool_tx n h tx /\ total n' = total n +! (- charged tx).
Proof.
  intros Hw E. unfold process_block_tx in E.
  apply st_bind_ok_inv in E as ([] & n1 & E1 & E).
  apply quiet_CheckTransaction in E1 as (S1 & L1 & _).
  apply st_bind_ok_inv in E as (tx & n2 & E2 & E). apply load_pool_tx_ok in E2 as (Hp & S2 & L2 & _).
  assert (same_ledger n n2) as [Ea Es] by (by transitivity n1).
  cbv zeta in E. destruct (_ <? _).
  { unfold bad_tx in E. by apply st_bind_ok_inv in E as (? & ? & _ & E). }
  assert (moves (run! on_error (ProcessTransaction (D := D) (env_now e) tx (bh_Height (bl_Header b)))
      (RemoveBadTransactionByHash (Hash_GetBytes (tx_Hash tx)) (bh_Height (bl_Header b)));
    on_error (ProcessTransactionsMultiSign tx (bh_Height (bl_Header b)))
      (RemoveBadTransactionByHash (Hash_GetBytes (tx_Hash tx)) (bh_Height (bl_Header b)))) (- charged tx)) as Hm.
  { apply moves_eq with (- charged tx + 0); [|i64_solve].
    apply moves_bind; [|intros _]; apply moves_on_error; [apply moves_ProcessTransaction|apply moves_MultiSign]. }
  destruct (Hm n2 tt n' ltac:(by rewrite Ea) E) as [Hw' Ht].
  split; [|split; [done|]].
  - transitivity n1; [done|]. transitivity n2; [done|]. revert E.
    apply within_bind; [exact _| |intros _]; apply within_on_error;
      auto using shrinks_RemoveBad, shrinks_ProcessTransaction, shrinks_MultiSign with within.
  - exists tx. split; [by eapply pool_tx_shrinks|]. rewrite Ht. unfold total. by rewrite Ea, Es.
Qed.

Lemma process_block_txs_ok e b hs : forall n n',
  accounts_wf (nd_Accounts n) -> process_block_txs e b hs n = (Ok tt, n') ->
  accounts_wf (nd_Accounts n') /\
  exists txs, Forall2 (pool_tx n) hs txs /\ eq64 (total n') (total n - sum_fees charged txs).
Proof.
  induction hs as [|h hs IH]; intros n n' Hw; cbn [process_block_txs].
  - intros [= <-]. split; [done|]. exists []. split; [constructor|]. cbn. by rewrite Z.sub_0_r.
  - intros E. apply st_bind_ok_inv in E as ([] & n1 & E1 & E).
    apply process_block_tx_ok in E1 as (Hs & Hw1 & tx & Hp & Ht); [|done].
    apply IH in E as (Hw' & txs & Hps & Hts); [|done]. split; [done|]. exists (tx :: txs).
    split; [constructor; [done|by eapply pool_txs_shrinks]|].
    rewrite Hts, Ht, sum_fees_cons. i64_solve.
Qed.

(** ** The reward *)

Lemma moves_reward e a r h k : moves (D := D) (reward_to e a r h k) r.
Proof.
  apply moves_eq with (0 + r); [|i64_solve].
  exact (moves_staking_op (env_now e) (OpReward a r h k)).
Qed.

(** Whatever the stakers get is taken from [rest]. *)
Lemma reward_stakers_ok e h k reward sum staked : forall rest n rest' n',
  accounts_wf (nd_Accounts n) -> reward_stakers e h k reward sum staked rest n = (Ok rest', n') ->
  accounts_wf (nd_Accounts n') /\ eq64 (total n' + rest') (total n + rest).
Proof.
  induction staked as [|acc staked IH]; intros rest n rest' n' Hw; cbn [reward_stakers].
  - by intros [= <- <-].
  - destruct (0 <? Balance acc); [|by apply IH]. intros E. apply st_bind_ok_inv in E as ([] & n1 & E1 & E).
    destruct (moves_reward e _ _ h k n tt n1 Hw E1) as [Hw1 Ht1].
    apply IH in E as [Hw' Ht']; [|done]. split; [done|]. rewrite Ht', Ht1. i64_solve.
Qed.

Lemma moves_distribute e b reward : moves (D := D) (distribute_reward e b reward) reward.
Proof.
  unfold distribute_reward. apply moves_bind0; [solve_frames|]. intros k.
  apply moves_bind0; [unfold staked_in; solve_frames|]. intros [[staked sum] op].
  destruct (f64_leb _ _); [apply moves_err|]. cbv zeta. destruct (500 <? _); [apply moves_err|].
  set (oper := operator_reward _ _).
  apply moves_eq with (oper + (reward -! oper)); [|i64_solve].
  apply moves_bind; [apply moves_reward|]. intros _ n [] n' Hw E.
  apply st_bind_ok_inv in E as (rest & n1 & E1 & E).
  apply reward_stakers_ok in E1 as [Hw1 Ht1]; [|done].
  assert (accounts_wf (nd_Accounts n') /\ total n' = total n1 +! rest) as [Hw' Ht'].
  { destruct (0 <? rest) eqn:Ep; [exact (moves_reward _ _ _ _ _ n1 tt n' Hw1 E)|].
    destruct (rest <? 0) eqn:En; [done|]. zify_bool. injection E as <-. split; [done|].
    replace rest with 0 by lia. symmetry. apply add64_0_r, total_in64. }
  split; [done|]. rewrite Ht'. unfold add64. change (eq64 (total n1 + rest) (total n + (reward -! oper))). exact Ht1.
Qed.

(** ** The execution of a block *)

Lemma ProcessBlockTransfers_ok e b reward n n' :
  solvent (nd_Accounts n) -> map_Forall (fun _ tx => amount_ok tx) (transactions (nd_PoolTxEscrow n)) ->
  ProcessBlockTransfers e b reward n = (Ok tt, n') ->
  accounts_wf (nd_Accounts n') /\
  exists txs, Forall2 (pool_tx n) (TransactionsHashes b) txs /\
    eq64 (total n') (total n + reward - sum_fees charged txs).
Proof.
  intros Hs Ha E. unfold ProcessBlockTransfers in E.
  apply st_bind_ok_inv in E as ([] & n1 & E1 & E).
  assert (shrinks n n1) as Hsh.
  { revert E1. apply within_logged, shrinks_Escrow. }
  assert (solvent (nd_Accounts n1) /\ total n1 = total n) as [Hs1 Ht1].
  { unfold logged in E1. destruct (ProcessTransactionsEscrow _ n) as [r m] eqn:E2.
    assert (m = n1) as -> by (destruct r; congruence).
    apply conserves_Escrow in E2 as (Hs1 & Hc & Hst); [|done..]. split; [done|].
    open_total. by rewrite Hst, !coins_supply, Hc. }
  apply st_bind_ok_inv in E as ([] & n2 & E2 & E).
  apply process_block_txs_ok in E2 as (Hw2 & txs & Hps & Ht2); [|apply (sv_wf _ Hs1)].
  destruct (moves_distribute e b reward n2 tt n' Hw2 E) as [Hw' Ht'].
  split; [done|]. exists txs. split; [by eapply pool_txs_shrinks|].
  rewrite Ht'. transitivity (total n2 + reward); [i64_solve|]. rewrite Ht2, Ht1. f_equal. lia.
Qed.

Lemma supply_sum_total n reward fee :
  supply_sum (nd_Accounts n) (nd_StakingAccounts n) reward fee = total n +! reward +! fee.
Proof. done. Qed.

Lemma frames_archive hs : frames (archive_txs (D := D) hs).
Proof. induction hs; cbn; unfold load_pool_tx; solve_frames. Qed.
Lemma frames_related hs : frames (remove_related (D := D) hs).
Proof. induction hs; cbn; solve_frames. Qed.
Lemma frames_encryption e b last : frames (ProcessBlockEncryption (D := D) e b last).
Proof.
  unfold ProcessBlockEncryption, process_encryption, SetVoteEncryption, SetEncryptionFromBytes, set_encryption,
    AddNewPubKeyToActiveWallet, get_config. solve_frames.
Qed.

(** The books of a block: what the accepted block says of the state before it and
    after it. *)
Record balanced n n' lastBlock newBlock (b' : Block) (txs : list Transaction) : Prop := {
  bal_wf : accounts_wf (nd_Accounts n');
  bal_txs : Forall2 (pool_tx n) (TransactionsHashes newBlock) txs;
  bal_block : b' = set_BlockFee newBlock (BlockFee b');
  bal_before : eq64 (total n + BlockFee lastBlock) (Supply (bl_BaseBlock lastBlock));
  bal_supply : Supply (bl_BaseBlock newBlock)
    = Supply (bl_BaseBlock lastBlock) +! GetReward (Supply (bl_BaseBlock lastBlock));
  bal_fee : eq64 (BlockFee b') (sum_fees tx_fee txs + BlockFee lastBlock);
  bal_after : eq64 (total n' + BlockFee b') (Supply (bl_BaseBlock newBlock) + sum_fees uncharged txs)
}.

Lemma sum_uncharged txs : sum_fees uncharged txs = sum_fees tx_fee txs - sum_fees charged txs.
Proof. induction txs as [|tx txs IH]; [done|]. rewrite !sum_fees_cons, IH. unfold uncharged. lia. Qed.

(** The arithmetic of the books. *)
Lemma books_arith before after reward fee lastFee S S' fees charges :
  S' = S +! reward -> before +! reward +! lastFee = S' -> eq64 fee fees ->
  eq64 after (before + reward - charges) ->
  eq64 (before + lastFee) S /\ eq64 (fee +! lastFee) (fees + lastFee) /\
  eq64 (after + (fee +! lastFee)) (S' + (fees - charges)).
Proof.
  intros HS Heq Hfee Hafter.
  assert (eq64 (before + reward + lastFee) (S + reward)) as Hx.
  { transitivity S'; [rewrite <- Heq; i64_solve|rewrite HS; i64_solve]. }
  assert (eq64 (before + lastFee) S) as Hb.
  { replace (before + lastFee) with (before + reward + lastFee - reward) by lia. rewrite Hx. f_equal. lia. }
  split; [done|]. split; [rewrite <- Hfee; i64_solve|].
  rewrite Hafter, HS. unfold add64. rewrite !i64_eq64, Hfee, <- Hb. f_equal. lia.
Qed.

(** The parts of an accepted run: the checks are quiet before and after the
    evaluation of the contracts. *)
Lemma check_and_transfer_inv evaluate e newBlock lastBlock trie n b' n' : env_syncing e = false ->
  check_and_transfer evaluate e newBlock lastBlock trie n = (Ok b', n') ->
  exists reward fee n0 n1 n2 n3 n4,
    let b := set_BlockFee newBlock (fee +! BlockFee lastBlock) in
    b' = b /\ quiet n n0 /\ CheckBlockTransfers e newBlock lastBlock n0 = (Ok (reward, fee), n1) /\
    evaluate b n1 = (Ok true, n2) /\
    total n2 +! reward +! BlockFee lastBlock = Supply (bl_BaseBlock newBlock) /\
    quiet n2 n3 /\ ProcessBlockTransfers e b reward n3 = (Ok tt, n4) /\ same_ledger n4 n'.
Proof.
  intros He. unfold check_and_transfer. intros E.
  apply st_bind_ok_inv in E as (k & n1 & [= _ <-] & E).
  apply st_bind_ok_inv in E as ([[? ?] ?] & n2 & E2 & E). apply quiet_staked_in in E2.
  destruct (_ || _); [done|].
  apply st_bind_ok_inv in E as ([reward fee] & n3 & E3 & E). cbv zeta in E.
  apply st_bind_ok_inv in E as (ok & n4 & E4 & E).
  destruct (negb ok) eqn:Eok; [done|]. apply negb_false_iff in Eok. subst ok.
  apply st_bind_ok_inv in E as (at_ & n5 & [= <- <-] & E).
  apply st_bind_ok_inv in E as (t & n6 & [= <- <-] & E). cbn [l_get accounts_l staking_l] in E.
  destruct (negb _) eqn:Eq in E; [done|]. zify_bool. rewrite supply_sum_total in Eq.
  apply st_bind_ok_inv in E as ([] & n7 & E7 & E). apply quiet_ProcessBlockPubKey in E7.
  apply st_bind_ok_inv in E as (ec & n8 & [= _ <-] & E).
  apply st_bind_ok_inv in E as (v & n9 & [= _ <-] & E). destruct (negb v); [done|].
  apply st_bind_ok_inv in E as ([] & n10 & E10 & E).
  assert (quiet n7 n10) as Q10.
  { revert E10. apply (within_on quiet db_shrinks); [destruct trie; cbn [store_merkle]; eauto with within|by intros]. }
  apply st_bind_ok_inv in E as ([] & n11 & E11 & E).
  apply st_bind_ok_inv in E as ([] & n12 & E12 & E). apply frames_archive in E12.
  apply st_bind_ok_inv in E as ([] & n13 & E13 & E).
  assert (same_ledger n12 n13) as E13' by (revert E13; apply within_logged, frames_encryption).
  injection E as <- <-. exists reward, fee, n2, n3, n4, n10, n11.
  split; [done|]. split; [done|]. split; [done|]. split; [done|]. split; [done|].
  split; [by transitivity n7|]. split; [done|]. by transitivity n12.
Qed.

Lemma total_same_ledger n n' : same_ledger n n' -> total n' = total n.
Proof. intros [La Ls]. unfold total. by rewrite La, Ls. Qed.

(** Fees and charges of corresponding transactions add up to the same. *)
Lemma same_charges_sums n n' hs txs' : consistent n -> rewrites n n' -> Forall2 (pool_tx n') hs txs' ->
  exists txs, Forall2 (pool_tx n) hs txs /\ sum_fees charged txs' = sum_fees charged txs.
Proof.
  intros Hc (_ & _ & Hr). destruct (Hr Hc) as (_ & Htx & _). clear Hr.
  induction 1 as [|h tx' hs txs' Hp _ (txs & Hps & Hsum)]; [by exists []|].
  destruct (Htx _ _ Hp) as (tx & Hp0 & [_ Hcg]). exists (tx :: txs). split; [by constructor|].
  rewrite !sum_fees_cons. lia.
Qed.

Lemma quiet_consistent n n' : quiet n n' -> consistent n -> consistent n'.
Proof.
  intros (S & _) Hc h tx Hp. destruct (Hc h tx (pool_tx_shrinks _ _ _ _ S Hp)) as [Hh Hok]. by rewrite (proj1 S).
Qed.

(** What the theorems ask of the evaluation: it settles, and never moves coins. *)
Definition settling (evaluate : Block -> ST (Node D) bool) : Prop := forall b n n',
  consistent n -> solvent (nd_Accounts n) -> evaluate b n = (Ok true, n') -> settled n n'.

Lemma check_and_transfer_ok evaluate e newBlock lastBlock trie n b' n' :
  env_syncing e = false -> settling evaluate -> consistent n ->
  solvent (nd_Accounts n) -> map_Forall (fun _ tx => amount_ok tx) (transactions (nd_PoolTxEscrow n)) ->
  check_and_transfer evaluate e newBlock lastBlock trie n = (Ok b', n') ->
  exists txs, balanced n n' lastBlock newBlock b' txs.
Proof.
  intros He Hev Hc Hs Ha E.
  apply check_and_transfer_inv in E as (reward & fee & n0 & n1 & n2 & n3 & n4 & -> & Q0 & E1 & Eev & Eq & Q2 & E3 & L4); [|done].
  pose proof (quiet_CheckBlockTransfers e _ _ He _ _ _ E1) as Q1.
  apply CheckBlockTransfers_ok in E1 as (Hr & Hsup & txs & Hps & Hfee); [|done].
  assert (quiet n n1) as Q01 by by transitivity n0.
  pose proof Q01 as (Sq & [La Ls] & Le).
  assert (consistent n1) as Hc1 by by eapply quiet_consistent.
  destruct (Hev _ _ _ Hc1 ltac:(by rewrite La) Eev) as [Hrw Hs2 Ht2]. rewrite Ht2 in Eq.
  destruct Q2 as (Sq2 & L2 & Le2). pose proof L2 as [La2 Ls2].
  apply ProcessBlockTransfers_ok in E3 as (Hw4 & txs' & Hps' & Ht).
  2: by rewrite La2.
  2: { pose proof (proj1 (proj2 Hrw)) as He2. rewrite He2 in Le2.
       intros h tx Htx. apply (Ha h), (lookup_weaken _ _ _ _ (lookup_weaken _ _ _ _ Htx Le2) Le). }
  apply (pool_txs_shrinks _ _ _ _ Sq2) in Hps'.
  destruct (same_charges_sums _ _ _ _ Hc1 Hrw Hps') as (txs1 & Hps1 & Hsum).
  assert (txs1 = txs) as ->.
  { apply (pool_txs_fun n (TransactionsHashes newBlock)); eapply pool_txs_shrinks;
      [exact Sq|exact Hps1|exact (proj1 Q0)|exact Hps]. }
  rewrite (total_same_ledger _ _ L2), Ht2, (total_same_ledger n n1) in Ht by done.
  rewrite (total_same_ledger n n1) in Eq by done. rewrite Hsum in Ht.
  pose proof (total_same_ledger _ _ L4) as Ht4.
  destruct (books_arith _ _ _ _ _ _ _ _ _ Hsup Eq Hfee Ht) as (Hb & Hf & Haf).
  exists txs. split; try done.
  - by rewrite (proj1 L4).
  - eapply pool_txs_shrinks; [exact (proj1 Q0)|exact Hps].
  - by rewrite <- Hr.
  - cbn [BlockFee set_BlockFee]. by rewrite Ht4, sum_uncharged.
Qed.

(** The deferred removal runs and does not change the result. *)
Lemma deferred_inv {A} (d : ST (Node D) unit) (m : ST (Node D) A) n a n' :
  deferred d m n = (Ok a, n') -> exists r n1, m n = (Ok a, n1) /\ d n1 = (r, n').
Proof.
  unfold deferred. destruct (m n) as [r n1]. destruct (d n1) as [r2 n2] eqn:E2.
  intros E. exists r2, n1. assert (r = Ok a /\ n2 = n') as [-> ->] by (destruct r2; split; congruence). done.
Qed.

(** A block is accepted only on balanced books. *)
Lemma accepted_before evaluate e newBlock lastBlock trie n b' n' :
  env_syncing e = false ->
  (forall b m m', accounts_wf (nd_Accounts m) -> evaluate b m = (Ok true, m') -> total m' = total m) ->
  accounts_wf (nd_Accounts n) ->
  CheckBlockAndTransferFunds evaluate e newBlock lastBlock trie n = (Ok b', n') ->
  eq64 (total n + BlockFee lastBlock) (Supply (bl_BaseBlock lastBlock)).
Proof.
  intros He Hev Hw E. apply deferred_inv in E as (r & n1 & E & _).
  apply check_and_transfer_inv in E as (reward & fee & n0 & n2 & n3 & n4 & n5 & _ & (_ & L0 & _) & E1 & Eev & Eq & _); [|done].
  pose proof (quiet_CheckBlockTransfers e _ _ He _ _ _ E1) as (_ & L1 & _).
  assert (same_ledger n n2) as L2 by by transitivity n0.
  apply Hev in Eev; [|by rewrite (proj1 L2)]. rewrite Eev, (total_same_ledger _ _ L2) in Eq.
  apply CheckBlockTransfers_ok in E1 as (Hr & Hsup & txs & _ & _); [|done].
  by destruct (books_arith _ (total n + reward - 0) _ fee _ _ _ fee 0 Hsup Eq eq_refl eq_refl) as [Hb _].
Qed.

(** The deferred removal of the transactions does not touch the ledger. *)
Lemma CheckBlockAndTransferFunds_ok evaluate e newBlock lastBlock trie n b' n' :
  env_syncing e = false -> settling evaluate -> consistent n ->
  solvent (nd_Accounts n) -> map_Forall (fun _ tx => amount_ok tx) (transactions (nd_PoolTxEscrow n)) ->
  CheckBlockAndTransferFunds evaluate e newBlock lastBlock trie n = (Ok b', n') ->
  exists txs, balanced n n' lastBlock newBlock b' txs.
Proof.
  intros He Hev Hc Hs Ha E. apply deferred_inv in E as (r & n1 & E1 & E2).
  apply frames_related in E2 as L.
  destruct (check_and_transfer_ok _ _ _ _ _ _ _ _ He Hev Hc Hs Ha E1) as (txs & []).
  exists txs. split; try done; [by rewrite (proj1 L)|]. by rewrite (total_same_ledger _ _ L).
Qed.

Lemma settling_contracts vm e : short_logs vm -> settling (EvaluateSmartContracts vm e).
Proof. intros Hvm b n n'. by apply contracts_settled. Qed.
End Programs.

(** ** The theorems *)

(** C3: when the contracts of a block run, whatever the virtual machine does, the
    coins of the ledger stay the same and the accounts solvent; the stakes, the
    three pools, the votes, the scheme and the height are what they were; and the
    stored transactions of the pool stay: none is new, none is lost, and each keeps
    its fee and its charge, since only logs and contract addresses are written into
    it. *)
Theorem EvaluateSmartContracts_settled {D} `{RocksDBLaws D} `{JSON PubKey} `{JSON (list MerkleNode)}
    `{Hasher} `{OqsLib} vm e bl (n n' : Node D) :
  short_logs vm -> consistent n -> solvent (nd_Accounts n) ->
  EvaluateSmartContracts vm e bl n = (Ok true, n') ->
  total n' = total n /\ solvent (nd_Accounts n') /\ nd_Config n' = nd_Config n /\
  nd_StakingAccounts n' = nd_StakingAccounts n /\ nd_PoolsTx n' = nd_PoolsTx n /\
  nd_PoolTxEscrow n' = nd_PoolTxEscrow n /\ nd_PoolTxMultiSign n' = nd_PoolTxMultiSign n /\
  (nd_VotesEncryption1 n' = nd_VotesEncryption1 n /\ nd_VotesEncryption2 n' = nd_VotesEncryption2 n) /\
  nd_Height n' = nd_Height n /\ consistent n' /\
  (forall h tx', pool_tx n' h tx' -> exists tx, pool_tx n h tx /\ same_charges tx tx') /\
  (forall h tx, pool_tx n h tx -> exists tx', pool_tx n' h tx' /\ same_charges tx tx').
Proof.
  intros Hvm Hc Hs E. destruct (contracts_settled _ _ _ _ _ Hvm Hc Hs E) as [(_ & _ & Hr) Hs' Ht].
  destruct (spares_contracts vm e bl n _ n' E) as (? & (? & ? & ?) & (? & ? & _) & ? & ?).
  destruct (Hr Hc) as (Hc' & Hb & Hf). repeat (split; [done|]). done.
Qed.

(** C1: an accepted block balances the books, whatever contracts and orders on the
    exchange it runs.  The transactions it lists are the ones in the pool of the
    node; before it, the coins of the ledger (balances, stakes, rewards) and the
    fees collected so far make up the supply of the last block; its supply is that
    supply and the reward; its fee adds the fees its transactions declare; and
    after it, coins and fees differ from its supply by exactly the fees that were
    declared and not charged. *)
Theorem CheckBlockAndTransferFunds_books {D} `{RocksDBLaws D} `{JSON PubKey} `{JSON (list MerkleNode)}
    `{Hasher} `{OqsLib} vm e newBlock lastBlock trie (n n' : Node D) b' :
  env_syncing e = false -> short_logs vm -> consistent n ->
  solvent (nd_Accounts n) -> map_Forall (fun _ tx => amount_ok tx) (transactions (nd_PoolTxEscrow n)) ->
  CheckBlockAndTransferFunds (EvaluateSmartContracts vm e) e newBlock lastBlock trie n = (Ok b', n') ->
  exists txs, balanced n n' lastBlock newBlock b' txs.
Proof.
  intros He Hvm. apply CheckBlockAndTransferFunds_ok; [done|]. by apply settling_contracts.
Qed.

(** C2: a block that declares a fee the ledger is not charged for (an order on
    the decentralised exchange, or a withdrawal with a positive amount) is
    accepted, and then no block on top of it is: whatever the next block is, and
    whoever proposes it, the check of the supply fails. *)
Theorem uncharged_fee_stops_chain {D} `{RocksDBLaws D} `{JSON PubKey} `{JSON (list MerkleNode)}
    `{Hasher} `{OqsLib} vm e newBlock lastBlock trie (n n' : Node D) b' txs :
  env_syncing e = false -> short_logs vm -> consistent n ->
  solvent (nd_Accounts n) -> map_Forall (fun _ tx => amount_ok tx) (transactions (nd_PoolTxEscrow n)) ->
  CheckBlockAndTransferFunds (EvaluateSmartContracts vm e) e newBlock lastBlock trie n = (Ok b', n') ->
  Forall2 (pool_tx n) (TransactionsHashes newBlock) txs -> ~ eq64 (sum_fees uncharged txs) 0 ->
  forall e2 next trie2 n2, env_syncing e2 = false -> same_ledger n' n2 ->
  refused (fst (CheckBlockAndTransferFunds (EvaluateSmartContracts vm e2) e2 next b' trie2 n2)) = true.
Proof.
  intros He Hvm Hc Hs Ha E Hps Hne e2 next trie2 n2 He2 L.
  destruct (CheckBlockAndTransferFunds _ e2 next b' trie2 n2) as [[b2|err|] n3] eqn:E2; [|done..].
  apply CheckBlockAndTransferFunds_ok in E as (txs' & []); [|done|by apply settling_contracts|done..].
  assert (txs' = txs) as -> by (by eapply pool_txs_fun). destruct Hne.
  apply accepted_before in E2;
    [|done|intros b m m' Hw Em; exact (proj2 (EvaluateSmartContracts_total vm e2 b m m' Hw Em))|by rewrite (proj1 L)].
  rewrite (total_same_ledger _ _ L), bal_after0, bal_block0 in E2. cbn [bl_BaseBlock set_BlockFee] in E2.
  replace (sum_fees uncharged txs) with
    (Supply (bl_BaseBlock newBlock) + sum_fees uncharged txs - Supply (bl_BaseBlock newBlock)) by lia.
  rewrite E2. f_equal. lia.
Qed.

(** ** Closed examples *)

#[local] Existing Instance map_store.
#[local] Existing Instance map_store_laws.
#[local] Existing Instance pk_json.
#[local] Existing Instance node_json.
#[local] Existing Instance toy_hasher.
#[local] Existing Instance small_schemes.

(** Not syncing, preferring the first scheme, with no wallet. *)
Definition still_env : Env := mk_Env 1700000100 false true 0 (fun f => f) map_to_list map_to_list
  (fun _ _ => Err "no wallet") (Ok tt).
Definition operator_addr : Address := toy_address (zeros 3).

(** Transaction of address 1 with a fee of 12. *)
Definition book_tx (to : Address) (amount : Z) : Transaction :=
  sign_toy (mk_Transaction
    (mk_TxData to amount (zeros 800) zero_PubKey 0 0 (mk_Address (arr_zero _) true) 0 (byte_of_Z 0) [])
    (mk_TxParam 23 (flagged 1) 1700000000 7 (arr_zero _)) (arr_zero _) zero_Signature
    5 3 4 [] (flagged 0)).
(** Recipients from 512 on are orders on the exchange; 514 adds liquidity. *)
Definition dex_order : Transaction := book_tx (mk_Address (arr_of AddressLength [byte_of_Z 2; byte_of_Z 2]) true) 0.
Definition transfer_50 : Transaction := book_tx (flagged 2) 50.

Definition books_supply : Z := 2 * MinStakingForNode + 1000 + 40.
Definition books_block_5 : Block := sample_block 5 (arr_zero _) 1000 [] (arr_zero _) 5.
Definition books_db : gmap bytes bytes := snd (StoreBlock books_block_5 op_db).
Definition books_node (tx : Transaction) : Node (gmap bytes bytes) :=
  mk_Node (mk_AccountsType (list_to_map [rich (flagged 1) 1000; rich (flagged 2) 0]) 0)
    (from_ok [] (run_staking_op 7 (OpStake (addr_ByteValue operator_addr) (2 * MinStakingForNode) 1 3 true 0 0) no_stakes))
    (NewTransactionPool 100 0) (NewTransactionPool 100 1) (NewTransactionPool 100 2)
    (snd (StoreToDBPoolTx tx TransactionPoolHashesDBPrefix books_db)) test_config ∅ ∅ false ∅
    (RegisterNewToken CreateStateDB (flagged 0) "Token" "TOK" 2) 6.
Definition books_header (h : Z) : BaseHeader :=
  let f s m := mk_BaseHeader (arr_zero _) 100 h (mk_Address (arr_of AddressLength [byte_of_Z 0; byte_of_Z 3]) true)
    operator_addr (arr_zero _) [] [] s m in
  f (mk_Signature (zeros 4) operator_addr true) (GetBytesWithoutSignature (f zero_Signature [])).
Definition books_block (h supply : Z) (txs : list Hash) (fee : Z) : Block :=
  mk_Block (mk_BaseBlock (books_header h) (arr_zero _) 1700000000 100 supply 5 6 [] []) txs (arr_zero _) fee.
Definition last_block : Block := books_block 6 books_supply [] 40.
Definition next_block (tx : Transaction) : Block :=
  books_block 7 (books_supply + GetReward books_supply) [tx_Hash tx] 0.
Definition books_tree (tx : Transaction) : list MerkleNode * list bytes :=
  from_ok ([], []) (BuildBlockTree (block_leaves [tx_Hash tx])).
Definition run_books (tx : Transaction) : ST (Node (gmap bytes bytes)) Block :=
  CheckBlockAndTransferFunds (EvaluateSmartContracts toy_vm still_env) still_env (next_block tx) last_block (Some (books_tree tx)).
Definition executed (tx : Transaction) : Node (gmap bytes bytes) := snd (run_books tx (books_node tx)).
Definition accepted (tx : Transaction) : Block := set_BlockFee (next_block tx) 52.

Lemma toy_vm_short : short_logs toy_vm.
Proof. split; [done|]. by intros bc o a c g sa l ret sa' [= <- _ _]. Qed.

Lemma books_solvent tx : solvent (nd_Accounts (books_node tx)).
Proof. apply solventb_sound. vm_compute. reflexivity. Qed.
Lemma books_run_transfer : run_books transfer_50 (books_node transfer_50) = (Ok (accepted transfer_50), executed transfer_50).
Proof. apply (run_result (run_books transfer_50)). vm_compute. reflexivity. Qed.
Lemma books_run_dex : run_books dex_order (books_node dex_order) = (Ok (accepted dex_order), executed dex_order).
Proof. apply (run_result (run_books dex_order)). vm_compute. reflexivity. Qed.
Lemma executed_supply : total (executed transfer_50) + BlockFee (accepted transfer_50)
  = Supply (bl_BaseBlock (next_block transfer_50)).
Proof. vm_compute. reflexivity. Qed.
Lemma dex_order_pooled : pool_tx (books_node dex_order) (tx_Hash dex_order) dex_order.
Proof. vm_compute. reflexivity. Qed.

(** The other entries of the database are not pool transactions. *)
Lemma books_db_pools h : DB_Get books_db (pool_key h) = Err "key not found".
Proof.
  assert (db_shrinks ∅ books_db) as Hs.
  { assert (within db_shrinks (StoreBlock (D := gmap bytes bytes) books_block_5)) as Hb
      by (unfold StoreBlock; solve_within).
    pose proof (within_StorePubKey (D := gmap bytes bytes)) as Hk.
    pose proof (within_StoreTrie (D := gmap bytes bytes)) as Ht.
    pose proof (within_FirstPubKey (D := gmap bytes bytes)) as Hc.
    assert (forall A (m : ST (gmap bytes bytes) A) db, within db_shrinks m -> db_shrinks db (snd (m db))) as Hrun
      by (intros A m db Hm; apply (Hm db (fst (m db))); by destruct (m db)).
    unfold books_db, op_db. cbv zeta.
    etransitivity; [|apply Hrun, Hb]. etransitivity; [|apply Hrun, Hk]. etransitivity; [|apply Hrun, Hk].
    etransitivity; [|apply Hrun, Ht]. apply Hrun, Hc. }
  specialize (Hs h). revert Hs. generalize books_db (pool_key h). intros db k Hs.
  assert (DB_Get db k = match db !! k with Some v => Ok v | None => Err "key not found" end) as E
    by (unfold DB_Get; cbn; by destruct (db !! k)).
  rewrite E in *. destruct (db !! k) as [v|]; [|done]. by specialize (Hs v eq_refl).
Qed.

Lemma books_consistent tx : Transaction_GetBytes tx <> [] -> tx_ok test_config (set_OutputLogs tx []) ->
  OutputLogs tx = [] -> consistent (books_node tx).
Proof.
  intros Hne Hok Hl h tx' Hp. apply pool_tx_stored in Hp as (bt & rest & Hg & _ & Hd).
  assert (set_OutputLogs tx [] = tx) as Htx by (destruct tx; cbn in *; by subst). rewrite Htx in Hok.
  cbn [nd_MainDB nd_Config books_node] in Hg, Hd |- *. unfold StoreToDBPoolTx, db_put in Hg.
  destruct (Transaction_GetBytes tx) as [|x bs] eqn:Eb; [done|]. cbn [length Nat.eqb] in Hg.
  destruct (DB_Put books_db _ _) as [db|err|] eqn:E; cbn [snd] in Hg; [|by rewrite books_db_pools in Hg..].
  destruct (decide (h = tx_Hash tx)) as [->|Hdiff].
  - unfold pool_key in Hg. rewrite (DB_Get_Put_eq _ _ _ _ E) in Hg. injection Hg as <-.
    rewrite <- Eb, Transaction_roundtrip in Hd by done. injection Hd as <- _. by rewrite Htx.
  - rewrite (DB_Get_Put_ne _ _ _ _ _ E), books_db_pools in Hg; [done|].
    unfold pool_key. intros Heq. apply app_inv_head in Heq. apply Hdiff. symmetry. by apply arr_eq.
Qed.

Ltac closed_tx_ok :=
  split; try (by vm_compute); [split; try (by vm_compute); [by vm_compute; lia|by left]|by right; vm_compute].
Lemma transfer_50_ok : tx_ok test_config (set_OutputLogs transfer_50 []).
Proof. closed_tx_ok. Qed.
Lemma dex_order_ok : tx_ok test_config (set_OutputLogs dex_order []).
Proof. closed_tx_ok. Qed.

Lemma books_evaluated : EvaluateSmartContracts toy_vm still_env (next_block dex_order) (books_node dex_order)
  = (Ok true, snd (EvaluateSmartContracts toy_vm still_env (next_block dex_order) (books_node dex_order))).
Proof.
  apply (run_result (EvaluateSmartContracts toy_vm still_env (next_block dex_order))). vm_compute. reflexivity.
Qed.
Lemma EvaluateSmartContracts_settled_witness :
  let n' := snd (EvaluateSmartContracts toy_vm still_env (next_block dex_order) (books_node dex_order)) in
  total n' = total (books_node dex_order) /\ solvent (nd_Accounts n') /\
  nd_StakingAccounts n' = nd_StakingAccounts (books_node dex_order) /\
  exists tx', pool_tx n' (tx_Hash dex_order) tx' /\ same_charges dex_order tx'.
Proof.
  cbv zeta.
  destruct (EvaluateSmartContracts_settled toy_vm still_env (next_block dex_order) (books_node dex_order) _
    toy_vm_short (books_consistent dex_order ltac:(done) dex_order_ok ltac:(done)) (books_solvent dex_order)
    books_evaluated) as (Ht & Hs & _ & Hst & _ & _ & _ & _ & _ & _ & _ & Hf).
  do 3 (split; [done|]). apply Hf. exact dex_order_pooled.
Defined.

(** A block with one transfer is accepted; its books stay balanced. *)
Lemma CheckBlockAndTransferFunds_books_witness : exists txs,
  balanced (books_node transfer_50) (executed transfer_50) last_block (next_block transfer_50)
    (accepted transfer_50) txs /\
  total (executed transfer_50) + BlockFee (accepted transfer_50)
    = Supply (bl_BaseBlock (next_block transfer_50)).
Proof.
  destruct (@CheckBlockAndTransferFunds_books _ map_store map_store_laws pk_json node_json toy_hasher
    small_schemes toy_vm still_env (next_block transfer_50) last_block
    (Some (books_tree transfer_50))
    (books_node transfer_50) (executed transfer_50) (accepted transfer_50)) as (txs & Hb).
  - reflexivity.
  - exact toy_vm_short.
  - apply books_consistent; [done|exact transfer_50_ok|done].
  - apply books_solvent.
  - apply map_Forall_empty.
  - exact books_run_transfer.
  - exists txs. split; [exact Hb|exact executed_supply].
Defined.

(** A block with one order on the exchange is accepted; the empty block that comes
    next, with the right supply, is not. *)
Definition block_8 : Block :=
  let supply := Supply (bl_BaseBlock (accepted dex_order)) in
  books_block 8 (supply + GetReward supply) [] 0.
Lemma uncharged_fee_stops_chain_witness :
  refused (fst (CheckBlockAndTransferFunds (EvaluateSmartContracts toy_vm still_env) still_env block_8 (accepted dex_order)
    (Some ([], [])) (executed dex_order))) = true.
Proof.
  apply (@uncharged_fee_stops_chain _ map_store map_store_laws pk_json node_json toy_hasher
    small_schemes toy_vm still_env (next_block dex_order) last_block
    (Some (books_tree dex_order))
    (books_node dex_order) (executed dex_order) (accepted dex_order) [dex_order]).
  - reflexivity.
  - exact toy_vm_short.
  - apply books_consistent; [done|exact dex_order_ok|done].
  - apply books_solvent.
  - apply map_Forall_empty.
  - exact books_run_dex.
  - constructor; [exact dex_order_pooled|constructor].
  - vm_compute. discriminate.
  - reflexivity.
  - split; reflexivity.
Defined.
