(* ===== verification/Message.v ===== *)
(** * Package message: the containers of network messages

    Models message/baseMessage.go and message/baseTransactionMessage.go: the
    header of a message, the table of byte strings by topic, its binary format,
    the check of a received message and the transactions it carries. *)
From S2P Require Import Prelude GoInt GoSlice Common Keys Database Codec Json Accounts EncScheme.
From S2P Require Import Merkle PubKeys Tx.

Definition validHead : list string :=
  ["nn"; "bl"; "rb"; "tx"; "gt"; "st"; "bt"; "hi"; "gh"; "sh"]%string.

Record BaseMessage := mk_BaseMessage { bm_Head : bytes; bm_ChainID : Z }.

Definition BaseMessage_GetBytes (m : BaseMessage) : bytes := bm_Head m ++ GetByteInt16 (bm_ChainID m).

(** Nothing is reported: a wrong length leaves [m] as it is, an unknown head
    leaves its chain ID as it is. *)
Definition BaseMessage_GetFromBytes (m : BaseMessage) (b : bytes) : outcome BaseMessage :=
  if negb (length b =? 4)%nat then Ok m else
  let! head := slice_to b 2 in
  let m := mk_BaseMessage head (bm_ChainID m) in
  if negb (ContainsKey validHead (String.string_of_list_byte head)) then Ok m else
  let! c := slice b 2 4 in
  let! c := GetInt16FromByte c in
  Ok (mk_BaseMessage head c).

Abbreviation topic := (array 2).

Definition topic_of (a b : string) : topic := arr_of 2 (ascii2 a b).
Definition TransactionTopic : topic := topic_of "T" "T".
Definition NonceTopic : topic := topic_of "N" "N".
Definition SelfNonceTopic : topic := topic_of "S" "S".
Definition SyncTopic : topic := topic_of "B" "B".
Definition validTopics : list topic := [NonceTopic; SelfNonceTopic; TransactionTopic; SyncTopic].

Record TransactionsMessage := mk_TransactionsMessage {
  tm_BaseMessage : BaseMessage;
  tm_TransactionsBytes : gmap topic (list bytes)
}.

Definition zero_BaseMessage : BaseMessage := mk_BaseMessage [] 0.
Definition zero_TransactionsMessage : TransactionsMessage := mk_TransactionsMessage zero_BaseMessage ∅.

(** ** Binary format *)

Definition topic_bytes (k : topic) (sb : list bytes) : bytes :=
  arr_bytes k ++ GetByteInt32 (i32 (Z.of_nat (length sb))) ++ concat (map BytesToLenAndBytes sb).

Definition TransactionsMessage_GetBytes (ord : list (topic * list bytes)) (a : TransactionsMessage) : bytes :=
  BaseMessage_GetBytes (tm_BaseMessage a)
  ++ GetByteInt32 (i32 (Z.of_nat (size (tm_TransactionsBytes a))))
  ++ concat (map (fun kv => topic_bytes kv.1 kv.2) ord).

(** [if len(b) < n { return err }; x, b = b[:n], b[n:]] *)
Definition need (n : nat) (err : string) (b : bytes) : outcome (bytes * bytes) :=
  if (length b <? n)%nat then Err err else Ok (take n b, drop n b).

Definition read_item (b : bytes) : outcome (bytes * bytes) :=
  if (length b <? 4)%nat then Err "insufficient bytes for transaction length" else BytesWithLenToBytes b.

Definition read_topic (b : bytes) : outcome (topic * list bytes * bytes) :=
  let! (key, b) := need 2 "insufficient bytes for key" b in
  let! (size, b) := need 4 "insufficient bytes for transactions size" b in
  let! size := GetInt32FromByte size in
  let! (transactions, b) := read_list read_item (Z.to_nat size) b in
  Ok (arr_of 2 key, transactions, b).

Definition TransactionsMessage_GetFromBytes (a : TransactionsMessage) (b : bytes)
    : outcome TransactionsMessage :=
  let! (base, b) := need 4 "insufficient bytes for base message" b in
  let! base := BaseMessage_GetFromBytes (tm_BaseMessage a) base in
  let! (n, b) := need 4 "insufficient bytes for transactions length" b in
  let! n := GetInt32FromByte n in
  let! (m, _) := read_entries read_topic (Z.to_nat n) b ∅ in
  Ok (mk_TransactionsMessage base m).

(** ** The check of a received message; [chainID] is the node's *)

Definition CheckMessage (chainID : Z) (a : TransactionsMessage) : bool :=
  existsb (fun key => bytes_eqb (bm_Head (tm_BaseMessage a)) (String.list_byte_of_string key)) validHead
  && (bm_ChainID (tm_BaseMessage a) =? chainID).

Definition CheckValidMessage (chainID : Z) (m : bytes) : outcome (bool * TransactionsMessage) :=
  match TransactionsMessage_GetFromBytes zero_TransactionsMessage m with
  | Ok amsg => Ok (if CheckMessage chainID amsg then (true, amsg) else (false, zero_TransactionsMessage))
  | Err _ => Ok (false, zero_TransactionsMessage)
  | Panic => Panic
  end.

(** ** The transactions of a message *)

Section Transactions.
Context {D : Type} `{RocksDB D} `{JSON PubKey} `{Hasher} `{OqsLib}.

(** The loop over the byte strings of one topic. *)
Fixpoint topic_transactions (ec : EncryptionConfig) (at_ : AccountsType) (db : D) (t : topic)
    (tbs : list bytes) : outcome (list Transaction) :=
  match tbs with
  | [] => Ok []
  | tb :: tbs =>
      let next := topic_transactions ec at_ db t tbs in
      if (length tb <? 33 + 76)%nat then next else
      match Transaction_GetFromBytes ec tb with
      | Panic => Panic
      | Ok (tx, []) =>
          let! (ok, tx) := Transaction_Verify ec at_ db tx in
          if ok || bool_decide (t = NonceTopic) || bool_decide (t = SelfNonceTopic)
          then let! txs := next in Ok (tx :: txs) else next
      | _ => next
      end
  end.

(** The loop over the topics. *)
Fixpoint topics_transactions (ec : EncryptionConfig) (at_ : AccountsType) (db : D) (a : TransactionsMessage)
    (topics : list topic) (txn : gmap topic (list Transaction)) : outcome (gmap topic (list Transaction)) :=
  match topics with
  | [] => Ok txn
  | t :: topics =>
      match tm_TransactionsBytes a !! t with
      | None => topics_transactions ec at_ db a topics txn
      | Some tbs =>
          let! txs := topic_transactions ec at_ db t tbs in
          topics_transactions ec at_ db a topics (if decide (txs = []) then txn else <[t := txs]> txn)
      end
  end.
Definition GetTransactionsFromBytes (ec : EncryptionConfig) (at_ : AccountsType) (db : D)
    (a : TransactionsMessage) : outcome (gmap topic (list Transaction)) :=
  topics_transactions ec at_ db a validTopics ∅.
End Transactions.

(** ** Lemmas of the format *)

Lemma need_app n err a b : length a = n -> need n err (a ++ b) = Ok (a, b).
Proof.
  intros <-. unfold need. rewrite length_app, take_app_length, drop_app_length.
  by replace (_ <? _)%nat with false by (symmetry; apply Nat.ltb_ge; lia).
Qed.
Lemma need_no_panic n err b : need n err b <> Panic.
Proof. unfold need. by destruct (_ <? _)%nat. Qed.
Lemma need_length n err b x r : need n err b = Ok (x, r) -> length x = n.
Proof. unfold need. destruct (_ <? _)%nat eqn:E; [done|]. intros [= <- _]. zify_bool. rewrite length_take. lia. Qed.

Lemma GetInt32FromByte_4 b : length b = 4%nat -> exists z, GetInt32FromByte b = Ok z.
Proof. intros E. unfold GetInt32FromByte. rewrite E. by eexists. Qed.

Lemma obind_no_panic {A B} (m : outcome A) (k : A -> outcome B) :
  m <> Panic -> (forall a, m = Ok a -> k a <> Panic) -> obind m k <> Panic.
Proof. destruct m; cbn; auto. Qed.

Lemma read_list_no_panic {A} (rd : bytes -> outcome (A * bytes)) n : forall b,
  (forall b, rd b <> Panic) -> read_list rd n b <> Panic.
Proof.
  induction n as [|n IH]; intros b Hrd; cbn; [done|].
  apply obind_no_panic; [done|]. intros [x b'] _. apply obind_no_panic; [by apply IH|]. by intros [].
Qed.

Lemma read_item_no_panic b : read_item b <> Panic.
Proof. unfold read_item. destruct (_ <? _)%nat; [done|]. apply BytesWithLenToBytes_no_panic. Qed.

Lemma read_topic_no_panic b : read_topic b <> Panic.
Proof.
  unfold read_topic. apply obind_no_panic; [apply need_no_panic|]. intros [key b1] _.
  apply obind_no_panic; [apply need_no_panic|]. intros [sz b2] E.
  apply need_length, GetInt32FromByte_4 in E as [z ->]. cbn [obind].
  apply obind_no_panic; [apply read_list_no_panic, read_item_no_panic|]. by intros [].
Qed.

Lemma BaseMessage_GetFromBytes_4 m b : length b = 4%nat ->
  exists m', BaseMessage_GetFromBytes m b = Ok m'.
Proof.
  intros E. unfold BaseMessage_GetFromBytes. rewrite E. cbn [Nat.eqb negb].
  unfold slice_to. rewrite !slice_le by lia. cbn [obind].
  destruct (negb _); [by eexists|]. unfold GetInt16FromByte.
  replace (_ <? 2)%nat with false
    by (symmetry; apply Nat.ltb_ge; rewrite length_take, length_drop; lia). by eexists.
Qed.

Lemma TransactionsMessage_GetFromBytes_no_panic a b : TransactionsMessage_GetFromBytes a b <> Panic.
Proof.
  unfold TransactionsMessage_GetFromBytes. apply obind_no_panic; [apply need_no_panic|].
  intros [base b1] E. apply need_length, (BaseMessage_GetFromBytes_4 (tm_BaseMessage a)) in E as [m ->].
  cbn [obind]. apply obind_no_panic; [apply need_no_panic|]. intros [n b2] E.
  apply need_length, GetInt32FromByte_4 in E as [z ->]. cbn [obind].
  apply obind_no_panic; [apply read_entries_no_panic, read_topic_no_panic|]. by intros [].
Qed.

(** ** Theorems *)

(** A message this node would send: a known head, its chain, counts and lengths
    that fit their fields. *)
Record message_ok (chainID : Z) (a : TransactionsMessage) : Prop := {
  mok_head : String.string_of_list_byte (bm_Head (tm_BaseMessage a)) ∈ validHead;
  mok_chain : bm_ChainID (tm_BaseMessage a) = chainID;
  mok_in16 : in16 chainID;
  mok_size : Z.of_nat (size (tm_TransactionsBytes a)) < 2 ^ 31;
  mok_items : map_Forall (fun _ sb => Z.of_nat (length sb) < 2 ^ 31 /\ Forall short sb) (tm_TransactionsBytes a)
}.

Lemma list_byte_of_string_of h s :
  String.string_of_list_byte h = s -> h = String.list_byte_of_string s.
Proof. intros <-. by rewrite String.list_byte_of_string_of_list_byte. Qed.

Lemma valid_head_length h : String.string_of_list_byte h ∈ validHead -> length h = 2%nat.
Proof.
  intros Hin. apply list_elem_of_lookup in Hin as [i Hi].
  do 10 (destruct i as [|i]; [injection Hi as Hi; symmetry in Hi; apply list_byte_of_string_of in Hi; by subst|]).
  done.
Qed.

Lemma read_topic_app k sb rest :
  Z.of_nat (length sb) < 2 ^ 31 -> Forall short sb ->
  read_topic (topic_bytes k sb ++ rest) = Ok (k, sb, rest).
Proof.
  intros Hl Hs. unfold read_topic, topic_bytes. rewrite <- !app_assoc.
  rewrite need_app by apply arr_length. cbn [obind].
  rewrite need_app by apply GetByteInt32_length. cbn [obind].
  rewrite i32_id by (unfold in32; lia). rewrite GetInt32FromByte_exact by (unfold in32; lia).
  cbn [obind]. rewrite Nat2Z.id, (read_list_app _ BytesToLenAndBytes).
  - cbn [obind]. by rewrite arr_of_arr.
  - intros x r Hx. unfold read_item. rewrite length_app, BytesToLenAndBytes_length.
    replace (_ <? _)%nat with false by (symmetry; apply Nat.ltb_ge; lia).
    apply BytesWithLenToBytes_app. rewrite Forall_forall in Hs. by apply Hs.
Qed.

Lemma BaseMessage_roundtrip m0 m :
  String.string_of_list_byte (bm_Head m) ∈ validHead -> in16 (bm_ChainID m) ->
  BaseMessage_GetFromBytes m0 (BaseMessage_GetBytes m) = Ok m.
Proof.
  intros Hh Hc. pose proof (valid_head_length _ Hh) as Hl.
  unfold BaseMessage_GetFromBytes, BaseMessage_GetBytes.
  rewrite length_app, Hl, GetByteInt16_length. cbn [Nat.add Nat.eqb negb].
  rewrite slice_prefix by (by rewrite Hl). cbn [obind].
  replace (ContainsKey _ _) with true
    by (symmetry; apply existsb_exists; eexists; split; [apply list_elem_of_In, Hh|apply String.eqb_refl]).
  cbn [negb]. rewrite <- (app_nil_r (GetByteInt16 _)).
  rewrite slice_app_exact by (by rewrite Hl, ?GetByteInt16_length). cbn [obind].
  rewrite GetInt16FromByte_exact by done. by destruct m.
Qed.

(** What follows a message is not read. *)
Lemma CheckValidMessage_sent_tail chainID ord a rest :
  message_ok chainID a -> enumerates ord (tm_TransactionsBytes a) ->
  CheckValidMessage chainID (TransactionsMessage_GetBytes ord a ++ rest) = Ok (true, a).
Proof.
  intros [Hh Hc H16 Hs Hi] Ho. unfold CheckValidMessage.
  assert (TransactionsMessage_GetFromBytes zero_TransactionsMessage (TransactionsMessage_GetBytes ord a ++ rest) = Ok a) as ->.
  { unfold TransactionsMessage_GetFromBytes, TransactionsMessage_GetBytes.
    pose proof (valid_head_length _ Hh) as Hl. rewrite <- !app_assoc.
    rewrite need_app by (unfold BaseMessage_GetBytes; by rewrite length_app, Hl, GetByteInt16_length).
    cbn [obind]. rewrite BaseMessage_roundtrip by (done || by rewrite Hc). cbn [obind].
    rewrite need_app by apply GetByteInt32_length. cbn [obind].
    rewrite i32_id by (unfold in32; lia). rewrite GetInt32FromByte_exact by (unfold in32; lia).
    cbn [obind]. rewrite Nat2Z.id, <- (enumerates_length _ _ Ho).
    rewrite (read_entries_app _ topic_bytes).
    - cbn [obind]. rewrite (insert_all_enumerates _ _ Ho). by destruct a.
    - intros k v r Hin. eapply enumerates_elem in Hin; [|exact Ho].
      destruct (Hi _ _ Hin). by apply read_topic_app. }
  unfold CheckMessage. rewrite Hc, Z.eqb_refl, andb_true_r.
  replace (existsb _ _) with true; [done|]. symmetry. apply existsb_exists.
  eexists. split; [apply list_elem_of_In, Hh|].
  rewrite String.list_byte_of_string_of_list_byte. by apply bool_decide_eq_true_2.
Qed.
Lemma CheckValidMessage_sent chainID ord a :
  message_ok chainID a -> enumerates ord (tm_TransactionsBytes a) ->
  CheckValidMessage chainID (TransactionsMessage_GetBytes ord a) = Ok (true, a).
Proof. intros. rewrite <- (app_nil_r (TransactionsMessage_GetBytes _ _)). by apply CheckValidMessage_sent_tail. Qed.

(** a message with a known head and the chain's identifier, with fewer than
    2^31 topics and items and items shorter than 2^32, is accepted by a node of that
    chain, which reads the message that was sent, in whatever order the sender
    visited the map of its topics. *)
Theorem CheckValidMessage_roundtrip chainID ord a :
  message_ok chainID a -> enumerates ord (tm_TransactionsBytes a) ->
  CheckValidMessage chainID (TransactionsMessage_GetBytes ord a) = Ok (true, a).
Proof. apply CheckValidMessage_sent. Qed.

(** the check of the bytes that arrive from the network always returns, for
    every byte string; a message it accepts has one of the known heads and the
    chain's identifier. *)
Theorem CheckValidMessage_sound chainID m : exists ok a,
  CheckValidMessage chainID m = Ok (ok, a) /\
  (ok = true -> String.string_of_list_byte (bm_Head (tm_BaseMessage a)) ∈ validHead /\
                bm_ChainID (tm_BaseMessage a) = chainID).
Proof.
  unfold CheckValidMessage.
  pose proof (TransactionsMessage_GetFromBytes_no_panic zero_TransactionsMessage m).
  destruct (TransactionsMessage_GetFromBytes _ m) as [a|e|]; [|by do 2 eexists|done].
  destruct (CheckMessage chainID a) eqn:E; [|by do 2 eexists].
  do 2 eexists. split; [done|]. intros _. unfold CheckMessage in E. zify_bool. split; [|done].
  match goal with Hx : existsb _ _ = true |- _ => apply existsb_exists in Hx as (k & Hk & Hb) end.
  apply bool_decide_eq_true_1 in Hb. rewrite Hb, String.string_of_list_byte_of_string.
  by apply list_elem_of_In.
Qed.

Section Verified.
Context {D : Type} `{RocksDB D} `{JSON PubKey} `{Hasher} `{OqsLib}.
Implicit Types (ec : EncryptionConfig) (t : topic) (tx : Transaction).

(** The transaction was decoded from one of the strings and passed [Verify]. *)
Definition delivered ec at_ (db : D) (tbs : list bytes) tx : Prop :=
  exists tb tx0, tb ∈ tbs /\ Transaction_GetFromBytes ec tb = Ok (tx0, []) /\
    Transaction_Verify ec at_ db tx0 = Ok (true, tx).

Lemma topic_transactions_delivered ec at_ db t tbs txs :
  t <> NonceTopic -> t <> SelfNonceTopic ->
  topic_transactions ec at_ db t tbs = Ok txs -> Forall (delivered ec at_ db tbs) txs.
Proof.
  intros Hn Hs. revert txs. induction tbs as [|tb tbs IH]; intros txs; cbn [topic_transactions].
  { intros [= <-]. constructor. }
  assert (forall tx, delivered ec at_ db tbs tx -> delivered ec at_ db (tb :: tbs) tx) as Hmono
    by (intros tx (b & t0 & Hb & ?); exists b, t0; split; [by apply list_elem_of_further|done]).
  assert (forall txs, topic_transactions ec at_ db t tbs = Ok txs ->
    Forall (delivered ec at_ db (tb :: tbs)) txs) as Hnext
    by (intros ? E; eapply Forall_impl; [exact (IH _ E)|done]).
  destruct (_ <? _)%nat; [apply Hnext|].
  destruct (Transaction_GetFromBytes ec tb) as [[tx [|]]|e|] eqn:Ed; [|apply Hnext..|done].
  intros E. apply obind_ok_inv in E as ([ok tx'] & Ev & E).
  rewrite !bool_decide_eq_false_2, !orb_false_r in E by done. destruct ok; [|by apply Hnext].
  apply obind_ok_inv in E as (txs' & E & [= <-]). constructor; [|by apply Hnext].
  exists tb, tx. split; [apply list_elem_of_here|done].
Qed.

Lemma topics_transactions_delivered ec at_ db a t topics txn0 txn txs :
  t <> NonceTopic -> t <> SelfNonceTopic ->
  topics_transactions ec at_ db a topics txn0 = Ok txn -> txn !! t = Some txs ->
  txn0 !! t = Some txs \/
  t ∈ topics /\ exists tbs, tm_TransactionsBytes a !! t = Some tbs /\ Forall (delivered ec at_ db tbs) txs.
Proof.
  intros Hn Hs. revert txn0. induction topics as [|x topics IH]; intros txn0; cbn; [intros [= ->]; by left|].
  assert (forall txn1, topics_transactions ec at_ db a topics txn1 = Ok txn -> txn !! t = Some txs ->
    txn1 !! t = Some txs \/
    t ∈ x :: topics /\ exists tbs, tm_TransactionsBytes a !! t = Some tbs /\ Forall (delivered ec at_ db tbs) txs)
    as IH' by (intros ? E Ht; destruct (IH _ E Ht) as [|[? ?]]; [by left|right; split; [by constructor|done]]).
  clear IH. destruct (tm_TransactionsBytes a !! x) as [tbs|] eqn:Ex; [|apply IH'].
  intros E Ht. apply obind_ok_inv in E as (txs0 & Ett & E). specialize (IH' _ E Ht). clear E.
  case_decide; [done|]. destruct (decide (x = t)) as [->|Hne].
  - right. rewrite lookup_insert_eq in IH'. destruct IH' as [[= ->]|?]; [|done].
    split; [by constructor|]. exists tbs. split; [done|]. by eapply topic_transactions_delivered.
  - by rewrite lookup_insert_ne in IH' by done.
Qed.

End Verified.

(** ** Closed examples *)

Definition tx_message : TransactionsMessage :=
  mk_TransactionsMessage (mk_BaseMessage (ascii2 "t" "x") 23)
    {[ TransactionTopic := [Transaction_GetBytes sample_tx] ]}.
Definition tx_message_order : list (topic * list bytes) := [(TransactionTopic, [Transaction_GetBytes sample_tx])].

Lemma tx_message_ok : message_ok 23 tx_message.
Proof.
  split.
  - change (String.string_of_list_byte _) with "tx"%string. unfold validHead.
    do 3 apply list_elem_of_further. apply list_elem_of_here.
  - done.
  - by vm_compute.
  - by vm_compute.
  - cbn [tm_TransactionsBytes tx_message]. apply map_Forall_singleton. split; [done|]. by repeat constructor.
Qed.

Lemma CheckValidMessage_roundtrip_witness :
  CheckValidMessage 23 (TransactionsMessage_GetBytes tx_message_order tx_message) = Ok (true, tx_message).
Proof.
  apply CheckValidMessage_roundtrip; [exact tx_message_ok|].
  unfold enumerates. cbn [tm_TransactionsBytes tx_message]. by rewrite map_to_list_singleton.
Defined.

Lemma tx_message_transactions :
  @GetTransactionsFromBytes _ _ pk_json toy_hasher two_schemes test_config
    (mk_AccountsType ∅ 0) (∅ : gmap bytes bytes) tx_message = Ok {[ TransactionTopic := [sample_tx] ]}.
Proof. vm_compute. reflexivity. Qed.

