(* ===== verification/Reset.v ===== *)
(** * Package services: going back to an earlier height

    Models services/helperReset.go.  The state of the services is the record
    [Server]: the node, the syncing flag, the two oracle tables, the distance of
    the next reset, the greatest height heard of, and what was sent to peers.  The searches for the last stored
    height have fuel, so a program here may have no result ([None]). *)
From S2P Require Import Prelude GoInt GoSlice Sums Common Keys Database Codec Float64 Json Accounts.
From S2P Require Import Staking StakingCodec Dex EncScheme Merkle PubKeys Tx Heap Pool StateDB Node Ledger.
From S2P Require Import Block Oracles BlockProcess Message.

(** What the services tell the table of peers, the subscriptions they start, and
    the bytes they put into the channel of a service for a peer. *)
Inductive event :=
| ReduceAndCheckIfBanIP (ip : bytes)
| ValidRegisterPeer (ip : bytes)
| NodeRegisterPeer (ip : bytes)
| StartSubscribing (service : topic) (ip : bytes)
| Send (service : topic) (ip : bytes) (nb : bytes).

(** The chain, the height from which it counts as reached, the node's own address,
    and the table of peers: those connected to a service in the order in which
    their map is visited, their number, the peer offered to others, the bans. *)
Record Network := mk_Network {
  nw_ChainID : Z;
  nw_CurrentHeightOfNetwork : Z;
  nw_MyIP : bytes;
  nw_GetPeersConnected : topic -> list bytes;
  nw_GetPeersCount : Z;
  nw_GetIPsConnected : list bytes;
  nw_IsIPBanned : bytes -> bool
}.

Record Server (D : Type) := mk_Server {
  sv_Node : Node D;
  sv_IsSyncing : bool;
  sv_PriceOracles : oracle_map;
  sv_RandOracles : oracle_map;
  sv_ShiftToPastInReset : Z;
  sv_HeightMax : Z;
  sv_events : list event
}.
Arguments mk_Server {D}.
Arguments sv_Node {D}.
Arguments sv_IsSyncing {D}.
Arguments sv_PriceOracles {D}.
Arguments sv_RandOracles {D}.
Arguments sv_ShiftToPastInReset {D}.
Arguments sv_HeightMax {D}.
Arguments sv_events {D}.

(** ** Programs that may run out of fuel *)

Definition FST (S A : Type) : Type := S -> option (outcome A * S).
Definition f_run {S A} (m : ST S A) : FST S A := fun s => Some (m s).
Definition f_bind {S A B} (m : FST S A) (k : A -> FST S B) : FST S B := fun s =>
  match m s with
  | None => None
  | Some (Ok a, s') => k a s'
  | Some (Err e, s') => Some (Err e, s')
  | Some (Panic, s') => Some (Panic, s')
  end.
Notation "'fuel!' x <- m ; k" := (f_bind m (fun x => k))
  (at level 10, x pattern, m at level 100, k at level 200) : go_scope.

Section Reset.
Context {D : Type} `{RocksDB D} `{JSON PubKey} `{JSON (list MerkleNode)} `{Hasher} `{OqsLib}.

Definition node_l : lens (Server D) (Node D) := mk_lens sv_Node
  (fun x s => mk_Server x (sv_IsSyncing s) (sv_PriceOracles s) (sv_RandOracles s) (sv_ShiftToPastInReset s) (sv_HeightMax s) (sv_events s)).
Definition syncing_l : lens (Server D) bool := mk_lens sv_IsSyncing
  (fun x s => mk_Server (sv_Node s) x (sv_PriceOracles s) (sv_RandOracles s) (sv_ShiftToPastInReset s) (sv_HeightMax s) (sv_events s)).
Definition oracles_l : lens (Server D) (oracle_map * oracle_map) :=
  mk_lens (fun s => (sv_PriceOracles s, sv_RandOracles s))
  (fun x s => mk_Server (sv_Node s) (sv_IsSyncing s) x.1 x.2 (sv_ShiftToPastInReset s) (sv_HeightMax s) (sv_events s)).
Definition shift_l : lens (Server D) Z := mk_lens sv_ShiftToPastInReset
  (fun x s => mk_Server (sv_Node s) (sv_IsSyncing s) (sv_PriceOracles s) (sv_RandOracles s) x (sv_HeightMax s) (sv_events s)).
Definition heightmax_l : lens (Server D) Z := mk_lens sv_HeightMax
  (fun x s => mk_Server (sv_Node s) (sv_IsSyncing s) (sv_PriceOracles s) (sv_RandOracles s) (sv_ShiftToPastInReset s) x (sv_events s)).
Definition emit (ev : event) : ST (Server D) unit := st_modify
  (fun s => mk_Server (sv_Node s) (sv_IsSyncing s) (sv_PriceOracles s) (sv_RandOracles s) (sv_ShiftToPastInReset s) (sv_HeightMax s) (sv_events s ++ [ev])).

Definition AdjustShiftInPastInReset (height : Z) : ST (Server D) unit := st_modify (fun s =>
  let h := nd_Height (sv_Node s) in
  if height -! h <=? 0 then l_set shift_l 1 s else
  let x := sv_ShiftToPastInReset s *! 2 in
  let x := if height <? x then height else x in
  l_set shift_l (if x <? 1 then 1 else x) s).

(** A loader reads the database and changes one field of the node. *)
Definition load_with {F} (l : lens (Node D) F) (m : D -> F -> option (outcome unit * F)) : FST (Node D) unit := fun n =>
  match m (nd_MainDB n) (l_get l n) with
  | None => None
  | Some (r, x) => Some (r, l_set l x n)
  end.
Definition load_accounts (fuel : nat) (height : Z) : FST (Node D) unit :=
  load_with accounts_l (fun db => LoadAccounts db fuel height).
Definition load_staking (fuel : nat) (height : Z) : FST (Node D) unit :=
  load_with staking_l (fun db => LoadStakingAccounts db fuel height).

(** The last height a search finds; its error is only logged. *)
Definition last_stored (search : D -> nat -> option (Z * bool)) (fuel : nat) : FST (Node D) Z := fun n =>
  match search (nd_MainDB n) fuel with
  | None => None
  | Some (i, _) => Some (Ok i, n)
  end.

(** [for i := last; i > height; i-- { remove(i) }], errors logged; [n] is the
    number of rounds. *)
Fixpoint remove_down (remove : Z -> ST (Node D) unit) (n : nat) (i : Z) : ST (Node D) unit :=
  match n with
  | O => st_ret tt
  | S n => run! logged (remove i); remove_down remove n (i - 1)
  end.
Definition remove_above (remove : Z -> ST (Node D) unit) (last height : Z) : ST (Node D) unit :=
  remove_down remove (Z.to_nat (last - height)) last.

Definition remove_blocks (i : Z) : ST (Node D) unit := on db_l (RemoveBlockFromDB i).
Definition remove_accounts (i : Z) : ST (Node D) unit := on_ok db_l (fun db => RemoveAccountsFromDB db i).
Definition remove_staking (i : Z) : ST (Node D) unit := on db_l (RemoveStakingAccountsFromDB i).
Definition remove_dex (i : Z) : ST (Node D) unit := on_ok db_l (fun db => RemoveDexAccountsFromDB db i).
Definition remove_merkle (i : Z) : ST (Node D) unit := on db_l (RemoveMerkleTrieFromDB i).

Definition revert_vm (height : Z) : ST (Node D) unit :=
  on_ok state_l (fun sa => RevertVMToBlockHeight sa height).

(** The function from [account.LoadAccounts(height)] on. *)
Definition reset_to (fuel : nat) (height : Z) : FST (Node D) unit :=
  fuel! _ <- load_accounts fuel height;
  fuel! _ <- load_staking fuel height;
  fuel! ha <- last_stored LastHeightStoredInAccounts fuel;
  fuel! hsa <- last_stored LastHeightStoredInStakingAccounts fuel;
  fuel! hb <- last_stored LastHeightStoredInBlocks fuel;
  fuel! _ <- f_run (SetEncryptionFromBlock height);
  fuel! hd <- last_stored LastHeightStoredInDexAccounts fuel;
  fuel! _ <- f_run (
    run! revert_vm height;
    run! remove_above remove_blocks hb height;
    run! remove_above remove_accounts ha height;
    run! remove_above remove_staking hsa height;
    remove_above remove_dex hd height);
  fuel! hm <- last_stored LastHeightStoredInMerleTrie fuel;
  f_run (run! remove_above remove_merkle hm height;
         on height_l (st_put height)).

Definition on_node {A} (m : FST (Node D) A) : FST (Server D) A := fun s =>
  match m (sv_Node s) with
  | None => None
  | Some (r, n) => Some (r, l_set node_l n s)
  end.

(** An error returns from the function, which reports nothing. *)
Definition f_logged {S} (m : FST S unit) : FST S unit := fun s =>
  match m s with
  | Some (Err _, s') => Some (Ok tt, s')
  | r => r
  end.

Definition ResetAccountsAndBlocksSync (fuel : nat) (height : Z) : FST (Server D) unit := fun s =>
  if (height <? 0) && (nd_Height (sv_Node s) =? 0) then Some (Ok tt, l_set syncing_l true s) else
  f_logged (on_node (reset_to fuel (Z.max height 0))) s.
End Reset.

(** ** What a reset deletes *)

(** A store whose operations do not fail. *)
Class Reliable (D : Type) `{RocksDB D} := {
  reliable_get (db : D) k : exists v, rdb_get db k = Ok v;
  reliable_put (db : D) k v : exists db', rdb_put db k v = Ok db';
  reliable_delete (db : D) k : exists db', rdb_delete db k = Ok db'
}.
#[export] Instance map_store_reliable : Reliable (gmap bytes bytes).
Proof. split; intros; by eexists. Qed.

(** The keys a reset to [h] may delete. *)
Definition doomed (h : Z) (k : bytes) : Prop :=
  (exists i, h < i < 2 ^ 63 /\ k ∈ [height_key i; accounts_key i; dex_key i; tree_key i; root_key i;
                                    hashes_key i; staking_key i 0]) \/
  (exists hash, k = block_key hash) \/
  (exists i r, k = staking_prefix i ++ r /\ (2 <= length r)%nat).

Lemma height_inj (i j : Z) : in64 i -> in64 j -> GetByteInt64 i = GetByteInt64 j -> i = j.
Proof.
  intros Hi Hj E. pose proof (GetInt64FromByte_exact _ Hi) as Ei. rewrite E, GetInt64FromByte_exact in Ei by done.
  by injection Ei.
Qed.
Lemma height_key_kept h j : 0 <= j <= h -> h < 2 ^ 63 -> ~ doomed h (height_key j).
Proof.
  intros Hj Hh [(i & Hi & Hk)|[(x & Hk)|(i & r & Hk & _)]]; [|done..].
  rewrite !elem_of_cons, elem_of_nil in Hk. destruct Hk as [Hk|[|[|[|[|[|[|]]]]]]]; try done.
  apply app_inv_head, height_inj in Hk; unfold in64; lia.
Qed.
Lemma accounts_key_kept h j : 0 <= j <= h -> h < 2 ^ 63 -> ~ doomed h (accounts_key j).
Proof.
  intros Hj Hh [(i & Hi & Hk)|[(x & Hk)|(i & r & Hk & _)]]; [|done..].
  rewrite !elem_of_cons, elem_of_nil in Hk. destruct Hk as [|[Hk|[|[|[|[|[|]]]]]]]; try done.
  apply app_inv_head, height_inj in Hk; unfold in64; lia.
Qed.
Lemma staking_key_kept h j k : 1 <= k < 256 -> ~ doomed h (staking_key j k).
Proof.
  intros Hj [(i & Hi & Hk)|[(x & Hk)|(i & r & Hk & Hr)]]; [|done|].
  - rewrite !elem_of_cons, elem_of_nil in Hk. destruct Hk as [|[|[|[|[|[|[Hk|]]]]]]]; try done.
    apply app_inj_2 in Hk as [_ Hk]; [|done]. injection Hk as Hk.
    apply (f_equal byte_to_Z) in Hk. rewrite !byte_to_of_Z, !Z.mod_small in Hk by lia. lia.
  - apply (f_equal length) in Hk. rewrite staking_key_length, length_app, staking_prefix_length in Hk. lia.
Qed.

Section Drops.
Context {D : Type} `{RocksDBLaws D}.
Implicit Types (db : D).

(** Keys disappear, only doomed ones. *)
Definition drops (h : Z) db db' : Prop :=
  (forall k, rdb_get db k = Ok None -> rdb_get db' k = Ok None) /\
  (forall k, ~ doomed h k -> rdb_get db' k = rdb_get db k).
#[export] Instance drops_preorder h : PreOrder (drops h).
Proof.
  split; [by intros db|]. intros a b c [A1 T1] [A2 T2]. split; [auto|]. intros k Hk. by rewrite T2, T1.
Qed.

Lemma delete_drops h db db' k : doomed h k -> DB_Delete db k = Ok db' -> drops h db db'.
Proof.
  intros Hk E. destruct k as [|x k]; [done|]. cbn [DB_Delete] in E. split.
  - intros k' Hn. destruct (decide (x :: k = k')) as [<-|Hne].
    + exact (rdb_get_delete_eq _ _ _ E).
    + by rewrite (rdb_get_delete_ne _ _ _ _ E Hne).
  - intros k' Hn. apply (rdb_get_delete_ne _ _ _ _ E). by intros <-.
Qed.
Lemma within_delete_drops h k : doomed h k -> within (drops h) (db_delete (D := D) k).
Proof.
  intros Hk db r db'. unfold db_delete. destruct (DB_Delete db k) as [d|e|] eqn:E; intros [= _ <-];
    [by eapply delete_drops|done..].
Qed.

(** The loop deletes the table 0, then keys with more than one byte behind the
    height. *)
Lemma remove_loop_drops h height m : forall r i, (1 <= length r)%nat ->
  within (drops h) (remove_staking_loop (D := D) (staking_prefix height ++ r) i m).
Proof.
  induction m as [|m IH]; intros r i Hl; cbn [remove_staking_loop]; [eauto with within|].
  rewrite <- app_assoc. apply within_bind; [exact _|apply within_delete_drops|intros _; apply IH].
  - right; right. eexists _, _. split; [reflexivity|]. rewrite length_app. cbn [length]. lia.
  - rewrite length_app. cbn [length]. lia.
Qed.
Lemma within_RemoveStaking h height : h < height < 2 ^ 63 ->
  within (drops h) (RemoveStakingAccountsFromDB (D := D) height).
Proof.
  intros Hh. unfold RemoveStakingAccountsFromDB. change 256%nat with (S 255). generalize 255%nat as m. intros m.
  rewrite remove_staking_loop_S. apply within_bind; [exact _|apply within_delete_drops|intros _].
  - left. exists height. split; [done|]. rewrite !elem_of_cons. do 6 right. by left.
  - by apply remove_loop_drops.
Qed.

(** A scan sees every height up to the one it finds. *)
Lemma last_height_below key db fuel : forall i r ok, in64 i ->
  last_height_loop key db fuel i = Some (r, ok) ->
  r < 2 ^ 63 - 1 /\ forall j, i <= j <= r -> DB_IsKey db (key j) = Ok true.
Proof.
  induction fuel as [|fuel IH]; intros i r ok Hi; [done|]. cbn [last_height_loop].
  destruct (DB_IsKey db (key i)) as [[]|e|] eqn:E; try (intros [= <- <-]; unfold in64 in Hi; split; lia).
  intros Hr. apply IH in Hr as [Hb Hr]; [|apply i64_in64]. split; [done|]. intros j Hj.
  destruct (decide (j = i)) as [->|Hne]; [done|]. apply Hr. unfold add64. rewrite i64_id; unfold in64 in *; lia.
Qed.
Context `{!Reliable D}.
Lemma last_height_above key db fuel : forall i r ok, (forall j, key j <> []) ->
  last_height_loop key db fuel i = Some (r, ok) -> rdb_get db (key (r + 1)) = Ok None.
Proof.
  induction fuel as [|fuel IH]; intros i r ok Hk; [done|]. cbn [last_height_loop].
  destruct (DB_IsKey db (key i)) as [[]|e|] eqn:E; [by apply IH|..].
  all: intros [= <- <-]; replace (i - 1 + 1) with i by lia; unfold DB_IsKey in E;
    destruct (reliable_get db (key i)) as [v Hv]; rewrite Hv in E |- *; specialize (Hk i);
    by destruct (key i), v.
Qed.
(** A scan ends at the first absent height. *)
Lemma last_height_first key db m : (forall k, key k <> []) -> 0 <= m < 2 ^ 63 - 1 ->
  rdb_get db (key m) = Ok None -> forall fuel i, 0 <= i <= m -> (Z.to_nat (m - i) < fuel)%nat -> exists r,
  last_height_loop key db fuel i = Some (r, true) /\ i - 1 <= r < m /\
  (forall j, i <= j <= r -> DB_IsKey db (key j) = Ok true) /\ DB_IsKey db (key (r + 1)) = Ok false.
Proof.
  intros Hk Hb Hm. assert (forall j, DB_IsKey db (key j) = Ok true \/ DB_IsKey db (key j) = Ok false) as Htot.
  { intros j. unfold DB_IsKey. specialize (Hk j). destruct (key j) as [|c k]; [done|].
    destruct (reliable_get db (c :: k)) as [[v|] ->]; cbn; auto. }
  assert (DB_IsKey db (key m) = Ok false) as Hout.
  { unfold DB_IsKey. specialize (Hk m). destruct (key m); [done|]. by rewrite Hm. }
  induction fuel as [|fuel IH]; intros i Hi Hf; [lia|]. cbn [last_height_loop].
  destruct (Htot i) as [Ei|Ei]; rewrite Ei.
  - assert (i <> m) by congruence. unfold add64. rewrite i64_id by (unfold in64; lia).
    destruct (IH (i + 1) ltac:(lia) ltac:(lia)) as (r & E & Hr & Hin & Hr1).
    exists r. split; [done|]. split; [lia|]. split; [|done]. intros j Hj.
    destruct (decide (j = i)) as [->|]; [done|]. apply Hin. lia.
  - exists (i - 1). split; [done|]. split; [|split; [lia|by replace (i - 1 + 1) with i by lia]].
    split; [lia|]. destruct (decide (i = m)); lia.
Qed.
Lemma last_height_drops key h db db' fuel : drops h db db' -> forall i x,
  last_height_loop key db fuel i = Some x -> exists y, last_height_loop key db' fuel i = Some y.
Proof.
  intros [Hd _]. induction fuel as [|fuel IH]; intros i x; [done|]. cbn [last_height_loop].
  specialize (Hd (key i)). unfold DB_IsKey. destruct (key i) as [|c k]; [by eexists|].
  destruct (reliable_get db (c :: k)) as [v Hv], (reliable_get db' (c :: k)) as [v' Hv'].
  rewrite Hv in Hd |- *. rewrite Hv' in Hd |- *. cbn [obind].
  destruct v' as [w'|]; [|by eexists]. destruct v as [w|]; [apply IH|by specialize (Hd eq_refl)].
Qed.

(** When the heights above [h] are gone, a scan finds [h]. *)
Lemma scan_after_drop key h db db' fuel last ok :
  drops h db db' -> (forall j, key j <> []) -> 0 <= h <= last -> h < 2 ^ 63 - 2 ->
  (forall j, 0 <= j <= h -> ~ doomed h (key j)) ->
  last_height_loop key db fuel 0 = Some (last, ok) ->
  (forall i, h < i <= last -> rdb_get db' (key i) = Ok None) ->
  forall fuel', (Z.to_nat (h + 1) < fuel')%nat -> last_height_loop key db' fuel' 0 = Some (h, true).
Proof.
  intros [Hd1 Hd2] Hk Hh Hh2 Hkept Hl Hgone fuel' Hf.
  destruct (last_height_below key db fuel 0 last ok ltac:(done) Hl) as [Hb Hin].
  rewrite (last_height_loop_spec key db' fuel' 0 (h + 1)); [do 2 f_equal; lia|lia..| |].
  - intros j Hj. specialize (Hin j ltac:(lia)). unfold DB_IsKey in *. destruct (key j) eqn:E; [done|].
    rewrite <- E, Hd2 by (apply Hkept; lia). by rewrite E.
  - assert (rdb_get db' (key (h + 1)) = Ok None) as Hn.
    { destruct (decide (h = last)) as [->|]; [|by apply Hgone; lia]. apply Hd1. exact (last_height_above _ _ _ _ _ _ Hk Hl). }
    unfold DB_IsKey. specialize (Hk (h + 1)). destruct (key (h + 1)); [done|]. by rewrite Hn.
Qed.
End Drops.

(** ** The loops *)

(** Everything else the removals leave alone. *)
Section Loops.
Context {D : Type} `{RocksDBLaws D} `{!Reliable D} `{JSON PubKey} `{JSON (list MerkleNode)} `{Hasher} `{OqsLib}.
Implicit Types (n : Node D) (db : D) (s : Server D).

Definition frame (h : Z) n n' : Prop :=
  (nd_Accounts n' = nd_Accounts n /\ nd_StakingAccounts n' = nd_StakingAccounts n /\
   nd_DexAccounts n' = nd_DexAccounts n /\ nd_Height n' = nd_Height n) /\
  (nd_PoolsTx n' = nd_PoolsTx n /\ nd_PoolTxEscrow n' = nd_PoolTxEscrow n /\
   nd_PoolTxMultiSign n' = nd_PoolTxMultiSign n) /\
  drops h (nd_MainDB n) (nd_MainDB n').
#[export] Instance frame_preorder h : PreOrder (frame h).
Proof.
  split; [by intros n|]. intros a b c (A1 & B1 & D1) (A2 & B2 & D2).
  split; [intuition congruence|]. split; [intuition congruence|]. by transitivity (nd_MainDB b).
Qed.

(** A removal touches doomed keys, does not panic, and leaves nothing under [key]. *)
Record removal (h : Z) (key : Z -> bytes) (remove : Z -> ST (Node D) unit) : Prop := {
  rm_within i : h < i < 2 ^ 63 -> within (frame h) (remove i);
  rm_calm i n : fst (remove i n) <> Panic;
  rm_gone i n r n' : remove i n = (r, n') -> rdb_get (nd_MainDB n') (key i) = Ok None
}.

Lemma frame_db h n x : drops h (nd_MainDB n) x -> frame h n (l_set db_l x n).
Proof. intros Hd. by split; [|split]. Qed.
Lemma calm_delete k db : fst (db_delete k db) <> Panic.
Proof.
  unfold db_delete, DB_Delete. destruct k as [|c k]; [done|].
  by destruct (reliable_delete db (c :: k)) as [db' ->].
Qed.
Lemma gone_delete k db r db' : k <> [] -> db_delete k db = (r, db') -> rdb_get db' k = Ok None.
Proof.
  intros Hk. unfold db_delete. destruct (DB_Delete db k) as [d|e|] eqn:E; intros [= _ <-].
  all: unfold DB_Delete in E; destruct k as [|c k]; [done|].
  - exact (rdb_get_delete_eq _ _ _ E).
  - destruct (reliable_delete db (c :: k)) as [d Hd]. congruence.
  - destruct (reliable_delete db (c :: k)) as [d Hd]. congruence.
Qed.

(** The removal of one key. *)
Lemma removal_delete h (key : Z -> bytes) (m : Z -> ST (Node D) unit) :
  (forall i, h < i < 2 ^ 63 -> doomed h (key i)) -> (forall i, key i <> []) ->
  (forall i n, m i n = on db_l (db_delete (key i)) n) -> removal h key m.
Proof.
  intros Hd Hk Hm. split.
  - intros i Hi n r n' E. rewrite Hm in E. revert E.
    apply (within_on _ (drops h)); [by apply within_delete_drops, Hd|intros; by apply frame_db].
  - intros i n. rewrite Hm. unfold on. pose proof (calm_delete (key i) (nd_MainDB n)) as Hc. cbn.
    by destruct (db_delete (key i) (nd_MainDB n)).
  - intros i n r n'. rewrite Hm. unfold on. cbn. destruct (db_delete (key i) (nd_MainDB n)) as [o db'] eqn:E.
    intros [= _ <-]. exact (gone_delete _ _ _ _ (Hk i) E).
Qed.
Lemma on_ok_delete k n : on_ok db_l (fun db => DB_Delete db k) n = on db_l (db_delete k) n.
Proof. unfold on_ok, on, db_delete. cbn. destruct (DB_Delete _ _); [done|by destruct n..]. Qed.
Lemma removal_accounts h : removal h accounts_key remove_accounts.
Proof.
  apply removal_delete; [|done|].
  - intros i Hi. left. exists i. split; [done|]. rewrite !elem_of_cons. by do 1 right; left.
  - intros i n. apply on_ok_delete.
Qed.
Lemma removal_dex h : removal h dex_key remove_dex.
Proof.
  apply removal_delete; [|done|].
  - intros i Hi. left. exists i. split; [done|]. rewrite !elem_of_cons. by do 2 right; left.
  - intros i n. apply on_ok_delete.
Qed.
Lemma delete_result k db : k <> [] ->
  exists db', db_delete k db = (Ok tt, db') /\ rdb_get db' k = Ok None.
Proof.
  intros Hk. destruct (reliable_delete db k) as [db' E].
  assert (db_delete k db = (Ok tt, db')) as Ed by (unfold db_delete, DB_Delete; destruct k; [done|by rewrite E]).
  exists db'. split; [done|exact (gone_delete _ _ _ _ Hk Ed)].
Qed.
Lemma RemoveBlock_result i db : exists r db',
  RemoveBlockFromDB i db = (r, db') /\ r <> Panic /\ rdb_get db' (height_key i) = Ok None.
Proof.
  unfold RemoveBlockFromDB, st_bind, db_get, DB_Get.
  assert (height_key i <> []) as Hk by done. revert Hk. generalize (height_key i) as k. intros k Hk.
  destruct (reliable_get db k) as [[v|] Hv]; rewrite Hv; cbn [obind]; [|by do 2 eexists].
  destruct (delete_result (block_key v) db) as (db1 & -> & _); [done|].
  destruct (delete_result k db1 Hk) as (db2 & E & Hn). exists (Ok tt), db2. by rewrite E.
Qed.
Lemma removal_blocks h : removal h height_key remove_blocks.
Proof.
  split; unfold remove_blocks.
  - intros i Hi. apply (within_on _ (drops h)); [|intros; by apply frame_db]. unfold RemoveBlockFromDB.
    apply within_bind; [exact _|by intros db r db' [= _ <-]|]. intros hb.
    apply within_bind; [exact _|apply within_delete_drops|intros _; apply within_delete_drops].
    + right; left. by exists hb.
    + left. exists i. split; [done|]. rewrite !elem_of_cons. by left.
  - intros i n. unfold on. cbn [l_get db_l].
    by destruct (RemoveBlock_result i (nd_MainDB n)) as (r & db' & -> & Hr & _).
  - intros i n r n'. unfold on. cbn [l_get db_l].
    destruct (RemoveBlock_result i (nd_MainDB n)) as (r1 & db' & -> & _ & Hn). by intros [= _ <-].
Qed.
Lemma removal_merkle h : removal h root_key remove_merkle.
Proof.
  split; unfold remove_merkle.
  - intros i Hi. apply (within_on _ (drops h)); [|intros; by apply frame_db]. unfold RemoveMerkleTrieFromDB.
    assert (Hd : forall k, k ∈ [root_key i; tree_key i; hashes_key i] -> within (drops h) (db_delete (D := D) k)).
    { intros k Hk. apply within_delete_drops. left. exists i. split; [done|]. revert Hk.
      rewrite !elem_of_cons, elem_of_nil. intuition. }
    do 2 (apply within_bind; [exact _|apply Hd; rewrite !elem_of_cons; tauto|intros _]).
    apply Hd; rewrite !elem_of_cons; tauto.
  - intros i n. unfold on, RemoveMerkleTrieFromDB, st_bind. cbn [l_get db_l].
    destruct (delete_result (root_key i) (nd_MainDB n)) as (db1 & -> & _); [done|].
    destruct (delete_result (tree_key i) db1) as (db2 & -> & _); [done|].
    by destruct (delete_result (hashes_key i) db2) as (db3 & -> & _).
  - intros i n r n'. unfold on, RemoveMerkleTrieFromDB, st_bind. cbn [l_get db_l].
    destruct (delete_result (root_key i) (nd_MainDB n)) as (db1 & -> & Hn); [done|].
    destruct (delete_result (tree_key i) db1) as (db2 & E2 & _); [done|]. rewrite E2.
    destruct (delete_result (hashes_key i) db2) as (db3 & E3 & _); [done|]. rewrite E3.
    intros [= _ <-]. cbn [l_set db_l nd_MainDB].
    assert (forall k db db' r, db_delete (D := D) k db = (r, db') -> rdb_get db (root_key i) = Ok None ->
      rdb_get db' (root_key i) = Ok None) as Hstay.
    { intros k db db' r' E Hg. destruct (decide (k = root_key i)) as [->|Hne].
      - by apply gone_delete in E.
      - unfold db_delete, DB_Delete in E. destruct k as [|c k]; [by injection E as _ <-|].
        destruct (rdb_delete db (c :: k)) as [d|e|] eqn:Ed; injection E as _ <-; [|done..].
        by rewrite (rdb_get_delete_ne _ _ _ _ Ed Hne). }
    eapply Hstay; [exact E3|]. eapply Hstay; [exact E2|done].
Qed.
Lemma remove_staking_loop_ok m : forall r i db, exists db', remove_staking_loop (D := D) r i m db = (Ok tt, db').
Proof.
  induction m as [|m IH]; intros r i db; cbn [remove_staking_loop]; [by eexists|].
  destruct (delete_result (r ++ [byte_of_Z i]) db) as (db1 & E & _); [by destruct r|].
  unfold st_bind. rewrite E. apply IH.
Qed.
Lemma RemoveStaking_result i db : exists db', RemoveStakingAccountsFromDB (D := D) i db = (Ok tt, db') /\
  rdb_get db' (staking_key i 0) = Ok None.
Proof.
  unfold RemoveStakingAccountsFromDB. change 256%nat with (S 255). generalize 255%nat as m. intros m.
  rewrite remove_staking_loop_S. unfold st_bind.
  destruct (delete_result (staking_prefix i ++ [byte_of_Z 0]) db) as (db1 & -> & Hn); [done|].
  destruct (remove_staking_loop_ok m (staking_prefix i ++ [byte_of_Z 0]) (0 + 1) db1) as (db' & E).
  exists db'. split; [exact E|].
  pose proof (remove_staking_loop_longer m db1 _ _ db' (staking_key i 0) (le_n _) E) as Hg.
  unfold DB_Get in Hg. fold (staking_key i 0) in Hn. rewrite Hn in Hg.
  by destruct (reliable_get db' (staking_key i 0)) as [[v|] Hv]; rewrite Hv in Hg |- *.
Qed.
Lemma removal_staking h : removal h (fun i => staking_key i 0) remove_staking.
Proof.
  split; unfold remove_staking.
  - intros i Hi. apply (within_on _ (drops h)); [by apply within_RemoveStaking|intros; by apply frame_db].
  - intros i n. unfold on. cbn [l_get db_l]. by destruct (RemoveStaking_result i (nd_MainDB n)) as (db' & -> & _).
  - intros i n r n'. unfold on. cbn [l_get db_l].
    destruct (RemoveStaking_result i (nd_MainDB n)) as (db' & -> & Hn). by intros [= _ <-].
Qed.

(** ** A whole reset *)

Lemma remove_down_ok h key remove : removal h key remove -> forall m i n, h + Z.of_nat m = i -> i < 2 ^ 63 ->
  exists n', remove_down remove m i n = (Ok tt, n') /\ frame h n n' /\
    forall j, h < j <= i -> rdb_get (nd_MainDB n') (key j) = Ok None.
Proof.
  intros [Hw Hc Hg]. induction m as [|m IH]; intros i n Hi Hb; cbn [remove_down].
  - exists n. split; [done|]. split; [done|]. lia.
  - unfold st_bind, logged. specialize (Hc i n). destruct (remove i n) as [r n1] eqn:E1.
    destruct (IH (i - 1) n1) as (n2 & E2 & F2 & G2); [lia..|]. exists n2.
    assert (frame h n n1) as F1 by exact (Hw i ltac:(lia) n r n1 E1).
    split; [by destruct r|]. split; [by transitivity n1|]. intros j Hj.
    destruct (decide (j = i)) as [->|]; [|apply G2; lia].
    destruct F2 as (_ & _ & Hd & _). apply Hd. by eapply Hg.
Qed.
Lemma remove_above_ok h key remove last n : removal h key remove -> last < 2 ^ 63 -> exists n',
  remove_above remove last h n = (Ok tt, n') /\ frame h n n' /\
  forall j, h < j <= last -> rdb_get (nd_MainDB n') (key j) = Ok None.
Proof.
  intros Hr Hl. unfold remove_above. destruct (decide (h <= last)) as [Hle|Hgt].
  - by apply (remove_down_ok h key); [|lia|].
  - replace (Z.to_nat (last - h)) with 0%nat by lia. exists n. split; [done|]. split; [done|]. lia.
Qed.

(** What a reset to [h] needs: the tables and the block of [h] are in the
    database, the four scans end, and the virtual machine's state is one its
    operations build. *)
Record ready (fuel : nat) (h : Z) n (at_ : AccountsType) (st : staking_tables) (ha hb : Z) : Prop := {
  rd_height : 0 <= h < 2 ^ 63 - 2;
  rd_accounts : LoadAccounts (nd_MainDB n) fuel h (nd_Accounts n) = Some (Ok tt, at_);
  rd_staking : LoadStakingAccounts (nd_MainDB n) fuel h (nd_StakingAccounts n) = Some (Ok tt, st);
  rd_last_accounts : exists ok, LastHeightStoredInAccounts (nd_MainDB n) fuel = Some (ha, ok);
  rd_last_staking : exists x, LastHeightStoredInStakingAccounts (nd_MainDB n) fuel = Some x;
  rd_last_block : exists ok, LastHeightStoredInBlocks (nd_MainDB n) fuel = Some (hb, ok);
  rd_last_dex : exists x, LastHeightStoredInDexAccounts (nd_MainDB n) fuel = Some x;
  rd_last_tree : exists x, LastHeightStoredInMerleTrie (nd_MainDB n) fuel = Some x;
  rd_encryption : fst (SetEncryptionFromBlock h n) = Ok tt;
  rd_vm : vm_inv (nd_State n)
}.

(** The encryption of a block depends on the database and the configuration,
    and only the configuration changes. *)
Lemma SetEncryptionFromBlock_same h n1 n2 :
  nd_MainDB n1 = nd_MainDB n2 -> nd_Config n1 = nd_Config n2 ->
  fst (SetEncryptionFromBlock h n1) = Ok tt -> exists c, SetEncryptionFromBlock h n2 = (Ok tt, l_set config_l c n2).
Proof.
  unfold SetEncryptionFromBlock, st_bind, get_config, reads, st_lift, set_encryption, on, st_modify.
  cbn [l_get db_l config_l]. intros E1 E2. rewrite E1, E2.
  destruct (LoadBlock (nd_Config n2) (nd_MainDB n2) h) as [b|e|]; [|done..].
  destruct (FromBytesToEncryptionConfig _ _ true) as [e1|e|]; [|done..]. cbn [l_set nd_Config].
  destruct (FromBytesToEncryptionConfig _ _ false) as [e2|e|]; [|done..]. intros _. by eexists.
Qed.
Lemma f_bind_some {S A B} (m : FST S A) (k : A -> FST S B) (x : S) a x1 :
  m x = Some (Ok a, x1) -> f_bind m k x = k a x1.
Proof. unfold f_bind. by intros ->. Qed.
Lemma last_stored_some search fuel i ok n :
  search (nd_MainDB n) fuel = Some (i, ok) -> last_stored search fuel n = Some (Ok i, n).
Proof. unfold last_stored. by intros ->. Qed.

(** The loops of a reset, with the virtual machine's step before them. *)
Definition removals (h ha hb hs hd : Z) : ST (Node D) unit :=
  run! revert_vm h;
  run! remove_above remove_blocks hb h;
  run! remove_above remove_accounts ha h;
  run! remove_above remove_staking hs h;
  remove_above remove_dex hd h.

Lemma removals_ok h ha hb hs hd n : vm_inv (nd_State n) ->
  ha < 2 ^ 63 -> hb < 2 ^ 63 -> hs < 2 ^ 63 -> hd < 2 ^ 63 ->
  exists n', removals h ha hb hs hd n = (Ok tt, n') /\ frame h n n' /\
    (forall j, h < j <= hb -> rdb_get (nd_MainDB n') (height_key j) = Ok None) /\
    (forall j, h < j <= ha -> rdb_get (nd_MainDB n') (accounts_key j) = Ok None).
Proof.
  intros Hi Ha Hb Hs Hd. unfold removals, revert_vm, st_bind, on_ok, RevertVMToBlockHeight. cbn [l_get state_l].
  destruct (RevertToSnapshot_total (nd_State n) (snapshot_of_height h (sa_HeightToSnapShotNum (nd_State n))) Hi)
    as (slots & -> & _).
  set (n0 := l_set state_l _ n). assert (frame h n n0) as F0 by (split; [done|split; done]).
  destruct (remove_above_ok h _ _ hb n0 (removal_blocks h) Hb) as (n1 & -> & F1 & G1).
  destruct (remove_above_ok h _ _ ha n1 (removal_accounts h) Ha) as (n2 & -> & F2 & G2).
  destruct (remove_above_ok h _ _ hs n2 (removal_staking h) Hs) as (n3 & -> & F3 & _).
  destruct (remove_above_ok h _ _ hd n3 (removal_dex h) Hd) as (n4 & -> & F4 & _).
  exists n4. split; [done|]. split; [by transitivity n0; [|transitivity n1; [|transitivity n2; [|transitivity n3]]]|].
  assert (frame h n2 n4) as F24 by (by transitivity n3). assert (frame h n1 n4) as F14 by (by transitivity n2).
  destruct F24 as (_ & _ & K2 & _), F14 as (_ & _ & K1 & _).
  split; intros j Hj; [by apply K1, G1|by apply K2, G2].
Qed.

Lemma last_height_bound key db fuel r ok : last_height_loop key db fuel 0 = Some (r, ok) -> r < 2 ^ 63.
Proof. intros E. destruct (last_height_below key db fuel 0 r ok ltac:(done) E). lia. Qed.

Lemma reset_to_ready fuel h n at_ st ha hb : ready fuel h n at_ st ha hb -> exists n',
  reset_to fuel h n = Some (Ok tt, n') /\
  nd_Accounts n' = at_ /\ nd_StakingAccounts n' = st /\ nd_Height n' = h /\
  nd_DexAccounts n' = nd_DexAccounts n /\ drops h (nd_MainDB n) (nd_MainDB n') /\
  (nd_PoolsTx n' = nd_PoolsTx n /\ nd_PoolTxEscrow n' = nd_PoolTxEscrow n /\
   nd_PoolTxMultiSign n' = nd_PoolTxMultiSign n) /\
  (forall j, h < j <= hb -> rdb_get (nd_MainDB n') (height_key j) = Ok None) /\
  (forall j, h < j <= ha -> rdb_get (nd_MainDB n') (accounts_key j) = Ok None).
Proof.
  intros [Hh HA HS [oka Ha] [[hs oks] Hs] [okb Hb] [[hd okd] Hd] [[hm okm] Hm] He Hv].
  unfold reset_to.
  rewrite (f_bind_some _ _ n tt (l_set accounts_l at_ n)) by (unfold load_accounts, load_with; cbn [l_get accounts_l]; by rewrite HA).
  set (n1 := l_set accounts_l at_ n).
  rewrite (f_bind_some _ _ n1 tt (l_set staking_l st n1))
    by (unfold load_staking, load_with; change (nd_MainDB n1) with (nd_MainDB n); cbn [l_get staking_l];
        change (nd_StakingAccounts n1) with (nd_StakingAccounts n); by rewrite HS).
  set (n2 := l_set staking_l st n1).
  rewrite (f_bind_some _ _ n2 ha n2) by exact (last_stored_some _ _ _ _ n2 Ha).
  rewrite (f_bind_some _ _ n2 hs n2) by exact (last_stored_some _ _ _ _ n2 Hs).
  rewrite (f_bind_some _ _ n2 hb n2) by exact (last_stored_some _ _ _ _ n2 Hb).
  destruct (SetEncryptionFromBlock_same h n n2 eq_refl eq_refl He) as [c Ec].
  set (n3 := l_set config_l c n2) in Ec.
  rewrite (f_bind_some _ _ n2 tt n3) by (unfold f_run; by rewrite Ec).
  rewrite (f_bind_some _ _ n3 hd n3) by exact (last_stored_some _ _ _ _ n3 Hd).
  destruct (removals_ok h ha hb hs hd n3 Hv) as (n4 & E4 & F4 & G1 & G2); [by eapply last_height_bound..|].
  rewrite (f_bind_some _ _ n3 tt n4) by (unfold f_run; by rewrite <- E4).
  destruct F4 as ((A4 & S4 & D4 & _) & P4 & K4).
  destruct (last_height_drops root_key h _ _ fuel K4 0 _ Hm) as ((hm' & okm') & Hm').
  rewrite (f_bind_some _ _ n4 hm' n4) by exact (last_stored_some _ _ _ _ n4 Hm').
  destruct (remove_above_ok h _ _ hm' n4 (removal_merkle h) (last_height_bound _ _ _ _ _ Hm'))
    as (n5 & E5 & ((A5 & S5 & D5 & _) & P5 & K5) & _).
  unfold f_run, st_bind. rewrite E5. eexists. split; [reflexivity|]. cbn.
  split; [by rewrite A5, A4|]. split; [by rewrite S5, S4|]. split; [done|]. split; [by rewrite D5, D4|].
  split; [by transitivity (nd_MainDB n4)|].
  destruct P4 as (P41 & P42 & P43), P5 as (P51 & P52 & P53). split; [by rewrite P51, P52, P53|].
  split; intros j Hj; apply K5; [by apply G1|by apply G2].
Qed.

(** C25: a reset to a stored height ends, whatever else the database holds: the
    node is then at that height with the accounts and the staking tables stored
    with it, and when the chain was longer the searches for the last block and for
    the last accounts find exactly that height, while the block hashes up to it are
    the ones stored before. *)
Theorem ResetAccountsAndBlocksSync_restores fuel h s at_ st ha hb :
  ready fuel h (sv_Node s) at_ st ha hb -> exists n',
  ResetAccountsAndBlocksSync fuel h s = Some (Ok tt, l_set node_l n' s) /\
  nd_Height n' = h /\ nd_Accounts n' = at_ /\ nd_StakingAccounts n' = st /\
  (h <= hb -> forall fuel', (Z.to_nat (h + 1) < fuel')%nat ->
    LastHeightStoredInBlocks (nd_MainDB n') fuel' = Some (h, true)) /\
  (h <= ha -> forall fuel', (Z.to_nat (h + 1) < fuel')%nat ->
    LastHeightStoredInAccounts (nd_MainDB n') fuel' = Some (h, true)) /\
  (forall j, 0 <= j <= h -> LoadHashOfBlock (nd_MainDB n') j = LoadHashOfBlock (nd_MainDB (sv_Node s)) j).
Proof.
  intros Hr. pose proof (rd_height _ _ _ _ _ _ _ Hr) as Hh.
  destruct (reset_to_ready _ _ _ _ _ _ _ Hr) as (n' & E & EA & ES & EH & _ & Hd & _ & G1 & G2).
  exists n'. split; [|split; [done|split; [done|split; [done|]]]].
  { unfold ResetAccountsAndBlocksSync. replace (h <? 0) with false by (symmetry; apply Z.ltb_ge; lia).
    cbn [andb]. rewrite Z.max_l by lia. unfold f_logged, on_node. by rewrite E. }
  destruct (rd_last_block _ _ _ _ _ _ _ Hr) as [okb Hb], (rd_last_accounts _ _ _ _ _ _ _ Hr) as [oka Ha].
  split; [|split].
  - intros Hle fuel' Hf. apply (scan_after_drop height_key h (nd_MainDB (sv_Node s)) _ fuel hb okb); [exact Hd|done|lia|lia| |exact Hb|exact G1|done].
    intros j Hj. apply height_key_kept; lia.
  - intros Hle fuel' Hf. apply (scan_after_drop accounts_key h (nd_MainDB (sv_Node s)) _ fuel ha oka); [exact Hd|done|lia|lia| |exact Ha|exact G2|done].
    intros j Hj. apply accounts_key_kept; lia.
  - intros j Hj. unfold LoadHashOfBlock, DB_Get. by rewrite (proj2 Hd) by (apply height_key_kept; lia).
Qed.

Lemma last_height_same key db db' fuel : (forall i, rdb_get db' (key i) = rdb_get db (key i)) ->
  forall i, last_height_loop (D := D) key db' fuel i = last_height_loop key db fuel i.
Proof.
  intros Hk. induction fuel as [|fuel IH]; intros i; cbn [last_height_loop]; [done|]. unfold DB_IsKey.
  destruct (key i) eqn:E; [done|]. rewrite <- E, Hk. destruct (rdb_get db (key i)) as [[]|e|]; by cbn.
Qed.

(** what a reset leaves behind: the liquidity pools and the three transaction
    pools stay as they were at the height left, and the staking tables 1 to 255 of
    every height stay in the database, so the search for the last height with
    staking accounts, which looks at table 1, still finds the height left. *)
Theorem ResetAccountsAndBlocksSync_leaves fuel h s at_ st ha hb :
  ready fuel h (sv_Node s) at_ st ha hb -> exists n',
  ResetAccountsAndBlocksSync fuel h s = Some (Ok tt, l_set node_l n' s) /\
  nd_DexAccounts n' = nd_DexAccounts (sv_Node s) /\
  nd_PoolsTx n' = nd_PoolsTx (sv_Node s) /\ nd_PoolTxEscrow n' = nd_PoolTxEscrow (sv_Node s) /\
  nd_PoolTxMultiSign n' = nd_PoolTxMultiSign (sv_Node s) /\
  (forall j i, 1 <= i < 256 ->
    DB_Get (nd_MainDB n') (staking_key j i) = DB_Get (nd_MainDB (sv_Node s)) (staking_key j i)) /\
  (forall fuel', LastHeightStoredInStakingAccounts (nd_MainDB n') fuel' =
                 LastHeightStoredInStakingAccounts (nd_MainDB (sv_Node s)) fuel').
Proof.
  intros Hr. pose proof (rd_height _ _ _ _ _ _ _ Hr) as Hh.
  destruct (reset_to_ready _ _ _ _ _ _ _ Hr) as (n' & E & _ & _ & _ & ED & Hd & (P1 & P2 & P3) & _).
  exists n'. split; [|do 4 (split; [done|])].
  { unfold ResetAccountsAndBlocksSync. replace (h <? 0) with false by (symmetry; apply Z.ltb_ge; lia).
    cbn [andb]. rewrite Z.max_l by lia. unfold f_logged, on_node. by rewrite E. }
  split.
  - intros j i Hi. unfold DB_Get. by rewrite (proj2 Hd) by by apply staking_key_kept.
  - intros fuel'. apply last_height_same. intros i. apply (proj2 Hd). by apply staking_key_kept.
Qed.
End Loops.

(** ** The scans *)

(** The five searches for the last stored height and the key they probe. *)
Definition scans {D : Type} `{RocksDB D} : list ((D -> nat -> option (Z * bool)) * (Z -> bytes)) :=
  [(LastHeightStoredInAccounts, accounts_key); (LastHeightStoredInStakingAccounts, fun i => staking_key i 1);
   (LastHeightStoredInBlocks, height_key); (LastHeightStoredInDexAccounts, dex_key);
   (LastHeightStoredInMerleTrie, root_key)].

(** C27: each of the five searches for the last stored height terminates when some
    height is absent from a database that does not fail, within one step for each
    height up to it, and what it returns is the last height before the first
    absent one: every height up to the result is stored and the next is not. *)
Theorem LastHeightStored_terminates {D : Type} `{RocksDBLaws D} `{!Reliable D} (db : D) search key m fuel :
  (search, key) ∈ scans (D := D) -> 0 <= m < 2 ^ 63 - 1 -> rdb_get db (key m) = Ok None ->
  (Z.to_nat m < fuel)%nat -> exists r,
  search db fuel = Some (r, true) /\ -1 <= r < m /\
  (forall j, 0 <= j <= r -> DB_IsKey db (key j) = Ok true) /\ DB_IsKey db (key (r + 1)) = Ok false.
Proof.
  intros Hin Hm Hout Hf. assert (Z.to_nat (m - 0) < fuel)%nat as Hf' by lia.
  assert (forall k, key k <> []) as Hk by (unfold scans in Hin; set_unfold; naive_solver).
  pose proof (last_height_first key db m Hk Hm Hout fuel 0 ltac:(lia) Hf') as Hr.
  unfold scans in Hin. set_unfold. naive_solver.
Qed.

(** ** A closed example *)

(** Blocks and tables of the heights 0 to 3. *)
Definition reset_tables (db : gmap bytes bytes) (h : Z) : gmap bytes bytes :=
  let at_ := mk_AccountsType {[ sample_addr 1 := sample_account 1 (5 + h) ]} h in
  let db := from_ok db (StoreAccounts db 0 (map_to_list (AllAccounts at_)) at_ h) in
  let db := snd (StoreStakingAccounts (fun _ => []) [∅; ∅] h db) in
  snd (StoreBlock (sample_block h (arr_zero _) 1000 [] (arr_zero _) 5) db).
Definition reset_db : gmap bytes bytes := foldl reset_tables ∅ [0; 1; 2; 3].
Definition reset_node : Node (gmap bytes bytes) :=
  mk_Node (mk_AccountsType ∅ 3) no_stakes (NewTransactionPool 100 0) (NewTransactionPool 100 1)
    (NewTransactionPool 100 2) reset_db test_config ∅ ∅ false ∅ CreateStateDB 3.
Definition reset_server : Server (gmap bytes bytes) := mk_Server reset_node false ∅ ∅ 1 9 [].
Definition table_1 : AccountsType := mk_AccountsType {[ sample_addr 1 := sample_account 1 6 ]} 1.
Definition reset_stakes : staking_tables :=
  match LoadStakingAccounts reset_db 10 1 no_stakes with Some (_, t) => t | None => [] end.

Lemma reset_ready : @ready _ map_store two_schemes 10 1 reset_node table_1 reset_stakes 3 3.
Proof.
  split; [lia|..|exact vm_inv_init].
  - vm_compute. reflexivity.
  - vm_cast_no_check (eq_refl (Some (@Ok unit tt, reset_stakes))).
  - exists true. vm_compute. reflexivity.
  - eexists. vm_compute. reflexivity.
  - exists true. vm_compute. reflexivity.
  - eexists. vm_compute. reflexivity.
  - eexists. vm_compute. reflexivity.
  - vm_compute. reflexivity.
Qed.

Lemma ResetAccountsAndBlocksSync_restores_witness : exists n',
  @ResetAccountsAndBlocksSync _ map_store two_schemes 10 1 reset_server = Some (Ok tt, l_set node_l n' reset_server) /\
  nd_Height n' = 1 /\ nd_Accounts n' = table_1 /\ LastHeightStoredInBlocks (nd_MainDB n') 10 = Some (1, true).
Proof.
  destruct (@ResetAccountsAndBlocksSync_restores _ map_store map_store_laws map_store_reliable two_schemes
    10 1 reset_server _ _ _ _ reset_ready) as (n' & E & Eh & Ea & _ & Hb & _).
  exists n'. split; [exact E|]. split; [exact Eh|]. split; [exact Ea|]. apply Hb; lia.
Defined.

Lemma ResetAccountsAndBlocksSync_leaves_witness : exists n',
  @ResetAccountsAndBlocksSync _ map_store two_schemes 10 1 reset_server = Some (Ok tt, l_set node_l n' reset_server) /\
  nd_Height reset_node = 3 /\ LastHeightStoredInStakingAccounts (nd_MainDB n') 10 = Some (3, true).
Proof.
  destruct (@ResetAccountsAndBlocksSync_leaves _ map_store map_store_laws map_store_reliable two_schemes
    10 1 reset_server _ _ _ _ reset_ready) as (n' & E & _ & _ & _ & _ & _ & Hs).
  exists n'. split; [exact E|]. split; [reflexivity|]. rewrite (Hs 10%nat). vm_compute. reflexivity.
Defined.

Lemma LastHeightStored_terminates_witness : exists r,
  LastHeightStoredInBlocks reset_db 5 = Some (r, true) /\ DB_IsKey reset_db (height_key (r + 1)) = Ok false.
Proof.
  destruct (@LastHeightStored_terminates _ map_store map_store_laws map_store_reliable reset_db
    LastHeightStoredInBlocks height_key 4 5) as (r & E & _ & _ & Hr); [|lia| |lia|].
  - do 2 apply list_elem_of_further. apply list_elem_of_here.
  - vm_compute. reflexivity.
  - exists r. split; [exact E|exact Hr].
Defined.
