(* ===== verification/Creation.v ===== *)
(** * Package services: the block a node proposes

    Models services/blockCreation.go.  The active wallet and the node's own
    settings are the record [Proposer]; the bodies of the two oracle tables are
    passed in the order in which their maps are visited.  The theorem says that a
    node accepts the base of a block proposed on its own state. *)
From S2P Require Import Prelude GoInt GoSlice Sums Common Keys Database Codec Float64 Json Accounts.
From S2P Require Import Staking Dex EncScheme Merkle PubKeys Tx Heap Pool StateDB Node Ledger.
From Stdlib Require Import SpecFloat.
From S2P Require Import Block Voting Oracles BlockProcess Message.

(** [wallet.GetActiveWallet()], [common.GetDelegatedAccount()],
    [common.GetMyRewardPercentage()]; [pr_Sign] is the wallet's [Sign]. *)
Record Proposer := mk_Proposer {
  pr_Address : Address;
  pr_DelegatedAccount : Address;
  pr_RewardPercentage : Z;
  pr_Sign : bytes -> bool -> outcome Signature
}.

Section Creation.
Context {D : Type} `{RocksDB D} `{JSON PubKey} `{JSON (list MerkleNode)} `{Hasher} `{OqsLib}.
Implicit Types (n : Node D) (e : Env) (w : Proposer) (tx : Transaction).

(** The description of a scheme in use. *)
Definition current_scheme (ec : EncryptionConfig) (primary : bool) : bytes :=
  if primary
  then GenerateBytesFromParams (sigName ec) (PubKeyLength ec) (PrivateKeyLength ec) (SignatureLength ec) (IsPaused ec)
  else GenerateBytesFromParams (sigName2 ec) (PubKeyLength2 ec) (PrivateKeyLength2 ec) (SignatureLength2 ec)
         (IsPaused2 ec).

(** The body of the loop over the nonce transactions: the last block they name,
    and the schemes they ask for. *)
Definition nonce_encryption n lastBlock (heightTransaction : Z) tx : outcome (bytes * bytes) :=
  let optData := OptData (tx_Data tx) in
  let! s := slice optData 0 8 in
  let! heightLast := GetInt64FromByte s in
  let! hashLast := slice optData 8 40 in
  if negb (bytes_eqb hashLast (Hash_GetBytes (BlockHash lastBlock))) then
    let! _ := LoadHashOfBlock (nd_MainDB n) (heightTransaction -! 2) in
    Err "last block hash and nonce hash do not match"
  else if negb (heightTransaction =? heightLast +! 1)
  then Err "last block height and nonce height do not match" else
  let! s := slice_from optData 56 in
  let! (enc1, b) := BytesWithLenToBytes s in
  let! (enc2, _) := BytesWithLenToBytes b in
  Ok (match enc1 with [] => current_scheme (nd_Config n) true | _ => enc1 end,
      match enc2 with [] => current_scheme (nd_Config n) false | _ => enc2 end).
Fixpoint nonce_encryptions n lastBlock (heightTransaction : Z) (txs : list Transaction) (enc : bytes * bytes)
    : outcome (bytes * bytes) :=
  match txs with
  | [] => Ok enc
  | tx :: txs => let! enc := nonce_encryption n lastBlock heightTransaction tx in
                 nonce_encryptions n lastBlock heightTransaction txs enc
  end.

(** [bh.Sign] and the two assignments that follow it. *)
Definition BaseHeader_Sign w (bh : BaseHeader) (primary : bool) : outcome BaseHeader :=
  let message := GetBytesWithoutSignature bh in
  let! calcHash := CalcHashToByte message in
  let! sign := pr_Sign w calcHash primary in
  Ok (mk_BaseHeader (PreviousHash bh) (Difficulty bh) (bh_Height bh) (bh_DelegatedAccount bh) (OperatorAccount bh)
        (RootMerkleTree bh) (Encryption1 bh) (Encryption2 bh) sign message).

Definition CreateBlockFromNonceMessage e w (prices rands : list (Z * Proposition_)) n
    (nonceTx : list Transaction) lastBlock (merkleTrie : list MerkleNode * list bytes) (txs : list Hash)
    : outcome Block :=
  let! tx0 := index nonceTx 0 in
  let lastBase := bl_BaseBlock lastBlock in
  let heightTransaction := tx_Height tx0 in
  let! (encryption1, encryption2) := nonce_encryptions n lastBlock heightTransaction nonceTx ([], []) in
  let reward := GetReward (Supply lastBase) in
  let supply := Supply lastBase +! reward in
  let ti := SendingTime (tx_Param tx0) -! BlockTimeStamp lastBase in
  let diff := AdjustDifficulty (Difficulty (bb_BaseHeader lastBase)) ti in
  let! rootHash := GetRootHash merkleTrie.1 in
  let bh := mk_BaseHeader (BlockHash lastBlock) diff heightTransaction (pr_DelegatedAccount w) (pr_Address w)
    (arr_copy (arr_zero HashLength) rootHash) encryption1 encryption2 zero_Signature
    (GetByteInt64 (SendingTime (tx_Param tx0))) in
  let! bh := BaseHeader_Sign w bh
    (GetNodeSignPrimary (nd_Config n) (env_pref e) (env_coin e) heightTransaction) in
  let! bhHash := BaseHeader_CalcHash bh in
  let totalStaked := GetStakedInAllDelegatedAccounts (nd_StakingAccounts n) in
  let! (priceOracle, priceOracleData, _) := CalculatePriceOracle heightTransaction totalStaked prices in
  let! (randOracle, randOracleData, _) := CalculateRandOracle heightTransaction totalStaked rands in
  let bb := mk_BaseBlock bh bhHash (env_now e) (pr_RewardPercentage w) supply priceOracle randOracle
    priceOracleData randOracleData in
  let! hash := CalcBlockHash (mk_Block bb txs (arr_zero HashLength) 0) in
  Ok (mk_Block bb txs hash 0).

(** The message that carries a block; its topic is ['N', 0]. *)
Definition BlockTopic : topic := arr_of 2 [byte_of_Z 78].
Definition GenerateBlockMessage (chainID : Z) (bl : Block) : TransactionsMessage :=
  mk_TransactionsMessage (mk_BaseMessage (ascii2 "b" "l") chainID) {[ BlockTopic := [Block_GetBytes bl] ]}.
End Creation.

(** ** A proposed block is accepted *)

Section CreationFacts.
Context {D : Type} `{RocksDB D} `{JSON PubKey} `{JSON (list MerkleNode)} `{Hasher} `{OqsLib}.
Implicit Types (n : Node D) (e : Env) (w : Proposer) (tx : Transaction).

Lemma current_scheme_nonempty ec primary : current_scheme ec primary <> [].
Proof.
  intros E. apply (f_equal length) in E. unfold current_scheme in E.
  by destruct primary; rewrite GenerateBytes_length in E.
Qed.
Lemma nonce_encryption_nonempty n lastBlock h tx enc1 enc2 :
  nonce_encryption n lastBlock h tx = Ok (enc1, enc2) -> enc1 <> [] /\ enc2 <> [].
Proof.
  unfold nonce_encryption. intros E.
  apply obind_ok_inv in E as (? & _ & E). apply obind_ok_inv in E as (? & _ & E).
  apply obind_ok_inv in E as (? & _ & E).
  destruct (negb _). { by apply obind_ok_inv in E as (? & _ & E). }
  destruct (negb _); [done|]. apply obind_ok_inv in E as (? & _ & E).
  apply obind_ok_inv in E as ([e1 b] & _ & E). apply obind_ok_inv in E as ([e2 r] & _ & E).
  injection E as <- <-.
  split; [destruct e1; [exact (current_scheme_nonempty (nd_Config n) true)|done]|
          destruct e2; [exact (current_scheme_nonempty (nd_Config n) false)|done]].
Qed.

(** What a proposed block says. *)
Record proposed e w n tx lastBlock (tree : list MerkleNode * list bytes) (txs : list Hash) (b : Block) : Prop := {
  prop_txs : TransactionsHashes b = txs;
  prop_hash : CalcBlockHash b = Ok (BlockHash b);
  prop_previous : PreviousHash (bl_Header b) = BlockHash lastBlock;
  prop_height : bh_Height (bl_Header b) = tx_Height tx;
  prop_supply : Supply (bl_BaseBlock b) = Supply (bl_BaseBlock lastBlock) +! GetReward (Supply (bl_BaseBlock lastBlock));
  prop_root rootHash : GetRootHash tree.1 = Ok rootHash -> length rootHash = HashLength ->
    arr_bytes (RootMerkleTree (bl_Header b)) = rootHash;
  prop_enc : Encryption1 (bl_Header b) <> [] /\ Encryption2 (bl_Header b) <> [];
  prop_message : SignatureMessage (bl_Header b) = GetBytesWithoutSignature (bl_Header b);
  prop_operator : OperatorAccount (bl_Header b) = pr_Address w;
  prop_sign : pr_Sign w (arr_bytes (blake2b_256 (GetBytesWithoutSignature (bl_Header b))))
    (GetNodeSignPrimary (nd_Config n) (env_pref e) (env_coin e) (tx_Height tx)) = Ok (bh_Signature (bl_Header b))
}.

Lemma CreateBlock_inv e w prices rands n tx lastBlock tree txs b :
  CreateBlockFromNonceMessage e w prices rands n [tx] lastBlock tree txs = Ok b ->
  proposed e w n tx lastBlock tree txs b /\
  (exists err, CalculatePriceOracle (tx_Height tx) (GetStakedInAllDelegatedAccounts (nd_StakingAccounts n)) prices
    = Ok (PriceOracle (bl_BaseBlock b), PriceOracleData (bl_BaseBlock b), err)) /\
  (exists err, CalculateRandOracle (tx_Height tx) (GetStakedInAllDelegatedAccounts (nd_StakingAccounts n)) rands
    = Ok (RandOracle (bl_BaseBlock b), RandOracleData (bl_BaseBlock b), err)).
Proof.
  unfold CreateBlockFromNonceMessage. change (index [tx] 0) with (@Ok Transaction tx). cbn [obind]. intros E. apply obind_ok_inv in E as ([enc1 enc2] & En & E).
  cbn [nonce_encryptions] in En. apply obind_ok_inv in En as ([e1 e2] & En & [= -> ->]).
  apply nonce_encryption_nonempty in En.
  apply obind_ok_inv in E as (root & Er & E). apply obind_ok_inv in E as (bh & Eb & E).
  apply obind_ok_inv in E as (bhHash & _ & E). apply obind_ok_inv in E as ([[p pd] perr] & Ep & E).
  apply obind_ok_inv in E as ([[r rd] rerr] & Err_ & E). apply obind_ok_inv in E as (hash & Eh & [= <-]).
  unfold BaseHeader_Sign in Eb. cbn [CalcHashToByte obind] in Eb.
  apply obind_ok_inv in Eb as (sign & Es & [= <-]). split; [|split; by eexists].
  split; try done.
  intros rh E Hl. rewrite Er in E. injection E as <-. unfold bl_Header.
  cbn [bl_BaseBlock bb_BaseHeader RootMerkleTree]. by apply (arr_copy_bytes (n := HashLength)).
Qed.

(** What makes a proposal acceptable: the schemes stay the same, the stakes
    recorded with the propositions of the oracles are the current ones, the proof
    of synergy is met, and the wallet's signatures verify with the key stored for
    it. *)
Record proposal e w prices rands n tx lastBlock tree txs b pk : Prop := {
  pp_tree : BuildBlockTree (block_leaves txs) = Ok tree;
  pp_block : CreateBlockFromNonceMessage e w prices rands n [tx] lastBlock tree txs = Ok b;
  pp_supply : Supply (bl_BaseBlock b) <= MaxTotalSupply;
  pp_synergy : CheckProofOfSynergy (env_Log2 e) (bl_BaseBlock b) = true;
  pp_prices : honest (nd_StakingAccounts n) (tx_Height tx) prices;
  pp_rands : honest (nd_StakingAccounts n) (tx_Height tx) rands;
  pp_quorum : 0 <= quorum (GetStakedInAllDelegatedAccounts (nd_StakingAccounts n));
  pp_enc1 : Encryption1 (bl_Header b) = Encryption1 (bl_Header lastBlock);
  pp_enc2 : Encryption2 (bl_Header b) = Encryption2 (bl_Header lastBlock);
  pp_key : LoadPubKeyWithPrimary (nd_MainDB n) (pr_Address w)
    (GetNodeSignPrimary (nd_Config n) (env_pref e) (env_coin e) (tx_Height tx)) = Ok pk;
  pp_sign m sign : pr_Sign w m (GetNodeSignPrimary (nd_Config n) (env_pref e) (env_coin e) (tx_Height tx)) = Ok sign ->
    Verify (nd_Config n) m (sig_ByteValue sign) (pk_ByteValue pk) = Ok true
}.

Lemma proposal_checks e w prices rands n tx lastBlock tree txs b pk :
  proposal e w prices rands n tx lastBlock tree txs b pk -> CheckBaseBlock e b lastBlock n = (Ok tree, n).
Proof.
  intros [Ht Ec Hs Hp Hpo Hro Hq He1 He2 _ _].
  set (h := tx_Height tx) in *. set (total := GetStakedInAllDelegatedAccounts (nd_StakingAccounts n)) in *.
  destruct (CreateBlock_inv _ _ _ _ _ _ _ _ _ _ Ec) as (P & (perr & EP) & (rerr & ER)).
  unfold CheckBaseBlock. fold (bl_Header b).
  replace (MaxTotalSupply <? _) with false by (symmetry; apply Z.ltb_ge; lia).
  rewrite (prop_previous _ _ _ _ _ _ _ _ P), bytes_eqb_refl, Hp. cbn [negb].
  rewrite (st_bind_run _ _ n _ n (f_equal (fun o => (o, n)) (prop_hash _ _ _ _ _ _ _ _ P))), bytes_eqb_refl. cbn [negb].
  rewrite (prop_txs _ _ _ _ _ _ _ _ P), (st_bind_run _ _ n _ n (f_equal (fun o => (o, n)) Ht)).
  destruct (NewMerkleTree_spec (block_leaves txs)) as (root & Er & _ & Eg).
  unfold BuildBlockTree in Ht. rewrite Er in Ht. injection Ht as <-. cbn [fst].
  rewrite (st_bind_run _ _ n _ n (f_equal (fun o => (o, n)) Eg)).
  rewrite (prop_root _ _ _ _ _ _ _ _ P _ Eg (arr_length _)), bytes_eqb_refl. cbn [negb].
  rewrite (st_bind_run (reads staking_l (fun t => Ok t)) _ n (nd_StakingAccounts n) n eq_refl). fold total.
  destruct (calculated_price _ _ _ _ Hpo Hq) as (? & ? & ? & EP' & VP).
  destruct (calculated_rand _ _ _ _ Hro Hq) as (? & ? & ? & ER' & VR).
  fold h total in EP, ER. rewrite EP in EP'. injection EP' as <- <- <-. rewrite ER in ER'. injection ER' as <- <- <-.
  rewrite (st_bind_run _ _ n true n) by (destruct (env_syncing e); [done|unfold st_lift; by rewrite VP]). cbn [negb].
  rewrite (st_bind_run _ _ n true n) by (destruct (env_syncing e); [done|unfold st_lift; by rewrite VR]). cbn [negb].
  destruct (prop_enc _ _ _ _ _ _ _ _ P) as [N1 N2].
  destruct (Nat.eqb (length (Encryption1 _)) 0) eqn:L1; [by apply Nat.eqb_eq, nil_length_inv in L1|].
  destruct (Nat.eqb (length (Encryption2 _)) 0) eqn:L2; [by apply Nat.eqb_eq, nil_length_inv in L2|].
  cbn [orb]. unfold check_encryption. rewrite He1, He2, !bytes_eqb_refl, orb_true_r. done.
Qed.

(** C26: a node accepts the block it proposes: when the schemes stay the same, the
    stakes recorded with the propositions of the oracles are the current ones and
    the proof of synergy is met, the base of the block passes every check of a
    received block on the state it was made from, with the Merkle tree it was made
    from, and its header verifies with the coin it was signed with, given that the
    wallet's signatures verify with the key stored for it. *)
Theorem CreateBlock_accepted e w prices rands n tx lastBlock tree txs b pk :
  proposal e w prices rands n tx lastBlock tree txs b pk ->
  bh_Height (bl_Header b) = tx_Height tx /\ CheckBaseBlock e b lastBlock n = (Ok tree, n) /\
  BaseHeader_Verify (nd_Config n) (env_pref e) (env_coin e) (nd_MainDB n) (bl_Header b) = Ok true.
Proof.
  intros Hp. destruct (CreateBlock_inv _ _ _ _ _ _ _ _ _ _ (pp_block _ _ _ _ _ _ _ _ _ _ _ Hp)) as (P & _).
  split; [exact (prop_height _ _ _ _ _ _ _ _ P)|]. split; [by eapply proposal_checks|].
  unfold BaseHeader_Verify.
  rewrite (prop_message _ _ _ _ _ _ _ _ P), bytes_eqb_refl. cbn [negb CalcHashToByte obind].
  rewrite (prop_height _ _ _ _ _ _ _ _ P), (prop_operator _ _ _ _ _ _ _ _ P).
  rewrite (pp_key _ _ _ _ _ _ _ _ _ _ _ Hp). apply (pp_sign _ _ _ _ _ _ _ _ _ _ _ Hp _ _ (prop_sign _ _ _ _ _ _ _ _ P)).
Qed.
End CreationFacts.

(** ** A closed example *)

#[local] Existing Instance map_store.
#[local] Existing Instance small_schemes.
#[local] Existing Instance toy_hasher.
#[local] Existing Instance pk_json.
#[local] Existing Instance node_json.

(** The integer part of the logarithm. *)
Definition floor_Log2 (x : float64) : float64 :=
  match x with S754_finite false m e => f64_of_int (Z.log2 (Zpos m) + e) | _ => S754_infinity true end.
Definition env_8 : Env := mk_Env 1700000010 false true 0 floor_Log2 map_to_list map_to_list
  (fun _ _ => Err "no wallet") (Ok tt).
(** The operator of the database [op_db], whose signatures start with the number
    of the scheme. *)
Definition wallet_8 : Proposer := mk_Proposer (toy_address (zeros 3)) (flagged 3) 100
  (fun m p => Ok (mk_Signature (byte_of_Z (if p : bool then 0 else 1) :: m) (toy_address (zeros 3)) p)).
(** A nonce on top of block 7 that asks for no scheme. *)
Definition nonce_8 : Transaction :=
  mk_Transaction
    (mk_TxData (flagged 3) 0
      (GetByteInt64 7 ++ Hash_GetBytes (BlockHash block_7) ++ zeros 16 ++ BytesToLenAndBytes [] ++ BytesToLenAndBytes [])
      zero_PubKey 0 0 (mk_Address (arr_zero _) true) 0 (byte_of_Z 0) [])
    (mk_TxParam 23 (flagged 1) 1700000010 7 (arr_zero _)) (arr_zero _) zero_Signature 8 0 0 [] (flagged 0).
Definition node_7 : Node (gmap bytes bytes) :=
  mk_Node (mk_AccountsType ∅ 0) no_stakes (NewTransactionPool 100 0) (NewTransactionPool 100 1)
    (NewTransactionPool 100 2) op_db test_config ∅ ∅ false ∅ CreateStateDB 7.
Definition tree_8 : list MerkleNode * list bytes := from_ok ([], []) (BuildBlockTree (block_leaves [])).
Definition run_8 : outcome Block := CreateBlockFromNonceMessage env_8 wallet_8 [] [] node_7 [nonce_8] block_7 tree_8 [].
Definition block_8 : Block := from_ok block_7 run_8.

Lemma run_8_ok : run_8 = Ok block_8.
Proof. vm_cast_no_check (eq_refl (Ok block_8)). Qed.
Lemma key_8 : LoadPubKeyWithPrimary op_db (pr_Address wallet_8) true = Ok (forget_flags (op_key 3 true)).
Proof. vm_cast_no_check (eq_refl (Ok (forget_flags (op_key 3 true)))). Qed.
Lemma sign_8 m sign : pr_Sign wallet_8 m true = Ok sign ->
  Verify test_config m (sig_ByteValue sign) (pk_ByteValue (forget_flags (op_key 3 true))) = Ok true.
Proof.
  intros [= <-]. unfold Verify. cbn [sig_ByteValue index Z.ltb Z.compare lookup list_lookup].
  change (byte_of_Z 0 :: m) with ([byte_of_Z 0] ++ m). rewrite slice_suffix by done. reflexivity.
Qed.

Lemma CreateBlock_accepted_witness :
  run_8 = Ok block_8 /\ CheckBaseBlock env_8 block_8 block_7 node_7 = (Ok tree_8, node_7).
Proof.
  split; [exact run_8_ok|].
  destruct (CreateBlock_accepted env_8 wallet_8 [] [] node_7 nonce_8 block_7 tree_8 [] block_8 (forget_flags (op_key 3 true)))
    as (_ & E & _); [split|exact E].
  - vm_compute. reflexivity.
  - exact run_8_ok.
  - vm_compute. discriminate.
  - vm_compute. reflexivity.
  - apply Forall_nil_2.
  - apply Forall_nil_2.
  - vm_compute. discriminate.
  - vm_compute. reflexivity.
  - vm_compute. reflexivity.
  - exact key_8.
  - exact sign_8.
Defined.
