(* ===== verification/TransactionService.v ===== *)
(** * Package transactionServices: transactions between nodes

    Models services/transactionServices/onmessage.go and the messages of
    serviceTransaction.go.  A handler runs on the state of the services ([Server]
    of Reset.v); a Go [return] in the middle is an error here, and the [recover] of
    the handler swallows errors and panics and keeps the state.  A message for a
    peer is an event; the channel it goes through is taken to accept it. *)
From S2P Require Import Prelude GoInt GoSlice Sums Common Keys Database Codec Float64 Json Accounts.
From S2P Require Import Staking StakingCodec Dex EncScheme Merkle PubKeys Tx Heap Pool StateDB Node Ledger.
From S2P Require Import Block Oracles BlockProcess Message Reset Creation.

(** The orders in which maps are visited. *)
Record Orders := mk_Orders {
  ord_topics : forall A, gmap topic A -> list (topic * A);
  ord_accounts : AccountsType -> list (addr20 * Account);
  ord_staking : staking_map -> list (addr20 * (StakingAccount * list (Z * list StakingDetail)));
  ord_oracles : oracle_map -> list (Z * Proposition_)
}.

(** The orders list what the maps hold. *)
Definition fair (o : Orders) : Prop := forall A (m : gmap topic A), enumerates (ord_topics o A m) m.

Lemma enumerates_singleton {A} (k : topic) (x : A) ord : enumerates ord {[ k := x ]} -> ord = [(k, x)].
Proof.
  unfold enumerates. rewrite map_to_list_singleton. intros Hp. symmetry in Hp. by apply Permutation_length_1_inv in Hp.
Qed.

(** [defer func() { recover() }()] *)
Definition recovered {S A} (m : FST S A) : FST S unit := fun s =>
  match m s with Some (_, s') => Some (Ok tt, s') | None => None end.

Section TransactionService.
Context {D : Type} `{RocksDB D} `{JSON PubKey} `{JSON (list MerkleNode)} `{Hasher} `{OqsLib}.
Implicit Types (s : Server D) (o : Orders) (nw : Network) (tx : Transaction).

(** The surroundings of a handler, with the syncing flag of the services. *)
Definition env_at (e : Env) s : Env :=
  mk_Env (env_now e) (sv_IsSyncing s) (env_pref e) (env_coin e) (env_Log2 e) (env_visit e) (env_visit_votes e)
    (env_wallet_key e) (env_store_wallet e).
Definition node {A} (m : ST (Node D) A) : ST (Server D) A := on node_l m.
Definition with_env {A} (e : Env) (m : Env -> ST (Node D) A) : ST (Server D) A := fun s => node (m (env_at e s)) s.
(** [tcpip.ReduceAndCheckIfBanIP(addr)] before an error. *)
Definition or_ban {A} (addr : bytes) (m : ST (Server D) A) : ST (Server D) A :=
  on_error m (emit (ReduceAndCheckIfBanIP addr)).

Definition head_is (amsg : TransactionsMessage) (head : string) : bool :=
  bytes_eqb (bm_Head (tm_BaseMessage amsg)) (String.list_byte_of_string head).

(** [message.CheckValidMessage], with the ban of the sender. *)
Definition valid_message nw (addr m : bytes) : ST (Server D) TransactionsMessage :=
  do! (isValid, amsg) <- st_lift (CheckValidMessage (nw_ChainID nw) m);
  if negb isValid then or_ban addr (st_err "msg validation fails") else st_ret amsg.

Definition transactions_of (amsg : TransactionsMessage) : ST (Server D) (gmap topic (list Transaction)) :=
  node (fun n => (GetTransactionsFromBytes (nd_Config n) (nd_Accounts n) (nd_MainDB n) amsg, n)).

(** ** Messages *)

Definition GenerateTransactionMsgGT nw (txsHashes : list bytes) (mesgHead : bytes) (t : topic) : TransactionsMessage :=
  mk_TransactionsMessage (mk_BaseMessage mesgHead (nw_ChainID nw)) {[ t := txsHashes ]}.
Definition GenerateTransactionMsg nw (txs : list Transaction) (mesgHead : bytes) (t : topic) : TransactionsMessage :=
  GenerateTransactionMsgGT nw (map Transaction_GetBytes txs) mesgHead t.

(** The bytes of a message with one topic. *)
Definition one_topic (m : TransactionsMessage) : bytes :=
  TransactionsMessage_GetBytes (map_to_list (tm_TransactionsBytes m)) m.

Definition SendGT nw (ip : bytes) (txsHashes : list bytes) (syncPre : string) : ST (Server D) unit :=
  emit (Send TransactionTopic ip
    (one_topic (GenerateTransactionMsgGT nw txsHashes (String.list_byte_of_string syncPre) TransactionTopic))).

(** The first peer that is neither the sender nor the node itself. *)
Definition Spread nw (ignoreAddr nb : bytes) : ST (Server D) unit :=
  match List.find (fun ip => negb (bytes_eqb ip ignoreAddr) && negb (bytes_eqb ip (nw_MyIP nw)))
          (nw_GetPeersConnected nw TransactionTopic) with
  | Some ip => emit (Send TransactionTopic ip nb)
  | None => st_ret tt
  end.

(** services/blockCreation.go [BroadcastBlock]: every peer of the nonce service. *)
Definition BroadcastBlock nw (bl : Block) : ST (Server D) unit :=
  foldr (fun ip k => run! emit (Send NonceTopic ip (one_topic (GenerateBlockMessage (nw_ChainID nw) bl))); k)
    (st_ret tt) (nw_GetPeersConnected nw NonceTopic).

Definition SendTransactionMsg nw (ip : bytes) (t : topic) : ST (Server D) unit := fun s =>
  if sv_IsSyncing s then (Ok tt, s) else
  let txs := PeekTransactions (nd_PoolsTx (sv_Node s)) MaxTransactionsPerBlock 0 in
  emit (Send TransactionTopic ip (one_topic (GenerateTransactionMsg nw txs (ascii2 "t" "x") t))) s.

(** ** Transactions that arrive *)

Definition in_pool (hash : bytes) : ST (Node D) bool := reads pools_l (fun tp => Ok (TransactionExists tp hash)).
Definition in_chain (hash : bytes) : ST (Node D) bool :=
  reads db_l (fun db => CheckFromDBPoolTx db TransactionDBPrefix hash).

(** Whether the transaction was added and stored. *)
Definition pool_transaction tx : ST (Node D) bool :=
  let hash := Hash_GetBytes (tx_Hash tx) in
  do! known <- in_pool hash;
  if known then st_ret false else
  do! known <- in_chain hash;
  if known then st_ret false else
  do! isAdded <- pool_add pools_l tx (tx_Hash tx);
  if negb isAdded then st_ret false else
  do! stored <- st_try (on db_l (StoreToDBPoolTx tx TransactionPoolHashesDBPrefix));
  match stored with
  | Some _ => st_ret true
  | None => run! pool_remove pools_l hash;
            run! logged (on db_l (RemoveTransactionFromDBbyHash TransactionPoolHashesDBPrefix hash));
            st_ret false
  end.

Fixpoint add_transactions nw (addr m : bytes) (txs : list Transaction) : ST (Server D) unit :=
  match txs with
  | [] => st_ret tt
  | tx :: txs =>
      do! added <- node (pool_transaction tx);
      run! (if added then Spread nw addr m else st_ret tt);
      add_transactions nw addr m txs
  end.

(** The transactions of every topic, in the order in which they are visited. *)
Definition on_tx o nw (addr m : bytes) (amsg : TransactionsMessage) : ST (Server D) unit :=
  do! txn <- transactions_of amsg;
  do! count <- node (reads pools_l (fun tp => Ok (NumberOfTransactions tp)));
  if MaxTransactionInPool <? count then st_err "no more transactions can be accepted to the pool" else
  add_transactions nw addr m (concat (map snd (ord_topics o _ txn))).

(** ** Transactions that are asked for *)

(** The transactions found under a prefix; one that is not is removed from the
    pool's prefix when [forget] is set. *)
Fixpoint load_asked (forget : bool) (prefix : bytes) (hashes : list bytes) : ST (Node D) (list Transaction) :=
  match hashes with
  | [] => st_ret []
  | hs :: hashes =>
      do! t <- st_try (load_pool_tx prefix hs);
      run! (match t with
            | None => if forget then logged (on db_l (RemoveTransactionFromDBbyHash TransactionPoolHashesDBPrefix hs))
                      else st_ret tt
            | Some _ => st_ret tt
            end);
      do! txs <- load_asked forget prefix hashes;
      st_ret (match t with
              | Some t => if (0 <? length (Transaction_GetBytes t))%nat then t :: txs else txs
              | None => txs
              end)
  end.

Fixpoint answer_topics (forget : bool) (prefix : bytes) nw (addr : bytes) (topics : list (topic * list bytes))
    : ST (Server D) unit :=
  match topics with
  | [] => st_ret tt
  | (t, v) :: topics =>
      do! txs <- node (load_asked forget prefix v);
      run! emit (Send TransactionTopic addr (one_topic (GenerateTransactionMsg nw txs (ascii2 "t" "x") t)));
      answer_topics forget prefix nw addr topics
  end.

(** ** The handler *)

Definition OnMessage o nw (addr m : bytes) : ST (Server D) unit := fun s =>
  (Ok tt, snd ((do! amsg <- valid_message nw addr m;
    let topics := ord_topics o _ (tm_TransactionsBytes amsg) in
    if head_is amsg "tx" then on_tx o nw addr m amsg
    else if head_is amsg "st" then answer_topics true TransactionPoolHashesDBPrefix nw addr topics
    else if head_is amsg "bt" then answer_topics false TransactionDBPrefix nw addr topics
    else st_ret tt) s)).
End TransactionService.
