(* ===== verification/Genesis.v ===== *)
(** * Package genesis: the first block

    Models genesis/genesis.go from the parsed configuration on.  The file and its
    JSON are read outside; the parameters that [setInitParams] copies are those of
    common/const.go, as in the configuration of the repository, except the chain's
    identifier, which is an argument.  A call of [logger.Fatal] ends the program and
    is an error here.  The theorem says that the books balance after the first
    block: what the accounts and the stakes hold is the supply it declares. *)
From S2P Require Import Prelude GoInt GoSlice Sums Common Keys Database Codec Float64 Json Accounts.
From S2P Require Import Staking StakingCodec Dex EncScheme Merkle PubKeys Tx Heap Pool StateDB Node Ledger Supply.
From S2P Require Import Transfers Block BlockProcess Quiet Settle BlockSupply Message Creation TransactionService.

Record GenesisStaking := mk_GenesisStaking {
  gs_Account : bytes;
  gs_Amount : Z;
  gs_LockedAmount : Z;
  gs_ReleasedPerBlock : Z;
  gs_DelegatedAccount : Z;
  gs_OperationalAccount : bool;
  gs_PubKey : bytes;
  gs_PubKey2 : bytes
}.

Record GenesisTransactions := mk_GenesisTransactions {
  gt_Account : bytes;
  gt_Amount : Z;
  gt_LockedAmount : Z;
  gt_ReleasedPerBlock : Z;
  gt_DelegatedAccount : Z;
  gt_PubKey : bytes;
  gt_Signature : bytes;
  gt_EscrowTransactionsDelay : Z;
  gt_MultiSignNumber : byte;
  gt_MultiSignAddresses : bytes
}.

(** The fields that are used here; a string is its bytes. *)
Record Genesis := mk_Genesis {
  g_Timestamp : Z;
  g_ChainID : Z;
  g_Difficulty : Z;
  g_StakedBalances : list GenesisStaking;
  g_Transactions : list GenesisTransactions;
  g_Signature : bytes;
  g_OperatorPubKey : bytes
}.

(** ** encoding/hex *)

Definition hex_digit (b : byte) : option Z :=
  let c := byte_to_Z b in
  if (48 <=? c) && (c <=? 57) then Some (c - 48)
  else if (97 <=? c) && (c <=? 102) then Some (c - 87)
  else if (65 <=? c) && (c <=? 70) then Some (c - 55)
  else None.
Fixpoint DecodeString (s : bytes) : outcome bytes :=
  match s with
  | [] => Ok []
  | [_] => Err "encoding/hex: odd length hex string"
  | a :: b :: s =>
      match hex_digit a, hex_digit b with
      | Some x, Some y => let! r := DecodeString s in Ok (byte_of_Z (16 * x + y) :: r)
      | _, _ => Err "encoding/hex: invalid byte"
      end
  end.

Section Genesis.
Context {D : Type} `{RocksDB D} `{JSON PubKey} `{JSON (list MerkleNode)} `{Hasher} `{OqsLib}.
Implicit Types (n : Node D) (e : Env) (w : Proposer) (o : Orders) (g : Genesis).

Definition GetSignatureFromString (ec : EncryptionConfig) (s : bytes) (address : Address) : outcome Signature :=
  let! sigBytes := DecodeString s in Signature_Init ec sigBytes address.

Definition storeGenesisPubKey (pubkeystr : bytes) (primary : bool) : ST (Node D) PubKey :=
  do! pubKeyOpBytes <- st_lift (DecodeString pubkeystr);
  do! addressOp1 <- st_lift (PubKeyToAddress pubKeyOpBytes primary);
  do! ec <- get_config;
  do! pubKeyOp1 <- st_lift (PubKey_Init ec pubKeyOpBytes addressOp1);
  run! on db_l (StorePubKey pubKeyOp1);
  run! on db_l (StorePubKeyInPatriciaTrie pubKeyOp1);
  st_ret pubKeyOp1.

(** The approvers of a multi-signature account. *)
Fixpoint multisign_addresses (addrStr : list bytes) : outcome (list addr20) :=
  match addrStr with
  | [] => Ok []
  | [] :: addrStr => multisign_addresses addrStr
  | as_ :: addrStr =>
      let! a := DecodeString as_ in
      let! a := slice_to a (Z.of_nat AddressLength) in
      let! msa := multisign_addresses addrStr in
      Ok (arr_of AddressLength a :: msa)
  end.

Definition GenesisTransaction (chainID : Z) (sender recipient : Address) (genTx : GenesisTransactions)
    (walletNonce timestamp : Z) : ST (Node D) Transaction :=
  do! pkb <- st_lift (DecodeString (gt_PubKey genTx));
  do! ec <- get_config;
  do! pk <- st_lift (PubKey_Init ec pkb recipient);
  run! on db_l (StorePubKey pk);
  do! msa <- st_lift (multisign_addresses (Split (byte_of_Z 44) (gt_MultiSignAddresses genTx)));
  do! deleg <- st_lift (GetDelegatedAccountAddress (gt_DelegatedAccount genTx));
  let txdata := mk_TxData recipient (gt_Amount genTx) [] zero_PubKey (gt_LockedAmount genTx)
    (gt_ReleasedPerBlock genTx) deleg (gt_EscrowTransactionsDelay genTx) (gt_MultiSignNumber genTx) msa in
  let txParam := mk_TxParam chainID sender timestamp walletNonce (arr_zero _) in
  do! t <- st_lift (CalcHashAndSet
    (mk_Transaction txdata txParam (arr_zero _) zero_Signature 0 0 0 [] zero_Address));
  do! signature <- st_lift (GetSignatureFromString ec (gt_Signature genTx) sender);
  let t := mk_Transaction (tx_Data t) (tx_Param t) (tx_Hash t) signature (tx_Height t) (GasPrice t) (GasUsage t)
    (OutputLogs t) (ContractAddress t) in
  do! at_ <- reads accounts_l (fun at_ => Ok at_);
  do! (ok, t) <- reads db_l (fun db => Transaction_Verify ec at_ db t);
  if negb ok then st_err "genesis transaction cannot be verified" else st_ret t.

(** The hashes of the transactions, which are stored for the execution. *)
Fixpoint genesis_transactions g (sender : Address) (walletNonce : Z) (txs : list GenesisTransactions)
    : ST (Node D) (list Hash) :=
  match txs with
  | [] => st_ret []
  | genTx :: txs =>
      do! ab <- st_lift (DecodeString (gt_Account genTx));
      do! a <- st_lift (BytesToAddress ab);
      do! tx <- GenesisTransaction (g_ChainID g) sender a genTx walletNonce (g_Timestamp g);
      do! tx <- st_lift (CalcHashAndSet tx);
      run! on db_l (StoreToDBPoolTx tx TransactionPoolHashesDBPrefix);
      do! hashes <- genesis_transactions g sender (i16 (walletNonce + 1)) txs;
      st_ret (tx_Hash tx :: hashes)
  end.

(** [StakingAccounts[i].AllStakingAccounts[a] = as] *)
Definition put_stake (i : Z) (a : addr20) (sa : StakingAccount) : ST (Node D) unit :=
  on_ok staking_l (fun t => let! m := index t i in Ok (<[Z.to_nat i := <[a := sa]> m]> t)).
Definition genesis_stake (timestamp : Z) (stkTx : GenesisStaking) (addrb delAddrb : addr20) : StakingAccount :=
  mk_StakingAccount (gs_Amount stkTx) 0 [gs_LockedAmount stkTx] [gs_ReleasedPerBlock stkTx] [0] delAddrb addrb
    (gs_OperationalAccount stkTx) {[ 0 := [mk_StakingDetail (gs_Amount stkTx) 0 timestamp] ]}.
Fixpoint genesis_stakes g (stakes : list GenesisStaking) : ST (Node D) unit :=
  match stakes with
  | [] => st_ret tt
  | stkTx :: stakes =>
      do! ab <- st_lift (DecodeString (gs_Account stkTx));
      let addrb := arr_copy (arr_zero AddressLength) ab in
      do! firstDel <- st_lift (GetDelegatedAccountAddress (gs_DelegatedAccount stkTx));
      do! pk1 <- storeGenesisPubKey (gs_PubKey stkTx) true;
      run! (match gs_PubKey2 stkTx with
            | [] => st_ret tt
            | _ => do! pk2 <- storeGenesisPubKey (gs_PubKey2 stkTx) false;
                   on db_l (AddPubKeyToAddress pk2 (pk_Address pk1))
            end);
      run! put_stake (gs_DelegatedAccount stkTx) addrb
        (genesis_stake (g_Timestamp g) stkTx addrb (addr_ByteValue firstDel));
      genesis_stakes g stakes
  end.

Definition store_stakes o (height : Z) : ST (Node D) unit := fun n =>
  on db_l (StoreStakingAccounts (ord_staking o) (nd_StakingAccounts n) height) n.

(** What is left of the initial supply goes to the operator. *)
Definition unstaked_supply g : Z := foldl (fun x b => x -! gs_Amount b) InitSupply (g_StakedBalances g).
Definition endow (address : addr20) (balance : Z) : ST (Node D) unit :=
  on accounts_l (st_modify (fun at_ =>
    let acc := default (mk_Account 0 (arr_zero _) 0 (byte_of_Z 0) []) (AllAccounts at_ !! address) in
    store_account at_ address
      (mk_Account balance address (TransactionDelay acc) (MultiSignNumber acc) (MultiSignAddresses acc)))).

Definition CreateBlockFromGenesis e w o g : ST (Node D) Block :=
  do! pkOp1 <- storeGenesisPubKey (g_OperatorPubKey g) true;
  let addressOp1 := pk_Address pkOp1 in
  run! endow (addr_ByteValue addressOp1) (unstaked_supply g);
  do! hashes <- genesis_transactions g addressOp1 0 (g_Transactions g);
  run! genesis_stakes g (g_StakedBalances g);
  run! store_stakes o 0;
  do! genesisMerkleTrie <- st_lift (BuildBlockTree (map Hash_GetBytes hashes));
  run! on db_l (StoreTree genesisMerkleTrie.1 genesisMerkleTrie.2 0);
  do! root <- st_lift (GetRootHash genesisMerkleTrie.1);
  do! deleg <- st_lift (GetDelegatedAccountAddress 1);
  let bh := mk_BaseHeader (arr_zero _) (g_Difficulty g) 0 deleg addressOp1 (arr_copy (arr_zero HashLength) root)
    [] [] zero_Signature [] in
  let message := Block.GetBytesWithoutSignature bh in
  do! hashb <- st_lift (CalcHashToByte message);
  do! _ <- st_lift (pr_Sign w hashb true);
  do! ec <- get_config;
  do! signature <- st_lift (GetSignatureFromString ec (g_Signature g) addressOp1);
  let bh := mk_BaseHeader (PreviousHash bh) (Difficulty bh) 0 deleg addressOp1 (RootMerkleTree bh) [] [] signature message in
  do! bhHash <- st_lift (BaseHeader_CalcHash bh);
  do! verified <- reads db_l (fun db => BaseHeader_Verify ec (env_pref e) (env_coin e) db bh);
  if negb verified then st_err "Block Header signature in genesis block fails to verify" else
  let bb := mk_BaseBlock bh bhHash (g_Timestamp g) 0 (InitSupply +! GetReward InitSupply) 0 0 [] [] in
  do! hash <- st_lift (CalcBlockHash (mk_Block bb hashes (arr_zero _) 0));
  st_ret (mk_Block bb hashes hash 0).

Definition InitGenesis e w o g : ST (Node D) unit :=
  run! on height_l (st_put 0);
  do! genesisBlock <- CreateBlockFromGenesis e w o g;
  run! ProcessBlockTransfers e genesisBlock (GetReward InitSupply);
  run! on db_l (StoreBlock genesisBlock);
  run! (fun n => on_ok db_l (fun db => StoreAccounts db (nd_Height n) (ord_accounts o (nd_Accounts n)) (nd_Accounts n) 0) n);
  store_stakes o 0.
End Genesis.

(** ** The books of the first block *)

Definition stake_sum (stakes : list GenesisStaking) : Z := foldr (fun b s => gs_Amount b + s) 0 stakes.
Lemma unstaked_supply_eq g : eq64 (unstaked_supply g) (InitSupply - stake_sum (g_StakedBalances g)).
Proof.
  unfold unstaked_supply. generalize InitSupply. induction (g_StakedBalances g) as [|b bs IH]; intros s; cbn.
  - by rewrite Z.sub_0_r.
  - rewrite IH. fold (stake_sum bs). i64_solve.
Qed.
Lemma unstaked_supply_in64 g : in64 (unstaked_supply g).
Proof.
  unfold unstaked_supply. assert (in64 InitSupply) as Hi by done. revert Hi. generalize InitSupply.
  induction (g_StakedBalances g) as [|b bs IH]; intros s Hs; cbn; [done|]. apply IH, sub64_in64.
Qed.

(** The cell of a stake: the table of its delegated account and its address. *)
Definition stake_address (b : GenesisStaking) : addr20 := arr_copy (arr_zero AddressLength) (from_ok [] (DecodeString (gs_Account b))).
Definition stake_cell (b : GenesisStaking) : Z * addr20 := (gs_DelegatedAccount b, stake_address b).
Definition vacant (t : staking_tables) (c : Z * addr20) : Prop :=
  forall m, index t c.1 = Ok m -> m !! c.2 = None.

(** A node before its first block: no account, no stake and nothing in escrow. *)
Record fresh {D} (n : Node D) : Prop := {
  fr_accounts : AllAccounts (nd_Accounts n) = ∅;
  fr_stakes : nd_StakingAccounts n = no_stakes;
  fr_escrow : transactions (nd_PoolTxEscrow n) = ∅
}.

(** Programs that touch neither the ledger nor the transactions in escrow. *)
Definition aside {D} (n n' : Node D) : Prop :=
  nd_Accounts n' = nd_Accounts n /\ nd_StakingAccounts n' = nd_StakingAccounts n /\
  nd_PoolTxEscrow n' = nd_PoolTxEscrow n.
#[export] Instance aside_preorder {D} : PreOrder (@aside D).
Proof. split; [by intros n|]. intros n1 n2 n3 (A & B & C) (A' & B' & C'). repeat split; congruence. Qed.
#[export] Hint Extern 2 (within aside (on _ _)) => (apply within_on_any; first [exact _|by intros]) : within.

Section GenesisFacts.
Context {D : Type} `{RocksDBLaws D} `{JSON PubKey} `{JSON (list MerkleNode)} `{Hasher} `{OqsLib}.
Implicit Types (n : Node D) (e : Env) (w : Proposer) (o : Orders) (g : Genesis).

Lemma aside_storeGenesisPubKey k p : within aside (storeGenesisPubKey (D := D) k p).
Proof. unfold storeGenesisPubKey, get_config. solve_within. Qed.
Lemma aside_GenesisTransaction c s r tx wn ts : within aside (GenesisTransaction (D := D) c s r tx wn ts).
Proof. unfold GenesisTransaction, get_config. solve_within. Qed.
#[local] Hint Resolve aside_storeGenesisPubKey aside_GenesisTransaction : within.
Lemma aside_genesis_transactions g s : forall txs wn, within aside (genesis_transactions (D := D) g s wn txs).
Proof. induction txs as [|tx txs IH]; intros wn; cbn [genesis_transactions]; solve_within. Qed.
Lemma aside_store_stakes o h : within aside (store_stakes (D := D) o h).
Proof. intros n. by apply (within_on_any aside db_l). Qed.
#[local] Hint Resolve aside_genesis_transactions aside_store_stakes : within.

Lemma vacant_put t m (i : Z) a sa (c : Z * addr20) : index t i = Ok m -> c <> (i, a) -> vacant t c ->
  vacant (<[Z.to_nat i := <[a := sa]> m]> t) c.
Proof.
  intros Hm Hc Hv m' Hm'. apply index_inv in Hm as [Hi Hm]. apply index_inv in Hm' as [Hc0 Hm'].
  destruct (decide (Z.to_nat i = Z.to_nat c.1)) as [E|E].
  - rewrite E, list_lookup_insert_eq in Hm' by (rewrite <- E; by eapply lookup_lt_Some). injection Hm' as <-.
    rewrite lookup_insert_ne by (destruct c as [ci ca]; cbn in *; intros ->; apply Hc; f_equal; lia).
    apply Hv. unfold index. replace (c.1 <? 0) with false by (symmetry; apply Z.ltb_ge; lia). by rewrite <- E, Hm.
  - rewrite list_lookup_insert_ne in Hm' by done. apply Hv. unfold index.
    replace (c.1 <? 0) with false by (symmetry; apply Z.ltb_ge; lia). by rewrite Hm'.
Qed.

(** A stake in a vacant cell adds its amount. *)
Lemma put_stake_ok i a sa n n' : vacant (nd_StakingAccounts n) (i, a) -> StakingRewards sa = 0 ->
  put_stake i a sa n = (Ok tt, n') ->
  nd_Accounts n' = nd_Accounts n /\ nd_PoolTxEscrow n' = nd_PoolTxEscrow n /\ total n' = total n +! StakedBalance sa /\
  forall c, c <> (i, a) -> vacant (nd_StakingAccounts n) c -> vacant (nd_StakingAccounts n') c.
Proof.
  intros Hv Hr. unfold put_stake, on_ok. cbn [l_get staking_l].
  destruct (index _ i) as [m|err|] eqn:Em; cbn [obind]; [|done..]. intros [= <-].
  split; [done|]. split; [done|]. specialize (Hv m Em). cbn [snd] in Hv. split.
  - open_total. pose proof (index_inv _ _ _ Em) as [Hi Hm].
    assert (staking_update (nd_StakingAccounts n) (<[Z.to_nat i:=<[a:=sa]> m]> (nd_StakingAccounts n)) i a zero_StakingAccount sa)
      as Hu by (split; [done|]; exists m; by rewrite Hv).
    rewrite (sum_staking_update StakedBalance _ _ _ _ _ _ eq_refl Hu), (sum_staking_update StakingRewards _ _ _ _ _ _ eq_refl Hu).
    rewrite Hr. cbn [StakedBalance StakingRewards zero_StakingAccount]. i64_solve.
  - intros c Hc Hvc. by apply vacant_put.
Qed.

Lemma genesis_stakes_ok g : forall stakes n n', NoDup (map stake_cell stakes) ->
  (forall c, c ∈ map stake_cell stakes -> vacant (nd_StakingAccounts n) c) ->
  genesis_stakes g stakes n = (Ok tt, n') ->
  nd_Accounts n' = nd_Accounts n /\ nd_PoolTxEscrow n' = nd_PoolTxEscrow n /\ eq64 (total n') (total n + stake_sum stakes).
Proof.
  induction stakes as [|b bs IH]; intros n n'; cbn [genesis_stakes map stake_sum foldr].
  { intros _ _ [= <-]. by rewrite Z.add_0_r. }
  intros [Hnin Hnd]%NoDup_cons Hv E.
  apply st_bind_ok_inv in E as (ab & n1 & [= Eab <-] & E). cbv zeta in E.
  apply st_bind_ok_inv in E as (del & n2 & [= Ed <-] & E).
  apply st_bind_ok_inv in E as (pk1 & n3 & E3 & E). apply aside_storeGenesisPubKey in E3.
  apply st_bind_ok_inv in E as ([] & n4 & E4 & E).
  assert (aside n n4) as (Ha & Hs & Hp).
  { transitivity n3; [done|]. revert E4. match goal with |- ?m n3 = _ -> _ => assert (within aside m) as Hm end; [solve_within|by apply Hm]. }
  apply st_bind_ok_inv in E as ([] & n5 & E5 & E).
  assert (stake_address b = arr_copy (arr_zero AddressLength) ab) as Hab by (unfold stake_address; by rewrite Eab).
  assert (arr_copy (arr_zero AddressLength) ab = (stake_cell b).2) as Hcell by (by rewrite <- Hab).
  apply put_stake_ok in E5 as (Ha5 & Hp5 & Ht5 & Hv5); [|rewrite Hs, Hcell; apply Hv; by left|done].
  apply IH in E as (Ha' & Hp' & Ht'); [|done|].
  2: { intros c Hc. apply Hv5; [|rewrite Hs; apply Hv; by right]. intros ->. rewrite Hcell in Hc. by apply Hnin. }
  split; [congruence|]. split; [congruence|]. rewrite Ht', Ht5. unfold total. rewrite Ha, Hs.
  cbn [StakedBalance genesis_stake]. fold (stake_sum bs). i64_solve.
Qed.

Lemma no_stakes_vacant c : vacant no_stakes c.
Proof.
  intros m Hm. apply index_inv in Hm as [_ Hm]. apply lookup_replicate_1 in Hm as [-> _]. apply lookup_empty.
Qed.

(** What the operator gets makes up the initial supply. *)
Lemma endow_fresh a g n n' : fresh n -> 0 <= unstaked_supply g ->
  endow a (unstaked_supply g) n = (Ok tt, n') ->
  solvent (nd_Accounts n') /\ nd_StakingAccounts n' = no_stakes /\ transactions (nd_PoolTxEscrow n') = ∅ /\
  eq64 (total n') (unstaked_supply g).
Proof.
  intros [Ha Hs Hp] Hg [= <-].
  set (acc := default _ _). set (acc' := mk_Account _ _ _ _ _).
  assert (accounts_wf (store_account (nd_Accounts n) a acc')) as Hw.
  { apply store_account_wf; [|done]. intros k x. by rewrite Ha, lookup_empty. }
  assert (coins (store_account (nd_Accounts n) a acc') = unstaked_supply g) as Hc.
  { rewrite coins_store. unfold lookup_account, coins. rewrite Ha, lookup_empty. cbn. unfold fold_coins. rewrite map_fold_empty. lia. }
  set (at' := store_account (nd_Accounts n) a acc') in *. split; [|split; [done|split; [done|]]].
  - change (solvent at'). pose proof (unstaked_supply_in64 g) as Hi. unfold in64 in Hi.
    split; [done| |lia]. apply store_nonneg; [|done]. intros k x. by rewrite Ha, lookup_empty.
  - change (eq64 (ledger_total at' (nd_StakingAccounts n)) (unstaked_supply g)).
    rewrite ledger_total_eq, coins_supply, Hc, Hs.
    change (sum64 (sum_map StakedBalance) no_stakes) with 0. change (sum64 (sum_map StakingRewards) no_stakes) with 0. i64_solve.
Qed.

(** What is stored after the first block was executed moves no coin. *)
Lemma genesis_stored (b : Block) o :
  within same_ledger (run! on db_l (StoreBlock b);
    run! (fun n : Node D => on_ok db_l (fun db =>
      StoreAccounts db (nd_Height n) (ord_accounts o (nd_Accounts n)) (nd_Accounts n) 0) n);
    store_stakes o 0).
Proof.
  apply within_bind; [exact _|solve_frames|intros _]. apply within_bind; [exact _| |intros _].
  - intros m. apply (within_on_ok_any same_ledger db_l). by intros.
  - intros m. apply (within_on_any same_ledger db_l). by intros.
Qed.

(** The state in which the first block is executed. *)
Lemma CreateBlockFromGenesis_ok e w o g n b n' : fresh n -> 0 <= unstaked_supply g ->
  NoDup (map stake_cell (g_StakedBalances g)) ->
  CreateBlockFromGenesis e w o g n = (Ok b, n') ->
  Supply (bl_BaseBlock b) = InitSupply +! GetReward InitSupply /\ bh_Height (bl_Header b) = 0 /\
  solvent (nd_Accounts n') /\ transactions (nd_PoolTxEscrow n') = ∅ /\ eq64 (total n') InitSupply.
Proof.
  intros Hf Hg Hnd E. unfold CreateBlockFromGenesis in E.
  apply st_bind_ok_inv in E as (pk & n1 & E1 & E). apply aside_storeGenesisPubKey in E1 as (Ha1 & Hs1 & Hp1).
  cbv zeta in E. apply st_bind_ok_inv in E as ([] & n2 & E2 & E).
  apply endow_fresh in E2 as (Hsol & Hs2 & Hp2 & Ht2); [|destruct Hf; split; congruence|done].
  apply st_bind_ok_inv in E as (hs & n3 & E3 & E). apply aside_genesis_transactions in E3 as (Ha3 & Hs3 & Hp3).
  apply st_bind_ok_inv in E as ([] & n4 & E4 & E).
  apply genesis_stakes_ok in E4 as (Ha4 & Hp4 & Ht4); [|done|intros c _; rewrite Hs3, Hs2; apply no_stakes_vacant].
  assert (eq64 (total n4) InitSupply) as Ht.
  { rewrite Ht4. unfold total at 1. rewrite Ha3, Hs3. fold (total n2).
    rewrite Ht2, unstaked_supply_eq. f_equal. lia. }
  assert (solvent (nd_Accounts n4) /\ transactions (nd_PoolTxEscrow n4) = ∅) as [Hsol4 Hp4'] by (split; congruence).
  match type of E with ?m n4 = _ => assert (forall r s, m n4 = (r, s) -> aside n4 s) as Hm end.
  { apply within_bind; [exact _|apply aside_store_stakes|intros _]. unfold get_config. solve_within. }
  destruct (Hm _ _ E) as (Ha & Hs & Hp). clear Hm.
  do 11 (apply st_bind_ok_inv in E as (? & ? & _ & E); cbv zeta in E).
  destruct (negb _); [done|]. apply st_bind_ok_inv in E as (? & ? & _ & E). injection E as <- _.
  split; [done|]. split; [done|]. split; [by rewrite Ha|]. split; [by rewrite Hp|].
  rewrite <- Ht. unfold total. by rewrite Ha, Hs.
Qed.
End GenesisFacts.

(** C24: the first block balances the books: on a fresh node, when the staked
    balances do not exceed the initial supply and no two of them go to one cell, a
    genesis that succeeds ends with a ledger (balances, stakes and rewards) that
    holds the supply that its block declares, the initial supply and its reward,
    less the fees of its transactions, modulo 2^64. *)
Theorem InitGenesis_books {D} `{RocksDBLaws D} `{JSON PubKey} `{JSON (list MerkleNode)} `{Hasher} `{OqsLib}
    e w o g (n n' : Node D) :
  fresh n -> 0 <= unstaked_supply g -> NoDup (map stake_cell (g_StakedBalances g)) ->
  InitGenesis e w o g n = (Ok tt, n') ->
  exists b n1 txs, CreateBlockFromGenesis e w o g (l_set height_l 0 n) = (Ok b, n1) /\
    Supply (bl_BaseBlock b) = InitSupply +! GetReward InitSupply /\
    Forall2 (pool_tx n1) (TransactionsHashes b) txs /\
    accounts_wf (nd_Accounts n') /\
    eq64 (total n') (Supply (bl_BaseBlock b) - sum_fees charged txs).
Proof.
  intros Hf Hg Hnd E. unfold InitGenesis in E.
  apply st_bind_ok_inv in E as ([] & n0 & [= <-] & E). apply st_bind_ok_inv in E as (b & n1 & E1 & E).
  pose proof E1 as (Hsup & _ & Hsol & Hp & Ht)%CreateBlockFromGenesis_ok; [|by destruct Hf|done..].
  apply st_bind_ok_inv in E as ([] & n2 & E2 & E).
  apply ProcessBlockTransfers_ok in E2 as (Hw & txs & Htxs & Ht2); [|done|by rewrite Hp; apply map_Forall_empty].
  apply genesis_stored in E as [Ha Hs].
  exists b, n1, txs. split; [done|]. split; [done|]. split; [done|]. split; [by rewrite Ha|].
  unfold total at 1. rewrite Ha, Hs. fold (total n2). rewrite Ht2, Ht, Hsup.
  generalize (GetReward InitSupply) InitSupply. intros r s. i64_solve.
Qed.

(** ** A closed example: an operator with a stake, and one transaction *)

#[local] Existing Instance map_store.
#[local] Existing Instance map_store_laws.
#[local] Existing Instance pk_json.
#[local] Existing Instance node_json.
#[local] Existing Instance toy_hasher.
#[local] Existing Instance small_schemes.

Definition ascii (s : string) : bytes := map Ascii.byte_of_ascii (String.list_ascii_of_string s).
Definition toy_stake (d : Z) : GenesisStaking :=
  mk_GenesisStaking (ascii "0300000000000000000000000000000000000000") (2 * MinStakingForNode) 0 0 d true (ascii "000000") [].
Definition toy_transfer : GenesisTransactions :=
  mk_GenesisTransactions (ascii "0000000000000000000000000000000000000007") 50 0 0 0 (ascii "000007") (ascii "0001") 0 (byte_of_Z 0) [].
Definition toy_genesis (stakes : list GenesisStaking) (txs : list GenesisTransactions) : Genesis :=
  mk_Genesis 1662296251 23 10 stakes txs (ascii "0001") (ascii "000000").
Definition genesis_config : EncryptionConfig := mk_EncryptionConfig 3 1 1 "Falcon-512" 0 5 1 1 "MAYO-5" 0.
Definition empty_node : Node (gmap bytes bytes) :=
  mk_Node (mk_AccountsType ∅ 0) no_stakes (NewTransactionPool 100 0) (NewTransactionPool 100 1)
    (NewTransactionPool 100 2) ∅ genesis_config ∅ ∅ false ∅ CreateStateDB 5.
Definition genesis_orders : Orders :=
  mk_Orders (fun A m => map_to_list m) (fun at_ => map_to_list (AllAccounts at_))
    (fun m => map (fun kv => (kv.1, (kv.2, map_to_list (StakingDetails kv.2)))) (map_to_list m)) map_to_list.
Definition genesis_wallet : Proposer := mk_Proposer operator_addr operator_addr 100
  (fun m p => Ok (mk_Signature (byte_of_Z 0 :: m) operator_addr p)).
Definition genesis_run (g : Genesis) : ST (Node (gmap bytes bytes)) unit :=
  InitGenesis still_env genesis_wallet genesis_orders g.
Definition sample_genesis : Genesis := toy_genesis [toy_stake 1] [toy_transfer].

Lemma genesis_run_ok : genesis_run sample_genesis empty_node
  = (Ok tt, snd (genesis_run sample_genesis empty_node)).
Proof. apply (run_result (genesis_run sample_genesis)). vm_compute. reflexivity. Qed.
Lemma genesis_run_total : total (snd (genesis_run sample_genesis empty_node)) = 23000020700000000.
Proof. vm_compute. reflexivity. Qed.

Lemma InitGenesis_books_witness : exists (b : Block) (n1 : Node (gmap bytes bytes)) txs,
  CreateBlockFromGenesis still_env genesis_wallet genesis_orders sample_genesis (l_set height_l 0 empty_node)
    = (Ok b, n1) /\
  Forall2 (pool_tx n1) (TransactionsHashes b) txs /\
  total (snd (genesis_run sample_genesis empty_node)) = 23000020700000000 /\
  eq64 (total (snd (genesis_run sample_genesis empty_node))) (Supply (bl_BaseBlock b) - sum_fees charged txs).
Proof.
  destruct (@InitGenesis_books _ map_store map_store_laws pk_json node_json toy_hasher small_schemes
    still_env genesis_wallet genesis_orders sample_genesis empty_node _ ltac:(by split)
    ltac:(by vm_compute) ltac:(apply NoDup_singleton) genesis_run_ok) as (b & n1 & txs & E & _ & Hp & _ & Ht).
  exists b, n1, txs. split; [exact E|]. split; [exact Hp|split; [exact genesis_run_total|exact Ht]].
Defined.

(** The distinctness of the cells is needed: of two stakes of one address in one
    table only the second is kept, and the coins of the first are lost. *)
Definition twice_genesis : Genesis := toy_genesis [toy_stake 1; toy_stake 1] [].
Lemma InitGenesis_duplicate_stake : refused (fst (genesis_run twice_genesis empty_node)) = false /\
  total (snd (genesis_run twice_genesis empty_node)) = InitSupply + GetReward InitSupply - 2 * MinStakingForNode.
Proof. split; vm_compute; reflexivity. Qed.
