(* ===== verification/NonceService.v ===== *)
(** * Package nonceServices: nonces and blocks that arrive

    Models services/nonceService/onmessage.go.  A handler runs on the state of the
    services ([Server] of Reset.v); what a Go [return] leaves is an error here, and
    the outer [recover] swallows errors and panics and keeps the state.  The orders
    in which maps are visited are the record [Orders] of TransactionService.v. *)
From S2P Require Import Prelude GoInt GoSlice Sums Common Keys Database Codec Float64 Json Accounts.
From S2P Require Import Staking StakingCodec Dex EncScheme Merkle PubKeys Tx Heap Pool StateDB Node Ledger.
From S2P Require Import Block Voting Oracles BlockProcess Evaluate Message Reset Creation TransactionService.

(** [if err := m(); err != nil { h(); return }] *)
Definition or_else {S A} (m : ST S A) (h : FST S unit) : FST S A := fun s =>
  match m s with
  | (Err e, s') => match h s' with
                   | Some (Panic, s'') => Some (Panic, s'')
                   | Some (_, s'') => Some (Err e, s'')
                   | None => None
                   end
  | r => Some r
  end.

Section Nonce.
Context {D : Type} `{RocksDB D} `{JSON PubKey} `{JSON (list MerkleNode)} `{Hasher} `{OqsLib}.
Variable vm : VMachine.
Implicit Types (s : Server D) (o : Orders) (w : Proposer) (nw : Network).

(** ** Nonces *)

(** The first transaction of each topic; of these the first visited. *)
Fixpoint first_of_topics (txn : list (topic * list Transaction)) : outcome (list Transaction) :=
  match txn with
  | [] => Ok []
  | (_, v) :: txn => let! t := index v 0 in let! ts := first_of_topics txn in Ok (t :: ts)
  end.
Definition nonce_transaction (txn : list (topic * list Transaction)) : outcome Transaction :=
  let! ts := first_of_topics txn in
  Ok (match ts with t :: _ => t | [] => zero_Transaction end).

Definition save_price (v height : Z) (del : Address) (staked : Z) : ST (Server D) unit :=
  on_ok oracles_l (fun om => let! p := SavePriceOracle om.1 v height del staked in Ok (p, om.2)).
Definition save_rand (v height : Z) (del : Address) (staked : Z) : ST (Server D) unit :=
  on_ok oracles_l (fun om => let! r := SaveRandOracle om.2 v height del staked in Ok (om.1, r)).
Definition save_vote1 (vb : bytes) (height : Z) (del : Address) (staked : Z) : ST (Server D) unit :=
  node (on_ok votes_l (fun v => let! m := SaveVotesEncryption1 v.1.1 vb height del staked in Ok (m, v.1.2, v.2))).
Definition save_vote2 (vb : bytes) (height : Z) (del : Address) (staked : Z) : ST (Server D) unit :=
  node (on_ok votes_l (fun v => let! m := SaveVotesEncryption2 v.1.2 vb height del staked in Ok (v.1.1, m, v.2))).

(** [vb, rest, err := common.BytesWithLenToBytes(b)], the error logged. *)
Definition vote_bytes (b : bytes) : outcome (bytes * bytes) :=
  match BytesWithLenToBytes b with Ok r => Ok r | Err _ => Ok ([], []) | Panic => Panic end.

(** The proposals of a nonce: two oracle values and two votes, from byte 40 of the
    optional data on.  Errors are logged. *)
Definition save_proposals (optData : bytes) (height : Z) (del : Address) (staked : Z) : ST (Server D) unit :=
  do! b <- st_lift (slice_to optData 8);
  do! price <- st_lift (GetInt64FromByte b);
  run! logged (save_price price height del staked);
  do! b <- st_lift (slice optData 8 16);
  do! rand <- st_lift (GetInt64FromByte b);
  run! logged (save_rand rand height del staked);
  do! b <- st_lift (slice_from optData 16);
  do! (vb, b2) <- st_lift (vote_bytes b);
  run! logged (save_vote1 vb height del staked);
  do! (vb, _) <- st_lift (vote_bytes b2);
  logged (save_vote2 vb height del staked).

Definition verify (tx : Transaction) : ST (Server D) (bool * Transaction) :=
  node (fun n => (Transaction_Verify (nd_Config n) (nd_Accounts n) (nd_MainDB n) tx, n)).
Definition load_block (h : Z) : ST (Server D) Block :=
  node (fun n => (LoadBlock (nd_Config n) (nd_MainDB n) h, n)).

(** The block on top of [lastBlock] that the nonce calls for. *)
Definition propose e o w (lastBlock : Block) (transaction : Transaction) : ST (Server D) Block := fun s =>
  let n := sv_Node s in
  let hashes := map tx_Hash (PeekTransactions (nd_PoolsTx n) MaxTransactionsPerBlock (tx_Height transaction)) in
  (let! merkleTrie := BuildBlockTree (block_leaves hashes) in
   CreateBlockFromNonceMessage (env_at e s) w (ord_oracles o (sv_PriceOracles s)) (ord_oracles o (sv_RandOracles s))
     n [transaction] lastBlock merkleTrie hashes, s).

Definition on_nonce e o w nw (addr : bytes) (h : Z) (amsg : TransactionsMessage) : ST (Server D) unit :=
  do! txn <- transactions_of amsg;
  do! transaction <- st_lift (nonce_transaction (ord_topics o _ txn));
  let nonceHeight := tx_Height transaction in
  if (nonceHeight <? 1) || negb (nonceHeight =? h +! 1) then st_err "nonce height invalid" else
  do! (isValid, transaction) <- verify transaction;
  if negb isValid then or_ban addr (st_err "nonce signature is invalid") else
  run! emit (NodeRegisterPeer addr);
  let txDelAcc := Recipient (tx_Data transaction) in
  do! n <- st_lift (IntDelegatedAccountFromAddress txDelAcc);
  do! optData <- st_lift (slice_from (OptData (tx_Data transaction)) 40);
  do! (_, staked, _) <- with_env e (fun e => staked_in e n);
  run! save_proposals optData nonceHeight txDelAcc (f64_to_int64 staked);
  do! (_, sumStaked, operationalAcc) <- with_env e (fun e => staked_in e n);
  if (f64_to_int64 sumStaked <? MinStakingForNode)
     || negb (bytes_eqb (acc_Address operationalAcc) (Address_GetBytes (Sender (tx_Param transaction))))
  then or_ban addr (st_err "not enough staked coins to be a node or not valid operational account") else
  do! lastBlock <- load_block h;
  do! newBlock <- propose e o w lastBlock transaction;
  if CheckProofOfSynergy (env_Log2 e) (bl_BaseBlock newBlock) then
    do! checked <- st_try (with_env e (fun e => CheckBlockTransfers e newBlock lastBlock));
    match checked with
    | Some _ => BroadcastBlock nw newBlock
    | None => st_ret tt
    end
  else st_ret tt.

(** ** Blocks *)

Definition reset (fuel : nat) (lastBlock : Block) : FST (Server D) unit :=
  ResetAccountsAndBlocksSync fuel (bh_Height (bl_Header lastBlock)).

(** The checks of a received block before it is executed: its decoded form and
    its Merkle tree. *)
Definition check_received e nw (addr : bytes) (h : Z) (lastBlock : Block) (b : bytes)
    : ST (Server D) (Block * (list MerkleNode * list bytes)) :=
  do! newBlock <- or_ban addr (node (reads config_l (fun ec => Block_GetFromBytes ec b)));
  if negb (bh_Height (bl_Header newBlock) =? h +! 1) then st_err "block of too short chain" else
  do! merkleTrie <- or_ban addr (with_env e (fun e => CheckBaseBlock e newBlock lastBlock));
  do! hashesMissing <- node (reads db_l (fun db => IsAllTransactions db newBlock));
  match hashesMissing with
  | [] => st_ret (newBlock, merkleTrie)
  | _ => run! SendGT nw addr hashesMissing "st"; st_err "missing transactions"
  end.

Definition execute_block e (newBlock lastBlock : Block) (merkleTrie : option (list MerkleNode * list bytes))
    : ST (Server D) Block :=
  with_env e (fun e => CheckBlockAndTransferFunds (EvaluateSmartContracts vm e) e newBlock lastBlock merkleTrie).
Definition store_block (b : Block) : ST (Server D) unit := node (on db_l (StoreBlock b)).
Definition store_accounts o (height : Z) : ST (Server D) unit := node (fun n =>
  on_ok db_l (fun db => StoreAccounts db (nd_Height n) (ord_accounts o (nd_Accounts n)) (nd_Accounts n) height) n).
Definition store_staking o (height : Z) : ST (Server D) unit := node (fun n =>
  on db_l (StoreStakingAccounts (ord_staking o) (nd_StakingAccounts n) height) n).

(** One block of the message.  The statistics that follow are for display. *)
Definition receive_block e o nw (fuel : nat) (addr : bytes) (h : Z) (lastBlock : Block) (v : list bytes)
    : FST (Server D) unit :=
  fuel! (newBlock, merkleTrie) <- f_run (do! b <- st_lift (index v 0); check_received e nw addr h lastBlock b);
  fuel! newBlock <- or_else (execute_block e newBlock lastBlock (Some merkleTrie)) (reset fuel lastBlock);
  fuel! _ <- or_else (store_block newBlock) (reset fuel lastBlock);
  f_run (
    let height := bh_Height (bl_Header newBlock) in
    run! logged (store_accounts o height);
    run! logged (store_staking o height);
    node (on height_l (st_put (h +! 1)))).

Definition is_block_topic (k : topic) : bool := bool_decide (arr_bytes k !! 0%nat = Some (byte_of_Z 78)).

Fixpoint receive_blocks e o nw (fuel : nat) (addr : bytes) (h : Z) (lastBlock : Block)
    (txnbytes : list (topic * list bytes)) : FST (Server D) unit :=
  match txnbytes with
  | [] => f_run (st_ret tt)
  | (k, v) :: txnbytes =>
      fuel! _ <- (if is_block_topic k then receive_block e o nw fuel addr h lastBlock v else f_run (st_ret tt));
      receive_blocks e o nw fuel addr h lastBlock txnbytes
  end.

Definition on_block e o nw (fuel : nat) (addr : bytes) (h : Z) (amsg : TransactionsMessage) : FST (Server D) unit :=
  fuel! lastBlock <- f_run (load_block h);
  receive_blocks e o nw fuel addr h lastBlock (ord_topics o _ (tm_TransactionsBytes amsg)).

(** ** The handler *)

Definition OnMessage e o w nw (fuel : nat) (addr m : bytes) : FST (Server D) unit := fun s =>
  if sv_IsSyncing s then Some (Ok tt, s) else
  let h := nd_Height (sv_Node s) in
  recovered (
    fuel! amsg <- f_run (do! amsg <- valid_message nw addr m; run! emit (ValidRegisterPeer addr); st_ret amsg);
    if head_is amsg "nn" then f_run (on_nonce e o w nw addr h amsg)
    else if head_is amsg "bl" then on_block e o nw fuel addr h amsg
    else f_run (st_ret tt)) s.
End Nonce.
