(* ===== verification/SyncService.v ===== *)
(** * Package syncServices: synchronisation with other chains

    Models services/syncService/onmessage.go and the messages of serviceSync.go.
    A message "hi" tells a height, "gh" asks for blocks and "sh" brings them; the
    blocks of an "sh" message are checked one after the other, a block that does not
    fit makes the node go back, and only when all are checked they are executed. *)
From S2P Require Import Prelude GoInt GoSlice Sums Common Keys Database Codec Float64 Json Accounts.
From S2P Require Import Staking StakingCodec Dex EncScheme Merkle PubKeys Tx Heap Pool StateDB Node Ledger.
From S2P Require Import Block Voting Oracles BlockProcess Evaluate Message Reset Creation TransactionService NonceService.

Definition topic_LH : topic := topic_of "L" "H".
Definition topic_LB : topic := topic_of "L" "B".
Definition topic_PP : topic := topic_of "P" "P".
Definition topic_BH : topic := topic_of "B" "H".
Definition topic_EH : topic := topic_of "E" "H".
Definition topic_IH : topic := topic_of "I" "H".
Definition topic_HV : topic := topic_of "H" "V".

(** [blocks.Block{}] *)
Definition zero_Block : Block :=
  mk_Block (mk_BaseBlock
    (mk_BaseHeader (arr_zero _) 0 0 zero_Address zero_Address (arr_zero _) [] [] zero_Signature [])
    (arr_zero _) 0 0 0 0 0 [] []) [] (arr_zero _) 0.

Section SyncService.
Context {D : Type} `{RocksDB D} `{JSON PubKey} `{JSON (list MerkleNode)} `{Hasher} `{OqsLib}.
Variable vm : VMachine.
Implicit Types (n : Node D) (s : Server D) (o : Orders) (nw : Network).

(** ** Messages *)

Definition message_bytes o (m : TransactionsMessage) : bytes :=
  TransactionsMessage_GetBytes (ord_topics o _ (tm_TransactionsBytes m)) m.
Definition sync_message nw (head : bytes) (txn : gmap topic (list bytes)) : TransactionsMessage :=
  mk_TransactionsMessage (mk_BaseMessage head (nw_ChainID nw)) txn.

Definition generateSyncMsgHeight o nw n : outcome bytes :=
  let h := nd_Height n in
  match LoadHashOfBlock (nd_MainDB n) h with
  | Panic => Panic
  | Err _ => Ok []
  | Ok lastBlockHash => Ok (message_bytes o (sync_message nw (ascii2 "h" "i")
      (<[topic_PP := nw_GetIPsConnected nw]> (<[topic_LB := [lastBlockHash]]> {[topic_LH := [GetByteInt64 h]]}))))
  end.

(** The first and the last height to ask for. *)
Definition headers_range (h height : Z) : Z * Z :=
  let s2p := height -! h +! 1 in
  let s2p := if NumberOfHashesInBucket <? s2p then NumberOfHashesInBucket else s2p in
  let bHeight := height -! s2p in
  let bHeight := if bHeight <? 2 then 0 else bHeight in
  if h <? bHeight then
    let eHeight := h +! s2p in
    (h, if height <? eHeight then height else eHeight)
  else (bHeight, height).
Definition generateSyncMsgGetHeaders o nw n (height : Z) : bytes :=
  if height <=? 0 then [] else
  let (bHeight, eHeight) := headers_range (nd_Height n) height in
  message_bytes o (sync_message nw (ascii2 "g" "h")
    (<[topic_EH := [GetByteInt64 eHeight]]> {[topic_BH := [GetByteInt64 bHeight]]})).

(** The blocks of [count] heights from [i] on. *)
Fixpoint load_headers n (count : nat) (i : Z) : outcome (list bytes * list bytes) :=
  match count with
  | O => Ok ([], [])
  | S count =>
      let! block := LoadBlock (nd_Config n) (nd_MainDB n) i in
      let! (indices, blcks) := load_headers n count (i + 1) in
      Ok (GetByteInt64 i :: indices, Block_GetBytes block :: blcks)
  end.
Definition generateSyncMsgSendHeaders o nw n (bHeight height : Z) : outcome bytes :=
  if height <? 0 then Ok [] else
  let h := nd_Height n in
  let height := if h <? height then h else height in
  if (bHeight <? 0) || (height <? bHeight) then Ok [] else
  match load_headers n (Z.to_nat (height - bHeight + 1)) bHeight with
  | Panic => Panic
  | Err _ => Ok []
  | Ok (indices, blcks) =>
      Ok (message_bytes o (sync_message nw (ascii2 "s" "h") (<[topic_HV := blcks]> {[topic_IH := indices]})))
  end.

Definition SendHeaders o nw (addr : bytes) (bHeight height : Z) : ST (Server D) unit :=
  do! nb <- node (fun n => (generateSyncMsgSendHeaders o nw n bHeight height, n));
  emit (Send SyncTopic addr nb).
Definition SendGetHeaders o nw (addr : bytes) (height : Z) : ST (Server D) unit := fun s =>
  emit (Send SyncTopic addr (generateSyncMsgGetHeaders o nw (sv_Node s) height)) s.

(** [txn[k][0]] *)
Definition first_item (txn : gmap topic (list bytes)) (k : topic) : outcome bytes := index (default [] (txn !! k)) 0.

(** ** "hi" *)

Definition subscribe nw (ip4 : bytes) (t : topic) : ST (Server D) unit :=
  if existsb (bytes_eqb ip4) (nw_GetPeersConnected nw t) || nw_IsIPBanned nw ip4 then st_ret tt
  else emit (StartSubscribing t ip4).

(** An address is copied over the one before it. *)
Fixpoint greet nw (addr : bytes) (ip4 : array 4) (peers : list bytes) : ST (Server D) unit :=
  match peers with
  | [] => st_ret tt
  | ip :: peers =>
      let ip4 := arr_copy ip4 ip in
      if bytes_eqb (arr_bytes ip4) addr then greet nw addr ip4 peers else
      run! subscribe nw (arr_bytes ip4) NonceTopic;
      run! subscribe nw (arr_bytes ip4) SyncTopic;
      run! subscribe nw (arr_bytes ip4) TransactionTopic;
      if MaxPeersConnected <? nw_GetPeersCount nw then st_ret tt else greet nw addr ip4 peers
  end.

Definition on_hi o nw (addr : bytes) (h : Z) (amsg : TransactionsMessage) : ST (Server D) unit :=
  let txn := tm_TransactionsBytes amsg in
  run! (if nw_GetPeersCount nw <? MaxPeersConnected
        then greet nw addr (arr_zero 4) (default [] (txn !! topic_PP)) else st_ret tt);
  run! (if h <? nw_CurrentHeightOfNetwork nw then on syncing_l (st_put true) else st_ret tt);
  do! b <- st_lift (first_item txn topic_LH);
  do! lastOtherHeight <- st_lift (GetInt64FromByte b);
  do! hMax <- reads heightmax_l (fun x => Ok x);
  run! (if hMax <? lastOtherHeight then on heightmax_l (st_put lastOtherHeight) else st_ret tt);
  do! lastOtherBlockHashBytes <- st_lift (first_item txn topic_LB);
  let synced := if hMax <? lastOtherHeight then on syncing_l (st_put false) else st_ret tt in
  if lastOtherHeight =? h then
    run! AdjustShiftInPastInReset lastOtherHeight;
    do! lastBlockHashBytes <- node (reads db_l (fun db => LoadHashOfBlock db h));
    run! (if bytes_eqb lastOtherBlockHashBytes lastBlockHashBytes then st_ret tt
          else SendGetHeaders o nw addr lastOtherHeight);
    synced
  else if lastOtherHeight <? h then
    run! AdjustShiftInPastInReset lastOtherHeight;
    synced
  else SendGetHeaders o nw addr lastOtherHeight.

(** ** "sh": the checks *)

(** The heights and the blocks of the message, decoded in the order of its topics. *)
Fixpoint decode_all {A} (decode : bytes -> outcome A) (bs : list bytes) : outcome (list A) :=
  match bs with
  | [] => Ok []
  | b :: bs => let! x := decode b in let! xs := decode_all decode bs in Ok (x :: xs)
  end.
Fixpoint parse_headers (ec : EncryptionConfig) (topics : list (topic * list bytes)) : outcome (list Z * list Block) :=
  match topics with
  | [] => Ok ([], [])
  | (k, tx) :: topics =>
      let! here := (if bool_decide (k = topic_IH)
                    then let! indices := decode_all GetInt64FromByte tx in Ok (indices, [])
                    else if bool_decide (k = topic_HV)
                    then let! blcks := decode_all (Block_GetFromBytes ec) tx in Ok ([], blcks)
                    else Ok ([], [])) in
      let! rest := parse_headers ec topics in
      Ok (here.1 ++ rest.1, here.2 ++ rest.2)
  end.

(** What the loop over the blocks has found: the last height that both chains
    share, whether a block was taken as new, the trees, the missing transactions. *)
Record Progress := mk_Progress {
  pr_lastGoodBlock : Z;
  pr_was : bool;
  pr_merkleTries : gmap Z (list MerkleNode * list bytes);
  pr_hashesMissing : list bytes
}.

Definition reset_back (fuel : nat) (index : Z) : FST (Server D) unit := fun s =>
  ResetAccountsAndBlocksSync fuel (index -! sv_ShiftToPastInReset s) s.
(** [defer AdjustShiftInPastInReset(hmax); ResetAccountsAndBlocksSync(...); panic(...)] *)
Definition abandon {A} (fuel : nat) (hmax index : Z) : FST (Server D) A := fun s =>
  match reset_back fuel index s with
  | None => None
  | Some (_, s') => Some (Panic, snd (AdjustShiftInPastInReset hmax s'))
  end.

(** A height up to the node's own: the stored hash decides. *)
Definition check_known (fuel : nat) (hmax index : Z) (block : Block) (p : Progress) : FST (Server D) Progress :=
  fuel! mine <- f_run (st_try (node (reads db_l (fun db => LoadHashOfBlock db index))));
  match mine with
  | None => abandon fuel hmax index
  | Some hashOfMyBlockBytes =>
      if bytes_eqb (Hash_GetBytes (BlockHash block)) hashOfMyBlockBytes
      then f_run (st_ret (mk_Progress index (pr_was p) (pr_merkleTries p) (pr_hashesMissing p)))
      else abandon fuel hmax index
  end.

(** [if was { oldBlock = blcks[i-1] } else { oldBlock, err = LoadBlock(index-1) }] *)
Definition old_block (was : bool) (prev : Block) (index : Z) : ST (Server D) Block :=
  if was then st_ret prev else
  do! b <- st_try (load_block (index -! 1));
  match b with Some b => st_ret b | None => st_panic end.

(** A base block that fails the checks. *)
Definition reject_base {A} (fuel : nat) (addr : bytes) (hmax index : Z) : FST (Server D) A :=
  fuel! _ <- f_run (run! emit (ReduceAndCheckIfBanIP addr); AdjustShiftInPastInReset hmax);
  fuel! _ <- reset_back fuel index;
  f_run st_panic.

(** A height above the node's own. *)
Definition check_new e (fuel : nat) (addr : bytes) (hmax index : Z) (prev block : Block) (p : Progress)
    : FST (Server D) Progress :=
  fuel! oldBlock <- f_run (old_block (pr_was p) prev index);
  fuel! _ <- f_run (if index =? 1 then st_try (load_block 1) else st_ret None);
  if negb (bh_Height (bl_Header block) =? index) then abandon fuel hmax index else
  fuel! merkleTrie <- f_run (st_try (with_env e (fun e => CheckBaseBlock e block oldBlock)));
  match merkleTrie with
  | None => reject_base fuel addr hmax index
  | Some merkleTrie =>
      fuel! hashesMissing <- f_run (node (reads db_l (fun db => IsAllTransactions db block)));
      f_run (st_ret (mk_Progress (pr_lastGoodBlock p) true (<[index := merkleTrie]> (pr_merkleTries p))
                       (pr_hashesMissing p ++ hashesMissing)))
  end.

(** The loop; [prev] is the block before in the message. *)
Fixpoint check_headers e (fuel : nat) (addr : bytes) (h hmax : Z) (prev : Block) (indices : list Z) (blcks : list Block)
    (p : Progress) : FST (Server D) Progress :=
  match blcks with
  | [] => f_run (st_ret p)
  | block :: blcks =>
      match indices with
      | [] => f_run st_panic
      | index :: indices =>
          fuel! p <- (if index <=? 0 then f_run (st_ret p)
                      else if index <=? h then check_known fuel hmax index block p
                      else check_new e fuel addr hmax index prev block p);
          check_headers e fuel addr h hmax block indices blcks p
      end
  end.

(** ** "sh": the execution *)

(** The hashes missing after a failed execution are asked for. *)
Definition failed_transfer nw (fuel : nat) (addr : bytes) (block oldBlock : Block) : FST (Server D) unit :=
  fuel! hashesMissing <- f_run (node (reads db_l (fun db => IsAllTransactions db block)));
  fuel! _ <- f_run (match hashesMissing with [] => st_ret tt | _ => SendGT nw addr hashesMissing "bt" end);
  reset fuel oldBlock.

Definition adopt_header e o nw (fuel : nat) (addr : bytes) (block oldBlock : Block)
    (merkleTrie : option (list MerkleNode * list bytes)) : FST (Server D) unit :=
  fuel! block <- or_else (execute_block vm e block oldBlock merkleTrie) (failed_transfer nw fuel addr block oldBlock);
  fuel! _ <- or_else (store_block block) (reset fuel oldBlock);
  f_run (
    let height := bh_Height (bl_Header block) in
    run! logged (store_accounts o height);
    run! logged (store_staking o height);
    node (on height_l (st_put height))).

Fixpoint adopt_headers e o nw (fuel : nat) (addr : bytes) (p : Progress) (was : bool) (prev : Block)
    (indices : list Z) (blcks : list Block) : FST (Server D) unit :=
  match blcks, indices with
  | block :: blcks, index :: indices =>
      if bh_Height (bl_Header block) <=? pr_lastGoodBlock p
      then adopt_headers e o nw fuel addr p was block indices blcks
      else
        fuel! oldBlock <- f_run (old_block was prev index);
        fuel! _ <- adopt_header e o nw fuel addr block oldBlock (pr_merkleTries p !! index);
        adopt_headers e o nw fuel addr p true block indices blcks
  | _, _ => f_run (st_ret tt)
  end.

(** [defer]: the node counts as synchronised above the height of the network. *)
Definition then_synced {A} nw (m : FST (Server D) A) : FST (Server D) A := fun s =>
  match m s with
  | None => None
  | Some (r, s') =>
      Some (r, if nw_CurrentHeightOfNetwork nw <? nd_Height (sv_Node s') then l_set syncing_l false s' else s')
  end.

Definition sync_blocks e o nw (fuel : nat) (addr : bytes) (h : Z) (indices : list Z) (blcks : list Block)
    : FST (Server D) unit :=
  fuel! hmax <- f_run (reads heightmax_l (fun x => Ok x));
  fuel! last <- f_run (st_lift (index indices (len indices - 1)));
  if last <=? h then f_run (st_ret tt) else
  fuel! first <- f_run (st_lift (index indices 0));
  if h <? first then f_run (st_ret tt) else
  fuel! p <- check_headers e fuel addr h hmax zero_Block indices blcks (mk_Progress first false ∅ []);
  match pr_hashesMissing p with
  | _ :: _ => f_run (SendGT nw addr (pr_hashesMissing p) "bt")
  | [] =>
      fuel! _ <- f_run (on syncing_l (st_put true));
      then_synced nw (adopt_headers e o nw fuel addr p false zero_Block indices blcks)
  end.
Definition on_sh e o nw (fuel : nat) (addr : bytes) (h : Z) (amsg : TransactionsMessage) : FST (Server D) unit :=
  fuel! (indices, blcks) <- f_run (node (reads config_l (fun ec =>
    parse_headers ec (ord_topics o _ (tm_TransactionsBytes amsg)))));
  sync_blocks e o nw fuel addr h indices blcks.

(** ** "gh" and the handler *)

Definition on_gh o nw (addr : bytes) (amsg : TransactionsMessage) : ST (Server D) unit :=
  let txn := tm_TransactionsBytes amsg in
  do! b <- st_lift (first_item txn topic_BH);
  do! bHeight <- st_lift (GetInt64FromByte b);
  do! b <- st_lift (first_item txn topic_EH);
  do! eHeight <- st_lift (GetInt64FromByte b);
  SendHeaders o nw addr bHeight eHeight.

Definition OnMessage e o nw (fuel : nat) (addr m : bytes) : FST (Server D) unit := fun s =>
  let h := nd_Height (sv_Node s) in
  recovered (
    fuel! amsg <- f_run (do! amsg <- valid_message nw addr m; run! emit (ValidRegisterPeer addr); st_ret amsg);
    if head_is amsg "hi" then f_run (on_hi o nw addr h amsg)
    else if head_is amsg "sh" then on_sh e o nw fuel addr h amsg
    else if head_is amsg "gh" then f_run (on_gh o nw addr amsg)
    else f_run (st_ret tt)) s.
End SyncService.
