(* ===== verification/Arrival.v ===== *)
(** * A block that arrives

    Theorems on [receive_block] of NonceService.v: a block that is refused leaves
    the ledger, the height and the stored chain as they were, because the node goes
    back to the tables stored with the last block; a block that is accepted is
    stored with the tables that go with it.  Both say that the handler returns. *)
From S2P Require Import Prelude GoInt GoSlice Sums Common Keys Database Codec Float64 Json Accounts.
From S2P Require Import Staking StakingCodec Dex EncScheme Merkle PubKeys Tx Heap Pool StateDB Node Ledger Supply.
From S2P Require Import Transfers Block Voting Oracles BlockProcess Evaluate Quiet DexSupply Settle Kept BlockSupply.
From S2P Require Import Message Reset Creation TransactionService NonceService.

(** ** The scans and loads of a reset see chain keys only *)

Section Reads.
Context {D : Type} `{RocksDBLaws D}.
Implicit Types (db : D).

Lemma kept_DB_Get hb db db' k : kept hb db db' -> chain_key hb k -> DB_Get db' k = DB_Get db k.
Proof. intros Hk Hc. unfold DB_Get. by rewrite (Hk k Hc). Qed.
Lemma accounts_key_chain hb j : chain_key hb (accounts_key j).
Proof. left. reflexivity. Qed.
Lemma height_key_chain hb j : chain_key hb (height_key j).
Proof. left. reflexivity. Qed.
Lemma block_key_chain hb hash : chain_key hb (block_key hash).
Proof. left. reflexivity. Qed.
Lemma staking_key_chain hb j i : chain_key hb (staking_key j i).
Proof. left. reflexivity. Qed.
Lemma dex_key_chain hb j : chain_key hb (dex_key j).
Proof. left. reflexivity. Qed.
Lemma root_key_chain hb j : in64 j -> in64 hb -> j <> hb -> chain_key hb (root_key j).
Proof.
  intros Hj Hb Hne. right. split; [done|]. intros E. apply Hne. apply app_inv_head in E. by apply height_inj.
Qed.

Lemma LoadAccounts_any db fuel h at0 at1 at_ : 0 <= h ->
  LoadAccounts db fuel h at0 = Some (Ok tt, at_) -> LoadAccounts db fuel h at1 = Some (Ok tt, at_).
Proof.
  intros Hh. unfold LoadAccounts. replace (h <? 0) with false by (symmetry; apply Z.ltb_ge; lia).
  unfold st_bind, st_lift. destruct (DB_Get db (accounts_key h)) as [b|e|]; [|done..].
  unfold AccountsType_Unmarshal. destruct (next_int64 b) as [[n buf]|e|]; [|done..].
  destruct (decode_entries _ _ _ _) as [r m]. destruct (let! _ := r in _) as [[x y]|e|]; done.
Qed.

(** With every table present the tables in memory do not matter. *)
Lemma load_tables_any db h : forall t t1 i st, length t1 = length t ->
  (forall j, i <= j < i + Z.of_nat (length t) -> exists b, DB_Get db (staking_key h j) = Ok b) ->
  load_tables db h i t = (Ok tt, st) -> load_tables db h i t1 = (Ok tt, st).
Proof.
  induction t as [|m t IH]; intros [|m1 t1] i st Hl Hin; [done..|]. cbn [load_tables length] in *.
  injection Hl as Hl. unfold load_table. destruct (Hin i ltac:(lia)) as [b ->].
  unfold StakingAccountsType_Unmarshal. destruct (next_int64 b) as [[n buf]|e|]; [|done..].
  destruct (st_bind _ _ ∅) as [[u|e|] m'] eqn:E; [|done..].
  destruct (load_tables db h (i + 1) t) as [r t'] eqn:Et. intros [= -> <-].
  rewrite (IH t1 (i + 1) t' Hl); [done| |done]. intros j Hj. apply Hin. lia.
Qed.
Lemma LoadStaking_any db fuel h t t1 st : 0 <= h -> length t1 = length t ->
  (forall j, 0 <= j < Z.of_nat (length t) -> exists b, DB_Get db (staking_key h j) = Ok b) ->
  LoadStakingAccounts db fuel h t = Some (Ok tt, st) -> LoadStakingAccounts db fuel h t1 = Some (Ok tt, st).
Proof.
  intros Hh Hl Hin. unfold LoadStakingAccounts. replace (h <? 0) with false by (symmetry; apply Z.ltb_ge; lia).
  intros [= E]. f_equal. eapply load_tables_any; [exact Hl|exact Hin|exact E].
Qed.

Lemma load_tables_kept hb db db' h : kept hb db db' -> forall t i, load_tables db' h i t = load_tables db h i t.
Proof.
  intros Hk. induction t as [|m t IH]; intros i; cbn [load_tables]; [done|].
  unfold load_table. rewrite (kept_DB_Get hb db db') by (done || apply staking_key_chain). by rewrite IH.
Qed.
End Reads.

(** ** Readiness for a reset is not lost *)

Section Ready.
Context {D : Type} `{RocksDBLaws D} `{!Reliable D} `{JSON PubKey} `{JSON (list MerkleNode)} `{Hasher} `{OqsLib}.
Implicit Types (n : Node D) (s : Server D) (nw : Network).

(** The node is at height [h]: the tables in memory are the ones stored with the
    block of [h], all staking tables were stored, and the scan of the stored trees
    ends above [h + 1] within the fuel. *)
Record settled_at (fuel : nat) (h : Z) n (ha hblk : Z) : Prop := {
  at_height : nd_Height n = h;
  at_ready : ready fuel h n (nd_Accounts n) (nd_StakingAccounts n) ha hblk;
  at_tables j : 0 <= j < Z.of_nat (length (nd_StakingAccounts n)) ->
    exists b, DB_Get (nd_MainDB n) (staking_key h j) = Ok b;
  at_trees : exists j, h + 1 < j < Z.of_nat fuel /\ j < 2 ^ 63 - 1 /\ rdb_get (nd_MainDB n) (root_key j) = Ok None
}.

Lemma SetEncryption_kept hb h n n' : untouched hb n n' ->
  fst (SetEncryptionFromBlock h n) = Ok tt -> fst (SetEncryptionFromBlock h n') = Ok tt.
Proof.
  intros [[_ Hc] [Hk _]]. unfold SetEncryptionFromBlock, st_bind, get_config, reads, st_lift, set_encryption, on, st_modify.
  cbn [l_get db_l config_l]. rewrite Hc.
  assert (LoadBlock (nd_Config n) (nd_MainDB n') h = LoadBlock (nd_Config n) (nd_MainDB n) h) as ->.
  { unfold LoadBlock, LoadHashOfBlock.
    rewrite (kept_DB_Get _ _ _ _ Hk (height_key_chain _ _)).
    destruct (DB_Get (nd_MainDB n) (height_key h)) as [x|e|]; [|done..]. cbn [obind].
    by rewrite (kept_DB_Get _ _ _ _ Hk (block_key_chain _ _)). }
  destruct (LoadBlock (nd_Config n) (nd_MainDB n) h) as [b|e|]; [|done..].
  destruct (FromBytesToEncryptionConfig _ _ true) as [e1|e|]; [|done..]. cbn [l_set nd_Config].
  destruct (FromBytesToEncryptionConfig _ _ false) as [e2|e|]; done.
Qed.

Lemma ready_untouched fuel h n n' ha hblk : untouched (h + 1) n n' -> settled_at fuel h n ha hblk ->
  ready fuel h n' (nd_Accounts n) (nd_StakingAccounts n) ha hblk.
Proof.
  intros Hu [_ [Hh HA HS Ha Hs Hb Hd Hm He Hv] Ht (j & Hj1 & Hj2 & Hj)].
  pose proof Hu as [[_ Hc] [Hk [Hl Hvm]]].
  assert (forall key x, (forall i, chain_key (h + 1) (key i)) ->
    last_height_loop key (nd_MainDB n) fuel 0 = Some x -> last_height_loop key (nd_MainDB n') fuel 0 = Some x) as Hscan.
  { intros key x Hkey <-. apply last_height_same. intros i. apply Hk, Hkey. }
  split; [exact Hh|..].
  - apply (LoadAccounts_any (nd_MainDB n') fuel h (nd_Accounts n)); [lia|]. revert HA. unfold LoadAccounts.
    replace (h <? 0) with false by (symmetry; apply Z.ltb_ge; lia).
    by rewrite (kept_DB_Get _ _ _ _ Hk (accounts_key_chain _ _)).
  - apply (LoadStaking_any (nd_MainDB n') fuel h (nd_StakingAccounts n)); [lia|done|..].
    + intros i Hi. rewrite (kept_DB_Get _ _ _ _ Hk (staking_key_chain _ _ _)). by apply Ht.
    + revert HS. unfold LoadStakingAccounts. replace (h <? 0) with false by (symmetry; apply Z.ltb_ge; lia).
      by rewrite (load_tables_kept _ _ _ _ Hk).
  - destruct Ha as [ok Ha]. exists ok. apply Hscan; [apply accounts_key_chain|exact Ha].
  - destruct Hs as [x Hs]. exists x. apply Hscan; [intros i; apply staking_key_chain|exact Hs].
  - destruct Hb as [ok Hb]. exists ok. apply Hscan; [apply height_key_chain|exact Hb].
  - destruct Hd as [x Hd]. exists x. apply Hscan; [apply dex_key_chain|exact Hd].
  - destruct (last_height_first root_key (nd_MainDB n') j ltac:(done) ltac:(lia)) with (fuel := fuel) (i := 0)
      as (r & Er & _); [|lia|lia|by exists (r, true)].
    rewrite Hk; [done|]. apply root_key_chain; unfold in64; lia.
  - by eapply SetEncryption_kept.
  - by apply Hvm.
Qed.
End Ready.

(** ** The steps of a block *)

Section Arrival.
Context {D : Type} `{RocksDBLaws D} `{!Reliable D} `{JSON PubKey} `{JSON (list MerkleNode)} `{Hasher} `{OqsLib}.
Implicit Types (n : Node D) (s : Server D) (nw : Network).

(** Same ledger too. *)
Definition still (hb : Z) n n' : Prop := same_ledger n n' /\ untouched hb n n'.
#[export] Instance still_preorder hb : PreOrder (still hb).
Proof. split; [by intros n|]. intros a b c (L1 & U1) (L2 & U2). split; by transitivity b. Qed.
Definition server_still (hb : Z) s s' : Prop := still hb (sv_Node s) (sv_Node s').
#[export] Instance server_still_preorder hb : PreOrder (server_still hb).
Proof. split; [by intros s|]. intros a b c Hab Hbc. unfold server_still. by transitivity (sv_Node b). Qed.

Lemma still_node {A} hb (m : ST (Node D) A) : within (still hb) m -> within (server_still hb) (node m).
Proof. intros Hm. by eapply within_on. Qed.
Lemma still_emit hb ev : within (server_still hb) (emit ev).
Proof. by intros s r s' [= _ <-]. Qed.
Lemma still_with_env {A} hb e (m : Env -> ST (Node D) A) :
  (forall e, within (still hb) (m e)) -> within (server_still hb) (with_env e m).
Proof. intros Hm s r s'. exact (still_node hb _ (Hm _) s r s'). Qed.

Lemma still_votes hb {A} (m : ST (gmap Z Votes * gmap Z Votes * bool) A) : within (still hb) (on votes_l m).
Proof. by apply within_on_any. Qed.
Lemma still_check_encryption hb e p c h t a b : within (still hb) (check_encryption e p c h t a b).
Proof. pose proof still_votes. unfold check_encryption, votes_decide, get_config. solve_within. Qed.
Lemma still_CheckBaseBlock hb e b last : within (still hb) (CheckBaseBlock e b last).
Proof. pose proof still_check_encryption. unfold CheckBaseBlock. solve_within. Qed.

Lemma still_check_received hb e nw addr h last b : within (server_still hb) (check_received e nw addr h last b).
Proof.
  unfold check_received, or_ban.
  assert (forall A (l : lens (Node D) A) B (m : A -> outcome B), within (server_still hb) (node (reads l m))) as Hr
    by (intros; apply still_node; eauto with within).
  pose proof (still_emit hb). pose proof (fun b => still_with_env hb e _ (fun e => still_CheckBaseBlock hb e b last)) as Hc.
  solve_within.
Qed.

(** ** A reset that is ready *)

Lemma reset_ready_server fuel s last h at_ st ha hblk : bh_Height (bl_Header last) = h ->
  ready fuel h (sv_Node s) at_ st ha hblk -> exists n',
  reset fuel last s = Some (Ok tt, l_set node_l n' s) /\
  nd_Height n' = h /\ nd_Accounts n' = at_ /\ nd_StakingAccounts n' = st /\
  drops h (nd_MainDB (sv_Node s)) (nd_MainDB n').
Proof.
  intros Hl Hr. pose proof (rd_height _ _ _ _ _ _ _ Hr) as Hh.
  destruct (reset_to_ready _ _ _ _ _ _ _ Hr) as (n' & E & EA & ES & EH & _ & Hd & _).
  exists n'. split; [|done]. unfold reset. rewrite Hl. unfold ResetAccountsAndBlocksSync.
  replace (h <? 0) with false by (symmetry; apply Z.ltb_ge; lia).
  cbn [andb]. rewrite Z.max_l by lia. unfold f_logged, on_node. by rewrite E.
Qed.

(** The ledger, the height and the block hashes are those before. *)
Definition as_before (h : Z) n n' : Prop :=
  nd_Height n' = h /\ same_ledger n n' /\
  forall j, 0 <= j <= h -> LoadHashOfBlock (nd_MainDB n') j = LoadHashOfBlock (nd_MainDB n) j.

Lemma still_as_before hb h n n' : nd_Height n = h -> still hb n n' -> as_before h n n'.
Proof.
  intros Hn (Hl & (Eh & _) & Hk & _). split; [congruence|]. split; [done|]. intros j _.
  exact (kept_DB_Get _ _ _ _ Hk (height_key_chain _ _)).
Qed.

Lemma reset_as_before fuel h s s1 last ha hblk : bh_Height (bl_Header last) = h ->
  settled_at fuel h (sv_Node s) ha hblk -> untouched (h + 1) (sv_Node s) (sv_Node s1) -> exists s',
  reset fuel last s1 = Some (Ok tt, s') /\ as_before h (sv_Node s) (sv_Node s').
Proof.
  intros Hl Hs Hu. pose proof (ready_untouched _ _ _ _ _ _ Hu Hs) as Hr.
  destruct (reset_ready_server fuel s1 last h _ _ ha hblk Hl Hr) as (n' & E & EH & EA & ES & Hd).
  eexists. split; [exact E|]. cbn [sv_Node node_l l_set]. split; [done|]. split; [by split|]. intros j Hj.
  pose proof (rd_height _ _ _ _ _ _ _ Hr) as Hh. destruct Hu as (_ & Hk & _).
  unfold LoadHashOfBlock. rewrite <- (kept_DB_Get _ _ _ _ Hk (height_key_chain (h + 1) j)).
  unfold DB_Get. by rewrite (proj2 Hd) by (apply height_key_kept; lia).
Qed.

Lemma DB_Put_reliable (db : D) k v : k <> [] -> exists db', DB_Put db k v = Ok db'.
Proof.
  intros Hk. unfold DB_Put. destruct k as [|c k]; [done|]. destruct (reliable_put db (c :: k) v) as [db' ->]. by eexists.
Qed.
Lemma StoreBlock_ok b (db : D) : exists db', StoreBlock b db = (Ok tt, db').
Proof.
  unfold StoreBlock, st_bind, db_put.
  destruct (DB_Put_reliable db (block_key (Hash_GetBytes (BlockHash b))) (Block_GetBytes b) ltac:(done)) as [db1 ->].
  destruct (DB_Put_reliable db1 (height_key (bh_Height (bl_Header b))) (Hash_GetBytes (BlockHash b)) ltac:(done)) as [db2 ->].
  by eexists.
Qed.

Variables (keccak : bytes -> Hash) (vm : VMachine).
Hypothesis Hvm : vm_works keccak vm.

Lemma untouched_execute e b last trie s err s1 :
  execute_block vm e b last trie s = (Err err, s1) -> untouched (bh_Height (bl_Header b)) (sv_Node s) (sv_Node s1).
Proof.
  unfold execute_block, with_env, node, on. cbn [l_get node_l].
  destruct (CheckBlockAndTransferFunds _ _ _ _ _ _) as [r n1] eqn:E. intros [= -> <-].
  exact (untouched_execution keccak vm Hvm _ _ _ _ _ _ _ E).
Qed.

Lemma check_received_height e nw addr h last b s nb trie s1 :
  check_received e nw addr h last b s = (Ok (nb, trie), s1) -> bh_Height (bl_Header nb) = h +! 1.
Proof.
  unfold check_received. intros E. apply st_bind_ok_inv in E as (nb' & s2 & _ & E).
  destruct (negb _) eqn:Eh; [done|]. zify_bool.
  apply st_bind_ok_inv in E as (trie' & s3 & _ & E). apply st_bind_ok_inv in E as (missing & s4 & _ & E).
  destruct missing; [by injection E as <- <- _|]. by apply st_bind_ok_inv in E as (? & ? & _ & E).
Qed.

(** C4: a block that is refused leaves the node where it was, whatever the peer
    sent.  The node is at height [h], its tables are those stored with block [h],
    and its database does not fail; then the handler of a received block returns,
    and when it returns an error, before the execution of the block or after its
    transactions changed the tables, the height, the accounts, the staking accounts
    and the hashes of the blocks up to [h] are those before. *)
Theorem receive_block_refused e o nw fuel addr h last v s ha hblk :
  settled_at fuel h (sv_Node s) ha hblk -> bh_Height (bl_Header last) = h -> exists r s',
  receive_block vm e o nw fuel addr h last v s = Some (r, s') /\
  forall err, r = Err err -> as_before h (sv_Node s) (sv_Node s').
Proof.
  intros Hs Hl. pose proof (rd_height _ _ _ _ _ _ _ (at_ready _ _ _ _ _ Hs)) as Hh. unfold receive_block.
  assert (within (server_still (h + 1)) (do! b <- st_lift (index v 0); check_received e nw addr h last b)) as Hw.
  { apply within_bind; [exact _|eauto with within|intros b; apply still_check_received]. }
  unfold f_bind at 1, f_run at 1.
  destruct (st_bind _ _ s) as [[[nb trie]|err|] s1] eqn:E1; pose proof (Hw _ _ _ E1) as Hst; clear Hw.
  2-3: do 2 eexists; split; [reflexivity|]; intros ? _; eapply still_as_before; [apply Hs|exact Hst].
  apply st_bind_ok_inv in E1 as (b & s0 & _ & E1). apply check_received_height in E1.
  unfold add64 in E1. rewrite i64_id in E1 by (unfold in64; lia).
  unfold f_bind at 1, or_else at 1. destruct (execute_block vm e nb last (Some trie) s1) as [[b'|err|] s2] eqn:E2; [| |by do 2 eexists].
  - unfold f_bind at 1, or_else at 1, store_block, node, on at 1 2. cbn [l_get node_l db_l].
    destruct (StoreBlock_ok b' (nd_MainDB (sv_Node s2))) as [db ->]. unfold f_run.
    match goal with |- context [Some (?m ?x)] => destruct (m x) as [r s'] eqn:E3 end.
    exists r, s'. split; [reflexivity|]. intros err ->. exfalso. revert E3.
    unfold st_bind. destruct (logged _ _) as [[|err'|] s3] eqn:L1; [|unfold logged in L1; by destruct (store_accounts _ _ _) as [[] ?]|done].
    destruct (logged (store_staking _ _) _) as [[|err'|] s4] eqn:L2; [done|unfold logged in L2; by destruct (store_staking _ _ _) as [[] ?]|done].
  - apply untouched_execute in E2. rewrite E1 in E2. destruct Hst as [_ Hst].
    destruct (reset_as_before fuel h s s2 last ha hblk Hl Hs ltac:(by transitivity (sv_Node s1))) as (s' & -> & Hb).
    exists (Err err), s'. by split.
Qed.

(** ** What an accepted block stores *)

Lemma marshal_locks_no_err la : forall rpb lib e, marshal_locks la rpb lib <> Err e.
Proof.
  induction la as [|a la IH]; intros rpb lib e; cbn; [done|]. destruct rpb, lib; [done..|].
  destruct (marshal_locks la rpb lib) eqn:E; [done| |done]. by destruct (IH _ _ _ E).
Qed.
Lemma Staking_Marshal_no_err ord m e : StakingAccountsType_Marshal ord m <> Err e.
Proof.
  unfold StakingAccountsType_Marshal. enough (marshal_staking_entries ord <> Err e) as Hn
    by (destruct (marshal_staking_entries ord); cbn; congruence).
  induction ord as [|[a [acc dord]] ord IH]; cbn [marshal_staking_entries]; [done|].
  unfold StakingAccount_Marshal. destruct (marshal_locks _ _ _) eqn:E; cbn [obind];
    [|by destruct (marshal_locks_no_err _ _ _ _ E)|done].
  by destruct (marshal_staking_entries ord).
Qed.

Lemma staking_key_inj h i j : 0 <= i < 256 -> 0 <= j < 256 -> staking_key h i = staking_key h j -> i = j.
Proof.
  intros Hi Hj E. unfold staking_key in E. apply app_inv_head in E. injection E as E.
  apply (f_equal byte_to_Z) in E. rewrite !byte_to_of_Z, !Z.mod_small in E by lia. done.
Qed.

(** The tables stored for a height, and the keys that are left alone. *)
Lemma store_tables_stored visit h : forall t i (db db' : D), 0 <= i -> i + Z.of_nat (length t) <= 256 ->
  store_tables visit h i t db = (Ok tt, db') ->
  (forall j m, t !! j = Some m -> exists k, StakingAccountsType_Marshal (visit m) m = Ok k /\
     DB_Get db' (staking_key h (i + Z.of_nat j)) = Ok k) /\
  (forall key, (forall j, i <= j < i + Z.of_nat (length t) -> key <> staking_key h j) -> DB_Get db' key = DB_Get db key).
Proof.
  induction t as [|m t IH]; intros i db db' Hi Hl; cbn [store_tables length] in *.
  { intros [= <-]. by split. }
  unfold st_bind at 1, st_lift. destruct (StakingAccountsType_Marshal (visit m) m) as [k|e|] eqn:Em; [|done..].
  unfold st_bind, st_modify. destruct (DB_Put_reliable db (staking_key h i) k ltac:(done)) as [db1 E1]. rewrite E1.
  intros E. destruct (IH (i + 1) db1 db' ltac:(lia) ltac:(lia) E) as [Hin Hout]. split.
  - intros [|j] m'; cbn [lookup list_lookup].
    + intros [= <-]. exists k. split; [done|]. rewrite Z.add_0_r, Hout.
      * exact (DB_Get_Put_eq _ _ _ _ E1).
      * intros j Hj Ek. apply staking_key_inj in Ek; lia.
    + intros Hm. destruct (Hin j m' Hm) as (k' & Ek & Hg). exists k'. split; [done|].
      by replace (i + Z.of_nat (S j)) with (i + 1 + Z.of_nat j) by lia.
  - intros key Hkey. rewrite Hout by (intros j Hj; apply Hkey; lia).
    apply (DB_Get_Put_ne _ _ _ _ _ E1). intros <-. by apply (Hkey i ltac:(lia)).
Qed.
Lemma store_tables_no_err visit h e : forall t i (db : D), fst (store_tables visit h i t db) <> Err e.
Proof.
  induction t as [|m t IH]; intros i db; cbn [store_tables]; [done|]. unfold st_bind at 1, st_lift.
  destruct (StakingAccountsType_Marshal (visit m) m) eqn:Em; [|by destruct (Staking_Marshal_no_err _ _ _ Em)|done].
  apply IH.
Qed.

(** The stored form of a block and of the tables after it. *)
Record persisted o (h : Z) n b : Prop := {
  per_hash : LoadHashOfBlock (nd_MainDB n) h = Ok (Hash_GetBytes (BlockHash b));
  per_block : DB_Get (nd_MainDB n) (block_key (Hash_GetBytes (BlockHash b))) = Ok (Block_GetBytes b);
  per_accounts : DB_Get (nd_MainDB n) (accounts_key h)
    = Ok (AccountsType_Marshal (ord_accounts o (nd_Accounts n)) (nd_Accounts n));
  per_staking j m : nd_StakingAccounts n !! j = Some m -> exists k,
    StakingAccountsType_Marshal (ord_staking o m) m = Ok k /\
    DB_Get (nd_MainDB n) (staking_key h (Z.of_nat j)) = Ok k
}.

Lemma store_all_persisted o fuel last h b s s' :
  0 <= h -> bh_Height (bl_Header b) = h -> (length (nd_StakingAccounts (sv_Node s)) <= 256)%nat ->
  (fuel! _ <- or_else (store_block b) (reset fuel last);
   f_run (run! logged (store_accounts o h); run! logged (store_staking o h);
          node (on height_l (st_put h)))) s = Some (Ok tt, s') ->
  nd_Height (sv_Node s') = h /\ same_ledger (sv_Node s) (sv_Node s') /\ persisted o h (sv_Node s') b /\
  forall j, 0 <= j < h -> h < 2 ^ 63 ->
    LoadHashOfBlock (nd_MainDB (sv_Node s')) j = LoadHashOfBlock (nd_MainDB (sv_Node s)) j.
Proof.
  intros Hh Hb Hl. unfold f_bind, or_else, store_block, node, on at 1 2. cbn [l_get node_l db_l].
  destruct (StoreBlock_ok b (nd_MainDB (sv_Node s))) as [db E1]. rewrite E1. unfold f_run.
  unfold StoreBlock in E1. apply st_bind_ok_inv in E1 as ([] & db0 & P1 & P2). apply db_put_inv in P1, P2.
  rewrite Hb in P2. cbn [l_set node_l db_l]. unfold st_bind at 1, logged at 1, store_accounts, node, on at 1, on_ok, StoreAccounts.
  cbn [l_get l_set node_l db_l sv_Node nd_MainDB nd_Accounts nd_Height].
  replace (h <? 0) with false by (symmetry; apply Z.ltb_ge; lia).
  set (accb := AccountsType_Marshal _ _).
  destruct (DB_Put_reliable db (accounts_key h) accb ltac:(done)) as [db3 P3]. rewrite P3.
  unfold st_bind, logged, store_staking, node, StoreStakingAccounts, on at 1 2. cbn [l_get l_set node_l db_l sv_Node nd_MainDB nd_StakingAccounts].
  destruct (store_tables _ h 0 _ db3) as [[[]|e|] db4] eqn:P4; [|by destruct (store_tables_no_err (ord_staking o) h e (nd_StakingAccounts (sv_Node s)) 0 db3); rewrite P4|done].
  unfold on, st_put. cbn. intros [= <-]. cbn [sv_Node nd_Height nd_Accounts nd_StakingAccounts nd_MainDB].
  split; [done|]. split; [done|].
  assert (0 + Z.of_nat (length (nd_StakingAccounts (sv_Node s))) <= 256) as Hl' by lia.
  destruct (store_tables_stored _ _ _ _ _ _ (Z.le_refl 0) Hl' P4) as [Hin Hout].
  assert (forall k, length k <> 11%nat \/ take 2 k <> StakingAccountsDBPrefix -> DB_Get db4 k = DB_Get db3 k) as Hother.
  { intros k Hk. apply Hout. intros j _ ->. destruct Hk as [Hk|Hk]; [by rewrite staking_key_length in Hk|by apply Hk]. }
  split; [split; cbn [nd_MainDB nd_Accounts nd_StakingAccounts]|].
  - unfold LoadHashOfBlock. rewrite Hother by (by right). rewrite (DB_Get_Put_ne _ _ _ _ _ P3) by done.
    exact (DB_Get_Put_eq _ _ _ _ P2).
  - rewrite Hother by (by right). rewrite (DB_Get_Put_ne _ _ _ _ _ P3) by done.
    rewrite (DB_Get_Put_ne _ _ _ _ _ P2) by done. exact (DB_Get_Put_eq _ _ _ _ P1).
  - rewrite Hother by (by right). exact (DB_Get_Put_eq _ _ _ _ P3).
  - intros j m Hm. exact (Hin j m Hm).
  - intros j Hj Hb2. unfold LoadHashOfBlock. rewrite Hother by (by right).
    rewrite (DB_Get_Put_ne _ _ _ _ _ P3) by done.
    rewrite (DB_Get_Put_ne _ _ _ _ _ P2)
      by (intros E; apply app_inv_head, height_inj in E; unfold in64; lia).
    by rewrite (DB_Get_Put_ne _ _ _ _ _ P1) by done.
Qed.

Lemma check_received_inv e nw addr h last b s nb trie s1 :
  check_received e nw addr h last b s = (Ok (nb, trie), s1) -> exists n1,
  Block_GetFromBytes (nd_Config (sv_Node s)) b = Ok nb /\ bh_Height (bl_Header nb) = h +! 1 /\
  CheckBaseBlock (env_at e s) nb last (sv_Node s) = (Ok trie, n1) /\ s1 = l_set node_l n1 s /\
  IsAllTransactions (nd_MainDB n1) nb = Ok [].
Proof.
  unfold check_received. intros E. apply st_bind_ok_inv in E as (nb' & s2 & E2 & E).
  unfold or_ban, on_error, node, reads, on in E2. cbn [l_get node_l config_l] in E2.
  destruct (Block_GetFromBytes _ _) as [nb2|err|] eqn:Eb; [|done..]. injection E2 as -> <-.
  destruct (negb _) eqn:Eh; [done|]. zify_bool.
  apply st_bind_ok_inv in E as (trie' & s3 & E3 & E).
  unfold or_ban, on_error, with_env, node, on in E3. cbn [l_get l_set node_l sv_Node] in E3.
  destruct (CheckBaseBlock _ _ _ _) as [[t|err|] n1] eqn:Ec; [|done..]. injection E3 as -> <-.
  apply st_bind_ok_inv in E as (missing & s4 & E4 & E). unfold node, reads, on in E4. cbn [l_get l_set node_l db_l sv_Node] in E4.
  injection E4 as Em <-. destruct missing; [|by apply st_bind_ok_inv in E as (? & ? & _ & E)].
  injection E as <- <- <-. exists n1. by destruct s.
Qed.

(** C5: a block that is accepted was decoded from the bytes of the peer, is on top
    of block [h], passed the checks of its base, had all its transactions and was
    executed; afterwards the node is at [h + 1] with the ledger that the execution
    left, and the block, its hash, the accounts and every staking table of that
    ledger are stored under [h + 1], while the hashes up to [h] are kept. *)
Theorem receive_block_accepted e o nw fuel addr h last v s s' :
  0 <= h < 2 ^ 63 - 1 -> (length (nd_StakingAccounts (sv_Node s)) <= 256)%nat ->
  receive_block vm e o nw fuel addr h last v s = Some (Ok tt, s') ->
  exists b newBlock trie fee n1 n2, let env := env_at e s in let b' := set_BlockFee newBlock fee in
  index v 0 = Ok b /\ Block_GetFromBytes (nd_Config (sv_Node s)) b = Ok newBlock /\
  bh_Height (bl_Header newBlock) = h + 1 /\
  CheckBaseBlock env newBlock last (sv_Node s) = (Ok trie, n1) /\ IsAllTransactions (nd_MainDB n1) newBlock = Ok [] /\
  CheckBlockAndTransferFunds (EvaluateSmartContracts vm env) env newBlock last (Some trie) n1 = (Ok b', n2) /\
  nd_Height (sv_Node s') = h + 1 /\ same_ledger n2 (sv_Node s') /\ persisted o (h + 1) (sv_Node s') b' /\
  forall j, 0 <= j <= h -> LoadHashOfBlock (nd_MainDB (sv_Node s')) j = LoadHashOfBlock (nd_MainDB (sv_Node s)) j.
Proof.
  intros Hh Hl. unfold receive_block. unfold f_bind at 1, f_run at 1.
  destruct (st_bind _ _ s) as [[[nb trie]|err|] s1] eqn:E1; [|done..].
  apply st_bind_ok_inv in E1 as (b & s0 & [= Ei <-] & E1).
  destruct (still_check_received (h + 1) _ _ _ _ _ _ _ _ _ E1) as [_ ((_ & _) & Kc & Lc & _)].
  apply check_received_inv in E1 as (n1 & Eb & Ehb & Ec & -> & Em).
  unfold add64 in Ehb. rewrite i64_id in Ehb by (unfold in64; lia).
  unfold f_bind at 1, or_else at 1. destruct (execute_block vm e nb last (Some trie) _) as [[b'|err|] s2] eqn:E2;
    [|by destruct (reset fuel last s2) as [[[] ?]|]|done].
  unfold execute_block, with_env, node, on in E2. cbn [l_get l_set node_l sv_Node] in E2, Kc, Lc.
  change (env_at e (l_set node_l n1 s)) with (env_at e s) in E2.
  destruct (CheckBlockAndTransferFunds _ _ _ _ _ n1) as [r n2] eqn:Ex. injection E2 as -> <-.
  destruct (executed_block _ _ _ _ _ _ _ _ Ex) as [fee ->].
  destruct (but_config_execution keccak vm Hvm _ _ _ _ _ _ _ Ex) as [c (_ & Kx & Lx & _)].
  cbn [l_set config_l nd_MainDB nd_StakingAccounts] in Kx, Lx. rewrite Ehb in Kx.
  replace (h +! 1) with (h + 1) by (unfold add64; rewrite i64_id; unfold in64; lia).
  change (bh_Height (bl_Header (set_BlockFee nb fee))) with (bh_Height (bl_Header nb)). rewrite Ehb. intros E.
  apply store_all_persisted in E as (EH & EL & EP & EK); [|lia|exact Ehb|cbn [l_set node_l sv_Node]; lia].
  exists b, nb, trie, fee, n1, n2. do 9 (split; [done|]). intros j Hj. rewrite EK by lia. cbn [l_set node_l sv_Node].
  unfold LoadHashOfBlock. rewrite (kept_DB_Get _ _ _ _ Kx (height_key_chain _ _)).
  exact (kept_DB_Get _ _ _ _ Kc (height_key_chain _ _)).
Qed.
End Arrival.

(** ** Closed examples: the block of [Creation] arrives at two nodes *)

#[local] Existing Instance map_store.
#[local] Existing Instance map_store_laws.
#[local] Existing Instance map_store_reliable.
#[local] Existing Instance toy_hasher.
#[local] Existing Instance pk_json.
#[local] Existing Instance node_json.

(** Two schemes with short public keys, and the configuration that uses them. *)
#[local] Instance short_schemes : OqsLib := {|
  oqs_Details s := if String.eqb s "Falcon-512" then Some (3, 1, 752)
                   else if String.eqb s "MAYO-5" then Some (5, 1, 964) else None;
  oqs_GenerateKeyPair s := if String.eqb s "Falcon-512" then Some 3 else if String.eqb s "MAYO-5" then Some 5 else None;
  oqs_Verify _ _ _ _ := Some true |}.
Definition config_7 : EncryptionConfig := mk_EncryptionConfig 3 1 752 "Falcon-512" 0 5 1 964 "MAYO-5" 0.
(** A node without peers. *)
Definition toy_network : Network := mk_Network 23 23 (zeros 4) (fun _ => []) 0 [] (fun _ => false).
Definition map_orders : Orders :=
  mk_Orders (fun A m => map_to_list m) (fun at_ => map_to_list (AllAccounts at_))
    (fun m => map (fun kv => (kv.1, (kv.2, map_to_list (StakingDetails kv.2)))) (map_to_list m)) map_to_list.
(** The last block of the node, with the books of its tables. *)
Definition last_7 : Block :=
  let b := sample_block 7 (arr_zero _) books_supply [] (arr_zero _) 40 in
  let hd := bl_Header b in
  let base := bl_BaseBlock b in
  mk_Block
    (mk_BaseBlock
      (mk_BaseHeader (PreviousHash hd) (Difficulty hd) (bh_Height hd) (bh_DelegatedAccount hd) (OperatorAccount hd)
        (RootMerkleTree hd) (current_scheme config_7 true) (current_scheme config_7 false) (bh_Signature hd)
        (SignatureMessage hd))
      (BlockHeaderHash base) (BlockTimeStamp base) (RewardPercentage base) (Supply base) (PriceOracle base)
      (RandOracle base) (PriceOracleData base) (RandOracleData base))
    (TransactionsHashes b) (BlockHash b) (BlockFee b).
(** The tables of height 7, with [x] coins on one account. *)
Definition accounts_7 (x : Z) : AccountsType := mk_AccountsType (list_to_map [rich (flagged 1) x]) 7.
Definition stakes_7 : staking_tables :=
  from_ok [] (run_staking_op 7 (OpStake (addr_ByteValue operator_addr) (2 * MinStakingForNode) 1 3 true 0 0) no_stakes).
Definition db_7 (x : Z) : gmap bytes bytes :=
  let db := snd (StoreBlock last_7 op_db) in
  let db := from_ok db (StoreAccounts db 0 (ord_accounts map_orders (accounts_7 x)) (accounts_7 x) 7) in
  snd (StoreStakingAccounts (ord_staking map_orders) stakes_7 7 db).
Definition server_7 (x : Z) : Server (gmap bytes bytes) :=
  mk_Server (mk_Node (accounts_7 x) stakes_7 (NewTransactionPool 100 0) (NewTransactionPool 100 1)
    (NewTransactionPool 100 2) (db_7 x) config_7 ∅ ∅ false ∅ CreateStateDB 7) false ∅ ∅ 1 7 [].
(** The wallet of the operator, with signatures as long as the scheme's. *)
Definition long_wallet : Proposer := mk_Proposer (toy_address (zeros 3)) (mk_Address (arr_of AddressLength [byte_of_Z 0; byte_of_Z 3]) true) 100
  (fun m p => Ok (mk_Signature (byte_of_Z (if p : bool then 0 else 1) :: m ++ zeros 720) (toy_address (zeros 3)) p)).
(** A nonce on top of it and the block that it calls for. *)
Definition nonce_on_7 : Transaction :=
  mk_Transaction
    (mk_TxData (flagged 3) 0
      (GetByteInt64 7 ++ Hash_GetBytes (BlockHash last_7) ++ zeros 16 ++ BytesToLenAndBytes [] ++ BytesToLenAndBytes [])
      zero_PubKey 0 0 (mk_Address (arr_zero _) true) 0 (byte_of_Z 0) [])
    (mk_TxParam 23 (flagged 1) 1700000010 7 (arr_zero _)) (arr_zero _) zero_Signature 8 0 0 [] (flagged 0).
Definition fresh_8 : Block := from_ok last_7
  (CreateBlockFromNonceMessage env_8 long_wallet [] [] (sv_Node (server_7 1000)) [nonce_on_7] last_7 tree_8 []).
Definition receive_8 : FST (Server (gmap bytes bytes)) unit :=
  receive_block toy_vm env_8 map_orders toy_network 20 [] 7 last_7 [Block_GetBytes fresh_8].
Definition is_ok {A} (r : option (outcome unit * A)) : bool := match r with Some (Ok _, _) => true | _ => false end.
Definition is_err {A} (r : option (outcome unit * A)) : bool := match r with Some (Err _, _) => true | _ => false end.

Lemma toy_vm_works keccak : vm_works keccak toy_vm.
Proof. split; intros; cbn; first [reflexivity|eauto with within]. Qed.

(** Every table of the node with 1001 coins is stored. *)
Definition stored_table (j : nat) : bool :=
  match DB_Get (db_7 1001) (staking_key 7 (Z.of_nat j)) with Ok _ => true | _ => false end.
Lemma tables_stored : forallb stored_table (seq 0 (length stakes_7)) = true.
Proof. vm_cast_no_check (eq_refl true). Qed.
Lemma ready_7 : ready 20 7 (sv_Node (server_7 1001)) (accounts_7 1001) stakes_7 (-1) (-1).
Proof.
  split; [lia|..|exact vm_inv_init].
  - vm_cast_no_check (eq_refl (Some (@Ok unit tt, accounts_7 1001))).
  - vm_cast_no_check (eq_refl (Some (@Ok unit tt, stakes_7))).
  - exists true. vm_cast_no_check (eq_refl (Some (-1, true))).
  - exists (-1, true). vm_cast_no_check (eq_refl (Some (-1, true))).
  - exists true. vm_cast_no_check (eq_refl (Some (-1, true))).
  - exists (-1, true). vm_cast_no_check (eq_refl (Some (-1, true))).
  - exists (-1, true). vm_cast_no_check (eq_refl (Some (-1, true))).
  - vm_cast_no_check (eq_refl (@Ok unit tt)).
Qed.
Lemma settled_7 : settled_at 20 7 (sv_Node (server_7 1001)) (-1) (-1).
Proof.
  split; [reflexivity|exact ready_7|..].
  - intros j Hj. pose proof tables_stored as Ht. rewrite forallb_forall in Ht.
    specialize (Ht (Z.to_nat j)). unfold stored_table in Ht. rewrite Z2Nat.id in Ht by lia.
    change (nd_StakingAccounts (sv_Node (server_7 1001))) with stakes_7 in Hj.
    change (nd_MainDB (sv_Node (server_7 1001))) with (db_7 1001).
    destruct (DB_Get (db_7 1001) (staking_key 7 j)) as [b|e|]; [by exists b|..].
    all: discriminate Ht; apply in_seq; lia.
  - exists 9. split; [lia|]. split; [lia|]. vm_cast_no_check (eq_refl (@Ok (option bytes) None)).
Qed.

(** With one coin too many the block is executed and refused. *)
Lemma receive_block_refused_witness : exists err s', receive_8 (server_7 1001) = Some (Err err, s') /\
  as_before 7 (sv_Node (server_7 1001)) (sv_Node s').
Proof.
  destruct (receive_block_refused (fun _ => arr_zero _) toy_vm (toy_vm_works _) env_8 map_orders toy_network 20 [] 7 last_7
    [Block_GetBytes fresh_8] (server_7 1001) (-1) (-1) settled_7 eq_refl) as (r & s' & E & Hr).
  assert (is_err (receive_8 (server_7 1001)) = true) as He by (vm_cast_no_check (eq_refl true)).
  change (receive_block _ _ _ _ _ _ _ _ _ _) with (receive_8 (server_7 1001)) in E.
  rewrite E in He. destruct r as [|err|]; [discriminate He| |discriminate He].
  exists err, s'. split; [exact E|exact (Hr err eq_refl)].
Defined.

(** With the right tables it is accepted. *)
Lemma receive_block_accepted_witness : exists s', receive_8 (server_7 1000) = Some (Ok tt, s') /\
  nd_Height (sv_Node s') = 8.
Proof.
  assert (is_ok (receive_8 (server_7 1000)) = true) as Hok by (vm_cast_no_check (eq_refl true)).
  destruct (receive_8 (server_7 1000)) as [[[[]|err|] s']|] eqn:E; [|discriminate Hok..].
  exists s'. split; [reflexivity|].
  destruct (receive_block_accepted (fun _ => arr_zero _) toy_vm (toy_vm_works _) env_8 map_orders toy_network 20 [] 7 last_7
    [Block_GetBytes fresh_8] (server_7 1000) s') as (b & nb & trie & fee & n1 & n2 & _ & _ & _ & _ & _ & _ & Eh & _);
    [lia|vm_compute; lia|exact E|exact Eh].
Defined.
