(* ===== verification/Adoption.v ===== *)
(** * Messages and blocks between nodes

    What a message of the nonce service can change at a node, and the way of a
    block from the node that proposes it to a node that adopts it: creation,
    message, checks, execution and storage. *)
From S2P Require Import Prelude GoInt GoSlice Sums Common Keys Database Codec Float64 Json Accounts.
From S2P Require Import Staking StakingCodec Dex EncScheme Merkle PubKeys Tx Heap Pool StateDB Node Ledger Supply.
From S2P Require Import Transfers Block Voting Oracles BlockProcess Evaluate Quiet DexSupply Settle Kept BlockSupply.
From S2P Require Import Message Reset Creation TransactionService NonceService Arrival.

(** ** Nonces *)

Section Nonces.
Context {D : Type} `{RocksDBLaws D} `{JSON PubKey} `{JSON (list MerkleNode)} `{Hasher} `{OqsLib}.
Implicit Types (n : Node D) (s : Server D) (nw : Network).

Lemma CalcHashAndSet_height tx tx' : CalcHashAndSet tx = Ok tx' -> tx_Height tx' = tx_Height tx.
Proof. unfold CalcHashAndSet. intros E. ok_steps E. done. Qed.
Lemma Verify_height ec at_ (db : D) tx ok tx' :
  Transaction_Verify ec at_ db tx = Ok (ok, tx') -> tx_Height tx' = tx_Height tx.
Proof.
  unfold Transaction_Verify. intros E. destruct (_ && _ && _); [by injection E as _ <-|].
  apply obind_ok_inv in E as (lk & _ & E). destruct (negb lk); [by injection E as _ <-|].
  apply obind_ok_inv in E as (md & _ & E). destruct (negb md); [by injection E as _ <-|]. cbv zeta in E.
  apply obind_ok_inv in E as (tx1 & Eh & E). apply CalcHashAndSet_height in Eh. rewrite <- Eh.
  destruct (negb _); [by injection E as _ <-|]. apply obind_ok_inv in E as (b0 & _ & E).
  destruct (verification_key _ _ _) as [pkb|e|]; [|by injection E as _ <-|done].
  apply obind_ok_inv in E as (r & _ & E). by injection E as _ <-.
Qed.

Lemma still_CheckBlockTransfers e b last : within (still (D := D) (bh_Height (bl_Header b))) (CheckBlockTransfers e b last).
Proof.
  intros n r n' E. split; [|exact (untouched_CheckBlockTransfers _ b eq_refl e last n r n' E)].
  assert (frames (CheckBlockTransfers (D := D) e b last)) as Hf; [|exact (Hf n r n' E)].
  assert (forall p h, frames (load_pool_tx (D := D) p h)) as Hl by (intros p h; unfold load_pool_tx; solve_frames).
  assert (forall h, frames (load_block_tx (D := D) e h)) as Hb.
  { intros h m r0 m'. unfold load_block_tx. pose proof (Hl TransactionPoolHashesDBPrefix h m) as Hm.
    destruct (load_pool_tx _ h m) as [[tx|err|] m1]; specialize (Hm _ _ eq_refl); [by intros [= _ <-]| |by intros [= _ <-]].
    intros E2. transitivity m1; [done|]. revert E2.
    match goal with |- ?p m1 = _ -> _ => assert (frames p) as Hw by solve_frames; exact (Hw m1 r0 m') end. }
  unfold CheckBlockTransfers. apply within_bind; [exact _| |intros s; solve_frames].
  generalize (mk_transfers ∅ ∅ 0). generalize (TransactionsHashes b) as txs.
  induction txs as [|h txs IH]; intros s; cbn; [solve_frames|]. apply within_bind; [exact _| |intros; apply IH].
  unfold check_transfer, check_staking, sender_account, bad_tx. solve_frames.
Qed.

Lemma still_proposals hb optData height del staked :
  within (server_still (D := D) hb) (save_proposals optData height del staked).
Proof.
  assert (forall vb h d st, within (server_still (D := D) hb) (save_vote1 vb h d st)) as H1'
    by (intros; apply still_node, within_on_ok_any; [exact _|by intros]).
  assert (forall vb h d st, within (server_still (D := D) hb) (save_vote2 vb h d st)) as H2'
    by (intros; apply still_node, within_on_ok_any; [exact _|by intros]).
  assert (forall v h d st, within (server_still (D := D) hb) (save_price v h d st)) as H3'
    by (intros; apply within_on_ok_any; [exact _|by intros]).
  assert (forall v h d st, within (server_still (D := D) hb) (save_rand v h d st)) as H4'
    by (intros; apply within_on_ok_any; [exact _|by intros]).
  unfold save_proposals. solve_within.
Qed.

Lemma propose_height e o w last tx s b s' :
  propose e o w last tx s = (Ok b, s') -> bh_Height (bl_Header b) = tx_Height tx.
Proof.
  unfold propose. intros [= E _]. apply obind_ok_inv in E as (tree & _ & E).
  apply CreateBlock_inv in E as [Hp _]. exact (prop_height _ _ _ _ _ _ _ _ Hp).
Qed.

Lemma still_broadcast hb nw b : within (server_still (D := D) hb) (BroadcastBlock nw b).
Proof.
  pose proof (still_emit (D := D) hb). unfold BroadcastBlock.
  induction (nw_GetPeersConnected nw NonceTopic); cbn; solve_within.
Qed.

Lemma still_on_nonce e o w nw addr h amsg : in64 (h + 1) -> 
  within (server_still (D := D) (h + 1)) (on_nonce e o w nw addr h amsg).
Proof.
  intros Hh. pose proof (still_emit (D := D) (h + 1)) as Hemit. pose proof (still_proposals (h + 1)) as Hsave.
  assert (forall A (f : Node D -> outcome A), within (server_still (D := D) (h + 1)) (node (fun n => (f n, n)))) as Hread
    by (intros A f s r s'; unfold node, on; cbn; intros [= _ <-]; by destruct s).
  assert (forall k, within (server_still (D := D) (h + 1)) (with_env e (fun e => staked_in e k))) as Hstaked.
  { intros k. apply still_with_env. intros e'. unfold staked_in. eauto with within. }
  unfold on_nonce, or_ban. apply within_bind; [exact _|apply Hread|intros txn].
  apply within_bind; [exact _|eauto with within|intros tx0]. cbv zeta.
  destruct (_ || _) eqn:Eh; [eauto with within|]. zify_bool.
  assert (tx_Height tx0 = h + 1) as E0.
  { rewrite <- (i64_id (h + 1)) by done. done. }
  apply (within_bind_post _ (fun x => tx_Height x.2 = h + 1)); [apply Hread| |].
  { intros s [ok tx] s' [= E _]. apply Verify_height in E. cbn. congruence. }
  intros [isValid tx] Etx. cbn [snd] in Etx. destruct (negb isValid); [solve_within|].
  apply within_bind; [exact _|apply Hemit|intros _].
  do 2 (apply within_bind; [exact _|eauto with within|intros ?]).
  apply within_bind; [exact _|apply Hstaked|intros [[? staked] ?]].
  apply within_bind; [exact _|apply Hsave|intros _].
  apply within_bind; [exact _|apply Hstaked|intros [[? sumStaked] op]].
  destruct (_ || _); [solve_within|].
  apply within_bind; [exact _|apply Hread|intros last].
  apply (within_bind_post _ (fun b => bh_Height (bl_Header b) = h + 1)).
  { intros s r s' [= _ <-]. done. }
  { intros s b s' E. apply propose_height in E. congruence. }
  intros b Hb. destruct (CheckProofOfSynergy _ _); [|eauto with within].
  pose proof still_broadcast. apply within_bind; [exact _| |intros [|]; eauto with within].
  apply within_try, still_with_env. intros e'. rewrite <- Hb. apply still_CheckBlockTransfers.
Qed.
End Nonces.

(** ** The handler *)

Section Handler.
Context {D : Type} `{RocksDBLaws D} `{!Reliable D} `{JSON PubKey} `{JSON (list MerkleNode)} `{Hasher} `{OqsLib}.
Variables (keccak : bytes -> Hash) (vm : VMachine).
Hypothesis Hvm : vm_works keccak vm.
Implicit Types (n : Node D) (s : Server D) (nw : Network).

Lemma still_refl hb s : server_still hb s s.
Proof. done. Qed.
Lemma still_valid_message hb nw addr m : within (server_still (D := D) hb) (valid_message nw addr m).
Proof. pose proof (still_emit (D := D) hb). unfold valid_message, or_ban. solve_within. Qed.

(** C19: no message that is not a block can move the ledger: for every byte string
    that is not accepted as a block message the handler returns, and the accounts,
    the staking accounts, the height, the schemes in use and the stored chain are
    those before; a nonce only changes the oracle values, the votes, the pools and
    the list of peers. *)
Theorem OnMessage_leaves_ledger e o w nw fuel addr m s :
  let h := nd_Height (sv_Node s) in in64 (h + 1) ->
  (forall amsg, CheckValidMessage (nw_ChainID nw) m = Ok (true, amsg) -> head_is amsg "bl" = false) ->
  exists s', OnMessage vm e o w nw fuel addr m s = Some (Ok tt, s') /\ server_still (h + 1) s s'.
Proof.
  intros h Hh Hbl. unfold OnMessage. destruct (sv_IsSyncing s); [by exists s|]. fold h.
  unfold recovered, f_bind, f_run at 1.
  destruct (st_bind (valid_message nw addr m) _ s) as [r s1] eqn:E1.
  assert (within (server_still (h + 1)) (do! amsg <- valid_message (D := D) nw addr m;
    run! emit (ValidRegisterPeer addr); st_ret amsg)) as Hw.
  { pose proof (still_emit (D := D) (h + 1)). pose proof still_valid_message. solve_within. }
  pose proof (Hw _ _ _ E1) as H1'. destruct r as [amsg|err|]; [|by exists s1..].
  assert (head_is amsg "bl" = false) as Eb.
  { apply st_bind_ok_inv in E1 as (a & s0 & E1 & E2). apply st_bind_ok_inv in E2 as (? & ? & _ & [= -> _]).
    unfold valid_message in E1. apply st_bind_ok_inv in E1 as ([ok am] & sx & Ec & E1). injection Ec as Ec _. destruct ok; cbn [negb] in E1.
    - injection E1 as -> _. by apply Hbl.
    - unfold or_ban, on_error, st_err in E1. by destruct (emit _ _) as [[] ?]. }
  destruct (head_is amsg "nn"); [|rewrite Eb; unfold f_run; cbn; by exists s1].
  unfold f_run. destruct (on_nonce e o w nw addr h amsg s1) as [r s'] eqn:E2. exists s'. split; [done|].
  transitivity s1; [done|]. exact (still_on_nonce e o w nw addr h amsg Hh _ _ _ E2).
Qed.

(** ** A block message *)

(** The block message of a node is handled as the block it carries. *)
Lemma OnMessage_block e o w nw fuel addr b last s :
  fair o -> in16 (nw_ChainID nw) -> Z.of_nat (length (Block_GetBytes b)) < 2 ^ 32 -> sv_IsSyncing s = false ->
  LoadBlock (nd_Config (sv_Node s)) (nd_MainDB (sv_Node s)) (nd_Height (sv_Node s)) = Ok last ->
  OnMessage vm e o w nw fuel addr
    (TransactionsMessage_GetBytes [(BlockTopic, [Block_GetBytes b])] (GenerateBlockMessage (nw_ChainID nw) b)) s =
  recovered (receive_block vm e o nw fuel addr (nd_Height (sv_Node s)) last [Block_GetBytes b])
    (snd (emit (ValidRegisterPeer addr) s)).
Proof.
  intros Ho Hc Hlen Hsync Hl. set (h := nd_Height (sv_Node s)) in *.
  assert (CheckValidMessage (nw_ChainID nw) (TransactionsMessage_GetBytes [(BlockTopic, [Block_GetBytes b])]
    (GenerateBlockMessage (nw_ChainID nw) b)) = Ok (true, GenerateBlockMessage (nw_ChainID nw) b)) as Em.
  { apply CheckValidMessage_sent.
    - split; cbn [GenerateBlockMessage tm_BaseMessage tm_TransactionsBytes bm_Head bm_ChainID]; [|done|done|by vm_compute|].
      + change (String.string_of_list_byte (ascii2 "b" "l")) with "bl"%string. unfold validHead.
        apply list_elem_of_further, list_elem_of_here.
      + apply map_Forall_singleton. split; [done|]. constructor; [exact Hlen|constructor].
    - unfold enumerates. cbn [GenerateBlockMessage tm_TransactionsBytes]. by rewrite map_to_list_singleton. }
  unfold OnMessage. rewrite Hsync. fold h. unfold recovered, f_bind, f_run, valid_message, st_bind, st_lift.
  rewrite Em. cbn [negb]. unfold st_ret at 1. cbn [emit st_modify snd].
  set (s1 := mk_Server _ _ _ _ _ _ _).
  unfold st_ret. cbv beta iota.
  assert (head_is (GenerateBlockMessage (nw_ChainID nw) b) "nn" = false) as -> by done.
  assert (head_is (GenerateBlockMessage (nw_ChainID nw) b) "bl" = true) as -> by done.
  unfold on_block, f_bind at 1, f_run, load_block, node, on. cbn [l_get l_set node_l].
  change (sv_Node s1) with (sv_Node s). rewrite Hl.
  replace (mk_Server (sv_Node s) _ _ _ _ _ _) with s1 by done.
  cbn [GenerateBlockMessage tm_TransactionsBytes].
  rewrite (enumerates_singleton _ _ _ (Ho (list bytes) {[BlockTopic := [Block_GetBytes b]]})).
  cbn [receive_blocks]. change (is_block_topic BlockTopic) with true. cbn [negb].
  unfold f_bind at 1. destruct (receive_block _ _ _ _ _ _ _ _ _ s1) as [[[[]|err|] s2]|]; done.
Qed.

(** ** The whole way *)

(** Every staking table of the node can be written. *)
Definition storable o n : Prop :=
  (length (nd_StakingAccounts n) <= 256)%nat /\
  Forall (fun m => exists k, StakingAccountsType_Marshal (ord_staking o m) m = Ok k) (nd_StakingAccounts n).

Lemma store_tables_ok visit h t : Forall (fun m => exists k, StakingAccountsType_Marshal (visit m) m = Ok k) t ->
  forall i (db : D), exists db', store_tables visit h i t db = (Ok tt, db').
Proof.
  induction 1 as [|m t [k Ek] _ IH]; intros i db; cbn [store_tables]; [by eexists|].
  unfold st_bind at 1, st_lift. rewrite Ek. unfold st_bind, st_modify. apply IH.
Qed.

(** The last steps of an executed block succeed. *)
Lemma store_all_ok o fuel last h b s : 0 <= h -> storable o (sv_Node s) -> exists s',
  (fuel! _ <- or_else (store_block b) (reset fuel last);
   f_run (run! logged (store_accounts o h); run! logged (store_staking o h);
          node (on height_l (st_put h)))) s = Some (Ok tt, s').
Proof.
  intros Hh [_ Hs]. unfold f_bind, or_else, store_block, node, on at 1 2. cbn [l_get node_l db_l].
  destruct (StoreBlock_ok b (nd_MainDB (sv_Node s))) as [db ->]. unfold f_run. cbn [l_set node_l db_l].
  unfold st_bind at 1, logged at 1, store_accounts, node, on at 1, on_ok, StoreAccounts.
  cbn [l_get l_set node_l db_l sv_Node nd_MainDB nd_Accounts nd_Height].
  replace (h <? 0) with false by (symmetry; apply Z.ltb_ge; lia).
  destruct (DB_Put_reliable db (accounts_key h) (AccountsType_Marshal (ord_accounts o (nd_Accounts (sv_Node s)))
    (nd_Accounts (sv_Node s))) ltac:(done)) as [db3 ->].
  unfold st_bind, logged, store_staking, node, StoreStakingAccounts, on at 1 2.
  cbn [l_get l_set node_l db_l sv_Node nd_MainDB nd_StakingAccounts].
  destruct (store_tables_ok (ord_staking o) h _ Hs 0 db3) as [db4 ->]. by eexists.
Qed.

(** The state after a block message that carries [b]. *)
Lemma receive_own e o nw fuel addr h last tree b b' s n2 :
  block_ok (nd_Config (sv_Node s)) b -> bh_Height (bl_Header b) = h +! 1 ->
  CheckBaseBlock (env_at e s) b last (sv_Node s) = (Ok tree, sv_Node s) ->
  IsAllTransactions (nd_MainDB (sv_Node s)) b = Ok [] ->
  CheckBlockAndTransferFunds (EvaluateSmartContracts vm (env_at e s)) (env_at e s) b last (Some tree) (sv_Node s) = (Ok b', n2) ->
  receive_block vm e o nw fuel addr h last [Block_GetBytes b] s =
  (fuel! _ <- or_else (store_block b') (reset fuel last);
   f_run (let height := bh_Height (bl_Header b') in
          run! logged (store_accounts o height); run! logged (store_staking o height);
          node (on height_l (st_put (h +! 1))))) (l_set node_l n2 s).
Proof.
  intros Hok Hh Hc Ha Hx. unfold receive_block, f_bind at 1, f_run at 1.
  assert (check_received e nw addr h last (Block_GetBytes b) s = (Ok (b, tree), s)) as Hr.
  { unfold check_received. rewrite (st_bind_run _ _ s b s).
    - rewrite Hh, Z.eqb_refl. cbn [negb]. rewrite (st_bind_run _ _ s tree s).
      + rewrite (st_bind_run _ _ s [] s); [done|]. unfold node, on, reads. cbn. rewrite Ha. by destruct s.
      + unfold or_ban, on_error, with_env, node, on. cbn [l_get node_l]. rewrite Hc. by destruct s.
    - unfold or_ban, on_error, node, on, reads. cbn [l_get node_l config_l].
      rewrite Block_roundtrip by done. by destruct s. }
  change (index [Block_GetBytes b] 0) with (@Ok bytes (Block_GetBytes b)). unfold st_bind at 1, st_lift at 1.
  rewrite Hr. unfold f_bind at 1, or_else at 1, execute_block, with_env, node at 1, on at 1. cbn [l_get node_l].
  by rewrite Hx.
Qed.

(** C6: a block goes all the way.  A node that is not syncing and whose state is
    the one the proposer worked on receives the block message that the proposer
    broadcasts, in whatever order it visits its maps; when the execution of the
    block succeeds on that state and its transactions are in the pool, the handler
    returns with the node at the next height, the ledger that the execution left,
    and the block and the tables of that ledger stored. *)
Theorem proposed_block_adopted e o w nw fuel addr prices rands tx last tree txs b pk s fee n2 :
  let n := sv_Node s in let h := nd_Height n in let env := env_at e s in
  fair o -> in16 (nw_ChainID nw) -> Z.of_nat (length (Block_GetBytes b)) < 2 ^ 32 -> sv_IsSyncing s = false ->
  0 <= h < 2 ^ 63 - 1 -> LoadBlock (nd_Config n) (nd_MainDB n) h = Ok last ->
  proposal env w prices rands n tx last tree txs b pk -> tx_Height tx = h + 1 -> block_ok (nd_Config n) b ->
  IsAllTransactions (nd_MainDB n) b = Ok [] ->
  CheckBlockAndTransferFunds (EvaluateSmartContracts vm env) env b last (Some tree) n = (Ok (set_BlockFee b fee), n2) ->
  storable o n2 -> exists s',
  OnMessage vm e o w nw fuel addr
    (TransactionsMessage_GetBytes [(BlockTopic, [Block_GetBytes b])] (GenerateBlockMessage (nw_ChainID nw) b)) s = Some (Ok tt, s') /\
  nd_Height (sv_Node s') = h + 1 /\ same_ledger n2 (sv_Node s') /\
  persisted o (h + 1) (sv_Node s') (set_BlockFee b fee).
Proof.
  intros n h env Ho Hc Hlen Hsync Hh Hl Hp Htx Hok Hall Hx Hst.
  rewrite (OnMessage_block e o w nw fuel addr b last s Ho Hc Hlen Hsync Hl). fold n h.
  set (s1 := snd (emit (ValidRegisterPeer addr) s)).
  assert (h +! 1 = h + 1) as Eh by (unfold add64; apply i64_id; unfold in64; lia).
  pose proof (proposal_checks _ _ _ _ _ _ _ _ _ _ _ Hp) as Hcheck.
  destruct (CreateBlock_inv _ _ _ _ _ _ _ _ _ _ (pp_block _ _ _ _ _ _ _ _ _ _ _ Hp)) as (P & _).
  pose proof (prop_height _ _ _ _ _ _ _ _ P) as Hbh. rewrite Htx in Hbh.
  unfold recovered. rewrite (receive_own e o nw fuel addr h last tree b _ s1 n2 Hok ltac:(congruence) Hcheck Hall Hx).
  change (bh_Height (bl_Header (set_BlockFee b fee))) with (bh_Height (bl_Header b)). rewrite Hbh, Eh. cbv zeta.
  destruct (store_all_ok o fuel last (h + 1) (set_BlockFee b fee) (l_set node_l n2 s1) ltac:(lia) Hst) as [s' E].
  rewrite E. exists s'. split; [done|].
  apply store_all_persisted in E as (EH & EL & EP & _); [done|lia|exact Hbh|exact (proj1 Hst)].
Qed.
End Handler.

(** ** Closed examples *)

#[local] Existing Instance map_store.
#[local] Existing Instance map_store_laws.
#[local] Existing Instance map_store_reliable.
#[local] Existing Instance short_schemes.
#[local] Existing Instance toy_hasher.
#[local] Existing Instance pk_json.
#[local] Existing Instance node_json.

(** The nonce that the block of height 8 answers, as a message. *)
Definition nonce_message : TransactionsMessage :=
  mk_TransactionsMessage (mk_BaseMessage (ascii2 "n" "n") 23) {[ NonceTopic := [Transaction_GetBytes nonce_on_7] ]}.
Definition nonce_bytes : bytes :=
  TransactionsMessage_GetBytes [(NonceTopic, [Transaction_GetBytes nonce_on_7])] nonce_message.
Lemma nonce_message_valid : CheckValidMessage 23 nonce_bytes = Ok (true, nonce_message).
Proof. vm_cast_no_check (eq_refl (Ok (true, nonce_message))). Qed.

Lemma OnMessage_leaves_ledger_witness : exists s',
  OnMessage toy_vm env_8 map_orders long_wallet toy_network 20 [] nonce_bytes (server_7 1000) = Some (Ok tt, s') /\
  server_still 8 (server_7 1000) s'.
Proof.
  apply (OnMessage_leaves_ledger toy_vm env_8 map_orders long_wallet toy_network 20 [] nonce_bytes (server_7 1000)).
  - vm_compute. split; [discriminate|reflexivity].
  - intros amsg E. change (nw_ChainID toy_network) with 23 in E. rewrite nonce_message_valid in E. injection E as <-. reflexivity.
Defined.

Definition run_fresh : outcome Block * Node (gmap bytes bytes) :=
  CheckBlockAndTransferFunds (EvaluateSmartContracts toy_vm env_8) env_8 fresh_8 last_7 (Some tree_8) (sv_Node (server_7 1000)).
Lemma surjective_pairing_eq {A B} (p : A * B) a : fst p = a -> p = (a, snd p).
Proof. intros <-. by destruct p. Qed.
Lemma run_fresh_ok : run_fresh = (Ok (set_BlockFee fresh_8 40), snd run_fresh).
Proof.
  assert (fst run_fresh = Ok (set_BlockFee fresh_8 40)) as E by (vm_cast_no_check (eq_refl (Ok (set_BlockFee fresh_8 40)))).
  exact (surjective_pairing_eq _ _ E).
Qed.
(** The book-keeping of the accounts does not enter the proposal. *)
Definition book (x : Z) : Prop := x = 1000 \/ x = 1001.
Lemma fresh_8_created x : book x ->
  CreateBlockFromNonceMessage env_8 long_wallet [] [] (sv_Node (server_7 x)) [nonce_on_7] last_7 tree_8 [] = Ok fresh_8.
Proof. intros [-> | ->]; vm_cast_no_check (eq_refl (Ok fresh_8)). Qed.
Lemma fresh_8_ok : block_ok config_7 fresh_8.
Proof.
  split; [|by vm_compute].
  split; [|by vm_compute..|vm_compute; discriminate].
  split; try by vm_compute. left. vm_compute. discriminate.
Qed.
Lemma fresh_storable : storable map_orders (snd run_fresh).
Proof.
  assert (forallb (fun m => match StakingAccountsType_Marshal (ord_staking map_orders m) m with Ok _ => true | _ => false end)
    (nd_StakingAccounts (snd run_fresh)) = true) as Hb by (vm_cast_no_check (eq_refl true)).
  split.
  - apply Nat.leb_le. vm_cast_no_check (eq_refl true).
  - rewrite forallb_forall in Hb. apply Forall_forall. intros m Hm. apply list_elem_of_In, Hb in Hm.
    destruct (StakingAccountsType_Marshal _ m) as [k|e|]; [by exists k|discriminate Hm..].
Qed.
Lemma fresh_proposal x : book x -> proposal (env_at env_8 (server_7 x)) long_wallet [] [] (sv_Node (server_7 x)) nonce_on_7
  last_7 tree_8 [] fresh_8 (forget_flags (op_key 3 true)).
Proof.
  intros Hx. split.
  - vm_compute. reflexivity.
  - by apply fresh_8_created.
  - vm_compute. discriminate.
  - vm_compute. reflexivity.
  - apply Forall_nil_2.
  - apply Forall_nil_2.
  - vm_compute. discriminate.
  - vm_compute. reflexivity.
  - vm_compute. reflexivity.
  - vm_cast_no_check (eq_refl (Ok (forget_flags (op_key 3 true)))).
  - intros m sign [= <-]. unfold Verify. cbn [sig_ByteValue index Z.ltb Z.compare lookup list_lookup].
    change (byte_of_Z 0 :: m ++ zeros 720) with ([byte_of_Z 0] ++ m ++ zeros 720).
    rewrite slice_suffix by done. reflexivity.
Qed.
Lemma map_orders_fair : fair map_orders.
Proof. intros A m. apply Permutation_refl. Qed.
Lemma last_7_stored : LoadBlock config_7 (nd_MainDB (sv_Node (server_7 1000))) 7 = Ok last_7.
Proof. vm_cast_no_check (eq_refl (Ok last_7)). Qed.

(** The proposed block, sent as a message, makes the chain one block longer. *)
Lemma proposed_block_adopted_witness : exists s',
  OnMessage toy_vm env_8 map_orders long_wallet toy_network 20 []
    (TransactionsMessage_GetBytes [(BlockTopic, [Block_GetBytes fresh_8])] (GenerateBlockMessage 23 fresh_8))
    (server_7 1000) = Some (Ok tt, s') /\ nd_Height (sv_Node s') = 8 /\
  persisted map_orders 8 (sv_Node s') (set_BlockFee fresh_8 40).
Proof.
  destruct (proposed_block_adopted toy_vm env_8 map_orders long_wallet toy_network 20 []
    [] [] nonce_on_7 last_7 tree_8 [] fresh_8 (forget_flags (op_key 3 true)) (server_7 1000) 40 (snd run_fresh))
    as (s' & E & Eh & _ & Ep).
  - exact map_orders_fair.
  - by vm_compute.
  - by vm_compute.
  - reflexivity.
  - vm_compute. split; [discriminate|reflexivity].
  - exact last_7_stored.
  - apply fresh_proposal. by left.
  - reflexivity.
  - exact fresh_8_ok.
  - reflexivity.
  - exact run_fresh_ok.
  - exact fresh_storable.
  - exists s'. split; [exact E|]. split; [exact Eh|exact Ep].
Defined.
