(* ===== verification/NonceMessage.v ===== *)
(** * Package nonceServices: the nonces a node sends

    Models services/nonceService/serviceNonce.go: the votes a node carries in its
    nonces, the nonce message, when it is sent, and what a subscription does with
    the bytes it receives.  The tickers, channels and connections are left out: a
    program here is one round of a loop.  The theorem follows a nonce to the node
    that receives it, and to the tables of oracles and votes it is filed in. *)
From S2P Require Import Prelude GoInt GoSlice Sums Common Keys Database Codec Float64 Json Accounts.
From S2P Require Import Staking StakingCodec Dex EncScheme Merkle PubKeys Tx Heap Pool StateDB Node Ledger.
From S2P Require Import Block Voting Oracles BlockProcess Evaluate DexSupply Message Reset Creation TransactionService NonceService Arrival Adoption.

(** The main address of the active wallet, which its nonces and signatures carry,
    and its second key pair. *)
Record Speaker := mk_Speaker {
  sp_Proposer :> Proposer;
  sp_MainAddress : Address;
  sp_Address2 : Address;
  sp_PublicKey2 : PubKey
}.

(** What [rand.Intn(10000000)] and [rand.Int63()] return. *)
Record Draws := mk_Draws { dr_Price : Z; dr_Rand : Z }.

(** The services with the package variables [EncryptionOptData] and
    [LastRepliedIP]. *)
Record Nonces (D : Type) := mk_Nonces {
  nc_Server : Server D;
  nc_EncryptionOptData : bytes;
  nc_LastRepliedIP : bytes
}.
Arguments mk_Nonces {D}.
Arguments nc_Server {D}.
Arguments nc_EncryptionOptData {D}.
Arguments nc_LastRepliedIP {D}.

Definition zero_ip : bytes := zeros 4.

Section NonceMessage.
Context {D : Type} `{RocksDB D} `{JSON PubKey} `{JSON (list MerkleNode)} `{Hasher} `{OqsLib}.
Variable vm : VMachine.
Implicit Types (s : Server D) (w : Speaker) (nw : Network) (c : Nonces D) (t : topic).

Definition server_l : lens (Nonces D) (Server D) :=
  mk_lens nc_Server (fun x c => mk_Nonces x (nc_EncryptionOptData c) (nc_LastRepliedIP c)).
Definition optdata_l : lens (Nonces D) bytes :=
  mk_lens nc_EncryptionOptData (fun x c => mk_Nonces (nc_Server c) x (nc_LastRepliedIP c)).
Definition replied_l : lens (Nonces D) bytes :=
  mk_lens nc_LastRepliedIP (fun x c => mk_Nonces (nc_Server c) (nc_EncryptionOptData c) x).

Definition SetEncryptionData (ne1 ne2 : bytes) : ST (Nonces D) unit :=
  on optdata_l (st_put (BytesToLenAndBytes ne1 ++ BytesToLenAndBytes ne2)).
Definition ResetToDefaultEncryptionOptData : ST (Nonces D) unit := SetEncryptionData [] [].

(** The votes are dropped once after every reset of the voting. *)
Definition refresh_votes : ST (Nonces D) unit := fun c =>
  if nd_AfterReset (sv_Node (nc_Server c)) then
    (run! ResetToDefaultEncryptionOptData;
     on server_l (node (on votes_l (st_modify (fun v => (v.1.1, v.1.2, false)))))) c
  else (Ok tt, c).

(** The key that the nonce carries, when the chain does not know the second one. *)
Definition nonce_pubkey (db : D) w (primary : bool) : outcome PubKey :=
  if primary then Ok zero_PubKey else
  let! pktrie := LoadTreeWithoutAddresses db (sp_MainAddress w) in
  let! isAddr := IsAddressInTree pktrie (sp_Address2 w) in
  Ok (if isAddr then zero_PubKey else sp_PublicKey2 w).

Definition last_hash (db : D) (h : Z) : outcome bytes :=
  match LoadHashOfBlock db h with Err _ => Ok (Hash_GetBytes EmptyHash) | r => r end.

Definition drawn_price (d : Draws) : Z := i64 (dr_Price d - 5000000 + 100000000).
Definition nonce_data (h : Z) (lastBlockHash : bytes) (d : Draws) (votes : bytes) : bytes :=
  GetByteInt64 h ++ lastBlockHash ++ GetByteInt64 (drawn_price d) ++ GetByteInt64 (dr_Rand d) ++ votes.

(** The transaction before it is hashed and signed. *)
Definition plain_nonce e w nw (h : Z) (optData : bytes) (pubkey : PubKey) : Transaction :=
  mk_Transaction
    (mk_TxData (pr_DelegatedAccount w) 0 optData pubkey 0 0 zero_Address 0 (byte_of_Z 0) [])
    (mk_TxParam (nw_ChainID nw) (sp_MainAddress w) (env_now e) 0 (arr_zero _))
    (arr_zero _) zero_Signature (h +! 1) 0 0 [] zero_Address.

Definition set_Signature (tx : Transaction) (sign : Signature) : Transaction :=
  mk_Transaction (tx_Data tx) (tx_Param tx) (tx_Hash tx) sign (tx_Height tx) (GasPrice tx) (GasUsage tx)
    (OutputLogs tx) (ContractAddress tx).
(** [tx.Sign(w, primary)] *)
Definition Transaction_Sign (w : Proposer) (tx : Transaction) (primary : bool) : outcome Transaction :=
  let! sign := pr_Sign w (Hash_GetBytes (tx_Hash tx)) primary in Ok (set_Signature tx sign).

Definition nonce_of_topic nw t (tx : Transaction) : TransactionsMessage :=
  mk_TransactionsMessage (mk_BaseMessage (ascii2 "n" "n") (nw_ChainID nw)) {[ t := [Transaction_GetBytes tx] ]}.

Definition signed_nonce e w nw (d : Draws) (votes : bytes) (n : Node D) : outcome Transaction :=
  let h := nd_Height n in
  let primary := GetNodeSignPrimary (nd_Config n) (env_pref e) (env_coin e) h in
  let! lastBlockHash := last_hash (nd_MainDB n) h in
  let! pubkey := nonce_pubkey (nd_MainDB n) w primary in
  let! tx := CalcHashAndSet (plain_nonce e w nw h (nonce_data h lastBlockHash d votes) pubkey) in
  Transaction_Sign w tx primary.

Definition generateNonceMsg e w nw (d : Draws) t : ST (Nonces D) TransactionsMessage :=
  run! refresh_votes;
  fun c => ((let! tx := signed_nonce e w nw d (nc_EncryptionOptData c) (sv_Node (nc_Server c)) in
             Ok (nonce_of_topic nw t tx)), c).

(** The channel is taken to be free and to accept the message. *)
Definition send_nonce (ip nb : bytes) : ST (Nonces D) unit := on server_l (emit (Send NonceTopic ip nb)).

Definition sendNonceMsg e w nw (d : Draws) (ip : bytes) t : ST (Nonces D) unit := fun c =>
  if sv_IsSyncing (nc_Server c) then (Ok tt, c) else
  logged (do! n <- generateNonceMsg e w nw d t; send_nonce ip (one_topic n)) c.

Definition sendReply e w nw (d : Draws) (addr : bytes) : ST (Nonces D) unit :=
  run! on replied_l (st_put addr);
  logged (do! n <- generateNonceMsg e w nw d NonceTopic; send_nonce addr (one_topic n)).

(** One message of [StartSubscribingNonceMsg]: the bytes of the sender's address
    and the message; whether the subscription ends. *)
Definition on_subscribed e o w nw (d : Draws) (fuel : nat) (m : bytes) : FST (Nonces D) bool := fun c =>
  if bytes_eqb m (String.list_byte_of_string "EXIT") then Some (Ok true, c) else
  if (length m <=? 4)%nat then Some (Ok false, c) else
  let ipr := take 4 m in
  match OnMessage vm e o (sp_Proposer w) nw fuel ipr (drop 4 m) (nc_Server c) with
  | None => None
  | Some (r, s') =>
      let c := l_set server_l s' c in
      Some (match r with
            | Ok _ =>
                if bytes_eqb ipr (nw_MyIP nw) then (Ok false, c) else
                (run! (if bytes_eqb (nc_LastRepliedIP c) ipr then on replied_l (st_put zero_ip)
                       else sendReply e w nw d ipr); st_ret false) c
            | Err err => (Err err, c)
            | Panic => (Panic, c)
            end)
  end.

(** One message of [InitChannelVoting]: the answer on the channel. *)
Definition on_vote_channel (b : bytes) : ST (Nonces D) string := fun c =>
  (do! b0 <- st_lift (index b 0);
   do! enc <- st_lift (slice_from b 1);
   on server_l (node (fun n =>
     match SetEncryptionFromBytes enc (byte_to_Z b0 =? 0) n with
     | (Ok _, n') => (Ok "Set new encryption was successful"%string, n')
     | (Err err, n') => (Ok err, n')
     | (Panic, n') => (Panic, n')
     end))) c.
End NonceMessage.

(** ** A nonce and its bytes *)

Section NonceFacts.
Context {D : Type} `{RocksDB D} `{JSON PubKey} `{JSON (list MerkleNode)} `{Hasher} `{OqsLib}.
Implicit Types (s : Server D) (w : Speaker) (nw : Network) (c : Nonces D) (t : topic) (n : Node D).

(** The flags that the format does not carry are set in what is read back. *)
Definition wire (tx : Transaction) : Transaction :=
  let td := tx_Data tx in
  mk_Transaction
    (mk_TxData (Recipient td) (Amount td) (OptData td) (td_Pubkey td) (td_LockedAmount td) (td_ReleasePerBlock td)
      (mk_Address (addr_ByteValue (DelegatedAccountForLocking td)) true) (EscrowTransactionsDelay td)
      (td_MultiSignNumber td) (td_MultiSignAddresses td))
    (tx_Param tx) (tx_Hash tx) (tx_Signature tx) (tx_Height tx) (GasPrice tx) (GasUsage tx) (OutputLogs tx)
    (mk_Address (addr_ByteValue (ContractAddress tx)) true).
Lemma wire_bytes tx : Transaction_GetBytes (wire tx) = Transaction_GetBytes tx.
Proof. done. Qed.

(** What a nonce says, and the conditions under which node [n'] understands it:
    it is at the height of the sender, whose last block is stored, whose wallet
    signs for the key the chain knows (or that the nonce carries) and whose
    delegated account is [id]. *)
Record understood e w nw (d : Draws) (votes : bytes) n n' (hash : Hash) (pk : PubKey) (id : Z) : Prop := {
  un_height : nd_Height n' = nd_Height n;
  un_range : 0 <= nd_Height n < 2 ^ 63 - 1;
  un_config : nd_Config n' = nd_Config n;
  un_hash : LoadHashOfBlock (nd_MainDB n) (nd_Height n) = Ok (Hash_GetBytes hash);
  un_chain : in16 (nw_ChainID nw);
  un_time : in64 (env_now e);
  un_votes : Z.of_nat (length votes) < 2 ^ 30;
  un_draws : 0 <= dr_Price d < 10000000 /\ 0 <= dr_Rand d < 2 ^ 63;
  un_account : 1 <= id < 256 /\ GetDelegatedAccountAddress id = Ok (pr_DelegatedAccount w);
  un_pubkey : nonce_pubkey (nd_MainDB n) w
      (GetNodeSignPrimary (nd_Config n) (env_pref e) (env_coin e) (nd_Height n)) = Ok pk /\
    init_pubkey (nd_Config n) (pk_ByteValue pk) (pk_MainAddress pk) = Ok pk /\ Z.of_nat (length (pk_ByteValue pk)) < 2 ^ 30;
  un_sign (m : Hash) sign : pr_Sign w (Hash_GetBytes m) (GetNodeSignPrimary (nd_Config n) (env_pref e) (env_coin e) (nd_Height n)) = Ok sign ->
    Signature_Init (nd_Config n) (sig_ByteValue sign) (sp_MainAddress w) = Ok sign /\
    Z.of_nat (length (sig_ByteValue sign)) < 2 ^ 30 /\
    (SignatureLength (nd_Config n) <= len (sig_ByteValue sign) + 200 \/
     SignatureLength2 (nd_Config n) <= len (sig_ByteValue sign) + 200) /\
    exists b0 key, index (sig_ByteValue sign) 0 = Ok b0 /\
      verification_key (nd_MainDB n') (plain_nonce e w nw (nd_Height n) [] pk) (byte_to_Z b0 =? 0) = Ok key /\
      Verify (nd_Config n) (Hash_GetBytes m) (sig_ByteValue sign) key = Ok true
}.

Definition nonce_tx e w nw (h : Z) (hash : Hash) (d : Draws) (votes : bytes) (pk : PubKey) (sign : Signature) : Transaction :=
  let tx := plain_nonce e w nw h (nonce_data h (Hash_GetBytes hash) d votes) pk in
  set_Signature (set_Hash tx (blake2b_256 (Tx.GetBytesWithoutSignature tx false))) sign.

Section Heard.
Variables (e : Env) (w : Speaker) (nw : Network) (d : Draws) (votes : bytes) (n n' : Node D) (hash : Hash) (pk : PubKey) (id : Z).
Hypothesis Hu : understood e w nw d votes n n' hash pk id.
Let h := nd_Height n.
Let primary := GetNodeSignPrimary (nd_Config n) (env_pref e) (env_coin e) h.

Lemma signed_nonce_inv tx : signed_nonce e w nw d votes n = Ok tx -> exists sign,
  tx = nonce_tx e w nw h hash d votes pk sign /\ pr_Sign w (Hash_GetBytes (tx_Hash tx)) primary = Ok sign.
Proof.
  unfold signed_nonce, last_hash. cbv zeta. rewrite (un_hash _ _ _ _ _ _ _ _ _ _ Hu). cbn [obind].
  rewrite (proj1 (un_pubkey _ _ _ _ _ _ _ _ _ _ Hu)). cbn [obind]. fold h primary.
  unfold CalcHashAndSet. rewrite CalcHashFromBytes_eq. cbn [obind]. unfold Transaction_Sign.
  intros Es. apply obind_ok_inv in Es as (sign & Es & [= <-]). by exists sign.
Qed.

Lemma signed_nonce_run sign :
  pr_Sign w (Hash_GetBytes (tx_Hash (nonce_tx e w nw h hash d votes pk sign))) primary = Ok sign ->
  signed_nonce e w nw d votes n = Ok (nonce_tx e w nw h hash d votes pk sign).
Proof.
  intros Es. unfold signed_nonce, last_hash. cbv zeta. rewrite (un_hash _ _ _ _ _ _ _ _ _ _ Hu). cbn [obind].
  rewrite (proj1 (un_pubkey _ _ _ _ _ _ _ _ _ _ Hu)). cbn [obind]. fold h primary.
  unfold CalcHashAndSet. rewrite CalcHashFromBytes_eq. cbn [obind]. unfold Transaction_Sign.
  revert Es. cbn [nonce_tx set_Signature set_Hash tx_Hash]. by intros ->.
Qed.

Lemma height_next : h +! 1 = h + 1.
Proof. pose proof (un_range _ _ _ _ _ _ _ _ _ _ Hu). unfold add64. apply i64_id. unfold in64, h. lia. Qed.
Lemma drawn_price_eq : drawn_price d = dr_Price d + 95000000.
Proof.
  pose proof (proj1 (un_draws _ _ _ _ _ _ _ _ _ _ Hu)). unfold drawn_price. rewrite i64_id; [lia|unfold in64; lia].
Qed.
Lemma nonce_data_length : length (nonce_data h (Hash_GetBytes hash) d votes) = (56 + length votes)%nat.
Proof. unfold nonce_data, Hash_GetBytes. rewrite !length_app, !GetByteInt64_length, (arr_length hash).
  change HashLength with 32%nat. lia. Qed.

Lemma TxData_optional_length td : td_MultiSignAddresses td = [] ->
  length (TxData_optional td) = (98 + length (OptData td) + length (pk_ByteValue (td_Pubkey td)))%nat.
Proof.
  intros E. unfold TxData_optional, Address_GetBytes. rewrite E. cbn [map concat].
  rewrite !length_app, !BytesToLenAndBytes_length, !GetByteInt64_length, Address_GetBytesWithPrimary_length,
    (arr_length (addr_ByteValue _)). change AddressLength with 20%nat. cbn [length]. lia.
Qed.

Lemma nonce_tx_ok sign (m : Hash) : pr_Sign w (Hash_GetBytes m) primary = Ok sign ->
  tx_ok (nd_Config n) (wire (nonce_tx e w nw h hash d votes pk sign)).
Proof.
  intros Es. destruct (un_sign _ _ _ _ _ _ _ _ _ _ Hu _ _ Es) as (Hi & Hss & Hmin & _).
  destruct (un_pubkey _ _ _ _ _ _ _ _ _ _ Hu) as (_ & Hpk & Hpl). pose proof (un_votes _ _ _ _ _ _ _ _ _ _ Hu) as Hv.
  pose proof nonce_data_length as Hl.
  assert (length (TxData_optional (tx_Data (wire (nonce_tx e w nw h hash d votes pk sign))))
    = (154 + length votes + length (pk_ByteValue pk))%nat) as Ho.
  { rewrite TxData_optional_length by done. cbn [wire nonce_tx set_Signature set_Hash plain_nonce tx_Data OptData td_Pubkey].
    rewrite Hl. lia. }
  split.
  - split; [exact (un_chain _ _ _ _ _ _ _ _ _ _ Hu)|exact (un_time _ _ _ _ _ _ _ _ _ _ Hu)|done].
  - split; try done.
    + cbn. unfold short. rewrite Hl. lia.
    + cbn. unfold short. lia.
    + cbn [wire nonce_tx]. cbn. lia.
    + by left.
    + unfold short. rewrite Ho. lia.
  - cbn. apply i64_in64.
  - done.
  - done.
  - unfold short. cbn. lia.
  - exact Hi.
  - done.
  - done.
  - assert (76 + len (sig_ByteValue sign) + 201 <= len (Transaction_GetBytes (wire (nonce_tx e w nw h hash d votes pk sign)))) as Hb.
    { unfold len, Transaction_GetBytes, Tx.GetBytesWithoutSignature, TxData_GetBytes. rewrite TxData_optional_not_zeros.
      rewrite !length_app, TxParam_GetBytes_length, !BytesToLenAndBytes_length, !GetByteInt64_length,
        Address_GetBytesWithPrimary_length, Ho. unfold Hash_GetBytes, Address_GetBytes.
      rewrite (arr_length (tx_Hash _)), (arr_length (addr_ByteValue _)).
      cbn [wire nonce_tx set_Signature tx_Signature]. change HashLength with 32%nat. change AddressLength with 20%nat. lia. }
    destruct Hmin; [left|right]; lia.
Qed.
Lemma nonce_tx_short sign (m : Hash) : pr_Sign w (Hash_GetBytes m) primary = Ok sign ->
  short (Transaction_GetBytes (nonce_tx e w nw h hash d votes pk sign)).
Proof.
  intros Es. destruct (un_sign _ _ _ _ _ _ _ _ _ _ Hu _ _ Es) as (_ & Hss & _ & _).
  destruct (un_pubkey _ _ _ _ _ _ _ _ _ _ Hu) as (_ & _ & Hpl). pose proof (un_votes _ _ _ _ _ _ _ _ _ _ Hu) as Hv.
  unfold short, Transaction_GetBytes, Tx.GetBytesWithoutSignature, TxData_GetBytes. rewrite TxData_optional_not_zeros.
  rewrite !length_app, TxParam_GetBytes_length, !BytesToLenAndBytes_length, !GetByteInt64_length,
    Address_GetBytesWithPrimary_length, TxData_optional_length by done. unfold Hash_GetBytes at 1, Address_GetBytes.
  rewrite (arr_length (tx_Hash _)), (arr_length (addr_ByteValue _)).
  cbn [nonce_tx set_Signature set_Hash plain_nonce tx_Signature tx_Data OptData td_Pubkey OutputLogs length].
  rewrite nonce_data_length. change HashLength with 32%nat. change AddressLength with 20%nat. lia.
Qed.

(** The receiver verifies it. *)
Lemma nonce_tx_verifies sign at_ :
  let tx := wire (nonce_tx e w nw h hash d votes pk sign) in
  pr_Sign w (Hash_GetBytes (tx_Hash tx)) primary = Ok sign ->
  Transaction_Verify (nd_Config n) at_ (nd_MainDB n') tx = Ok (true, tx).
Proof.
  intros tx Es. destruct (un_sign _ _ _ _ _ _ _ _ _ _ Hu _ _ Es) as (_ & _ & _ & b0 & key & E0 & Ek & Ev).
  unfold Transaction_Verify. change (Amount (tx_Data tx) <? 0) with false. cbn [andb].
  assert (lock_ok tx = Ok true) as -> by done. cbn [obind negb].
  assert (modification_ok at_ (tx_Data tx) = Ok true) as ->.
  { unfold modification_ok, CanBeModifiedAccount, Address_GetBytes. rewrite GetAccountByAddressBytes_arr. cbn [obind].
    change (0 <? EscrowTransactionsDelay (tx_Data tx)) with false.
    change (0 <? byte_to_Z (td_MultiSignNumber (tx_Data tx))) with false.
    change (EscrowTransactionsDelay (tx_Data tx) <? 0) with false. by rewrite andb_false_r. }
  cbn [obind negb]. unfold CalcHashAndSet. rewrite CalcHashFromBytes_eq. cbn [obind].
  assert (set_Hash tx (blake2b_256 (Tx.GetBytesWithoutSignature tx false)) = tx) as -> by done.
  rewrite bytes_eqb_refl. cbn [negb]. change (sig_ByteValue (tx_Signature tx)) with (sig_ByteValue sign).
  rewrite E0. cbn [obind].
  change (verification_key (nd_MainDB n') tx (byte_to_Z b0 =? 0))
    with (verification_key (nd_MainDB n') (plain_nonce e w nw (nd_Height n) [] pk) (byte_to_Z b0 =? 0)).
  rewrite Ek, Ev. done.
Qed.

Lemma nonce_received sign at_ t :
  let tx := nonce_tx e w nw h hash d votes pk sign in
  t = NonceTopic \/ t = SelfNonceTopic -> pr_Sign w (Hash_GetBytes (tx_Hash tx)) primary = Ok sign ->
  GetTransactionsFromBytes (nd_Config n) at_ (nd_MainDB n') (nonce_of_topic nw t tx) = Ok {[ t := [wire tx] ]}.
Proof.
  intros tx Ht Es. pose proof (nonce_tx_ok _ _ Es) as Hok. fold tx in Hok.
  assert (topic_transactions (nd_Config n) at_ (nd_MainDB n') t [Transaction_GetBytes tx] = Ok [wire tx]) as Et.
  { cbn [topic_transactions]. destruct (_ <? _)%nat eqn:El.
    - apply Nat.ltb_lt in El. revert El. unfold Transaction_GetBytes, Tx.GetBytesWithoutSignature, TxData_GetBytes.
      rewrite !length_app, TxParam_GetBytes_length, !GetByteInt64_length, Address_GetBytesWithPrimary_length. lia.
    - rewrite <- wire_bytes, Transaction_roundtrip by done. pose proof (nonce_tx_verifies sign at_ Es) as Ev. cbv zeta in Ev. fold tx in Ev. by rewrite Ev. }
  unfold GetTransactionsFromBytes, validTopics, nonce_of_topic. cbn [topics_transactions tm_TransactionsBytes].
  destruct Ht as [-> | ->];
    rewrite lookup_singleton_eq, !lookup_singleton_ne by (intros E; vm_compute in E; discriminate E);
    rewrite Et; done.
Qed.
End Heard.

(** A block made from a nonce uses the schemes that its sender votes for, and those
    in use where it votes for none. *)
Theorem nonce_asks_schemes n last ne1 ne2 (tx : Transaction) e w nw h d pk sign :
  short ne1 -> short ne2 -> 0 <= h < 2 ^ 63 - 1 ->
  tx = wire (nonce_tx e w nw h (BlockHash last) d (BytesToLenAndBytes ne1 ++ BytesToLenAndBytes ne2) pk sign) ->
  nonce_encryption (D := D) n last (tx_Height tx) tx =
    Ok (match ne1 with [] => current_scheme (nd_Config n) true | _ => ne1 end,
        match ne2 with [] => current_scheme (nd_Config n) false | _ => ne2 end).
Proof.
  intros H1' H2' Hr ->. unfold nonce_encryption.
  set (v := BytesToLenAndBytes ne1 ++ BytesToLenAndBytes ne2).
  change (OptData _) with (nonce_data h (Hash_GetBytes (BlockHash last)) d v). change (tx_Height _) with (h +! 1).
  unfold nonce_data, Hash_GetBytes. set (p := GetByteInt64 (drawn_price d)). set (q := GetByteInt64 (dr_Rand d)).
  assert (length p = 8%nat) as Lp by apply GetByteInt64_length. assert (length q = 8%nat) as Lq by apply GetByteInt64_length.
  pose proof (GetByteInt64_length h) as Lh. assert (length (arr_bytes (BlockHash last)) = 32%nat) as Lb by apply (arr_length (BlockHash last)).
  rewrite slice_0 by lia. cbn [obind]. rewrite GetInt64FromByte_exact by (unfold in64; lia). cbn [obind].
  rewrite slice_app_exact by (rewrite ?Lh, ?Lb; lia). cbn [obind]. rewrite bytes_eqb_refl. cbn [negb].
  rewrite Z.eqb_refl. cbn [negb].
  replace (GetByteInt64 h ++ arr_bytes (BlockHash last) ++ p ++ q ++ v)
    with ((GetByteInt64 h ++ arr_bytes (BlockHash last) ++ p ++ q) ++ v) by (by rewrite <- !app_assoc).
  rewrite slice_suffix by (rewrite !length_app, Lh, Lb, Lp, Lq; lia). cbn [obind]. unfold v.
  rewrite BytesWithLenToBytes_app by done. cbn [obind].
  rewrite <- (app_nil_r (BytesToLenAndBytes ne2)), BytesWithLenToBytes_app by done. done.
Qed.

(** Programs that leave the votes alone. *)
Definition same_votes n n' : Prop :=
  nd_VotesEncryption1 n' = nd_VotesEncryption1 n /\ nd_VotesEncryption2 n' = nd_VotesEncryption2 n.
#[export] Instance same_votes_preorder : PreOrder same_votes.
Proof. split; [by intros n|]. intros a b c [? ?] [? ?]. split; congruence. Qed.
#[local] Hint Extern 2 (within same_votes (on _ _)) => (apply within_on_any; first [exact _|by intros]) : within.
#[local] Hint Extern 2 (within same_votes (on_ok _ _)) => (apply within_on_ok_any; first [exact _|by intros]) : within.
Lemma votes_with_config {A} (m : EncryptionConfig -> ST D A) : within same_votes (with_config m).
Proof. by apply (within_with_config _ (fun _ _ => True)). Qed.
#[local] Hint Resolve votes_with_config : within.

Lemma votes_CheckTransaction hash : within same_votes (CheckTransactionInDBAndInMarkleTrie (D := D) hash).
Proof. unfold CheckTransactionInDBAndInMarkleTrie. solve_within. Qed.
Lemma votes_RemoveBad hash height : within same_votes (RemoveBadTransactionByHash (D := D) hash height).
Proof. pose proof (votes_CheckTransaction hash). unfold RemoveBadTransactionByHash, pool_remove, pool_ban. solve_within. Qed.
Lemma votes_load_block_tx e hash : within same_votes (load_block_tx (D := D) e hash).
Proof.
  intros n r n'. unfold load_block_tx, load_pool_tx.
  pose proof (votes_with_config (fun ec => LoadFromDBPoolTx ec TransactionPoolHashesDBPrefix hash) n) as Hl.
  destruct (with_config _ n) as [[tx|err|] n1]; specialize (Hl _ _ eq_refl); [by intros [= _ <-]| |by intros [= _ <-]].
  intros E. transitivity n1; [done|]. revert E.
  match goal with |- ?p n1 = _ -> _ => assert (within same_votes p) as Hw by solve_within; exact (Hw n1 r n') end.
Qed.
Lemma votes_check_transfer e b (tr : transfers) h : within same_votes (check_transfer (D := D) e b tr h).
Proof.
  pose proof votes_load_block_tx. pose proof votes_CheckTransaction. pose proof votes_RemoveBad.
  unfold check_transfer, check_staking, sender_account, bad_tx. solve_within.
Qed.
Lemma votes_check_transfers e b txs : forall tr : transfers, within same_votes (check_transfers (D := D) e b tr txs).
Proof. induction txs; intros tr; cbn; pose proof votes_check_transfer; solve_within. Qed.
Lemma votes_CheckBlockTransfers e b last : within same_votes (CheckBlockTransfers (D := D) e b last).
Proof. pose proof votes_check_transfers. unfold CheckBlockTransfers. solve_within. Qed.

(** Programs that only send: the oracles and the votes stay, and no event is taken
    back. *)
Definition only_sends s s' : Prop :=
  (sv_PriceOracles s' = sv_PriceOracles s /\ sv_RandOracles s' = sv_RandOracles s) /\
  same_votes (sv_Node s) (sv_Node s') /\ exists evs, sv_events s' = sv_events s ++ evs.
#[export] Instance only_sends_preorder : PreOrder only_sends.
Proof.
  split; [intros s; split; [done|split; [done|exists []; by rewrite app_nil_r]]|].
  intros s1 s2 s3 ([A1 A2] & B & evs & C) ([A1' A2'] & B' & evs' & C').
  split; [split; congruence|split; [by transitivity (sv_Node s2)|exists (evs ++ evs')]]. by rewrite C', C, app_assoc.
Qed.
Lemma only_sends_emit ev : within only_sends (emit (D := D) ev).
Proof. intros s r s' [= _ <-]. split; [done|split; [done|by exists [ev]]]. Qed.
Lemma only_sends_node {A} (m : ST (Node D) A) : within same_votes m -> within only_sends (node m).
Proof.
  intros Hm. apply (within_on only_sends same_votes node_l); [done|]. intros s x Hx.
  split; [done|split; [exact Hx|exists []; by rewrite app_nil_r]].
Qed.
Lemma only_sends_with_env {A} e (m : Env -> ST (Node D) A) : (forall e, within same_votes (m e)) -> within only_sends (with_env e m).
Proof. intros Hm s r s'. exact (only_sends_node _ (Hm _) s r s'). Qed.
Lemma only_sends_staked e k : within only_sends (with_env (D := D) e (fun e => staked_in e k)).
Proof. apply only_sends_with_env. intros e'. unfold staked_in. solve_within. Qed.
Lemma only_sends_load h : within only_sends (load_block (D := D) h).
Proof. apply only_sends_node. by intros n r n' [= _ <-]. Qed.
Lemma only_sends_transfers e b last : within only_sends (with_env (D := D) e (fun e => CheckBlockTransfers e b last)).
Proof. apply only_sends_with_env. intros e'. apply votes_CheckBlockTransfers. Qed.
#[local] Hint Resolve only_sends_emit only_sends_staked only_sends_load only_sends_transfers : within.

Lemma only_sends_broadcast nw b : within only_sends (BroadcastBlock (D := D) nw b).
Proof. unfold BroadcastBlock. induction (nw_GetPeersConnected nw NonceTopic); cbn; solve_within. Qed.
#[local] Hint Resolve only_sends_broadcast : within.
Lemma only_sends_propose e o (w : Proposer) last tx : within only_sends (propose (D := D) e o w last tx).
Proof. intros s r s' [= _ <-]. reflexivity. Qed.
#[local] Hint Resolve only_sends_propose : within.

(** A value that is saved. *)
Lemma delegated_id id del : 1 <= id < 256 -> GetDelegatedAccountAddress id = Ok del ->
  GetIDFromDelegatedAccountAddress del = Ok id.
Proof.
  intros Hid Hdel. destruct (GetDelegatedAccountAddress_eq id) as (a & Ha & _ & Hb). rewrite Hdel in Ha. injection Ha as <-.
  unfold GetIDFromDelegatedAccountAddress. rewrite Hb, take_app_length' by (by rewrite length_be_bytes).
  rewrite be_Z_bytes. cbn [obind]. f_equal.
  unfold i16, u16, wrap. change (256 ^ Z.of_nat 2) with 65536. rewrite Zmod_mod. change (2 ^ 16) with 65536.
  change (2 ^ (16 - 1)) with 32768. rewrite (Z.mod_small id) by lia. rewrite Z.mod_small by lia. lia.
Qed.
Lemma save_oracle_ok err m v height id del staked : 1 <= id < 256 -> GetDelegatedAccountAddress id = Ok del ->
  (forall po, m !! id = Some po -> op_Height po <= height) ->
  save_oracle err m v height del staked = Ok (<[id := mk_Proposition v height staked]> m).
Proof.
  intros Hid Hdel Hm. unfold save_oracle. rewrite (delegated_id id) by done. cbn [obind].
  replace (_ || _) with false by (symmetry; apply orb_false_iff; split; [apply Z.leb_gt|apply Z.leb_gt]; lia).
  rewrite Z.mod_small by lia. destruct (m !! id) as [po|] eqn:E; [|done].
  specialize (Hm _ eq_refl). by replace (_ <=? _) with true by (symmetry; apply Z.leb_le; lia).
Qed.

(** The table after a vote; an empty vote is none. *)
Definition voted (id height staked : Z) (v : bytes) (m : votes_map) : votes_map :=
  match v with [] => m | _ => <[id := mk_Votes v height staked]> m end.
Lemma save_vote_ok err m v height id del staked : 1 <= id < 256 -> GetDelegatedAccountAddress id = Ok del ->
  (forall po, m !! id = Some po -> vt_Height po <= height) ->
  save_vote err m v height del staked = Ok (voted id height staked v m).
Proof.
  intros Hid Hdel Hm. unfold save_vote, voted. destruct v as [|x v]; [done|]. rewrite (delegated_id id) by done. cbn [obind].
  rewrite (proj2 (Z.leb_gt 256 id)) by lia. rewrite Z.mod_small by lia. destruct (m !! id) as [po|] eqn:E; [|done].
  specialize (Hm _ eq_refl). by replace (_ <=? _) with true by (symmetry; apply Z.leb_le; lia).
Qed.

(** What [n] has under an account is not above a height. *)
Definition young (m : oracle_map) (id height : Z) : Prop := forall po, m !! id = Some po -> op_Height po <= height.
Definition young_votes n (id height : Z) : Prop :=
  (forall po, nd_VotesEncryption1 n !! id = Some po -> vt_Height po <= height) /\
  (forall po, nd_VotesEncryption2 n !! id = Some po -> vt_Height po <= height).

Lemma logged_save l (f : oracle_map * oracle_map -> outcome (oracle_map * oracle_map)) s x :
  f (l_get l s) = Ok x -> logged (on_ok (S := Server D) l f) s = (Ok tt, l_set l x s).
Proof. intros E. unfold logged, on_ok. by rewrite E. Qed.
Lemma logged_vote (f : votes_map * votes_map * bool -> outcome (votes_map * votes_map * bool)) s x :
  f (l_get votes_l (sv_Node s)) = Ok x ->
  logged (node (D := D) (on_ok votes_l f)) s = (Ok tt, l_set node_l (l_set votes_l x (sv_Node s)) s).
Proof. intros E. unfold logged, node, on, on_ok. cbn [l_get node_l]. by rewrite E. Qed.

(** What a nonce proposes, under the account [id], in [s']. *)
Definition proposed (p q : Z) (ne1 ne2 : bytes) (height id staked : Z) s s' : Prop :=
  (sv_PriceOracles s' = <[id := mk_Proposition p height staked]> (sv_PriceOracles s) /\
   sv_RandOracles s' = <[id := mk_Proposition q height staked]> (sv_RandOracles s)) /\
  (nd_VotesEncryption1 (sv_Node s') = voted id height staked ne1 (nd_VotesEncryption1 (sv_Node s)) /\
   nd_VotesEncryption2 (sv_Node s') = voted id height staked ne2 (nd_VotesEncryption2 (sv_Node s))).

Lemma vote_bytes_app (ne b : bytes) : short ne -> vote_bytes (BytesToLenAndBytes ne ++ b) = Ok (ne, b).
Proof. intros Hs. unfold vote_bytes. by rewrite BytesWithLenToBytes_app. Qed.

Lemma save_proposals_heard p q ne1 ne2 height id del staked s : in64 p -> in64 q -> short ne1 -> short ne2 ->
  1 <= id < 256 -> GetDelegatedAccountAddress id = Ok del ->
  young (sv_PriceOracles s) id height -> young (sv_RandOracles s) id height -> young_votes (sv_Node s) id height ->
  exists s', save_proposals (GetByteInt64 p ++ GetByteInt64 q ++ BytesToLenAndBytes ne1 ++ BytesToLenAndBytes ne2)
      height del staked s = (Ok tt, s') /\
    proposed p q ne1 ne2 height id staked s s' /\ sv_events s' = sv_events s.
Proof.
  intros Hp Hq Hn1 Hn2 Hid Hdel Yp Yq [Yv Yw]. unfold save_proposals. set (vs := BytesToLenAndBytes ne1 ++ _).
  pose proof (GetByteInt64_length p) as Lp. pose proof (GetByteInt64_length q) as Lq.
  rewrite (st_bind_run _ _ s (GetByteInt64 p) s) by (unfold st_lift; by rewrite slice_prefix by lia).
  rewrite (st_bind_run _ _ s p s) by (unfold st_lift; by rewrite GetInt64FromByte_exact).
  erewrite st_bind_run by (apply logged_save; cbn [l_get oracles_l fst snd];
    unfold SavePriceOracle; rewrite (save_oracle_ok _ _ _ _ _ _ _ Hid Hdel Yp); reflexivity).
  set (s1 := l_set oracles_l _ s).
  rewrite (st_bind_run _ _ s1 (GetByteInt64 q) s1) by (unfold st_lift; by rewrite slice_app_exact by lia).
  rewrite (st_bind_run _ _ s1 q s1) by (unfold st_lift; by rewrite GetInt64FromByte_exact).
  erewrite st_bind_run by (apply logged_save; cbn [l_get oracles_l fst snd];
    unfold SaveRandOracle; rewrite (save_oracle_ok _ (sv_RandOracles s1) _ _ _ _ _ Hid Hdel Yq); reflexivity).
  set (s2 := l_set oracles_l _ s1).
  rewrite (st_bind_run _ _ s2 vs s2) by (unfold st_lift; by rewrite app_assoc, slice_suffix by (rewrite length_app; lia)).
  rewrite (st_bind_run _ _ s2 (ne1, BytesToLenAndBytes ne2) s2) by (unfold st_lift, vs; by rewrite vote_bytes_app).
  erewrite st_bind_run by (apply logged_vote; cbn [l_get votes_l fst snd];
    unfold SaveVotesEncryption1; rewrite (save_vote_ok _ _ _ _ _ _ _ Hid Hdel Yv); reflexivity).
  set (s3 := l_set node_l _ s2).
  rewrite (st_bind_run _ _ s3 (ne2, []) s3)
    by (unfold st_lift; rewrite <- (app_nil_r (BytesToLenAndBytes ne2)); by rewrite vote_bytes_app).
  unfold save_vote2. erewrite logged_vote by (cbn [l_get votes_l fst snd];
    unfold SaveVotesEncryption2; rewrite (save_vote_ok _ (nd_VotesEncryption2 (sv_Node s3)) _ _ _ _ _ Hid Hdel Yw); reflexivity).
  eexists. by split; [reflexivity|].
Qed.

Lemma on_nonce_heard e' o (w' : Proposer) nw' addr e w nw d ne1 ne2 n hash pk id t sign m s :
  let votes := BytesToLenAndBytes ne1 ++ BytesToLenAndBytes ne2 in
  let tx := nonce_tx e w nw (nd_Height n) hash d votes pk sign in
  let height := nd_Height n + 1 in
  let staked := f64_to_int64 (GetStakedInDelegatedAccount (env_visit e' m)).1.2 in
  short ne1 -> short ne2 ->
  fair o -> understood e w nw d votes n (sv_Node s) hash pk id -> t = NonceTopic \/ t = SelfNonceTopic ->
  pr_Sign w (Hash_GetBytes (tx_Hash tx)) (GetNodeSignPrimary (nd_Config n) (env_pref e) (env_coin e) (nd_Height n)) = Ok sign ->
  nd_StakingAccounts (sv_Node s) !! Z.to_nat id = Some m ->
  young (sv_PriceOracles s) id height -> young (sv_RandOracles s) id height -> young_votes (sv_Node s) id height ->
  exists r s', on_nonce e' o w' nw' addr (nd_Height n) (nonce_of_topic nw t tx) s = (r, s') /\
    NodeRegisterPeer addr ∈ sv_events s' /\
    proposed (drawn_price d) (dr_Rand d) ne1 ne2 height id staked s s'.
Proof.
  intros votes tx height staked Hn1 Hn2 Ho Hu Ht Es Hm Yp Yq Yv.
  pose proof (height_next _ _ _ _ _ _ _ _ _ _ Hu) as Hh. pose proof (un_account _ _ _ _ _ _ _ _ _ _ Hu) as [Hid Hdel].
  pose proof (un_range _ _ _ _ _ _ _ _ _ _ Hu) as Hr.
  unfold on_nonce.
  rewrite (st_bind_run _ _ s {[ t := [wire tx] ]} s).
  2: { unfold transactions_of, node, on. cbn [l_get l_set node_l]. rewrite (un_config _ _ _ _ _ _ _ _ _ _ Hu).
       rewrite (nonce_received e w nw d votes n (sv_Node s) hash pk id Hu sign _ t Ht Es). by destruct s. }
  rewrite (st_bind_run _ _ s (wire tx) s).
  2: { rewrite (enumerates_singleton _ _ _ (Ho _ _)). done. }
  cbv zeta. change (tx_Height (wire tx)) with (nd_Height n +! 1). rewrite Hh, Z.eqb_refl.
  replace (nd_Height n + 1 <? 1) with false by (symmetry; apply Z.ltb_ge; lia). cbn [negb orb].
  rewrite (st_bind_run _ _ s (true, wire tx) s).
  2: { unfold verify, node, on. cbn [l_get l_set node_l]. rewrite (un_config _ _ _ _ _ _ _ _ _ _ Hu).
       pose proof (nonce_tx_verifies e w nw d votes n (sv_Node s) hash pk id Hu sign (nd_Accounts (sv_Node s)) Es) as Ev.
       cbv zeta in Ev. fold tx in Ev. rewrite Ev. by destruct s. }
  cbn [negb]. set (s1 := snd (emit (NodeRegisterPeer addr) s)).
  rewrite (st_bind_run _ _ s tt s1) by done.
  change (Recipient (tx_Data (wire tx))) with (pr_DelegatedAccount w).
  rewrite (st_bind_run _ _ s1 id s1).
  2: { unfold st_lift. rewrite (IntDelegated_GetDelegated id); [done|lia|]. rewrite i16_id by (unfold in16; lia). done. }
  rewrite (st_bind_run _ _ s1 (GetByteInt64 (drawn_price d) ++ GetByteInt64 (dr_Rand d) ++ votes) s1).
  2: { unfold st_lift. change (OptData (tx_Data (wire tx))) with (nonce_data (nd_Height n) (Hash_GetBytes hash) d votes).
       unfold nonce_data. rewrite app_assoc, slice_suffix; [done|]. unfold Hash_GetBytes.
       by rewrite length_app, GetByteInt64_length, (arr_length hash). }
  destruct (GetStakedInDelegatedAccount (env_visit e' m)) as [[accs sum] op] eqn:Est.
  assert (with_env e' (fun e => staked_in e id) s1 = (Ok (accs, sum, op), s1)) as Estk.
  { unfold with_env, node, on, staked_in, reads. cbn [l_get l_set node_l staking_l]. unfold index.
    replace (id <? 0) with false by (symmetry; apply Z.ltb_ge; lia). change (sv_Node s1) with (sv_Node s). rewrite Hm.
    cbn [obind env_visit env_at]. rewrite Est. done. }
  rewrite (st_bind_run _ _ _ _ _ Estk). pose proof (drawn_price_eq _ _ _ _ _ _ _ _ _ _ Hu) as Edp.
  destruct (un_draws _ _ _ _ _ _ _ _ _ _ Hu) as [D1 D2].
  destruct (save_proposals_heard (drawn_price d) (dr_Rand d) ne1 ne2 height id (pr_DelegatedAccount w) (f64_to_int64 sum) s1)
    as (s2 & Esv & Hs2 & Hev); [unfold in64; lia..|done|done|done|done|done|done|done|].
  fold height. rewrite (st_bind_run _ _ s1 tt s2) by exact Esv.
  match goal with |- exists r s', ?k s2 = _ /\ _ =>
    assert (within only_sends k) as Hk by (unfold or_ban; solve_within); destruct (k s2) as [r s'] eqn:E end.
  exists r, s'. split; [done|]. destruct (Hk _ _ _ E) as ((A1 & A2) & (B1 & B2) & evs & C). split.
  - rewrite C, Hev, elem_of_app. left. cbn. rewrite elem_of_app. right. apply list_elem_of_here.
  - destruct Hs2 as ((P1 & P2) & P3 & P4). subst staked. cbn [fst snd].
    split; [by rewrite A1, A2|]. by rewrite B1, B2.
Qed.

(** The votes that a nonce carries. *)
Definition carried c : bytes :=
  if nd_AfterReset (sv_Node (nc_Server c)) then BytesToLenAndBytes [] ++ BytesToLenAndBytes [] else nc_EncryptionOptData c.

Lemma refresh_votes_run c : exists c', refresh_votes (D := D) c = (Ok tt, c') /\
  nc_EncryptionOptData c' = carried c /\ nd_Config (sv_Node (nc_Server c')) = nd_Config (sv_Node (nc_Server c)) /\
  nd_MainDB (sv_Node (nc_Server c')) = nd_MainDB (sv_Node (nc_Server c)) /\
  nd_Height (sv_Node (nc_Server c')) = nd_Height (sv_Node (nc_Server c)).
Proof.
  unfold refresh_votes, carried. destruct (nd_AfterReset _); [|by exists c]. eexists. split; [reflexivity|]. done.
Qed.
Lemma signed_nonce_parts e w nw d votes n m :
  nd_Config m = nd_Config n -> nd_MainDB m = nd_MainDB n -> nd_Height m = nd_Height n ->
  signed_nonce e w nw d votes m = signed_nonce e w nw d votes n.
Proof. intros A B C. unfold signed_nonce. by rewrite A, B, C. Qed.
Lemma generateNonceMsg_inv e w nw d t c msg c' : generateNonceMsg (D := D) e w nw d t c = (Ok msg, c') ->
  exists tx, signed_nonce e w nw d (carried c) (sv_Node (nc_Server c)) = Ok tx /\ msg = nonce_of_topic nw t tx.
Proof.
  unfold generateNonceMsg. intros E. destruct (refresh_votes_run c) as (c1 & E1 & A & B & C & F).
  rewrite (st_bind_run _ _ _ _ _ E1), A, (signed_nonce_parts _ _ _ _ _ _ _ B C F) in E. injection E as E _.
  apply obind_ok_inv in E as (tx & Ex & [= <-]). by exists tx.
Qed.
Lemma generateNonceMsg_run e w nw d t c tx : signed_nonce e w nw d (carried c) (sv_Node (nc_Server c)) = Ok tx ->
  exists c', generateNonceMsg (D := D) e w nw d t c = (Ok (nonce_of_topic nw t tx), c').
Proof.
  intros E. unfold generateNonceMsg. destruct (refresh_votes_run c) as (c1 & E1 & A & B & C & F). exists c1.
  by rewrite (st_bind_run _ _ _ _ _ E1), A, (signed_nonce_parts _ _ _ _ _ _ _ B C F), E.
Qed.
End NonceFacts.

(** C7: a nonce that a node generates is heard: a node of the same chain at the
    same height reads the message, verifies its signature, registers the sender as
    a node, and files what the nonce carries under the sender's delegated account,
    with the stake of that account, for the next height: the price and the random
    number that were drawn, and the votes on the two schemes, each into its own
    table, an empty vote leaving its table alone.  The handler returns, whatever
    the rest of it does. *)
Theorem generated_nonce_heard {D} `{RocksDB D} `{JSON PubKey} `{JSON (list MerkleNode)} `{Hasher} `{OqsLib}
    vm e w nw d t c msg c' ne1 ne2 e' o w' nw' fuel addr hash pk id m (s : Server D) :
  let n := sv_Node (nc_Server c) in
  let height := nd_Height n + 1 in
  let staked := f64_to_int64 (GetStakedInDelegatedAccount (env_visit e' m)).1.2 in
  generateNonceMsg e w nw d t c = (Ok msg, c') -> t = NonceTopic \/ t = SelfNonceTopic ->
  carried c = BytesToLenAndBytes ne1 ++ BytesToLenAndBytes ne2 -> short ne1 -> short ne2 ->
  understood e w nw d (carried c) n (sv_Node s) hash pk id -> nw_ChainID nw' = nw_ChainID nw ->
  fair o -> sv_IsSyncing s = false -> nd_StakingAccounts (sv_Node s) !! Z.to_nat id = Some m ->
  young (sv_PriceOracles s) id height -> young (sv_RandOracles s) id height -> young_votes (sv_Node s) id height ->
  exists s', OnMessage vm e' o w' nw' fuel addr (one_topic msg) s = Some (Ok tt, s') /\
    NodeRegisterPeer addr ∈ sv_events s' /\
    sv_PriceOracles s' = <[id := mk_Proposition (dr_Price d + 95000000) height staked]> (sv_PriceOracles s) /\
    sv_RandOracles s' = <[id := mk_Proposition (dr_Rand d) height staked]> (sv_RandOracles s) /\
    nd_VotesEncryption1 (sv_Node s') = voted id height staked ne1 (nd_VotesEncryption1 (sv_Node s)) /\
    nd_VotesEncryption2 (sv_Node s') = voted id height staked ne2 (nd_VotesEncryption2 (sv_Node s)).
Proof.
  intros n height staked Eg Ht Ec Hn1 Hn2 Hu Hc Ho Hsync Hm Yp Yq Yv.
  apply generateNonceMsg_inv in Eg as (tx & Es & ->). fold n in Es. rewrite Ec in Es, Hu.
  destruct (signed_nonce_inv _ _ _ _ _ _ _ _ _ _ Hu tx Es) as (sign & -> & Esg).
  assert (message_ok (nw_ChainID nw) (nonce_of_topic nw t (nonce_tx e w nw (nd_Height n) hash d (BytesToLenAndBytes ne1 ++ BytesToLenAndBytes ne2) pk sign))) as Hmok.
  { split; cbn [nonce_of_topic tm_BaseMessage tm_TransactionsBytes bm_Head bm_ChainID].
    - change (String.string_of_list_byte (ascii2 "n" "n")) with "nn"%string. unfold validHead. apply list_elem_of_here.
    - done.
    - exact (un_chain _ _ _ _ _ _ _ _ _ _ Hu).
    - by rewrite map_size_singleton.
    - apply map_Forall_singleton. split; [done|]. constructor; [|constructor]. by eapply nonce_tx_short. }
  set (msg := nonce_of_topic _ _ _) in *.
  assert (CheckValidMessage (nw_ChainID nw') (one_topic msg) = Ok (true, msg)) as Em.
  { rewrite Hc. apply CheckValidMessage_sent; [done|]. by unfold enumerates. }
  set (s1 := snd (emit (ValidRegisterPeer addr) s)).
  destruct (on_nonce_heard e' o w' nw' addr e w nw d ne1 ne2 n hash pk id t sign m s1 Hn1 Hn2 Ho Hu Ht Esg Hm Yp Yq Yv)
    as (r & s' & E & Hev & ([HP HR] & HV)).
  exists s'. rewrite (drawn_price_eq _ _ _ _ _ _ _ _ _ _ Hu) in HP. split; [|done].
  unfold OnMessage. rewrite Hsync, (un_height _ _ _ _ _ _ _ _ _ _ Hu). cbv zeta.
  unfold recovered, f_bind, f_run, valid_message, st_bind at 1 2, st_lift. rewrite Em. cbn [negb].
  unfold st_ret at 1. cbv beta iota. fold (emit (D := D) (ValidRegisterPeer addr)).
  rewrite (st_bind_run _ _ s tt s1) by done. unfold st_ret. change (head_is msg "nn") with true. cbv beta iota.
  fold n. fold msg in E. by rewrite E.
Qed.

(** ** A closed example: the operator of [Arrival] speaks to a node of its chain *)

#[local] Existing Instance map_store.
#[local] Existing Instance short_schemes.
#[local] Existing Instance toy_hasher.
#[local] Existing Instance pk_json.
#[local] Existing Instance node_json.

Definition speaker_7 : Speaker := mk_Speaker long_wallet (pr_Address long_wallet) (toy_address (zeros 5)) (op_key 5 false).
Definition draws_7 : Draws := mk_Draws 5000000 77.
(** The operator votes on the first scheme, and not on the second. *)
Definition vote_7 : bytes := current_scheme (nd_Config (sv_Node (server_7 1000))) true.
Definition nonces_7 : Nonces (gmap bytes bytes) :=
  let s := server_7 1000 in
  let n := sv_Node s in
  snd (SetEncryptionData vote_7 [] (mk_Nonces (l_set node_l (l_set votes_l (∅, ∅, false) n) s) [] zero_ip)).
Lemma carried_7 : carried nonces_7 = BytesToLenAndBytes vote_7 ++ BytesToLenAndBytes [].
Proof. reflexivity. Qed.
Lemma signed_7 (m : Hash) p sign : pr_Sign speaker_7 (Hash_GetBytes m) p = Ok sign ->
  sign = mk_Signature (byte_of_Z (if p then 0 else 1) :: Hash_GetBytes m ++ zeros 720) (toy_address (zeros 3)) p.
Proof. by intros [= <-]. Qed.
Lemma understood_7 : understood env_8 speaker_7 toy_network draws_7 (carried nonces_7) (sv_Node (nc_Server nonces_7))
  (sv_Node (server_7 1000)) (BlockHash last_7) zero_PubKey 3.
Proof.
  split; [reflexivity|by vm_compute|reflexivity|vm_cast_no_check (eq_refl (Ok (Hash_GetBytes (BlockHash last_7))))
    |by vm_compute|by vm_compute|by vm_compute|by vm_compute|by vm_compute|idtac|idtac].
  - split; [|split]; vm_compute; reflexivity.
  - intros m sign E. apply signed_7 in E as ->.
    assert (length (Hash_GetBytes m ++ zeros 720) = 752%nat) as Hl.
    { unfold Hash_GetBytes. by rewrite length_app, (arr_length m), zeros_length. }
    set (p := GetNodeSignPrimary _ _ _ _). assert (p = true) as Ep by reflexivity. clearbody p. subst p.
    revert Hl. generalize (Hash_GetBytes m ++ zeros 720) as b. intros b Hl.
    split; [|split; [cbn [sig_ByteValue length]; lia|split; [left; unfold len; cbn [sig_ByteValue length]; change (SignatureLength _) with 752; lia|]]].
    + unfold Signature_Init. cbn [sig_ByteValue sp_Proposer speaker_7]. unfold len. cbn [length]. rewrite Hl. reflexivity.
    + exists (byte_of_Z 0), (zeros 3). split; [reflexivity|]. split.
      * vm_cast_no_check (eq_refl (Ok (zeros 3))).
      * unfold Verify. cbn [sig_ByteValue index Z.ltb Z.compare lookup list_lookup].
        change (byte_of_Z 0 :: b) with ([byte_of_Z 0] ++ b). rewrite slice_suffix by done. reflexivity.
Qed.
Lemma announced_ok : exists msg c', generateNonceMsg env_8 speaker_7 toy_network draws_7 NonceTopic nonces_7 = (Ok msg, c').
Proof.
  set (b := blake2b_256 (Tx.GetBytesWithoutSignature
    (plain_nonce env_8 speaker_7 toy_network 7 (nonce_data 7 (Hash_GetBytes (BlockHash last_7)) draws_7 (carried nonces_7)) zero_PubKey) false)).
  pose proof (signed_nonce_run _ _ _ _ _ _ _ _ _ _ understood_7
    (mk_Signature (byte_of_Z 0 :: Hash_GetBytes b ++ zeros 720) (toy_address (zeros 3)) true) eq_refl) as E.
  destruct (generateNonceMsg_run _ _ _ _ NonceTopic nonces_7 _ E) as [c' E']. by do 2 eexists.
Qed.
Lemma announced_stakes : exists m, nd_StakingAccounts (sv_Node (server_7 1000)) !! Z.to_nat 3 = Some m.
Proof.
  assert (Nat.ltb 3 (length stakes_7) = true) as Hl by (vm_cast_no_check (eq_refl true)).
  apply Nat.ltb_lt in Hl. by apply lookup_lt_is_Some_2.
Qed.
Lemma generated_nonce_heard_witness : exists msg c' s' staked,
  generateNonceMsg env_8 speaker_7 toy_network draws_7 NonceTopic nonces_7 = (Ok msg, c') /\
  OnMessage toy_vm env_8 map_orders long_wallet toy_network 20 [] (one_topic msg) (server_7 1000) = Some (Ok tt, s') /\
  NodeRegisterPeer [] ∈ sv_events s' /\
  sv_PriceOracles s' = {[ 3 := mk_Proposition 100000000 8 staked ]} /\
  nd_VotesEncryption1 (sv_Node s') = {[ 3 := mk_Votes vote_7 8 staked ]} /\
  nd_VotesEncryption2 (sv_Node s') = ∅.
Proof.
  destruct announced_stakes as [m Hm]. destruct announced_ok as (msg & c' & Eg).
  destruct (generated_nonce_heard toy_vm env_8 speaker_7 toy_network draws_7 NonceTopic nonces_7 msg c' vote_7 []
    env_8 map_orders long_wallet toy_network 20 [] (BlockHash last_7) zero_PubKey 3 m (server_7 1000)
    Eg (or_introl eq_refl) carried_7 ltac:(by vm_compute) ltac:(by vm_compute) understood_7 eq_refl map_orders_fair eq_refl Hm)
    as (s' & E & Hev & HP & _ & HV & HW).
  - intros po Hpo. discriminate Hpo.
  - intros po Hpo. discriminate Hpo.
  - split; intros po Hpo; discriminate Hpo.
  - eexists msg, c', s', _. split; [exact Eg|]. split; [exact E|]. split; [exact Hev|].
    split; [rewrite HP; reflexivity|]. split; [rewrite HV; reflexivity|rewrite HW; reflexivity].
Defined.
