(* ===== verification/Peers.v ===== *)
(** * Package tcpip: the table of peers, framing, and one connection

    Models tcpip/helper.go, recieverTcpService.go and listenerTcpService.go above
    the sockets.  A connection is a number; its remote address, whether it is still
    alive, what a write or a new dial returns, and whether the context of an operation
    ran out while it waited for the table are arguments.  The loops are one
    step each: a read of a connection, a message to send, a round of the look-up for
    peers.  [PeersMutex] is not reentrant, so [BanIP] is told whether it is free.

    The theorems: every trust in the table is positive, whatever happens, so the
    bans that ask for a trust of zero are never made; a frame that is read in pieces
    is delivered once and whole; two frames read at once are delivered as one. *)
From S2P Require Import Prelude GoInt GoSlice Common Keys Codec Message Reset.

Abbreviation ip4 := (array 4).
Abbreviation conn := Z (only parsing).

Definition ConnectionMaxTries : Z := 10.
Definition BannedTimeSeconds : Z := 60.
Definition MaxMessageSizeBytes : Z := 151126018.
Definition RPCTopic : topic := topic_of "R" "P".
Definition bufSize : Z := 1024.
Definition MessageInitialization : bytes := [byte_of_Z 2; byte_of_Z 0; byte_of_Z 2; byte_of_Z 9].
Definition END_ : bytes := String.list_byte_of_string "<-END->".
Definition CLS : bytes := String.list_byte_of_string "<-CLS->".
Definition ERR : bytes := String.list_byte_of_string "<-ERR->".

(** What a write on a connection returns: nothing, an error that says that the
    connection is gone, another error. *)
Inductive written := Written | Broken | Failed.

(** ** The package variables *)

Record Peers := mk_Peers {
  peersConnected : gmap (topic * ip4) topic;
  validPeersConnected : gmap ip4 Z;
  nodePeersConnected : gmap ip4 Z;
  oldPeers : gmap (topic * ip4) topic;
  PeersCount : Z;
  tcpConnections : gmap topic (gmap ip4 conn);
  bannedIP : gmap ip4 Z;
  whiteListIPs : gset ip4;
  MyIP : ip4;
  closed : list conn
}.

Definition set_valid (f : gmap ip4 Z -> gmap ip4 Z) (p : Peers) : Peers :=
  mk_Peers (peersConnected p) (f (validPeersConnected p)) (nodePeersConnected p) (oldPeers p) (PeersCount p)
    (tcpConnections p) (bannedIP p) (whiteListIPs p) (MyIP p) (closed p).
Definition set_nodes (f : gmap ip4 Z -> gmap ip4 Z) (p : Peers) : Peers :=
  mk_Peers (peersConnected p) (validPeersConnected p) (f (nodePeersConnected p)) (oldPeers p) (PeersCount p)
    (tcpConnections p) (bannedIP p) (whiteListIPs p) (MyIP p) (closed p).
Definition set_banned (f : gmap ip4 Z -> gmap ip4 Z) (p : Peers) : Peers :=
  mk_Peers (peersConnected p) (validPeersConnected p) (nodePeersConnected p) (oldPeers p) (PeersCount p)
    (tcpConnections p) (f (bannedIP p)) (whiteListIPs p) (MyIP p) (closed p).
Definition set_connections (pc : gmap (topic * ip4) topic) (tc : gmap topic (gmap ip4 conn)) (cl : list conn) (p : Peers) : Peers :=
  mk_Peers pc (validPeersConnected p) (nodePeersConnected p) (oldPeers p) (PeersCount p)
    tc (bannedIP p) (whiteListIPs p) (MyIP p) cl.
Definition set_old (m : gmap (topic * ip4) topic) (p : Peers) : Peers :=
  mk_Peers (peersConnected p) (validPeersConnected p) (nodePeersConnected p) m (PeersCount p)
    (tcpConnections p) (bannedIP p) (whiteListIPs p) (MyIP p) (closed p).
Definition set_PeersCount (n : Z) (p : Peers) : Peers :=
  mk_Peers (peersConnected p) (validPeersConnected p) (nodePeersConnected p) (oldPeers p) n
    (tcpConnections p) (bannedIP p) (whiteListIPs p) (MyIP p) (closed p).

Definition AddWhiteListIPs (ip : ip4) (p : Peers) : Peers :=
  mk_Peers (peersConnected p) (validPeersConnected p) (nodePeersConnected p) (oldPeers p) (PeersCount p)
    (tcpConnections p) (bannedIP p) ({[ ip ]} ∪ whiteListIPs p) (MyIP p) (closed p).

Definition zero_ip4 : ip4 := arr_zero 4.

(** [init]: the addresses are those of the interfaces and of the environment, where
    they are set and can be parsed. *)
Definition init (discovered : ip4) (NODE_IP WHITELIST_IP : option ip4) : Peers :=
  let p := mk_Peers ∅ ∅ ∅ ∅ 0 (list_to_map (map (fun t => (t, ∅)) [TransactionTopic; NonceTopic; SelfNonceTopic; SyncTopic; RPCTopic]))
             ∅ ∅ discovered [] in
  match NODE_IP with
  | None => p
  | Some ip =>
      let p := mk_Peers (peersConnected p) (validPeersConnected p) (nodePeersConnected p) (oldPeers p) (PeersCount p)
                 (tcpConnections p) (bannedIP p) (whiteListIPs p) ip (closed p) in
      let p := set_valid <[ip := 100]> (AddWhiteListIPs zero_ip4 (AddWhiteListIPs ip p)) in
      match WHITELIST_IP with Some w => AddWhiteListIPs w p | None => p end
  end.

(** ** Bans and trust *)

Definition IsIPBanned (now : Z) (ip : ip4) (p : Peers) : bool :=
  if decide (ip ∈ whiteListIPs p) then false else
  match bannedIP p !! ip with Some hbanned => now <? hbanned | None => false end.

(** [for topic, c := range tcpConnections { for k, v := range c { ... } } }]: every
    connection with the remote address of [c] is closed and forgotten. *)
Definition same_remote (RemoteAddr : conn -> bytes) (c v : conn) : bool := bytes_eqb (RemoteAddr c) (RemoteAddr v).
Definition drop_topic (RemoteAddr : conn -> bytes) (c : conn) (t : topic) (cs : gmap ip4 conn) (p : Peers) : Peers :=
  let gone := filter (fun kv => same_remote RemoteAddr c kv.2 = true) cs in
  let ips := dom gone in
  let alive {A} (m : gmap ip4 A) : gmap ip4 A := filter (fun kv => kv.1 ∉ ips) m in
  set_nodes alive (set_valid alive
    (set_connections (filter (fun kv => ~ (kv.1.1 = t /\ kv.1.2 ∈ ips)) (peersConnected p))
       (<[t := filter (fun kv => same_remote RemoteAddr c kv.2 = false) cs]> (tcpConnections p))
       (closed p ++ map snd (map_to_list gone)) p)).
Definition CloseAndRemoveConnection (RemoteAddr : conn -> bytes) (c : conn) (p : Peers) : Peers :=
  foldr (fun kv => drop_topic RemoteAddr c kv.1 kv.2) p (map_to_list (tcpConnections p)).

Definition connection (t : topic) (ip : ip4) (p : Peers) : option conn := tcpConnections p !! t ≫= fun cs => cs !! ip.

Section Peers.
Variable RemoteAddr : conn -> bytes.

(** [free]: whether [PeersMutex.TryLock] succeeds.  Only the first of the three
    services on which the peer is connected is closed. *)
Definition BanIP (now : Z) (free : bool) (ip : ip4) (p : Peers) : Peers :=
  if decide (ip ∈ whiteListIPs p) then p else
  let p := set_banned <[ip := now +! BannedTimeSeconds]> p in
  if negb free then p else
  let p := set_nodes (delete ip) (set_valid (delete ip) p) in
  match connection NonceTopic ip p, connection TransactionTopic ip p, connection SyncTopic ip p with
  | Some c, _, _ | None, Some c, _ | None, None, Some c => CloseAndRemoveConnection RemoteAddr c p
  | None, None, None => p
  end.

Definition ReduceTrustRegisterPeer (ip : ip4) (p : Peers) : Peers :=
  if bool_decide (ip = MyIP p) || bool_decide (ip = zero_ip4) then p else
  match validPeersConnected p !! ip with
  | None => p
  | Some n => if n -! 1 <=? 0 then set_valid (delete ip) p else set_valid <[ip := n -! 1]> p
  end.

(** [late]: whether the 100 ms of the context were over when the mutex was
    obtained.  The mutex is held when [BanIP] is called. *)
Definition ReduceAndCheckIfBanIP (late : bool) (now : Z) (ip : ip4) (p : Peers) : Peers :=
  if late then p else
  let p := match validPeersConnected p !! ip with Some _ => ReduceTrustRegisterPeer ip p | None => p end in
  match validPeersConnected p !! ip with Some _ => p | None => BanIP now false ip p end.

Definition ValidRegisterPeer (ip : ip4) (p : Peers) : Peers :=
  match validPeersConnected p !! ip with
  | Some n => if n <? 3 then set_valid <[ip := n +! 1]> p else p
  | None => set_valid <[ip := ConnectionMaxTries]> p
  end.
Definition NodeRegisterPeer (ip : ip4) (p : Peers) : Peers :=
  match nodePeersConnected p !! ip with
  | Some _ => set_valid <[ip := ConnectionMaxTries]> p
  | None => set_nodes <[ip := ConnectionMaxTries]> p
  end.

(** ** Registration of a connection *)

(** [strconv.Atoi] on the digits of an address. *)
Fixpoint digits (acc : Z) (s : bytes) : outcome Z :=
  match s with
  | [] => Ok acc
  | c :: s => let d := byte_to_Z c - 48 in
              if (0 <=? d) && (d <=? 9) && (10 * acc + d <? 2 ^ 63) then digits (10 * acc + d) s
              else Err "invalid syntax"
  end.
Definition Atoi (s : bytes) : outcome Z :=
  match s with [] => Err "invalid syntax" | _ => digits 0 s end.

(** The first four segments of the address before the port. *)
Fixpoint segments (n : nat) (ips : list bytes) : outcome bytes :=
  match n with
  | O => Ok []
  | S n => match ips with
           | [] => Panic
           | s :: ips => let! num := Atoi s in let! r := segments n ips in Ok (byte_of_Z num :: r)
           end
  end.
Definition remote_ip (c : conn) : outcome ip4 :=
  let! ra := index (Split (byte_of_Z 58) (RemoteAddr c)) 0 in
  let! b := segments 4 (Split (byte_of_Z 46) ra) in
  Ok (arr_of 4 b).

(** [alive]: whether setting the keep-alive period of a connection succeeds. *)
Definition register (t : topic) (ip : ip4) (c : conn) (p : Peers) : Peers :=
  set_connections (<[(t, ip) := t]> (peersConnected p))
    (<[t := <[ip := c]> (default ∅ (tcpConnections p !! t))]> (tcpConnections p)) (closed p) p.
Definition RegisterPeer (now : Z) (alive : conn -> bool) (t : topic) (c : conn) : ST Peers bool := fun p =>
  match remote_ip c with
  | Panic => (Panic, p)
  | Err _ => (Ok false, p)
  | Ok ip =>
      if IsIPBanned now ip p then (Ok false, p) else
      match connection t ip p with
      | Some existing =>
          if alive existing then (Ok false, p)
          else (Ok true, register t ip c
                  (set_connections (peersConnected p) (tcpConnections p) (closed p ++ [existing]) p))
      | None => (Ok true, register t ip c (set_valid <[ip := ConnectionMaxTries]> p))
      end
  end.

Definition Accept (now : Z) (alive : conn -> bool) (t : topic) (c : conn) : ST Peers conn :=
  do! ok <- RegisterPeer now alive t c;
  if ok then st_ret c else
  run! st_modify (fun p => set_connections (peersConnected p) (tcpConnections p) (closed p ++ [c]) p);
  st_err "error with registration of connection".

(** ** What others ask of the table *)

Definition GetPeersConnected (t : topic) (p : Peers) : gmap (topic * ip4) topic :=
  filter (fun kv => kv.2 = t) (peersConnected p).
Definition GetPeersCount (p : Peers) : Z := PeersCount p.
(** [ord] is the order in which the peers that are nodes are visited, [rn] the
    random draw; one address at most is returned. *)
Definition GetIPsConnected (free : bool) (rn : Z -> Z) (ord : list (ip4 * Z)) : ST Peers (list bytes) := fun p =>
  if negb free then (Ok [], p) else
  let ips := List.filter (fun kv => (1 <? kv.2) && negb (bool_decide (kv.1 = MyIP p))) ord in
  let n := len ips in
  let p := set_PeersCount n p in
  if 0 <? n then (let! kv := index ips (rn n) in Ok [arr_bytes kv.1], p) else (Ok [], p).

(** One round of [LookUpForNewPeersToConnect]: the peers announced on the channel. *)
Definition look_up (ord : list (topic * ip4 * topic)) (p : Peers) : list (topic * ip4) * Peers :=
  let fresh := List.filter (fun kv => bool_decide (oldPeers p !! kv.1 = None)) ord in
  let old := foldl (fun m kv => <[kv.1 := kv.2]> m) (oldPeers p) fresh in
  (map fst fresh, set_old (filter (fun kv => is_Some (peersConnected p !! kv.1)) old) p).

(** ** Sending *)

Definition frame (message : bytes) : bytes := MessageInitialization ++ message ++ END_.

Definition send_to (write : conn -> written) (c : conn) (m : bytes) : ST Peers (list (conn * bytes)) := fun p =>
  match write c with
  | Written => (Ok [(c, frame m)], p)
  | Broken => (Ok [], CloseAndRemoveConnection RemoteAddr c p)
  | Failed => (Ok [], p)
  end.

(** A connection that was removed before it is visited is skipped. *)
Fixpoint send_all (write : conn -> written) (t : topic) (ord : list (ip4 * conn)) (m : bytes)
    : ST Peers (list (conn * bytes)) :=
  match ord with
  | [] => st_ret []
  | (k, c) :: ord => fun p =>
      (do! sent <- (if bool_decide (connection t k p = Some c) && bool_decide (is_Some (validPeersConnected p !! k))
                       && negb (bool_decide (k = MyIP p))
                    then send_to write c m else st_ret []);
       do! rest <- send_all write t ord m;
       st_ret (sent ++ rest)) p
  end.
(** One message of [LoopSend]; [late] is whether the 10 ms of its context were over
    when the mutex was obtained, [ord] the order in which the connections of the
    service are visited. *)
Definition loop_send (late : bool) (write : conn -> written) (t : topic) (ord : list (ip4 * conn)) (s : bytes)
    : ST Peers (list (conn * bytes)) := fun p =>
  if (length s <=? 4)%nat then (Ok [], p) else
  if late then (Ok [], p) else
  let ipr : ip4 := arr_of 4 (take 4 s) in
  if decide (ipr = zero_ip4) then send_all write t ord (drop 4 s) p else
  match validPeersConnected p !! ipr, connection t ipr p with
  | Some _, Some c => send_to write c (drop 4 s) p
  | _, _ => (Ok [], p)
  end.

(** ** One connection *)

(** The local variables of [StartNewConnection], the bytes put into the channel of
    the subscription, and the table. *)
Record Link := mk_Link {
  ln_conn : option conn;
  ln_tries : Z;
  ln_resets : Z;
  ln_acc : bytes;
  ln_out : list bytes;
  ln_peers : Peers
}.
Definition EXIT : bytes := String.list_byte_of_string "EXIT".

Definition put_out (b : bytes) (l : Link) : Link :=
  mk_Link (ln_conn l) (ln_tries l) (ln_resets l) (ln_acc l) (ln_out l ++ [b]) (ln_peers l).
Definition set_acc (b : bytes) (l : Link) : Link :=
  mk_Link (ln_conn l) (ln_tries l) (ln_resets l) b (ln_out l) (ln_peers l).
Definition set_tries (n : Z) (l : Link) : Link :=
  mk_Link (ln_conn l) n (ln_resets l) (ln_acc l) (ln_out l) (ln_peers l).
Definition set_peers (f : Peers -> Peers) (l : Link) : Link :=
  mk_Link (ln_conn l) (ln_tries l) (ln_resets l) (ln_acc l) (ln_out l) (f (ln_peers l)).
Definition close_link (l : Link) : Link :=
  match ln_conn l with
  | Some c => set_peers (CloseAndRemoveConnection RemoteAddr c) l
  | None => l
  end.

(** What [conn.Read] returns; the data are at most [bufSize] bytes. *)
Inductive read := Data (b : bytes) | EndOfFile | ReadError.
Definition Receive (c : option conn) (r : read) : bytes :=
  match c, r with
  | None, _ | _, EndOfFile => CLS
  | _, ReadError => ERR
  | _, Data b => b
  end.

Definition ends_frame (r : bytes) : outcome bool := let! s := slice_from r (len r - 7) in Ok (bytes_eqb s END_).

(** The trust in the sender is reduced; whether it is banned for that. *)
Definition distrust (now : Z) (free : bool) (ip : ip4) (l : Link) : bool * Link :=
  let l := set_peers (ReduceTrustRegisterPeer ip) l in
  match validPeersConnected (ln_peers l) !! ip with
  | Some trust => if trust <=? 0 then (true, put_out EXIT (set_peers (BanIP now free ip) l)) else (false, l)
  | None => (false, l)
  end.

(** The bytes [r] have been read; whether the loop ends. *)
Definition on_bytes (now : Z) (free : bool) (ip : ip4) (r : bytes) : ST Link bool := fun l =>
  let r := ln_acc l ++ r in
  match ends_frame r with
  | Panic => (Panic, l)
  | Err err => (Err err, l)
  | Ok whole =>
      let l := set_acc (if whole then [] else r) l in
      if MaxMessageSizeBytes <? i32 (len r) then
        let (banned, l) := distrust now free ip l in (Ok banned, set_acc [] l)
      else if negb whole then (Ok false, l) else
      match slice_to r 4, slice_from r 4 with
      | Ok head, Ok body =>
          if bytes_eqb head MessageInitialization then (Ok false, put_out (arr_bytes ip ++ body) l)
          else let (banned, l) := distrust now free ip l in (Ok banned, l)
      | _, _ => (Ok false, l)
      end
  end.

(** One round of the loop; [dial] is the connection that a new dial gives. *)
Definition read_step (now : Z) (free : bool) (dial : option conn) (ip : ip4) (rd : read) : ST Link bool := fun l =>
  let resets := ln_resets l + 1 in
  let tries := if Z.rem resets 100 =? 0 then 0 else ln_tries l in
  let l := mk_Link (ln_conn l) tries resets (ln_acc l) (ln_out l) (ln_peers l) in
  let r := Receive (ln_conn l) rd in
  if bytes_eqb r ERR then
    if ConnectionMaxTries <? tries then
      let p := ln_peers l in
      let p := set_connections (peersConnected p) (tcpConnections p)
                 (closed p ++ match ln_conn l with Some c => [c] | None => [] end) p in
      (Ok false, mk_Link dial 0 resets (ln_acc l) (ln_out l) p)
    else (Ok false, set_tries (tries + 1) l)
  else if bytes_eqb r CLS || bytes_eqb r (String.list_byte_of_string "QUITFOR") then (Ok true, close_link (put_out EXIT l))
  else if bytes_eqb r (String.list_byte_of_string "WAIT") then (Ok false, l)
  else on_bytes now free ip r l.

(** The deferred [recover]. *)
Definition receive_step (now : Z) (free : bool) (dial : option conn) (ip : ip4) (rd : read) (l : Link) : bool * Link :=
  match read_step now free dial ip rd l with
  | (Ok stop, l) => (stop, l)
  | (_, l) => (true, close_link (put_out EXIT l))
  end.
Fixpoint receive_all (now : Z) (free : bool) (dial : option conn) (ip : ip4) (rds : list read) (l : Link) : bool * Link :=
  match rds with
  | [] => (false, l)
  | rd :: rds => let (stop, l) := receive_step now free dial ip rd l in
                 if stop then (true, l) else receive_all now free dial ip rds l
  end.

(** The attempts to connect, three at most: the connection, or the ban. *)
Fixpoint connect (now : Z) (free : bool) (ip : ip4) (more : nat) (dials : list (option conn)) (p : Peers)
    : option conn * Peers :=
  match more, dials with
  | S more, Some c :: _ => (Some c, p)
  | S more, None :: dials =>
      let p := ReduceTrustRegisterPeer ip p in
      let banned := match validPeersConnected p !! ip with Some trust => trust <=? 0 | None => false end in
      connect now free ip more dials (if banned || (more =? 0)%nat then BanIP now free ip p else p)
  | _, _ => (None, p)
  end.
End Peers.

(** ** The trust in the table *)

(** Every trust is positive. *)
Definition trusting (p : Peers) : Prop := map_Forall (fun _ n => 0 < n) (validPeersConnected p).
Definition keeps_trusting (f : Peers -> Peers) : Prop := forall p, trusting p -> trusting (f p).

Section Trust.
Variable RemoteAddr : conn -> bytes.
Implicit Types (p : Peers) (ip : ip4) (c : conn).

Lemma trusting_same p p' : validPeersConnected p' = validPeersConnected p -> trusting p -> trusting p'.
Proof. unfold trusting. by intros ->. Qed.
Lemma trusting_shrinks p p' : validPeersConnected p' ⊆ validPeersConnected p -> trusting p -> trusting p'.
Proof. intros Hs Hp ip n E. eapply (Hp ip), lookup_weaken; [exact E|exact Hs]. Qed.
Lemma trusting_max ip p : trusting p -> trusting (set_valid <[ip := ConnectionMaxTries]> p).
Proof. intros Hp. by apply map_Forall_insert_2. Qed.

Lemma drop_topic_shrinks c t cs p :
  validPeersConnected (drop_topic RemoteAddr c t cs p) ⊆ validPeersConnected p /\
  bannedIP (drop_topic RemoteAddr c t cs p) = bannedIP p.
Proof. split; [apply map_filter_subseteq|done]. Qed.
Lemma CloseAndRemove_shrinks c p :
  validPeersConnected (CloseAndRemoveConnection RemoteAddr c p) ⊆ validPeersConnected p /\
  bannedIP (CloseAndRemoveConnection RemoteAddr c p) = bannedIP p.
Proof.
  unfold CloseAndRemoveConnection. induction (map_to_list _) as [|[t cs] l [IH1 IH2]]; cbn [foldr]; [done|].
  destruct (drop_topic_shrinks c t cs (foldr (fun kv => drop_topic RemoteAddr c kv.1 kv.2) p l)) as [E1 E2].
  split; [etransitivity; [exact E1|done]|etransitivity; [exact E2|done]].
Qed.

Lemma trusting_BanIP now free ip p : trusting p -> trusting (BanIP RemoteAddr now free ip p).
Proof.
  intros Hp. unfold BanIP. case_decide; [done|]. destruct (negb free); [done|].
  assert (trusting (set_nodes (delete ip) (set_valid (delete ip) (set_banned <[ip := now +! BannedTimeSeconds]> p)))) as Hd
    by (eapply trusting_shrinks; [|exact Hp]; apply delete_subseteq).
  repeat case_match; try exact Hd; (eapply trusting_shrinks; [apply CloseAndRemove_shrinks|exact Hd]).
Qed.
Lemma trusting_Reduce ip p : trusting p -> trusting (ReduceTrustRegisterPeer ip p).
Proof.
  intros Hp. unfold ReduceTrustRegisterPeer. destruct (_ || _); [done|].
  destruct (validPeersConnected p !! ip) as [n|]; [|done]. destruct (n -! 1 <=? 0) eqn:E; zify_bool.
  - eapply trusting_shrinks; [|exact Hp]. apply delete_subseteq.
  - by apply map_Forall_insert_2.
Qed.
Lemma trusting_ReduceAndCheck late now ip p : trusting p -> trusting (ReduceAndCheckIfBanIP RemoteAddr late now ip p).
Proof.
  intros Hp. unfold ReduceAndCheckIfBanIP. destruct late; [done|]. cbv zeta.
  set (p1 := match validPeersConnected p !! ip with Some _ => _ | None => _ end).
  assert (trusting p1) by (unfold p1; case_match; [by apply trusting_Reduce|done]).
  case_match; [done|by apply trusting_BanIP].
Qed.
Lemma trusting_ValidRegister ip p : trusting p -> trusting (ValidRegisterPeer ip p).
Proof.
  intros Hp. unfold ValidRegisterPeer. destruct (validPeersConnected p !! ip) as [n|] eqn:E; [|by apply trusting_max].
  destruct (n <? 3) eqn:En; [|done]. zify_bool. apply map_Forall_insert_2; [|done].
  pose proof (Hp ip n E). cbn in *. unfold add64. rewrite i64_id; [lia|unfold in64; lia].
Qed.
Lemma trusting_NodeRegister ip p : trusting p -> trusting (NodeRegisterPeer ip p).
Proof. intros Hp. unfold NodeRegisterPeer. case_match; [by apply trusting_max|done]. Qed.
Lemma trusting_RegisterPeer now alive t c p r p' : trusting p ->
  RegisterPeer RemoteAddr now alive t c p = (r, p') -> trusting p'.
Proof.
  intros Hp. unfold RegisterPeer. destruct (remote_ip _ c) as [ip|err|]; [|by intros [= _ <-]..].
  destruct (IsIPBanned _ _ _); [by intros [= _ <-]|].
  destruct (connection t ip p) as [old|]; [destruct (alive old); by intros [= _ <-]|].
  intros [= _ <-]. by apply trusting_max.
Qed.

(** After a reduction no entry asks for a ban. *)
Lemma distrust_never_bans now free ip l : trusting (ln_peers l) ->
  distrust RemoteAddr now free ip l = (false, set_peers (ReduceTrustRegisterPeer ip) l).
Proof.
  intros Hp. unfold distrust. cbn [set_peers ln_peers]. pose proof (trusting_Reduce ip _ Hp) as Ht.
  destruct (validPeersConnected _ !! ip) as [n|] eqn:E; [|done].
  specialize (Ht ip n E). cbn in Ht. by replace (n <=? 0) with false by (symmetry; apply Z.leb_gt; lia).
Qed.
End Trust.

(** ** Everything that happens to the table *)

Inductive tcp_step (RemoteAddr : conn -> bytes) : Peers -> Peers -> Prop :=
| step_AddWhiteListIPs ip p : tcp_step RemoteAddr p (AddWhiteListIPs ip p)
| step_BanIP now free ip p : tcp_step RemoteAddr p (BanIP RemoteAddr now free ip p)
| step_ReduceAndCheckIfBanIP late now ip p : tcp_step RemoteAddr p (ReduceAndCheckIfBanIP RemoteAddr late now ip p)
| step_ReduceTrustRegisterPeer ip p : tcp_step RemoteAddr p (ReduceTrustRegisterPeer ip p)
| step_ValidRegisterPeer ip p : tcp_step RemoteAddr p (ValidRegisterPeer ip p)
| step_NodeRegisterPeer ip p : tcp_step RemoteAddr p (NodeRegisterPeer ip p)
| step_RegisterPeer now alive t c p r p' :
    RegisterPeer RemoteAddr now alive t c p = (r, p') -> tcp_step RemoteAddr p p'
| step_CloseAndRemoveConnection c p : tcp_step RemoteAddr p (CloseAndRemoveConnection RemoteAddr c p)
| step_close c p : tcp_step RemoteAddr p (set_connections (peersConnected p) (tcpConnections p) (closed p ++ [c]) p)
| step_GetIPsConnected free rn ord p r p' :
    GetIPsConnected free rn ord p = (r, p') -> tcp_step RemoteAddr p p'
| step_look_up ord p : tcp_step RemoteAddr p (look_up ord p).2.

Section Reading.
Variable RemoteAddr : conn -> bytes.
Implicit Types (p : Peers) (ip : ip4) (l : Link).

Lemma trusting_step p p' : tcp_step RemoteAddr p p' -> trusting p -> trusting p'.
Proof.
  intros [] Hp; auto using trusting_BanIP, trusting_ReduceAndCheck, trusting_Reduce, trusting_ValidRegister,
    trusting_NodeRegister.
  - by eapply trusting_RegisterPeer.
  - eapply trusting_shrinks; [apply CloseAndRemove_shrinks|exact Hp].
  - revert H. unfold GetIPsConnected. destruct (negb free); [by intros [= _ <-]|].
    destruct (0 <? _); by intros [= _ <-].
Qed.
Lemma trusting_init discovered NODE_IP WHITELIST_IP : trusting (init discovered NODE_IP WHITELIST_IP).
Proof. destruct NODE_IP, WHITELIST_IP; cbn; by try apply map_Forall_insert_2. Qed.
Lemma trusting_reachable p p' : rtc (tcp_step RemoteAddr) p p' -> trusting p -> trusting p'.
Proof. induction 1; eauto using trusting_step. Qed.

(** What a round of reading keeps. *)
Definition unbanned l l' : Prop := trusting (ln_peers l') /\ bannedIP (ln_peers l') = bannedIP (ln_peers l).

Lemma unbanned_close l l0 : unbanned l l0 -> unbanned l (close_link RemoteAddr l0).
Proof.
  intros [Ht Hb]. unfold close_link. destruct (ln_conn l0) as [c|]; [|done]. split; cbn [ln_peers set_peers].
  - eapply trusting_shrinks; [apply CloseAndRemove_shrinks|exact Ht].
  - by rewrite (proj2 (CloseAndRemove_shrinks RemoteAddr c _)).
Qed.
Lemma unbanned_Reduce ip l : trusting (ln_peers l) -> unbanned l (set_peers (ReduceTrustRegisterPeer ip) l).
Proof.
  intros Ht. split; [by apply trusting_Reduce|]. cbn. unfold ReduceTrustRegisterPeer.
  destruct (_ || _); [done|]. destruct (_ !! ip); [|done]. by destruct (_ <=? 0).
Qed.

Lemma on_bytes_unbanned now free ip r l o l' : trusting (ln_peers l) ->
  on_bytes RemoteAddr now free ip r l = (o, l') -> unbanned l l'.
Proof.
  intros Ht. unfold on_bytes. cbv zeta. set (r1 := ln_acc l ++ r).
  destruct (ends_frame r1) as [whole|err|]; [|by intros [= _ <-]..].
  set (l1 := set_acc _ l). assert (trusting (ln_peers l1)) as Ht1 by done.
  destruct (_ <? _); [rewrite distrust_never_bans by done; intros [= _ <-]; exact (unbanned_Reduce ip l1 Ht1)|].
  destruct (negb whole); [by intros [= _ <-]|].
  destruct (slice_to r1 4) as [hd|err|]; [|by intros [= _ <-]..].
  destruct (slice_from r1 4) as [body|err|]; [|by intros [= _ <-]..].
  destruct (bytes_eqb hd _); [by intros [= _ <-]|]. rewrite distrust_never_bans by done. intros [= _ <-].
  exact (unbanned_Reduce ip l1 Ht1).
Qed.

Lemma receive_step_unbanned now free dial ip rd l stop l' : trusting (ln_peers l) ->
  receive_step RemoteAddr now free dial ip rd l = (stop, l') -> unbanned l l'.
Proof.
  intros Ht. unfold receive_step.
  assert (forall o l1, read_step RemoteAddr now free dial ip rd l = (o, l1) -> unbanned l l1) as Hr.
  { intros o l1. unfold read_step. cbv zeta. set (l0 := mk_Link _ _ _ _ _ _). assert (unbanned l l0) as H0' by done.
    destruct (bytes_eqb _ ERR); [destruct (_ <? _); by intros [= _ <-]|].
    destruct (_ || _); [intros [= _ <-]; by apply unbanned_close|].
    destruct (bytes_eqb _ _); [by intros [= _ <-]|]. intros E. by apply on_bytes_unbanned in E. }
  destruct (read_step _ _ _ _ _ _ l) as [[b|err|] l1] eqn:E; specialize (Hr _ _ eq_refl); intros [= _ <-];
    [done|by apply unbanned_close..].
Qed.
Lemma receive_all_unbanned now free dial ip rds : forall l stop l', trusting (ln_peers l) ->
  receive_all RemoteAddr now free dial ip rds l = (stop, l') -> unbanned l l'.
Proof.
  induction rds as [|rd rds IH]; intros l stop l' Ht; cbn [receive_all]; [by intros [= _ <-]|].
  destruct (receive_step _ _ _ _ _ rd l) as [st l1] eqn:E1. apply receive_step_unbanned in E1 as [Ht1 Hb1]; [|done].
  destruct st; [by intros [= _ <-]|]. intros E. apply IH in E as [Ht' Hb']; [|done]. split; [done|congruence].
Qed.

(** C21: reading never bans.  Whatever sequence of operations led from the start of
    the node to the present table, no bytes that a peer sends (frames that are
    too long, frames without the mark of the chain, broken ones) add a ban: the
    trust in the sender is deleted when it reaches zero, and the ban asks for an
    entry that is zero or less. *)
Theorem reading_never_bans discovered NODE_IP WHITELIST_IP p now free dial ip rds l stop l' :
  rtc (tcp_step RemoteAddr) (init discovered NODE_IP WHITELIST_IP) p -> ln_peers l = p ->
  receive_all RemoteAddr now free dial ip rds l = (stop, l') -> bannedIP (ln_peers l') = bannedIP p.
Proof.
  intros Hr <- E. apply receive_all_unbanned in E as [_ Hb]; [done|].
  eapply trusting_reachable; [exact Hr|apply trusting_init].
Qed.
End Reading.

(** ** Frames *)

(** It fits the buffer, and is not one of the words that the loop takes for a state
    of the connection. *)
Definition plain (d : bytes) : Prop :=
  len d <= bufSize /\
  d <> ERR /\ d <> CLS /\ d <> String.list_byte_of_string "QUITFOR" /\ d <> String.list_byte_of_string "WAIT".
#[export] Instance plain_dec d : Decision (plain d).
Proof. unfold plain. apply _. Defined.

(** [ds] are the pieces in which the rest of [m] is read after [acc]: what has been
    read after a piece that is not the last has the length of a mark at least and
    does not end with one. *)
Fixpoint cut (acc : bytes) (ds : list bytes) (m : bytes) : Prop :=
  match ds with
  | [] => False
  | [d] => plain d /\ acc ++ d = m
  | d :: ds => plain d /\ ends_frame (acc ++ d) = Ok false /\ cut (acc ++ d) ds m
  end.

Lemma cut_prefix ds : forall acc m, cut acc ds m -> exists rest, m = acc ++ rest.
Proof.
  induction ds as [|d [|d' ds] IH]; intros acc m; [done| |].
  - intros [_ <-]. by exists d.
  - intros (_ & _ & [rest ->]%IH). exists (d ++ rest). by rewrite <- app_assoc.
Qed.

Lemma ends_frame_app x : ends_frame (x ++ END_) = Ok true.
Proof.
  unfold ends_frame, len. rewrite length_app. change (length END_) with 7%nat.
  rewrite slice_suffix by lia. cbn [obind]. by rewrite bytes_eqb_refl.
Qed.

Section Frames.
Variable RemoteAddr : conn -> bytes.
Variables (now : Z) (free : bool) (dial : option conn) (ip : ip4).
Implicit Types l : Link.

(** A piece reaches the buffer. *)
Lemma receive_step_plain d l c : plain d -> ln_conn l = Some c -> exists l0,
  ln_conn l0 = Some c /\ ln_acc l0 = ln_acc l /\ ln_out l0 = ln_out l /\ ln_peers l0 = ln_peers l /\
  (forall stop l', on_bytes RemoteAddr now free ip d l0 = (Ok stop, l') ->
     receive_step RemoteAddr now free dial ip (Data d) l = (stop, l')).
Proof.
  intros (_ & N1 & N2 & N3 & N4) Hc.
  eexists (mk_Link (ln_conn l) _ (ln_resets l + 1) (ln_acc l) (ln_out l) (ln_peers l)).
  split; [done|]. do 3 (split; [done|]). intros stop l' E. unfold receive_step, read_step. rewrite Hc. cbn [Receive ln_conn].
  assert (forall x, d <> x -> bytes_eqb d x = false) as Hne.
  { intros x Hx. unfold bytes_eqb. by apply bool_decide_eq_false. }
  rewrite !Hne by done. cbn [orb]. rewrite Hc in E. by rewrite E.
Qed.

Lemma short_frame (m : bytes) : len m <= MaxMessageSizeBytes -> (MaxMessageSizeBytes <? i32 (len m)) = false.
Proof.
  unfold MaxMessageSizeBytes, len. intros Hm. rewrite i32_id by (unfold in32; lia). apply Z.ltb_ge. lia.
Qed.

Lemma receive_all_cut body ds : forall l c, len (frame body) <= MaxMessageSizeBytes ->
  ln_conn l = Some c -> cut (ln_acc l) ds (frame body) -> exists l',
  receive_all RemoteAddr now free dial ip (map Data ds) l = (false, l') /\
  ln_out l' = ln_out l ++ [arr_bytes ip ++ body ++ END_] /\ ln_acc l' = [] /\
  ln_peers l' = ln_peers l /\ ln_conn l' = Some c.
Proof.
  induction ds as [|d ds IH]; intros l c Hlen Hc Hcut; [done|]. cbn [map receive_all].
  destruct ds as [|d' ds].
  - destruct Hcut as [Hp He]. destruct (receive_step_plain d l c Hp Hc) as (l0 & C0 & A0 & O0 & P0 & Hstep).
    erewrite Hstep.
    2: { unfold on_bytes. rewrite A0, He. unfold frame at 1. rewrite app_assoc, ends_frame_app.
         cbv zeta. rewrite short_frame by done. cbn [negb]. unfold frame.
         rewrite slice_prefix by done. rewrite slice_suffix by done. rewrite bytes_eqb_refl. reflexivity. }
    cbn [map receive_all]. eexists. split; [reflexivity|]. cbn. by rewrite O0, P0, C0.
  - destruct Hcut as (Hp & He & Hcut). destruct (receive_step_plain d l c Hp Hc) as (l0 & C0 & A0 & O0 & P0 & Hstep).
    erewrite Hstep.
    2: { unfold on_bytes. rewrite A0, He. cbv zeta. rewrite short_frame; [reflexivity|].
         destruct (cut_prefix _ _ _ Hcut) as [rest Er]. rewrite Er in Hlen. unfold len in *. rewrite length_app in Hlen. lia. }
    destruct (IH (set_acc (ln_acc l ++ d) l0) c Hlen C0 Hcut) as (l' & E & O' & A' & P' & C').
    exists l'. split; [exact E|]. cbn [set_acc ln_out ln_peers] in O', P'. by rewrite O', P', O0, P0.
Qed.
End Frames.

(** C20: a frame gets through.  Whatever the pieces in which it is read, unless one
    of them is a control word or the bytes read end with the mark of the end before
    the message does, a message that a node sends is put into the channel of the
    subscription once and whole, and the check of the receiver accepts it and reads
    the message that was sent, although the mark is still behind it. *)
Theorem frame_delivered RemoteAddr now free dial (ip : ip4) chainID ord a ds l c :
  let m := TransactionsMessage_GetBytes ord a in
  message_ok chainID a -> enumerates ord (tm_TransactionsBytes a) ->
  len (frame m) <= MaxMessageSizeBytes -> ln_conn l = Some c -> ln_acc l = [] -> cut [] ds (frame m) ->
  exists l', receive_all RemoteAddr now free dial ip (map Data ds) l = (false, l') /\
    ln_peers l' = ln_peers l /\ ln_acc l' = [] /\
    ln_out l' = ln_out l ++ [arr_bytes ip ++ m ++ END_] /\
    CheckValidMessage chainID (drop 4 (arr_bytes ip ++ m ++ END_)) = Ok (true, a).
Proof.
  intros m Hok Hord Hlen Hc Ha Hcut. rewrite <- Ha in Hcut.
  destruct (receive_all_cut RemoteAddr now free dial ip m ds l c Hlen Hc Hcut) as (l' & E & O' & A' & P' & _).
  exists l'. do 4 (split; [done|]). rewrite drop_app_length' by by rewrite arr_length. by apply CheckValidMessage_sent_tail.
Qed.

(** two frames without a read that ends between them are delivered as one:
    whatever the pieces, the bytes of both go into the channel as one message, of
    which the receiver reads the first; the second is lost. *)
Theorem coalesced_frame_lost RemoteAddr now free dial (ip : ip4) chainID ord a m2 ds l c :
  let m1 := TransactionsMessage_GetBytes ord a in
  message_ok chainID a -> enumerates ord (tm_TransactionsBytes a) ->
  len (frame m1 ++ frame m2) <= MaxMessageSizeBytes -> ln_conn l = Some c -> ln_acc l = [] ->
  cut [] ds (frame m1 ++ frame m2) ->
  exists l' out, receive_all RemoteAddr now free dial ip (map Data ds) l = (false, l') /\
    ln_acc l' = [] /\ ln_out l' = ln_out l ++ [arr_bytes ip ++ out] /\
    CheckValidMessage chainID out = Ok (true, a).
Proof.
  intros m1 Hok Hord Hlen Hc Ha Hcut. set (rest := MessageInitialization ++ m2).
  assert (frame m1 ++ frame m2 = frame (m1 ++ END_ ++ rest)) as Ef.
  { unfold frame, rest. by rewrite <- !app_assoc. }
  rewrite Ef in Hlen, Hcut. rewrite <- Ha in Hcut.
  destruct (receive_all_cut RemoteAddr now free dial ip (m1 ++ END_ ++ rest) ds l c Hlen Hc Hcut)
    as (l' & E & O' & A' & _ & _).
  exists l', ((m1 ++ END_ ++ rest) ++ END_). do 3 (split; [done|]).
  rewrite <- app_assoc. by apply CheckValidMessage_sent_tail.
Qed.

(** ** Bans after losses of trust *)

Section Bans.
Variable RemoteAddr : conn -> bytes.
Implicit Types (p : Peers) (ip : ip4) (l : Link).

(** Complaints, as calls of [ReduceAndCheckIfBanIP]: whether each waits too long for
    the table, and its time. *)
Definition reduced (ip : ip4) (complaints : list (bool * Z)) (p : Peers) : Peers :=
  foldl (fun p c => ReduceAndCheckIfBanIP RemoteAddr c.1 c.2 ip p) p complaints.
Definition in_time (complaints : list (bool * Z)) : list (bool * Z) := List.filter (fun c => negb c.1) complaints.

(** A peer that can lose trust. *)
Definition distrustable ip p : Prop := ip <> MyIP p /\ ip <> zero_ip4 /\ ip ∉ whiteListIPs p.

Lemma ReduceTrust_valid ip p n : distrustable ip p -> validPeersConnected p !! ip = Some n -> 0 < n < 2 ^ 63 ->
  ReduceTrustRegisterPeer ip p = if n =? 1 then set_valid (delete ip) p else set_valid <[ip := n - 1]> p.
Proof.
  intros (Hm & Hz & _) E Hn. unfold ReduceTrustRegisterPeer. rewrite !bool_decide_eq_false_2 by done. cbn [orb]. rewrite E.
  unfold sub64. rewrite i64_id by (unfold in64; lia).
  destruct (n =? 1) eqn:E1; zify_bool; destruct (n - 1 <=? 0) eqn:E2; zify_bool; done || lia.
Qed.

Lemma reduced_below ip complaints : forall p n, distrustable ip p -> validPeersConnected p !! ip = Some n ->
  0 < n < 2 ^ 63 -> len (in_time complaints) < n ->
  exists m, reduced ip complaints p = set_valid (fun _ => m) p /\ m !! ip = Some (n - len (in_time complaints)).
Proof.
  induction complaints as [|[[] now] cs IH]; intros p n Hd E Hn Hl; cbn [reduced foldl].
  - exists (validPeersConnected p). split; [by destruct p|]. by rewrite Z.sub_0_r.
  - by apply IH.
  - unfold len in *. cbn [in_time List.filter fst negb length] in *. fold (in_time cs) in *. assert (n <> 1) as N1 by lia.
    assert (ReduceAndCheckIfBanIP RemoteAddr false now ip p = set_valid <[ip := n - 1]> p) as E1.
    { unfold ReduceAndCheckIfBanIP. rewrite E. rewrite (ReduceTrust_valid ip p n) by done.
      rewrite (proj2 (Z.eqb_neq n 1)) by done. cbn [set_valid validPeersConnected]. by rewrite lookup_insert_eq. }
    cbn [fst snd]. rewrite E1. destruct (IH (set_valid <[ip := n - 1]> p) (n - 1)) as (m & Em & Hm);
      [done|apply lookup_insert_eq|lia|lia|].
    exists m. split; [exact Em|]. rewrite Hm. f_equal. lia.
Qed.

(** C22: a peer with a trust of [n], neither the node itself nor on the white list,
    is banned by the [n]-th complaint that gets at the table in time and by no
    earlier one, for a minute from that complaint; its connections stay open and
    registered, since [BanIP] finds the lock of the table taken. *)
Theorem ban_after_trust ip p n complaints now :
  distrustable ip p -> validPeersConnected p !! ip = Some n -> 0 < n < 2 ^ 63 ->
  len (in_time complaints) = n - 1 -> in64 (now + BannedTimeSeconds) ->
  bannedIP (reduced ip complaints p) = bannedIP p /\
  (forall t, IsIPBanned t ip (reduced ip (complaints ++ [(false, now)]) p) = (t <? now + BannedTimeSeconds)) /\
  validPeersConnected (reduced ip (complaints ++ [(false, now)]) p) !! ip = None /\
  tcpConnections (reduced ip (complaints ++ [(false, now)]) p) = tcpConnections p /\
  closed (reduced ip (complaints ++ [(false, now)]) p) = closed p.
Proof.
  intros Hd E Hn Hl Hnow. destruct (reduced_below ip complaints p n Hd E Hn) as (m & Em & Hm); [lia|].
  unfold reduced in *. rewrite foldl_app, Em. cbn [foldl fst snd]. replace (n - len (in_time complaints)) with 1 in Hm by lia.
  set (p1 := set_valid (fun _ => m) p). assert (distrustable ip p1) as Hd1 by exact Hd.
  assert (ReduceAndCheckIfBanIP RemoteAddr false now ip p1
          = set_banned <[ip := now + BannedTimeSeconds]> (set_valid (delete ip) p1)) as E1.
  { unfold ReduceAndCheckIfBanIP. replace (validPeersConnected p1 !! ip) with (Some 1) by (by rewrite <- Hm).
    rewrite (ReduceTrust_valid ip p1 1 Hd1 Hm) by lia. cbn [Z.eqb Pos.eqb set_valid validPeersConnected].
    rewrite lookup_delete_eq. unfold BanIP. destruct Hd1 as (_ & _ & Hw). rewrite decide_False by exact Hw.
    unfold add64. by rewrite i64_id. }
  rewrite E1. split; [done|]. split; [|split; [apply lookup_delete_eq|done]].
  intros t. unfold IsIPBanned. destruct Hd1 as (_ & _ & Hw). rewrite decide_False by exact Hw.
  cbn [set_banned bannedIP]. by rewrite lookup_insert_eq.
Qed.

(** A first read of fewer than seven bytes panics: the connection is closed. *)
Lemma short_first_read now free dial ip d l c :
  plain d -> len d < 7 -> ln_conn l = Some c -> ln_acc l = [] ->
  exists l', receive_step RemoteAddr now free dial ip (Data d) l = (true, l') /\
    ln_out l' = ln_out l ++ [EXIT] /\ ln_peers l' = CloseAndRemoveConnection RemoteAddr c (ln_peers l).
Proof.
  intros (_ & N1 & N2 & N3 & N4) Hd Hc Ha.
  eexists. unfold receive_step, read_step. rewrite Hc. cbn [Receive ln_conn].
  rewrite !bytes_eqb_ne by done. cbn [orb]. unfold on_bytes. cbn [ln_acc]. rewrite Ha. cbn [app].
  replace (ends_frame d) with (@Panic bool).
  2: { unfold ends_frame, slice_from, slice, len in *. rewrite (proj2 (Z.leb_gt 0 _)) by lia. done. }
  split; [reflexivity|]. done.
Qed.
End Bans.

(** ** A peer *)

Definition peer7 : ip4 := arr_of 4 [byte_of_Z 10; byte_of_Z 0; byte_of_Z 0; byte_of_Z 7].
Definition own_ip : ip4 := arr_of 4 [byte_of_Z 10; byte_of_Z 0; byte_of_Z 0; byte_of_Z 1].
Definition remote7 (c : conn) : bytes := String.list_byte_of_string "10.0.0.7:18023".
Definition start_peers : Peers := init own_ip (Some own_ip) None.
Definition with_peer7 : Peers := (RegisterPeer remote7 0 (fun _ => true) NonceTopic 1 start_peers).2.
Definition link7 : Link := mk_Link (Some 1) 0 0 [] [] with_peer7.
Definition noise : read := Data (String.list_byte_of_string "what is it<-END->").

Lemma reading_never_bans_witness : exists stop l',
  receive_all remote7 0 true None peer7 (replicate 11 noise) link7 = (stop, l') /\
  validPeersConnected (ln_peers l') !! peer7 = None /\ bannedIP (ln_peers l') = bannedIP with_peer7.
Proof.
  exists (receive_all remote7 0 true None peer7 (replicate 11 noise) link7).1.
  exists (receive_all remote7 0 true None peer7 (replicate 11 noise) link7).2.
  split; [apply surjective_pairing|]. split; [by vm_compute|].
  apply (reading_never_bans remote7 own_ip (Some own_ip) None with_peer7 0 true None peer7 (replicate 11 noise) link7
    (receive_all remote7 0 true None peer7 (replicate 11 noise) link7).1).
  - eapply rtc_once, (step_RegisterPeer remote7 0 (fun _ => true) NonceTopic 1). apply surjective_pairing.
  - done.
  - apply surjective_pairing.
Defined.

(** Nine complaints, and two that come too late to count. *)
Definition complaints7 : list (bool * Z) := [(true, 0)] ++ replicate 9 (false, 0) ++ [(true, 5)].
Lemma ban_after_trust_witness :
  bannedIP (reduced remote7 peer7 complaints7 with_peer7) = bannedIP with_peer7 /\
  IsIPBanned 59 peer7 (reduced remote7 peer7 (complaints7 ++ [(false, 0)]) with_peer7) = true.
Proof.
  destruct (ban_after_trust remote7 peer7 with_peer7 10 complaints7 0) as (H1' & H2' & _).
  - split; [|split]; by vm_compute.
  - by vm_compute.
  - done.
  - done.
  - done.
  - split; [exact H1'|]. by rewrite H2'.
Defined.

(** The message of one transaction, in two reads. *)
Definition tx_frame : bytes := frame (TransactionsMessage_GetBytes tx_message_order tx_message).
Lemma tx_message_enumerated : enumerates tx_message_order (tm_TransactionsBytes tx_message).
Proof. unfold enumerates. cbn [tm_TransactionsBytes tx_message]. by rewrite map_to_list_singleton. Qed.

Lemma frame_delivered_witness : exists l',
  receive_all remote7 0 true None peer7 (map Data [take 300 tx_frame; drop 300 tx_frame]) link7 = (false, l') /\
  ln_out l' = [arr_bytes peer7 ++ TransactionsMessage_GetBytes tx_message_order tx_message ++ END_].
Proof.
  destruct (frame_delivered remote7 0 true None peer7 23 tx_message_order tx_message
    [take 300 tx_frame; drop 300 tx_frame] link7 1) as (l' & E & _ & _ & O' & _).
  - exact tx_message_ok.
  - exact tx_message_enumerated.
  - by vm_compute.
  - done.
  - done.
  - split; [|split; [|split]].
    + apply (bool_decide_unpack _). by vm_compute.
    + by vm_compute.
    + apply (bool_decide_unpack _). by vm_compute.
    + apply take_drop.
  - exists l'. split; [exact E|exact O'].
Defined.

Definition two_frames : bytes := tx_frame ++ frame (String.list_byte_of_string "another").
Lemma coalesced_frame_lost_witness : exists l' out,
  receive_all remote7 0 true None peer7 (map Data [take 700 two_frames; drop 700 two_frames]) link7 = (false, l') /\
  ln_out l' = [arr_bytes peer7 ++ out] /\ CheckValidMessage 23 out = Ok (true, tx_message).
Proof.
  destruct (coalesced_frame_lost remote7 0 true None peer7 23 tx_message_order tx_message
    (String.list_byte_of_string "another") [take 700 two_frames; drop 700 two_frames] link7 1) as (l' & out & E & _ & O' & Hv).
  - exact tx_message_ok.
  - exact tx_message_enumerated.
  - by vm_compute.
  - done.
  - done.
  - split; [|split; [|split]].
    + apply (bool_decide_unpack _). by vm_compute.
    + by vm_compute.
    + apply (bool_decide_unpack _). by vm_compute.
    + apply take_drop.
  - exists l', out. split; [exact E|]. split; [exact O'|exact Hv].
Defined.
