(* ===== verification/Gossip.v ===== *)
(** * Transactions between nodes

    What the handler of TransactionService.v lets into the pool: under the topics
    of transactions only what verifies, under the topics of nonces whatever can be
    decoded.  In no case does a message of this service move the ledger. *)
From S2P Require Import Prelude GoInt GoSlice Sums Common Keys Database Codec Float64 Json Accounts.
From S2P Require Import Staking StakingCodec Dex EncScheme Merkle PubKeys Tx Heap Pool StateDB Node Ledger Supply.
From S2P Require Import Block Oracles BlockProcess Settle Kept Message Reset Creation TransactionService NonceService Arrival.

Section Gossip.
Context {D : Type} `{RocksDBLaws D} `{JSON PubKey} `{JSON (list MerkleNode)} `{Hasher} `{OqsLib}.
Implicit Types (n : Node D) (s : Server D) (nw : Network) (tx : Transaction) (o : Orders).

(** ** What is decoded *)

Lemma topics_transactions_keys ec at_ (db : D) a t topics txn0 txn :
  topics_transactions ec at_ db a topics txn0 = Ok txn -> is_Some (txn !! t) ->
  is_Some (txn0 !! t) \/ is_Some (tm_TransactionsBytes a !! t).
Proof.
  revert txn0. induction topics as [|x topics IH]; intros txn0; cbn; [intros [= ->]; by left|].
  destruct (tm_TransactionsBytes a !! x) as [tbs|] eqn:Ex; [|apply IH].
  intros E Ht. apply obind_ok_inv in E as (txs & _ & E). destruct (IH _ E Ht) as [Hin|]; [|by right].
  case_decide; [by left|]. destruct (decide (x = t)) as [->|Hne]; [right; by rewrite Ex|].
  rewrite lookup_insert_ne in Hin by done. by left.
Qed.

(** The message has no topic of nonces. *)
Definition no_nonces (a : TransactionsMessage) : Prop :=
  tm_TransactionsBytes a !! NonceTopic = None /\ tm_TransactionsBytes a !! SelfNonceTopic = None.
Definition carried ec at_ (db : D) a tx : Prop := exists t tbs,
  tm_TransactionsBytes a !! t = Some tbs /\ delivered ec at_ db tbs tx.

Lemma carried_all ec at_ (db : D) a txn ord : no_nonces a ->
  GetTransactionsFromBytes ec at_ db a = Ok txn -> enumerates ord txn ->
  Forall (carried ec at_ db a) (concat (map snd ord)).
Proof.
  intros [Hn Hs] E Ho. apply Forall_forall. intros tx Hin. apply list_elem_of_In, in_concat in Hin as (txs & Hx & Hin).
  apply in_map_iff in Hx as ([t txs'] & Ex & Hx). cbn in Ex. subst txs'.
  apply list_elem_of_In in Hx. eapply enumerates_elem in Hx; [|exact Ho].
  assert (t <> NonceTopic /\ t <> SelfNonceTopic) as [Hnt Hst].
  { destruct (topics_transactions_keys _ _ _ _ t _ _ _ E (ex_intro _ _ Hx)) as [[? [=]]|[tbs Ht]].
    split; intros ->; congruence. }
  destruct (topics_transactions_delivered _ _ _ _ t _ _ _ txs Hnt Hst E Hx) as [[=]|(_ & tbs & Ht & HF)].
  exists t, tbs. split; [done|]. rewrite Forall_forall in HF. apply HF. by apply list_elem_of_In.
Qed.

(** ** What the pool holds *)

(** What is new in the pool has the property. *)
Definition grows (P : Transaction -> Prop) n n' : Prop := forall h tx,
  transactions (nd_PoolsTx n') !! h = Some tx -> transactions (nd_PoolsTx n) !! h = Some tx \/ P tx.
#[export] Instance grows_preorder P : PreOrder (grows P).
Proof.
  split; [by left|]. intros a b c T1 T2 h tx E. destruct (T2 _ _ E) as [E'|]; [by apply T1|by right].
Qed.

Lemma AddTransaction_adds tp tx h b tp' : AddTransaction tp tx h = Ok (b, tp') ->
  forall k x, transactions tp' !! k = Some x -> transactions tp !! k = Some x \/ x = tx.
Proof.
  assert (forall k x, <[arr_copy (arr_zero _) (Hash_GetBytes (tx_Hash tx)) := tx]> (transactions tp) !! k = Some x ->
    transactions tp !! k = Some x \/ x = tx) as Hins.
  { intros k x. destruct (decide (arr_copy (arr_zero _) (Hash_GetBytes (tx_Hash tx)) = k)) as [<-|Hne].
    - rewrite lookup_insert_eq. intros [= <-]. by right.
    - rewrite lookup_insert_ne by done. by left. }
  unfold AddTransaction. destruct (bannedTransactions tp !! _); [intros [= _ <-]; by left|].
  destruct (transactions tp !! _); [intros [= _ <-]; by left|].
  destruct (item_priority _ _ _) as [p|]; [|intros [= _ <-]; exact Hins].
  intros E. apply obind_ok_inv in E as (p' & _ & E). cbv zeta in E.
  apply obind_ok_inv in E as ([q txs] & Eq & [= _ <-]). cbn [updateIndices transactions].
  destruct (_ <? _); [|by injection Eq as _ <-]. apply obind_ok_inv in Eq as ([r q'] & _ & [= _ <-]).
  intros k x E. apply lookup_delete_Some in E as [_ E]. by apply Hins.
Qed.
Lemma RemoveTransactionByHash_removes tp h tp' : RemoveTransactionByHash tp h = Ok tp' ->
  forall k x, transactions tp' !! k = Some x -> transactions tp !! k = Some x.
Proof.
  unfold RemoveTransactionByHash. intros E k x. apply obind_ok_inv in E as (tp1 & E & [= <-]).
  cbn [updateIndices transactions]. destruct (transactionIndices tp !! _); [|by injection E as <-].
  unfold remove_at_index in E. apply obind_ok_inv in E as ([it q] & _ & [= <-]). cbn [transactions].
  intros Hk. by apply lookup_delete_Some in Hk as [_ Hk].
Qed.

Lemma grows_db {A} P (m : ST D A) : within (grows P) (on db_l m).
Proof. apply within_on_any. by left. Qed.
Lemma grows_pool_add (P : Transaction -> Prop) tx h : P tx -> within (grows P) (pool_add pools_l tx h).
Proof.
  intros HP n r n'. unfold pool_add, on. cbn [l_get l_set pools_l].
  destruct (AddTransaction (nd_PoolsTx n) tx h) as [[b tp']|e|] eqn:E; intros [= _ <-] k x Hk; [|by left..].
  destruct (AddTransaction_adds _ _ _ _ _ E _ _ Hk) as [| ->]; [by left|by right].
Qed.
Lemma grows_pool_remove P hash : within (grows P) (pool_remove pools_l hash).
Proof.
  intros n r n'. unfold pool_remove, on_ok, on. cbn [l_get l_set pools_l].
  destruct (RemoveTransactionByHash _ hash) as [tp'|e|] eqn:E; intros [= _ <-] k x Hk; left; [|done..].
  by eapply RemoveTransactionByHash_removes.
Qed.
Hint Resolve grows_db grows_pool_remove : within.

Lemma grows_pool_transaction (P : Transaction -> Prop) tx : P tx -> within (grows P) (pool_transaction tx).
Proof. intros HP. pose proof (grows_pool_add P tx (tx_Hash tx) HP). unfold pool_transaction, in_pool, in_chain. solve_within. Qed.
Lemma still_pool_transaction hb tx : within (still (D := D) hb) (pool_transaction tx).
Proof.
  assert (frames (pool_transaction (D := D) tx)) as Hf.
  { pose proof (frames_pool_add (D := D) pools_l tx (tx_Hash tx) (or_introl eq_refl)).
    pose proof (frames_pool_remove (D := D) pools_l (Hash_GetBytes (tx_Hash tx)) (or_introl eq_refl)).
    unfold pool_transaction, in_pool, in_chain. solve_frames. }
  assert (within (untouched hb) (pool_transaction (D := D) tx)) as Hu.
  { pose proof (untouched_pool_add hb pools_l tx (tx_Hash tx) (or_introl eq_refl)).
    pose proof (untouched_pool_remove hb pools_l (Hash_GetBytes (tx_Hash tx)) (or_introl eq_refl)).
    unfold pool_transaction, in_pool, in_chain. solve_within. }
  intros n r n' E. split; [exact (Hf n r n' E)|exact (Hu n r n' E)].
Qed.

(** ** The handler *)

Section Relation.
Variables (R : relation (Node D)) (P : Transaction -> Prop).
Context `{!PreOrder R}.
Definition on_server s s' : Prop := R (sv_Node s) (sv_Node s').
#[local] Instance on_server_preorder : PreOrder on_server.
Proof. split; [by intros s; unfold on_server|]. intros a b c Hab Hbc. unfold on_server in *. by transitivity (sv_Node b). Qed.
Lemma server_node {A} (m : ST (Node D) A) : within R m -> within on_server (node m).
Proof. intros Hm. by eapply within_on. Qed.
Lemma server_emit ev : within on_server (emit ev).
Proof. intros s r s' [= _ <-]. unfold on_server. by destruct s. Qed.
Lemma server_valid_message nw addr m : within on_server (valid_message nw addr m).
Proof. pose proof server_emit. unfold valid_message, or_ban. solve_within. Qed.

Hypothesis Hadd : forall tx, P tx -> within R (pool_transaction tx).
Lemma server_add nw addr m txs : Forall P txs -> within on_server (add_transactions nw addr m txs).
Proof.
  pose proof server_emit. induction 1 as [|tx txs Hp _ IH]; cbn [add_transactions]; [eauto with within|].
  apply within_bind; [exact _|apply server_node, Hadd, Hp|intros added].
  apply within_bind; [exact _| |intros _; exact IH]. unfold Spread.
  destruct added; [|eauto with within]. destruct (List.find _ _); eauto with within.
Qed.

Hypothesis Hload : forall p h, tx_prefix p -> within R (load_pool_tx p h).
Hypothesis Hforget : forall h, within R (on db_l (RemoveTransactionFromDBbyHash TransactionPoolHashesDBPrefix h)).
Lemma server_answer forget prefix nw addr topics : tx_prefix prefix ->
  within on_server (answer_topics forget prefix nw addr topics).
Proof.
  intros Hpre. pose proof server_emit. induction topics as [|[t v] topics IH]; cbn [answer_topics]; [eauto with within|].
  apply within_bind; [exact _|apply server_node|intros txs; solve_within].
  clear IH. induction v as [|h v IH]; cbn [load_asked]; [eauto with within|].
  apply within_bind; [exact _|apply within_try; by apply Hload|intros t0].
  apply within_bind; [exact _|destruct t0; [eauto with within|]|intros _; solve_within].
  destruct forget; [apply within_logged, Hforget|eauto with within].
Qed.

(** The handler stays within the relation when the transactions of the message
    have the property. *)
Lemma server_OnMessage o nw addr m s :
  (forall amsg txn, CheckValidMessage (nw_ChainID nw) m = Ok (true, amsg) ->
     GetTransactionsFromBytes (nd_Config (sv_Node s)) (nd_Accounts (sv_Node s)) (nd_MainDB (sv_Node s)) amsg = Ok txn ->
     Forall P (concat (map snd (ord_topics o _ txn)))) ->
  on_server s (snd (TransactionService.OnMessage o nw addr m s)).
Proof.
  intros HP. unfold TransactionService.OnMessage. cbn [snd].
  destruct (st_bind _ _ s) as [r s'] eqn:E. cbn [snd]. revert E. unfold st_bind.
  destruct (valid_message nw addr m s) as [[amsg|e|] s1] eqn:Ev; pose proof (server_valid_message _ _ _ _ _ _ Ev) as Hs1.
  2-3: by intros [= _ <-].
  assert (CheckValidMessage (nw_ChainID nw) m = Ok (true, amsg) /\ s1 = s) as [Em ->].
  { unfold valid_message in Ev. apply st_bind_ok_inv in Ev as ([ok am] & sx & Ec & Ev). injection Ec as Ec <-.
    destruct ok; cbn [negb] in Ev; [injection Ev as <- <-; by rewrite Ec|].
    unfold or_ban, on_error, st_err in Ev. by destruct (emit _ _) as [[] ?]. }
  destruct (head_is amsg "tx").
  - unfold on_tx, transactions_of, node at 1, on at 1, st_bind at 1. cbn [l_get l_set node_l].
    destruct (GetTransactionsFromBytes _ _ _ amsg) as [txn|e|] eqn:Et; [|by intros [= _ <-]; destruct s..].
    specialize (HP _ _ Em Et). replace (mk_Server _ _ _ _ _ _ _) with s by (by destruct s).
    intros E. match type of E with ?p s = _ => assert (within on_server p) as Hw; [|exact (Hw _ _ _ E)] end.
    apply within_bind; [exact _|apply server_node; eauto with within|intros count].
    destruct (_ <? _); [eauto with within|]. by apply server_add.
  - destruct (head_is amsg "st"); [|destruct (head_is amsg "bt")]; intros E.
    + eapply server_answer; [|exact E]. apply tx_prefix_pool.
    + eapply server_answer; [|exact E]. by right.
    + by injection E as _ <-.
Qed.
End Relation.

Lemma still_load_pool_tx hb p h : tx_prefix p -> within (still (D := D) hb) (load_pool_tx p h).
Proof.
  intros Hp n r n' E. split; [|exact (untouched_load_pool_tx hb p h Hp n r n' E)]. revert E.
  assert (frames (load_pool_tx (D := D) p h)) as Hf by (unfold load_pool_tx; solve_frames). apply Hf.
Qed.
Lemma still_forget hb h :
  within (still (D := D) hb) (on db_l (RemoveTransactionFromDBbyHash TransactionPoolHashesDBPrefix h)).
Proof.
  intros n r n' E. split; revert E.
  - assert (frames (on db_l (RemoveTransactionFromDBbyHash TransactionPoolHashesDBPrefix h))) as Hf by solve_frames.
    apply Hf.
  - assert (within (untouched hb) (on db_l (RemoveTransactionFromDBbyHash TransactionPoolHashesDBPrefix h))) as Hu
      by solve_within. apply Hu.
Qed.
Lemma grows_load_pool_tx P p h : within (grows P) (load_pool_tx p h).
Proof. unfold load_pool_tx. apply (within_with_config _ (fun _ _ => True)); [by intros|by left]. Qed.

(** C18: a message of the transaction service never moves the ledger or the stored
    chain, whatever it contains; and when it has no topic of nonces, every
    transaction that is new in the pool afterwards was carried by the message and
    verifies on the accounts of the node. *)
Theorem OnMessage_pools_verified o nw addr m s hb : fair o ->
  let s' := snd (TransactionService.OnMessage o nw addr m s) in
  server_still hb s s' /\
  forall h tx, (forall amsg, CheckValidMessage (nw_ChainID nw) m = Ok (true, amsg) -> no_nonces amsg) ->
  transactions (nd_PoolsTx (sv_Node s')) !! h = Some tx ->
  transactions (nd_PoolsTx (sv_Node s)) !! h = Some tx \/
  exists amsg, CheckValidMessage (nw_ChainID nw) m = Ok (true, amsg) /\
    carried (nd_Config (sv_Node s)) (nd_Accounts (sv_Node s)) (nd_MainDB (sv_Node s)) amsg tx.
Proof.
  intros Ho s'. split.
  - apply (server_OnMessage (still hb) (fun _ => True)).
    + intros tx _. apply still_pool_transaction.
    + apply still_load_pool_tx.
    + apply still_forget.
    + intros. by apply Forall_forall.
  - intros h tx Hn. revert h tx. set (P tx := exists amsg, CheckValidMessage (nw_ChainID nw) m = Ok (true, amsg) /\
      carried (nd_Config (sv_Node s)) (nd_Accounts (sv_Node s)) (nd_MainDB (sv_Node s)) amsg tx).
    apply (server_OnMessage (grows P) P).
    + apply grows_pool_transaction.
    + intros p h _. apply grows_load_pool_tx.
    + intros h. apply grows_db.
    + intros amsg txn Em Et. eapply Forall_impl; [exact (carried_all _ _ _ _ _ _ (Hn _ Em) Et (Ho _ txn))|].
      intros tx Hc. by exists amsg.
Qed.

(** ** Nonce topics *)

(** A transaction under the topic of nonces, in a message of the transaction
    service. *)
Definition smuggled nw tx : TransactionsMessage :=
  mk_TransactionsMessage (mk_BaseMessage (ascii2 "t" "x") (nw_ChainID nw)) {[ NonceTopic := [Transaction_GetBytes tx] ]}.

Lemma Transaction_GetBytes_long tx : (109 <= length (Transaction_GetBytes tx))%nat.
Proof.
  unfold Transaction_GetBytes, Tx.GetBytesWithoutSignature, TxData_GetBytes.
  rewrite <- !app_assoc, length_app, TxParam_GetBytes_length, length_app, Address_GetBytesWithPrimary_length.
  do 5 rewrite length_app. rewrite !GetByteInt64_length. lia.
Qed.

Lemma smuggled_valid nw tx : in16 (nw_ChainID nw) -> short (Transaction_GetBytes tx) ->
  CheckValidMessage (nw_ChainID nw) (one_topic (smuggled nw tx)) = Ok (true, smuggled nw tx).
Proof.
  intros Hc Hs. apply CheckValidMessage_sent; [|apply Permutation_refl]. split; cbn [smuggled tm_BaseMessage tm_TransactionsBytes bm_Head bm_ChainID];
    [|done|done|by vm_compute|].
  - change (String.string_of_list_byte (ascii2 "t" "x")) with "tx"%string. unfold validHead.
    do 3 apply list_elem_of_further. apply list_elem_of_here.
  - apply map_Forall_singleton. split; [done|]. by repeat constructor.
Qed.
Lemma smuggled_transactions ec at_ (db : D) nw tx ok tx' :
  Transaction_GetFromBytes ec (Transaction_GetBytes tx) = Ok (tx, []) ->
  Transaction_Verify ec at_ db tx = Ok (ok, tx') ->
  GetTransactionsFromBytes ec at_ db (smuggled nw tx) = Ok {[ NonceTopic := [tx'] ]}.
Proof.
  intros Hd Hv. pose proof (Transaction_GetBytes_long tx) as Hl. unfold GetTransactionsFromBytes, validTopics. cbn [topics_transactions smuggled tm_TransactionsBytes].
  rewrite lookup_singleton_eq. cbn [topic_transactions].
  replace (_ <? _)%nat with false by (symmetry; apply Nat.ltb_ge; lia). rewrite Hd, Hv. cbn [obind].
  rewrite bool_decide_eq_true_2, orb_true_r by done. cbn [orb obind].
  rewrite !lookup_singleton_ne by (intros E; vm_compute in E; discriminate E). done.
Qed.

(** A transaction that the node does not know and has room for. *)
Record welcome tx n : Prop := {
  wel_pool : NumberOfTransactions (nd_PoolsTx n) <= MaxTransactionInPool;
  wel_type : typePool (nd_PoolsTx n) = 0;
  wel_ban : bannedTransactions (nd_PoolsTx n) !! tx_Hash tx = None;
  wel_new : transactions (nd_PoolsTx n) !! tx_Hash tx = None;
  wel_room : len (priorityQueue (nd_PoolsTx n)) < maxTransactions (nd_PoolsTx n);
  wel_chain : CheckFromDBPoolTx (nd_MainDB n) TransactionDBPrefix (Hash_GetBytes (tx_Hash tx)) = Ok false
}.

Lemma pool_transaction_new `{!Reliable D} tx n : welcome tx n -> exists n',
  pool_transaction tx n = (Ok true, n') /\ nd_Config n' = nd_Config n /\
  transactions (nd_PoolsTx n') = <[tx_Hash tx := tx]> (transactions (nd_PoolsTx n)) /\
  StoreToDBPoolTx tx TransactionPoolHashesDBPrefix (nd_MainDB n) = (Ok tt, nd_MainDB n').
Proof.
  intros [_ Ht Hb Hn Hr Hc].
  destruct (AddTransaction_new (nd_PoolsTx n) tx (tx_Hash tx) ltac:(lia) Hb Hn Hr) as [p Ea].
  unfold pool_transaction, in_pool, in_chain, reads, pool_add, on at 1 2, st_bind. cbn [l_get l_set pools_l db_l].
  unfold TransactionExists. unfold Hash_GetBytes at 1. rewrite arr_copy_arr, Hn. cbn [nd_PoolsTx nd_MainDB].
  rewrite Hc. unfold on at 1. cbn [l_get l_set db_l pools_l nd_PoolsTx]. rewrite Ea. cbn [negb nd_MainDB].
  unfold st_try, on. cbn [l_get l_set db_l nd_MainDB].
  assert (exists db', StoreToDBPoolTx tx TransactionPoolHashesDBPrefix (nd_MainDB n) = (Ok tt, db')) as [db' E].
  { unfold StoreToDBPoolTx. replace (length _ =? 0)%nat with false.
    - unfold db_put. destruct (DB_Put_reliable (nd_MainDB n)
        (TransactionPoolHashesDBPrefix ++ Hash_GetBytes (tx_Hash tx)) (Transaction_GetBytes tx) ltac:(done)) as [db' ->].
      by eexists.
    - symmetry. apply Nat.eqb_neq. pose proof (Transaction_GetBytes_long tx). lia. }
  rewrite E. eexists (l_set db_l db' (l_set pools_l _ n)). split; [reflexivity|]. by split; [|split].
Qed.

Lemma smuggled_run o nw addr tx ok s n' :
  let n := sv_Node s in
  fair o -> in16 (nw_ChainID nw) -> short (Transaction_GetBytes tx) -> tx_ok (nd_Config n) tx ->
  NumberOfTransactions (nd_PoolsTx n) <= MaxTransactionInPool ->
  Transaction_Verify (nd_Config n) (nd_Accounts n) (nd_MainDB n) tx = Ok (ok, tx) ->
  pool_transaction tx n = (Ok true, n') ->
  sv_Node (snd (TransactionService.OnMessage o nw addr (one_topic (smuggled nw tx)) s)) = n'.
Proof.
  intros n Ho Hc Hs Hok Hw Hv Hp. unfold TransactionService.OnMessage, valid_message, st_bind at 1 2, st_lift.
  rewrite (smuggled_valid nw tx Hc Hs). cbn [negb]. unfold st_ret at 1.
  change (head_is (smuggled nw tx) "tx") with true. cbn [snd]. cbv iota.
  pose proof (Transaction_roundtrip (nd_Config n) tx Hok) as Hd.
  pose proof (smuggled_transactions _ _ _ nw tx ok tx Hd Hv) as Hg.
  unfold on_tx, transactions_of, node, on, st_bind at 1 2. cbn [l_get l_set node_l]. fold n. rewrite Hg.
  unfold reads, on. cbn [l_get l_set pools_l sv_Node nd_PoolsTx].
  replace (MaxTransactionInPool <? _) with false by (symmetry; by apply Z.ltb_ge).
  rewrite (enumerates_singleton _ _ _ (Ho (list Transaction) {[NonceTopic := [tx]]})).
  cbn [map concat app snd add_transactions]. unfold st_bind at 1, node, on. cbn [l_get l_set node_l].
  match goal with |- context [pool_transaction tx ?x] => replace x with n by (subst n; by destruct (sv_Node s)) end.
  rewrite Hp. unfold st_bind, Spread. by destruct (List.find _ _).
Qed.

(** C17: no signature is needed to enter the pool.  A message of the transaction
    service with the topic of nonces carries one transaction, whatever its sender
    and its signature; when the node does not know the transaction and has room for
    it, the transaction is in its pool afterwards, and is stored where the
    execution of a block looks it up. *)
Theorem OnMessage_pools_unverified `{!Reliable D} o nw addr tx ok s :
  let n := sv_Node s in
  fair o -> in16 (nw_ChainID nw) -> short (Transaction_GetBytes tx) -> tx_ok (nd_Config n) tx -> welcome tx n ->
  Transaction_Verify (nd_Config n) (nd_Accounts n) (nd_MainDB n) tx = Ok (ok, tx) ->
  let s' := snd (TransactionService.OnMessage o nw addr (one_topic (smuggled nw tx)) s) in
  transactions (nd_PoolsTx (sv_Node s')) = <[tx_Hash tx := tx]> (transactions (nd_PoolsTx n)) /\
  fst (load_pool_tx TransactionPoolHashesDBPrefix (Hash_GetBytes (tx_Hash tx)) (sv_Node s')) = Ok tx.
Proof.
  intros n Ho Hc Hs Hok Hw Hv s'. destruct (pool_transaction_new tx n Hw) as (n' & Hp & Ec & Ep & Est).
  assert (sv_Node s' = n') as -> by (exact (smuggled_run o nw addr tx ok s n' Ho Hc Hs Hok (wel_pool _ _ Hw) Hv Hp)).
  split; [exact Ep|]. unfold load_pool_tx, with_config, on. cbn [l_get db_l]. rewrite Ec.
  by rewrite (StoreToDBPoolTx_loads _ _ _ _ _ Hok Est).
Qed.
End Gossip.

(** ** Closed examples *)

#[local] Existing Instance map_store.
#[local] Existing Instance map_store_laws.
#[local] Existing Instance map_store_reliable.
#[local] Existing Instance short_schemes.
#[local] Existing Instance toy_hasher.
#[local] Existing Instance pk_json.
#[local] Existing Instance node_json.

(** All the coins of the rich account, sent by somebody who holds no key of it. *)
Definition unsigned_tx : Transaction :=
  from_ok zero_Transaction (CalcHashAndSet
    (mk_Transaction (mk_TxData (flagged 2) 1000 [] zero_PubKey 0 0 (flagged 0) 0 (byte_of_Z 0) [])
      (mk_TxParam 23 (flagged 1) 1700000000 7 (arr_zero _)) (arr_zero _)
      (mk_Signature (byte_of_Z 0 :: zeros 740) (flagged 1) true) 8 3 4 [] (flagged 0))).
Definition node_7 : Node (gmap bytes bytes) := sv_Node (server_7 1000).

Lemma unsigned_tx_fails : Transaction_Verify (nd_Config node_7) (nd_Accounts node_7) (nd_MainDB node_7) unsigned_tx = Ok (false, unsigned_tx).
Proof. vm_cast_no_check (eq_refl (@Ok (bool * Transaction) (false, unsigned_tx))). Qed.
Lemma unsigned_tx_ok : tx_ok config_7 unsigned_tx.
Proof.
  split; try by vm_compute.
  - split; try by vm_compute.
    + vm_compute. lia.
    + by left.
  - left. vm_compute. discriminate.
Qed.
Lemma unsigned_tx_welcome : welcome unsigned_tx node_7.
Proof. split; try by vm_compute. Qed.

(** It fails the verification, and is in the pool after one message. *)
Lemma OnMessage_pools_unverified_witness :
  Transaction_Verify (nd_Config node_7) (nd_Accounts node_7) (nd_MainDB node_7) unsigned_tx = Ok (false, unsigned_tx) /\
  transactions (nd_PoolsTx (sv_Node (snd (TransactionService.OnMessage map_orders toy_network []
    (one_topic (smuggled toy_network unsigned_tx)) (server_7 1000))))) = {[ tx_Hash unsigned_tx := unsigned_tx ]}.
Proof.
  split; [exact unsigned_tx_fails|].
  apply (OnMessage_pools_unverified map_orders toy_network [] unsigned_tx false (server_7 1000)).
  - intros A m. apply Permutation_refl.
  - vm_compute. split; [discriminate|reflexivity].
  - by vm_compute.
  - exact unsigned_tx_ok.
  - exact unsigned_tx_welcome.
  - exact unsigned_tx_fails.
Defined.

(** The same bytes under the topic of transactions: what is in the pool was
    carried by the message and verifies. *)
Definition plain_message : TransactionsMessage :=
  mk_TransactionsMessage (mk_BaseMessage (ascii2 "t" "x") 23) {[ TransactionTopic := [Transaction_GetBytes unsigned_tx] ]}.
Lemma plain_message_valid : CheckValidMessage 23 (one_topic plain_message) = Ok (true, plain_message).
Proof. vm_cast_no_check (eq_refl (Ok (true, plain_message))). Qed.
Lemma OnMessage_pools_verified_witness :
  let s' := snd (TransactionService.OnMessage map_orders toy_network [] (one_topic plain_message) (server_7 1000)) in
  server_still 8 (server_7 1000) s' /\
  forall h tx, transactions (nd_PoolsTx (sv_Node s')) !! h = Some tx ->
    exists amsg, CheckValidMessage 23 (one_topic plain_message) = Ok (true, amsg) /\
      carried (nd_Config node_7) (nd_Accounts node_7) (nd_MainDB node_7) amsg tx.
Proof.
  destruct (OnMessage_pools_verified map_orders toy_network [] (one_topic plain_message) (server_7 1000) 8) as [Hs Ht].
  { intros A m. apply Permutation_refl. }
  split; [exact Hs|]. intros h tx E. destruct (Ht h tx) as [E'|E']; [|exact E|discriminate E'|exact E'].
  intros amsg Em. change (nw_ChainID toy_network) with 23 in Em. rewrite plain_message_valid in Em. injection Em as <-. split; reflexivity.
Defined.
