(* ===== verification/Catchup.v ===== *)
(** * Synchronisation between nodes

    Theorems on SyncService.v: the blocks that a node sends are read back by the
    node that asked, messages that bring no longer chain change nothing, a block on
    top of a shared chain is adopted or leaves the node as it was, and a message
    that disagrees about an old block makes the node go back before any block of
    it was checked. *)
From S2P Require Import Prelude GoInt GoSlice Sums Common Keys Database Codec Float64 Json Accounts.
From S2P Require Import Staking StakingCodec Dex EncScheme Merkle PubKeys Tx Heap Pool StateDB Node Ledger Supply.
From S2P Require Import Transfers Block Voting Oracles BlockProcess Evaluate Quiet DexSupply Settle Kept BlockSupply.
From S2P Require Import Message Reset Creation TransactionService NonceService SyncService Arrival Adoption.

(** ** What is asked for *)

(** a node of height [h] asks a node of a greater height for at most 22 blocks,
    from a height of its own chain on and past its end, so the answer is not
    discarded as too short or too far; of a node of the same height, whose last
    block differs, it asks for blocks up to [h] only, and such an answer is. *)
Theorem headers_range_reaches h height : 0 <= h <= height -> height < 2 ^ 62 ->
  let (bHeight, eHeight) := headers_range h height in
  0 <= bHeight <= h /\ bHeight <= eHeight <= height /\ eHeight - bHeight <= NumberOfHashesInBucket + 1 /\
  (h < height -> h < eHeight) /\ (h = height -> eHeight = h).
Proof.
  intros Hh Hb. unfold headers_range, NumberOfHashesInBucket, sub64, add64. rewrite !(i64_id (height - h)) by (unfold in64; lia).
  rewrite (i64_id (height - h + 1)) by (unfold in64; lia).
  set (s2p := if 20 <? height - h + 1 then 20 else height - h + 1).
  assert (1 <= s2p <= 20 /\ (s2p = height - h + 1 \/ s2p = 20 /\ 20 < height - h + 1)) as Hs
    by (unfold s2p; destruct (_ <? _) eqn:E; zify_bool; lia).
  clearbody s2p. rewrite !i64_id by (unfold in64; lia).
  destruct (height - s2p <? 2) eqn:E1; [destruct (h <? 0) eqn:E2|destruct (h <? height - s2p) eqn:E2]; zify_bool; [lia|..].
  - repeat split; lia.
  - destruct (_ <? h + s2p) eqn:E3; zify_bool; repeat split; lia.
  - repeat split; lia.
Qed.

(** ** What is sent is read back *)

Section Headers.
Context {D : Type} `{RocksDBLaws D} `{JSON PubKey} `{JSON (list MerkleNode)} `{Hasher} `{OqsLib}.
Implicit Types (n : Node D) (s : Server D) (nw : Network) (o : Orders).

Lemma decode_all_map {A} (decode : bytes -> outcome A) (encode : A -> bytes) xs :
  Forall (fun x => decode (encode x) = Ok x) xs -> decode_all decode (map encode xs) = Ok xs.
Proof. induction 1 as [|x xs Hx _ IH]; cbn [map decode_all]; [done|]. by rewrite Hx, IH. Qed.

Lemma topics_differ : topic_HV <> topic_IH.
Proof. intros E. vm_compute in E. discriminate E. Qed.

(** The table of heights and blocks of an answer. *)
Definition headers_table (indices blcks : list bytes) : gmap topic (list bytes) :=
  <[topic_HV := blcks]> {[topic_IH := indices]}.
Lemma headers_orders indices blcks ord : enumerates ord (headers_table indices blcks) ->
  ord = [(topic_IH, indices); (topic_HV, blcks)] \/ ord = [(topic_HV, blcks); (topic_IH, indices)].
Proof.
  unfold enumerates, headers_table. intros Hp.
  assert (map_to_list (<[topic_HV := blcks]> ({[topic_IH := indices]} : gmap topic (list bytes)))
    ≡ₚ [(topic_HV, blcks); (topic_IH, indices)]) as E.
  { rewrite map_to_list_insert by (by apply lookup_singleton_ne). by rewrite map_to_list_singleton. }
  rewrite E in Hp. symmetry in Hp. apply Permutation_length_2_inv in Hp. tauto.
Qed.
Lemma parse_headers_table ec ord heights blcks :
  enumerates ord (headers_table (map GetByteInt64 heights) (map Block_GetBytes blcks)) ->
  Forall in64 heights -> Forall (block_ok ec) blcks -> parse_headers ec ord = Ok (heights, blcks).
Proof.
  intros Ho Hh Hb.
  assert (decode_all GetInt64FromByte (map GetByteInt64 heights) = Ok heights) as Eh.
  { apply decode_all_map. eapply Forall_impl; [exact Hh|]. intros x. apply GetInt64FromByte_exact. }
  assert (decode_all (Block_GetFromBytes ec) (map Block_GetBytes blcks) = Ok blcks) as Eb.
  { apply decode_all_map. eapply Forall_impl; [exact Hb|]. intros b. apply Block_roundtrip. }
  apply headers_orders in Ho as [-> | ->]; cbn [parse_headers].
  all: rewrite (bool_decide_eq_true_2 (topic_IH = topic_IH)), (bool_decide_eq_false_2 (topic_HV = topic_IH)),
    (bool_decide_eq_true_2 (topic_HV = topic_HV)) by first [exact topics_differ|done].
  all: rewrite Eh, Eb; cbn; by rewrite ?app_nil_r.
Qed.

Lemma load_headers_stored n blcks : forall i,
  (forall k b, blcks !! k = Some b -> LoadBlock (nd_Config n) (nd_MainDB n) (i + Z.of_nat k) = Ok b) ->
  load_headers n (length blcks) i =
    Ok (map GetByteInt64 (map (fun k => i + Z.of_nat k) (seq 0 (length blcks))), map Block_GetBytes blcks).
Proof.
  induction blcks as [|b blcks IH]; intros i Hb; cbn [load_headers length seq map]; [done|].
  pose proof (Hb 0%nat b eq_refl) as H0'. rewrite Z.add_0_r in H0'. rewrite H0'. cbn [obind].
  rewrite (IH (i + 1)) by (intros k b' Hk; rewrite <- (Hb (S k) b' Hk); f_equal; lia). cbn [obind].
  rewrite Z.add_0_r, <- seq_shift, !map_map. do 3 f_equal. apply map_ext. intros k. f_equal. lia.
Qed.

(** An answer with fewer than 2^31 blocks is well formed. *)
Lemma headers_valid nw o indices blcks : fair o -> in16 (nw_ChainID nw) ->
  len indices < 2 ^ 31 -> len blcks < 2 ^ 31 -> Forall (fun blk => short (Block_GetBytes blk)) blcks ->
  let amsg := sync_message nw (ascii2 "s" "h") (headers_table (map GetByteInt64 indices) (map Block_GetBytes blcks)) in
  CheckValidMessage (nw_ChainID nw) (message_bytes o amsg) = Ok (true, amsg).
Proof.
  intros Ho Hc Hi Hb Hs amsg. apply CheckValidMessage_sent; [|apply Ho].
  split; cbn [amsg sync_message tm_BaseMessage tm_TransactionsBytes bm_Head bm_ChainID]; [|done|exact Hc|..].
  - change (String.string_of_list_byte (ascii2 "s" "h")) with "sh"%string. unfold validHead.
    do 9 apply list_elem_of_further. apply list_elem_of_here.
  - unfold headers_table. rewrite map_size_insert_None by (by apply lookup_singleton_ne). by rewrite map_size_singleton.
  - unfold headers_table. apply map_Forall_insert_2; [|apply map_Forall_singleton].
    all: rewrite length_map; split; [done|]; apply Forall_map.
    { exact Hs. }
    apply Forall_forall. intros z _. cbn. unfold short. by rewrite GetByteInt64_length.
Qed.

(** The heights [i], [i + 1], ... *)
Definition heights (i : Z) (count : nat) : list Z := map (fun k => i + Z.of_nat k) (seq 0 count).

(** C16: an answer to a request for blocks arrives as it was sent.  The node that
    answers holds the blocks of the heights from [b] on; its answer is accepted by
    every node of its chain, which reads exactly those heights and those blocks out
    of it, whatever orders the two nodes visit their maps in. *)
Theorem headers_roundtrip o o' nw n b blcks :
  fair o -> fair o' -> in16 (nw_ChainID nw) -> blcks <> [] ->
  0 <= b -> b + len blcks - 1 <= nd_Height n < 2 ^ 31 - 1 ->
  (forall k blk, blcks !! k = Some blk -> LoadBlock (nd_Config n) (nd_MainDB n) (b + Z.of_nat k) = Ok blk) ->
  Forall (fun blk => block_ok (nd_Config n) blk /\ short (Block_GetBytes blk)) blcks -> exists m amsg,
  generateSyncMsgSendHeaders o nw n b (b + len blcks - 1) = Ok m /\
  CheckValidMessage (nw_ChainID nw) m = Ok (true, amsg) /\ head_is amsg "sh" = true /\
  parse_headers (nd_Config n) (ord_topics o' _ (tm_TransactionsBytes amsg)) = Ok (heights b (length blcks), blcks).
Proof.
  intros Ho Ho' Hc Hne Hb He Hl Hok.
  assert (0 < length blcks)%nat as Hlen by (destruct blcks; [done|cbn; lia]).
  set (amsg := sync_message nw (ascii2 "s" "h") (headers_table (map GetByteInt64 (heights b (length blcks))) (map Block_GetBytes blcks))).
  exists (message_bytes o amsg), amsg. split; [|split; [|split; [done|]]].
  - unfold generateSyncMsgSendHeaders, len in *. replace (_ <? 0) with false by (symmetry; apply Z.ltb_ge; lia).
    replace (nd_Height n <? _) with false by (symmetry; apply Z.ltb_ge; lia).
    replace (b <? 0) with false by (symmetry; apply Z.ltb_ge; lia).
    replace (_ <? b) with false by (symmetry; apply Z.ltb_ge; lia). cbn [orb].
    replace (Z.to_nat _) with (length blcks) by lia. rewrite (load_headers_stored n blcks b Hl). done.
  - apply headers_valid; [done|done|unfold heights, len in *; rewrite length_map, length_seq; lia|unfold len in *; lia|].
    eapply Forall_impl; [exact Hok|]. by intros ? [].
  - cbn [amsg sync_message tm_TransactionsBytes]. apply parse_headers_table; [apply Ho'|..].
    + unfold heights. apply Forall_map, Forall_forall. intros k Hk. apply list_elem_of_In, in_seq in Hk.
      unfold in64, len in *. cbn. lia.
    + eapply Forall_impl; [exact Hok|]. by intros ? [].
Qed.
End Headers.

(** ** A message with blocks *)

Section Answer.
Context {D : Type} `{RocksDBLaws D} `{!Reliable D} `{JSON PubKey} `{JSON (list MerkleNode)} `{Hasher} `{OqsLib}.
Variable vm : VMachine.
Implicit Types (n : Node D) (s : Server D) (nw : Network) (o : Orders).

Lemma index_last {A} (l : list A) x : last l = Some x -> index l (len l - 1) = Ok x.
Proof.
  intros E. assert (l <> []) by (by intros ->). unfold index, len.
  assert (0 < length l)%nat by (destruct l; [done|cbn; lia]).
  replace (_ <? 0) with false by (symmetry; apply Z.ltb_ge; lia).
  rewrite last_lookup in E. replace (Z.to_nat _) with (pred (length l)) by lia. by rewrite E.
Qed.

(** The node reads heights and blocks out of the message. *)
Record brings nw o s (m : bytes) (amsg : TransactionsMessage) (indices : list Z) (blcks : list Block) : Prop := {
  br_valid : CheckValidMessage (nw_ChainID nw) m = Ok (true, amsg);
  br_head : head_is amsg "sh" = true;
  br_parse : parse_headers (nd_Config (sv_Node s)) (ord_topics o _ (tm_TransactionsBytes amsg)) = Ok (indices, blcks)
}.

Lemma OnMessage_valid e o nw fuel addr m s amsg : CheckValidMessage (nw_ChainID nw) m = Ok (true, amsg) ->
  let s1 := snd (emit (ValidRegisterPeer addr) s) in let h := nd_Height (sv_Node s) in
  SyncService.OnMessage vm e o nw fuel addr m s =
  recovered (if head_is amsg "hi" then f_run (on_hi o nw addr h amsg)
             else if head_is amsg "sh" then on_sh vm e o nw fuel addr h amsg
             else if head_is amsg "gh" then f_run (on_gh o nw addr amsg)
             else f_run (st_ret tt)) s1.
Proof.
  intros Hv s1 h. unfold SyncService.OnMessage, recovered. fold h.
  rewrite (f_bind_some _ _ s amsg s1); [done|]. unfold f_run, valid_message, st_bind, st_lift. rewrite Hv. done.
Qed.
Lemma on_sh_parsed e o nw fuel addr h amsg s indices blcks :
  parse_headers (nd_Config (sv_Node s)) (ord_topics o _ (tm_TransactionsBytes amsg)) = Ok (indices, blcks) ->
  on_sh vm e o nw fuel addr h amsg s = sync_blocks vm e o nw fuel addr h indices blcks s.
Proof.
  intros Hp. unfold on_sh. rewrite (f_bind_some _ _ s (indices, blcks) s); [done|].
  unfold f_run, node, on, reads, on. cbn [l_get l_set node_l config_l]. rewrite Hp. by destruct s as [[] ? ? ? ? ? ?].
Qed.
Lemma OnMessage_brings e o nw fuel addr m s amsg indices blcks : brings nw o s m amsg indices blcks ->
  SyncService.OnMessage vm e o nw fuel addr m s =
  recovered (sync_blocks vm e o nw fuel addr (nd_Height (sv_Node s)) indices blcks) (snd (emit (ValidRegisterPeer addr) s)).
Proof.
  intros [Hv Hh Hp]. rewrite (OnMessage_valid e o nw fuel addr m s amsg Hv). set (s1 := snd _).
  assert (head_is amsg "hi" = false) as ->.
  { unfold head_is in *. apply bytes_eqb_eq in Hh. by rewrite Hh. }
  rewrite Hh. unfold recovered. by rewrite (on_sh_parsed e o nw fuel addr _ amsg s1 indices blcks Hp).
Qed.

Lemma Adjust_node height s : sv_Node (snd (AdjustShiftInPastInReset height s)) = sv_Node s.
Proof. unfold AdjustShiftInPastInReset, st_modify. cbn [snd]. by destruct (_ <=? 0). Qed.
Lemma Adjust_doubles height s :
  0 <= nd_Height (sv_Node s) < height -> height < 2 ^ 62 -> 1 <= sv_ShiftToPastInReset s < 2 ^ 62 ->
  sv_ShiftToPastInReset (snd (AdjustShiftInPastInReset height s)) = Z.min (2 * sv_ShiftToPastInReset s) height.
Proof.
  intros Hh Hb Hs. unfold AdjustShiftInPastInReset, st_modify, sub64, mul64. cbn [snd].
  rewrite !i64_id by (unfold in64; lia).
  replace (_ <=? 0) with false by (symmetry; apply Z.leb_gt; lia). cbn [shift_l l_set sv_ShiftToPastInReset].
  destruct (height <? _) eqn:E1; destruct (_ <? 1) eqn:E2; zify_bool; lia.
Qed.

(** A reset that is ready, on the way out of the handler. *)
Lemma abandon_ready {A} fuel hmax i s at_ st ha hblk :
  let back := i - sv_ShiftToPastInReset s in ready fuel back (sv_Node s) at_ st ha hblk -> exists n',
  abandon (A := A) fuel hmax i s = Some (Panic, snd (AdjustShiftInPastInReset hmax (l_set node_l n' s))) /\
  nd_Height n' = back /\ nd_Accounts n' = at_ /\ nd_StakingAccounts n' = st /\
  (forall j, back < j <= hblk -> LoadHashOfBlock (nd_MainDB n') j = Err "key not found"%string).
Proof.
  intros back Hr. pose proof (rd_height _ _ _ _ _ _ _ Hr) as Hh.
  destruct (reset_to_ready _ _ _ _ _ _ _ Hr) as (n' & E & EA & ES & EH & _ & _ & _ & Hg & _). exists n'.
  split; [|split; [done|split; [done|split; [done|]]]].
  - unfold abandon, reset_back. replace (i -! _) with back by (symmetry; apply i64_id; unfold in64; lia).
    unfold ResetAccountsAndBlocksSync. replace (back <? 0) with false by (symmetry; apply Z.ltb_ge; lia).
    cbn [andb]. rewrite Z.max_l by lia. unfold f_logged, on_node. by rewrite E.
  - intros j Hj. unfold LoadHashOfBlock, DB_Get. by rewrite Hg by done.
Qed.

(** C8: one message rolls the chain back.  A peer sends heights that begin at some
    [i] of the node's chain and end above it, and a first block whose hash is not
    the stored one; nothing else of the message is looked at.  When the node can go
    back to the height [i] less the distance of a reset, it does: the blocks above
    are gone, the tables are the old ones, and the distance of the next reset is
    twice as large. *)
Theorem fork_rolls_back e o nw fuel addr m s amsg i indices top b blcks mine at_ st ha hblk :
  let n := sv_Node s in let back := i - sv_ShiftToPastInReset s in
  brings nw o s m amsg (i :: indices) (b :: blcks) ->
  0 < i <= nd_Height n -> last (i :: indices) = Some top -> nd_Height n < top ->
  LoadHashOfBlock (nd_MainDB n) i = Ok mine -> mine <> Hash_GetBytes (BlockHash b) ->
  1 <= sv_ShiftToPastInReset s < 2 ^ 62 -> ready fuel back n at_ st ha hblk -> exists s',
  SyncService.OnMessage vm e o nw fuel addr m s = Some (Ok tt, s') /\
  nd_Height (sv_Node s') = back /\ nd_Accounts (sv_Node s') = at_ /\ nd_StakingAccounts (sv_Node s') = st /\
  (forall j, back < j <= hblk -> LoadHashOfBlock (nd_MainDB (sv_Node s')) j = Err "key not found"%string) /\
  (back < sv_HeightMax s < 2 ^ 62 -> sv_ShiftToPastInReset s' = Z.min (2 * sv_ShiftToPastInReset s) (sv_HeightMax s)).
Proof.
  intros n back Hm Hi Hl Ht Hmine Hne Hsh Hr. rewrite (OnMessage_brings _ _ _ _ _ _ _ _ _ _ Hm).
  set (s1 := snd (emit _ s)). unfold sync_blocks, recovered.
  rewrite (f_bind_some _ _ s1 (sv_HeightMax s) s1) by (unfold f_run, reads, on; by destruct s).
  rewrite (f_bind_some _ _ s1 top s1) by (unfold f_run, st_lift; by rewrite (index_last _ _ Hl)).
  replace (top <=? _) with false by (symmetry; apply Z.leb_gt; exact Ht).
  rewrite (f_bind_some _ _ s1 i s1) by done.
  replace (_ <? i) with false by (symmetry; apply Z.ltb_ge; exact (proj2 Hi)). cbn [check_headers].
  replace (i <=? 0) with false by (symmetry; apply Z.leb_gt; lia).
  replace (i <=? nd_Height (sv_Node s)) with true by (symmetry; apply Z.leb_le; exact (proj2 Hi)).
  destruct (abandon_ready (A := Progress) fuel (sv_HeightMax s) i s1 at_ st ha hblk Hr) as (n' & Ea & EH & EA & ES & Eg).
  assert (check_known fuel (sv_HeightMax s) i b (mk_Progress i false ∅ []) s1 =
    Some (Panic, snd (AdjustShiftInPastInReset (sv_HeightMax s) (l_set node_l n' s1)))) as Ek.
  { unfold check_known. rewrite (f_bind_some _ _ s1 (Some mine) s1).
    - rewrite bytes_eqb_ne by done. exact Ea.
    - unfold f_run, st_try, node, on, reads, on. cbn [l_get l_set node_l db_l].
      change (nd_MainDB (sv_Node s1)) with (nd_MainDB n). rewrite Hmine. unfold s1. by destruct s as [[] ? ? ? ? ? ?]. }
  unfold f_bind. rewrite Ek. eexists. split; [reflexivity|]. rewrite Adjust_node. cbn [sv_Node node_l l_set].
  split; [exact EH|]. split; [exact EA|]. split; [exact ES|]. split; [exact Eg|]. intros Hx.
  pose proof (rd_height _ _ _ _ _ _ _ Hr) as Hh.
  rewrite Adjust_doubles; cbn [sv_Node node_l l_set sv_ShiftToPastInReset]; rewrite ?EH; [done|..].
  all: subst back n; change (sv_ShiftToPastInReset s1) with (sv_ShiftToPastInReset s); lia.
Qed.

(** ** Messages that bring nothing new *)

Lemma still_server_field {A F} hb (l : lens (Server D) F) (m : ST F A) :
  (forall x s, sv_Node (l_set l x s) = sv_Node s) -> within (server_still hb) (on l m).
Proof.
  intros Hl s r s'. unfold on. destruct (m (l_get l s)) as [r' x]. intros [= _ <-].
  unfold server_still. by rewrite Hl.
Qed.
Lemma still_Adjust hb height : within (server_still hb) (AdjustShiftInPastInReset (D := D) height).
Proof.
  intros s r s' E. pose proof (Adjust_node height s) as En. rewrite E in En. cbn [snd] in En. unfold server_still. by rewrite En.
Qed.
Lemma still_SendGetHeaders hb o nw addr h : within (server_still (D := D) hb) (SendGetHeaders o nw addr h).
Proof. intros s r s' [= _ <-]. done. Qed.
Lemma still_SendHeaders hb o nw addr b h : within (server_still (D := D) hb) (SendHeaders o nw addr b h).
Proof.
  pose proof (still_emit (D := D) hb). unfold SendHeaders. apply within_bind; [exact _| |intros; eauto].
  intros s r s'. unfold node, on. cbn. intros [= _ <-]. by destruct s.
Qed.
Lemma still_greet hb nw addr peers : forall ip4, within (server_still (D := D) hb) (greet nw addr ip4 peers).
Proof.
  pose proof (still_emit (D := D) hb). induction peers as [|ip peers IH]; intros ip4; cbn [greet]; [solve_within|].
  unfold subscribe. solve_within.
Qed.
Lemma still_on_hi hb o nw addr h amsg : within (server_still (D := D) hb) (on_hi o nw addr h amsg).
Proof.
  pose proof (still_greet hb). pose proof (still_Adjust hb). pose proof (still_SendGetHeaders hb).
  assert (forall x, within (server_still (D := D) hb) (on syncing_l (st_put x))) by (intros; by apply still_server_field).
  assert (forall x, within (server_still (D := D) hb) (on heightmax_l (st_put x))) by (intros; by apply still_server_field).
  assert (forall A (l : lens (Node D) A) B (m : A -> outcome B), within (server_still hb) (node (reads l m)))
    by (intros; apply still_node; eauto with within).
  unfold on_hi. solve_within.
Qed.

(** The message brings blocks from the node's chain on to a greater height. *)
Definition reaching o s (amsg : TransactionsMessage) : Prop := exists indices blcks first top,
  parse_headers (nd_Config (sv_Node s)) (ord_topics o _ (tm_TransactionsBytes amsg)) = Ok (indices, blcks) /\
  indices !! 0%nat = Some first /\ last indices = Some top /\ first <= nd_Height (sv_Node s) < top.

(** no message changes the ledger or the stored chain unless it brings blocks
    that begin on the node's own chain and end above it: for every other byte
    string the handler returns, whatever a peer claims about its height. *)
Theorem OnMessage_ignores e o nw fuel addr m s hb :
  (forall amsg, CheckValidMessage (nw_ChainID nw) m = Ok (true, amsg) -> head_is amsg "sh" = true -> ~ reaching o s amsg) ->
  exists s', SyncService.OnMessage vm e o nw fuel addr m s = Some (Ok tt, s') /\ server_still hb s s'.
Proof.
  intros Hno. destruct (CheckValidMessage (nw_ChainID nw) m) as [[[|] amsg]|err|] eqn:Ev.
  2-4: unfold SyncService.OnMessage, recovered, f_bind, f_run, valid_message, st_bind, st_lift; rewrite Ev; by eexists.
  rewrite (OnMessage_valid e o nw fuel addr m s amsg Ev). set (s1 := snd (emit _ s)).
  assert (server_still hb s s1) as Hs1 by done.
  assert (forall p : ST (Server D) unit, within (server_still hb) p ->
    exists s', recovered (f_run p) s1 = Some (Ok tt, s') /\ server_still hb s s') as Hrun.
  { intros p Hp. unfold recovered, f_run. destruct (p s1) as [r s'] eqn:E. exists s'. split; [done|].
    transitivity s1; [done|]. exact (Hp _ _ _ E). }
  destruct (head_is amsg "hi"); [apply Hrun, still_on_hi|].
  destruct (head_is amsg "sh") eqn:Es; [|destruct (head_is amsg "gh"); apply Hrun].
  2: { pose proof (still_SendHeaders hb). unfold on_gh. solve_within. }
  2: { eauto with within. }
  specialize (Hno amsg eq_refl Es). unfold reaching in Hno.
  unfold recovered. destruct (parse_headers (nd_Config (sv_Node s)) (ord_topics o _ (tm_TransactionsBytes amsg)))
    as [[indices blcks]|err|] eqn:Ep.
  2-3: unfold on_sh, f_bind, f_run, node, reads, on; cbn [l_get node_l config_l];
    change (nd_Config (sv_Node s1)) with (nd_Config (sv_Node s)); rewrite Ep; by eexists.
  rewrite (on_sh_parsed e o nw fuel addr _ amsg s1 indices blcks Ep). unfold sync_blocks. rewrite (f_bind_some _ _ _ (sv_HeightMax s) s1) by (unfold f_run, reads, on; by destruct s as [[] ? ? ? ? ? ?]).
  destruct (last indices) as [top|] eqn:El.
  2: { apply last_None in El as ->. by exists s1. }
  rewrite (f_bind_some _ _ s1 top s1) by (unfold f_run, st_lift; by rewrite (index_last _ _ El)).
  destruct (top <=? _) eqn:Et; [by exists s1|].
  destruct indices as [|first indices]; [done|].
  rewrite (f_bind_some _ _ s1 first s1) by done.
  destruct (_ <? first) eqn:Ef; [by exists s1|]. zify_bool.
  exfalso. apply Hno. exists (first :: indices), blcks, first, top. do 3 (split; [done|]). lia.
Qed.

(** ** One new block *)

(** A message with the last block of the node and one more, which passes the checks
    of a base block and has its transactions. *)
Record extends e o nw s (m : bytes) (amsg : TransactionsMessage) (lst b : Block)
    (tree : list MerkleNode * list bytes) : Prop := {
  ex_brings : brings nw o s m amsg [nd_Height (sv_Node s); nd_Height (sv_Node s) + 1] [lst; b];
  ex_height : 0 < nd_Height (sv_Node s) < 2 ^ 62;
  ex_hash : LoadHashOfBlock (nd_MainDB (sv_Node s)) (nd_Height (sv_Node s)) = Ok (Hash_GetBytes (BlockHash lst));
  ex_last : LoadBlock (nd_Config (sv_Node s)) (nd_MainDB (sv_Node s)) (nd_Height (sv_Node s)) = Ok lst;
  ex_at : bh_Height (bl_Header lst) = nd_Height (sv_Node s);
  ex_next : bh_Height (bl_Header b) = nd_Height (sv_Node s) + 1;
  ex_base : CheckBaseBlock (env_at e s) b lst (sv_Node s) = (Ok tree, sv_Node s);
  ex_txs : IsAllTransactions (nd_MainDB (sv_Node s)) b = Ok []
}.

Lemma node_same {A} (m : ST (Node D) A) a s : m (sv_Node s) = (a, sv_Node s) -> node m s = (a, s).
Proof. intros E. unfold node, on. cbn [l_get l_set node_l]. rewrite E. by destruct s. Qed.
Lemma old_block_last s lst h : nd_Height (sv_Node s) = h -> 0 < h < 2 ^ 62 ->
  LoadBlock (nd_Config (sv_Node s)) (nd_MainDB (sv_Node s)) h = Ok lst ->
  old_block false zero_Block (h + 1) s = (Ok lst, s) /\ old_block false lst (h + 1) s = (Ok lst, s).
Proof.
  intros _ Hh El. unfold old_block, load_block, st_bind, st_try. replace (h + 1 -! 1) with h
    by (unfold sub64; rewrite i64_id by (unfold in64; lia); lia).
  by rewrite (node_same _ (Ok lst) s) by (by rewrite El).
Qed.

(** The checks of such a message. *)
Lemma extends_checked e o nw fuel addr s m amsg lst b tree hmax s1 : extends e o nw s m amsg lst b tree ->
  sv_Node s1 = sv_Node s -> env_at e s1 = env_at e s -> let h := nd_Height (sv_Node s) in
  check_headers e fuel addr h hmax zero_Block [h; h + 1] [lst; b] (mk_Progress h false ∅ []) s1 =
  Some (Ok (mk_Progress h true {[ h + 1 := tree ]} []), s1).
Proof.
  intros [_ Hh Eh El Eat Enx Eb Et] En Ee h. fold h in Hh, Eh, El, Eat, Enx, Eb, Et. cbn [check_headers].
  replace (h <=? 0) with false by (symmetry; apply Z.leb_gt; lia). rewrite (Z.leb_refl h).
  replace (h + 1 <=? 0) with false by (symmetry; apply Z.leb_gt; lia).
  replace (h + 1 <=? h) with false by (symmetry; apply Z.leb_gt; lia).
  rewrite (f_bind_some _ _ s1 (mk_Progress h false ∅ []) s1).
  2: { unfold check_known. rewrite (f_bind_some _ _ s1 (Some (Hash_GetBytes (BlockHash lst))) s1).
       - by rewrite bytes_eqb_refl.
       - unfold f_run, st_try. rewrite (node_same _ (Ok (Hash_GetBytes (BlockHash lst))) s1); [done|].
         unfold reads. cbn [l_get db_l]. by rewrite En, Eh. }
  rewrite (f_bind_some _ _ s1 (mk_Progress h true {[ h + 1 := tree ]} []) s1); [done|].
  unfold check_new. cbn [pr_was pr_lastGoodBlock pr_merkleTries pr_hashesMissing].
  rewrite (f_bind_some _ _ s1 lst s1)
    by (unfold f_run; by rewrite (proj2 (old_block_last s1 lst h ltac:(by rewrite En) Hh ltac:(by rewrite En)))).
  replace (h + 1 =? 1) with false by (symmetry; apply Z.eqb_neq; lia).
  rewrite (f_bind_some _ _ s1 None s1) by done. rewrite Enx, Z.eqb_refl. cbn [negb].
  rewrite (f_bind_some _ _ s1 (Some tree) s1).
  - rewrite (f_bind_some _ _ s1 [] s1); [done|]. unfold f_run. rewrite (node_same _ (Ok []) s1); [done|].
    unfold reads. cbn [l_get db_l]. by rewrite En, Et.
  - unfold f_run, st_try, with_env. rewrite Ee. rewrite (node_same _ (Ok tree) s1); [done|]. by rewrite En.
Qed.

(** The handler comes to the execution of the new block. *)
Definition syncing s : Server D := l_set syncing_l true s.
Lemma extends_run e o nw fuel addr s m amsg lst b tree : extends e o nw s m amsg lst b tree ->
  let h := nd_Height (sv_Node s) in let s1 := syncing (snd (emit (ValidRegisterPeer addr) s)) in
  SyncService.OnMessage vm e o nw fuel addr m s =
  recovered (then_synced nw (adopt_header vm e o nw fuel addr b lst (Some tree))) s1.
Proof.
  intros Hx h s1. pose proof (ex_height _ _ _ _ _ _ _ _ _ Hx) as Hh. fold h in Hh.
  rewrite (OnMessage_brings _ _ _ _ _ _ _ _ _ _ (ex_brings _ _ _ _ _ _ _ _ _ Hx)). fold h.
  set (s0 := snd (emit _ s)) in *. unfold recovered, sync_blocks.
  rewrite (f_bind_some _ _ s0 (sv_HeightMax s0) s0) by done.
  rewrite (f_bind_some _ _ s0 (h + 1) s0) by done.
  replace (h + 1 <=? h) with false by (symmetry; apply Z.leb_gt; lia).
  rewrite (f_bind_some _ _ s0 h s0) by done. rewrite Z.ltb_irrefl.
  rewrite (f_bind_some _ _ s0 _ s0 (extends_checked e o nw fuel addr s m amsg lst b tree _ s0 Hx eq_refl eq_refl)).
  cbn [pr_hashesMissing]. rewrite (f_bind_some _ _ s0 tt s1) by done. fold h.
  enough (adopt_headers vm e o nw fuel addr (mk_Progress h true {[h + 1 := tree]} []) false zero_Block [h; h + 1] [lst; b] s1 =
    adopt_header vm e o nw fuel addr b lst (Some tree) s1) as E by (unfold then_synced; by rewrite E).
  cbn [adopt_headers pr_lastGoodBlock pr_merkleTries].
  rewrite (ex_at _ _ _ _ _ _ _ _ _ Hx), (ex_next _ _ _ _ _ _ _ _ _ Hx). fold h. rewrite Z.leb_refl.
  replace (h + 1 <=? h) with false by (symmetry; apply Z.leb_gt; lia).
  rewrite (f_bind_some _ _ s1 lst s1)
    by (unfold f_run; by rewrite (proj2 (old_block_last s1 lst h eq_refl Hh (ex_last _ _ _ _ _ _ _ _ _ Hx)))).
  rewrite lookup_singleton_eq. unfold f_bind. by destruct (adopt_header _ _ _ _ _ _ _ _ _ s1) as [[[[]|err|] s2]|].
Qed.

(** After a failed execution the node goes back. *)
Lemma IsAllTransactions_total (db : D) b : exists hashes, IsAllTransactions db b = Ok hashes.
Proof.
  unfold IsAllTransactions. induction (TransactionsHashes b) as [|t ts [hashes IH]]; cbn [foldr]; [by eexists|].
  assert (exists k, CheckFromDBPoolTx db TransactionPoolHashesDBPrefix (Hash_GetBytes t) = Ok k) as [k ->].
  { unfold CheckFromDBPoolTx, DB_IsKey.
    destruct (reliable_get db (TransactionPoolHashesDBPrefix ++ Hash_GetBytes t)) as [v Ev].
    destruct (_ ++ _) eqn:E; [by eexists|]. rewrite Ev. by eexists. }
  rewrite IH. by destruct k; eexists.
Qed.
Lemma failed_transfer_ready nw fuel addr b lst s s0 h ha hblk :
  bh_Height (bl_Header lst) = h -> settled_at fuel h (sv_Node s0) ha hblk ->
  untouched (h + 1) (sv_Node s0) (sv_Node s) -> exists s',
  failed_transfer nw fuel addr b lst s = Some (Ok tt, s') /\ as_before h (sv_Node s0) (sv_Node s').
Proof.
  intros Hl Hs Hu. unfold failed_transfer. destruct (IsAllTransactions_total (nd_MainDB (sv_Node s)) b) as [hashes Eh].
  rewrite (f_bind_some _ _ s hashes s) by (unfold f_run; by rewrite (node_same _ (Ok hashes) s) by (unfold reads; cbn [l_get db_l]; by rewrite Eh)).
  destruct hashes as [|x hashes].
  - rewrite (f_bind_some _ _ s tt s) by done. by eapply reset_as_before.
  - unfold SendGT. match goal with |- context [emit ?ev] => rewrite (f_bind_some _ _ s tt (snd (emit ev s))) by done end.
    by eapply reset_as_before.
Qed.

(** C15: a block received while catching up is adopted or leaves the node where it
    was.  The message holds the last block of a settled node and one more that
    passes the checks of a base block; the handler returns, and when the execution
    of the block succeeds the node is one block higher, with the ledger that the
    execution left and the block and its tables stored; when the execution fails,
    the height, the accounts, the staking accounts and the hashes of the blocks are
    those before, although transactions of the block may have changed them. *)
Theorem synced_block_all_or_nothing keccak e o nw fuel addr s m amsg lst b tree r n2 :
  let n := sv_Node s in let h := nd_Height n in
  let env := env_at e (syncing s) in
  extends e o nw s m amsg lst b tree -> vm_works keccak vm ->
  CheckBlockAndTransferFunds (EvaluateSmartContracts vm env) env b lst (Some tree) n = (r, n2) ->
  match r with
  | Ok b' => storable o n2 -> exists s', SyncService.OnMessage vm e o nw fuel addr m s = Some (Ok tt, s') /\
      nd_Height (sv_Node s') = h + 1 /\ same_ledger n2 (sv_Node s') /\ persisted o (h + 1) (sv_Node s') b'
  | Err _ => forall ha hblk, settled_at fuel h n ha hblk -> exists s', SyncService.OnMessage vm e o nw fuel addr m s = Some (Ok tt, s') /\ as_before h n (sv_Node s')
  | Panic => True
  end.
Proof.
  intros n h env Hx Hvm Hrun. pose proof (ex_height _ _ _ _ _ _ _ _ _ Hx) as Hh. fold n h in Hh.
  pose proof (ex_next _ _ _ _ _ _ _ _ _ Hx) as Hnext. fold n h in Hnext.
  set (s1 := syncing (snd (emit (ValidRegisterPeer addr) s))).
  assert (execute_block vm e b lst (Some tree) s1 = (r, l_set node_l n2 s1)) as Hex.
  { unfold execute_block, with_env, node, on. cbn [l_get node_l]. change (sv_Node s1) with n.
    change (env_at e s1) with env. by rewrite Hrun. }
  destruct r as [b'|err|]; [intros Hst|intros ha hblk Hset|done].
  all: rewrite (extends_run e o nw fuel addr s m amsg lst b tree Hx); fold s1; unfold recovered, then_synced, adopt_header.
  - destruct (executed_block _ _ _ _ _ _ _ _ Hrun) as [fee ->].
    rewrite (f_bind_some _ _ s1 (set_BlockFee b fee) (l_set node_l n2 s1)) by (unfold or_else; by rewrite Hex). cbv zeta.
    change (bh_Height (bl_Header (set_BlockFee b fee))) with (bh_Height (bl_Header b)). rewrite Hnext.
    destruct (store_all_ok o fuel lst (h + 1) (set_BlockFee b fee) (l_set node_l n2 s1) ltac:(lia) Hst) as [s2 E].
    rewrite E. eexists. split; [reflexivity|].
    apply store_all_persisted in E as (EH & EL & EP & _); [|lia|exact Hnext|exact (proj1 Hst)].
    by destruct (_ <? nd_Height _).
  - unfold f_bind at 1, or_else at 1. rewrite Hex.
    destruct (failed_transfer_ready nw fuel addr b lst (l_set node_l n2 s1) s h ha hblk) as (s2 & -> & Hb).
    + exact (ex_at _ _ _ _ _ _ _ _ _ Hx).
    + exact Hset.
    + rewrite <- Hnext. exact (untouched_execution keccak vm Hvm _ _ _ _ _ _ _ Hrun).
    + eexists. split; [reflexivity|]. by destruct (_ <? nd_Height _).
Qed.
End Answer.

(** ** Closed examples *)

#[local] Existing Instance map_store.
#[local] Existing Instance map_store_laws.
#[local] Existing Instance map_store_reliable.
#[local] Existing Instance toy_hasher.
#[local] Existing Instance pk_json.
#[local] Existing Instance node_json.

Section Fork.
#[local] Existing Instance two_schemes.

(** A node of height 3 hears of another block 2, from a chain of height 4. *)
Definition own_2 : Block := sample_block 2 (arr_zero _) 1000 [] (arr_zero _) 5.
Definition other_2 : Block := sample_block 2 (arr_of 32 [byte_of_Z 1]) 7 [] (arr_zero _) 5.
Definition fork_message : TransactionsMessage :=
  sync_message toy_network (ascii2 "s" "h") (headers_table (map GetByteInt64 [2; 4]) [Block_GetBytes other_2]).
Lemma fork_brings :
  brings toy_network map_orders reset_server (message_bytes map_orders fork_message) fork_message [2; 4] [other_2].
Proof.
  split.
  - vm_cast_no_check (eq_refl (Ok (true, fork_message))).
  - reflexivity.
  - vm_cast_no_check (eq_refl (Ok ([2; 4], [other_2]))).
Qed.
Lemma fork_rolls_back_witness : exists s',
  SyncService.OnMessage toy_vm env_8 map_orders toy_network 10 [] (message_bytes map_orders fork_message) reset_server
    = Some (Ok tt, s') /\ nd_Height (sv_Node reset_server) = 3 /\ nd_Height (sv_Node s') = 1 /\
  sv_ShiftToPastInReset s' = 2.
Proof.
  destruct (fork_rolls_back toy_vm env_8 map_orders toy_network 10 [] (message_bytes map_orders fork_message) reset_server
    fork_message 2 [4] 4 other_2 [] (Hash_GetBytes (BlockHash own_2)) table_1 reset_stakes 3 3) as (s' & E & Eh & _ & _ & _ & Es).
  - exact fork_brings.
  - vm_compute. split; [reflexivity|discriminate].
  - reflexivity.
  - reflexivity.
  - vm_compute. reflexivity.
  - vm_compute. discriminate.
  - vm_compute. split; [discriminate|reflexivity].
  - exact reset_ready.
  - exists s'. split; [exact E|]. split; [reflexivity|]. split; [exact Eh|]. apply Es. vm_compute. split; reflexivity.
Defined.
End Fork.

Section Synced.
#[local] Existing Instance short_schemes.

Lemma last_7_ok : block_ok config_7 last_7.
Proof.
  split; [|by vm_compute].
  split; [|by vm_compute..|vm_compute; discriminate].
  split; try by vm_compute. left. vm_compute. discriminate.
Qed.

(** The answer of a node that holds block 7. *)
Lemma headers_roundtrip_witness : exists m amsg,
  generateSyncMsgSendHeaders map_orders toy_network (sv_Node (server_7 1000)) 7 7 = Ok m /\
  CheckValidMessage 23 m = Ok (true, amsg) /\ head_is amsg "sh" = true /\
  parse_headers config_7 (ord_topics map_orders _ (tm_TransactionsBytes amsg)) = Ok ([7], [last_7]).
Proof.
  apply (headers_roundtrip map_orders map_orders toy_network (sv_Node (server_7 1000)) 7 [last_7]).
  - exact map_orders_fair.
  - exact map_orders_fair.
  - vm_compute. split; [discriminate|reflexivity].
  - discriminate.
  - lia.
  - vm_compute. split; [discriminate|reflexivity].
  - intros [|k] blk E; [|discriminate E]. injection E as <-. exact last_7_stored.
  - constructor; [|constructor]. split; [exact last_7_ok|by vm_compute].
Defined.

(** The chain of height 8 offers its last two blocks. *)
Definition next_message : TransactionsMessage :=
  sync_message toy_network (ascii2 "s" "h")
    (headers_table (map GetByteInt64 [7; 8]) (map Block_GetBytes [last_7; fresh_8])).
Definition next_bytes : bytes := message_bytes map_orders next_message.
Lemma next_valid : CheckValidMessage 23 next_bytes = Ok (true, next_message).
Proof.
  apply (headers_valid toy_network map_orders [7; 8] [last_7; fresh_8]); [exact map_orders_fair|by vm_compute..|].
  repeat constructor; by vm_compute.
Qed.
Lemma next_parsed : parse_headers config_7 (ord_topics map_orders _ (tm_TransactionsBytes next_message)) = Ok ([7; 8], [last_7; fresh_8]).
Proof.
  apply (parse_headers_table config_7 _ [7; 8] [last_7; fresh_8]); [apply map_orders_fair|by repeat constructor|].
  constructor; [exact last_7_ok|]. constructor; [exact fresh_8_ok|constructor].
Qed.
Lemma next_loaded x : book x -> LoadBlock config_7 (db_7 x) 7 = Ok last_7.
Proof. intros [-> | ->]; vm_cast_no_check (eq_refl (Ok last_7)). Qed.
Lemma next_hash x : book x -> LoadHashOfBlock (db_7 x) 7 = Ok (Hash_GetBytes (BlockHash last_7)).
Proof. intros [-> | ->]; vm_cast_no_check (eq_refl (@Ok bytes (Hash_GetBytes (BlockHash last_7)))). Qed.
Lemma next_extends x : book x ->
  extends env_8 map_orders toy_network (server_7 x) next_bytes next_message last_7 fresh_8 tree_8.
Proof.
  intros Hx. split; [split|..].
  - exact next_valid.
  - reflexivity.
  - exact next_parsed.
  - change (nd_Height (sv_Node (server_7 x))) with 7. lia.
  - by apply next_hash.
  - by apply next_loaded.
  - reflexivity.
  - reflexivity.
  - exact (proposal_checks _ _ _ _ _ _ _ _ _ _ _ (fresh_proposal x Hx)).
  - reflexivity.
Qed.

Definition run_next (x : Z) : outcome Block * Node (gmap bytes bytes) :=
  let env := env_at env_8 (syncing (server_7 x)) in
  CheckBlockAndTransferFunds (EvaluateSmartContracts toy_vm env) env fresh_8 last_7 (Some tree_8) (sv_Node (server_7 x)).
Lemma run_next_ok : run_next 1000 = (Ok (set_BlockFee fresh_8 40), snd (run_next 1000)).
Proof.
  apply surjective_pairing_eq. vm_cast_no_check (eq_refl (Ok (set_BlockFee fresh_8 40))).
Qed.
Lemma next_storable : storable map_orders (snd (run_next 1000)).
Proof.
  assert (forallb (fun m => match StakingAccountsType_Marshal (ord_staking map_orders m) m with Ok _ => true | _ => false end)
    (nd_StakingAccounts (snd (run_next 1000))) = true) as Hb by (vm_cast_no_check (eq_refl true)).
  split.
  - apply Nat.leb_le. vm_cast_no_check (eq_refl true).
  - rewrite forallb_forall in Hb. apply Forall_forall. intros m Hm. apply list_elem_of_In, Hb in Hm.
    destruct (StakingAccountsType_Marshal _ m) as [k|e|]; [by exists k|discriminate Hm..].
Qed.

(** With the right tables block 8 is adopted, with one coin too many the node stays
    where it was. *)
Lemma synced_block_all_or_nothing_witness :
  (exists s', SyncService.OnMessage toy_vm env_8 map_orders toy_network 20 [] next_bytes (server_7 1000) = Some (Ok tt, s') /\
     nd_Height (sv_Node s') = 8 /\ persisted map_orders 8 (sv_Node s') (set_BlockFee fresh_8 40)) /\
  (exists s', SyncService.OnMessage toy_vm env_8 map_orders toy_network 20 [] next_bytes (server_7 1001) = Some (Ok tt, s') /\
     as_before 7 (sv_Node (server_7 1001)) (sv_Node s')).
Proof.
  split.
  - destruct (synced_block_all_or_nothing toy_vm (fun _ => arr_zero _) env_8 map_orders toy_network 20 [] (server_7 1000)
      next_bytes next_message last_7 fresh_8 tree_8 (Ok (set_BlockFee fresh_8 40)) (snd (run_next 1000))) as (s' & E & Eh & _ & Ep).
    + apply next_extends. by left.
    + apply toy_vm_works.
    + exact run_next_ok.
    + exact next_storable.
    + exists s'. split; [exact E|]. split; [exact Eh|exact Ep].
  - pose proof (synced_block_all_or_nothing toy_vm (fun _ => arr_zero _) env_8 map_orders toy_network 20 [] (server_7 1001)
      next_bytes next_message last_7 fresh_8 tree_8 (fst (run_next 1001)) (snd (run_next 1001))
      (next_extends 1001 (or_intror eq_refl)) (toy_vm_works _) (surjective_pairing _)) as Hr.
    assert (match fst (run_next 1001) with Err _ => true | _ => false end = true) as He by (vm_cast_no_check (eq_refl true)).
    destruct (fst (run_next 1001)) as [b|err|]; [discriminate He| |discriminate He].
    exact (Hr (-1) (-1) settled_7).
Defined.

(** A node of a longer chain says hello. *)
Definition hello : TransactionsMessage :=
  sync_message toy_network (ascii2 "h" "i") {[ topic_LH := [GetByteInt64 9] ]}.
Lemma hello_valid : CheckValidMessage 23 (message_bytes map_orders hello) = Ok (true, hello).
Proof. vm_cast_no_check (eq_refl (Ok (true, hello))). Qed.
Lemma OnMessage_ignores_witness : exists s',
  SyncService.OnMessage toy_vm env_8 map_orders toy_network 20 [] (message_bytes map_orders hello) (server_7 1000)
    = Some (Ok tt, s') /\ server_still 8 (server_7 1000) s'.
Proof.
  apply (OnMessage_ignores toy_vm env_8 map_orders toy_network 20 [] (message_bytes map_orders hello) (server_7 1000) 8).
  intros amsg E Hh. change (nw_ChainID toy_network) with 23 in E. rewrite hello_valid in E. injection E as <-. discriminate Hh.
Defined.
End Synced.

Lemma headers_range_reaches_witness : headers_range 7 100 = (7, 27) /\
  let (bHeight, eHeight) := headers_range 7 100 in 0 <= bHeight <= 7 /\ 7 < eHeight.
Proof.
  split; [reflexivity|]. pose proof (headers_range_reaches 7 100 ltac:(lia) ltac:(lia)) as Hr.
  destruct (headers_range 7 100) as [bHeight eHeight]. destruct Hr as (Hb & _ & _ & He & _).
  split; [exact Hb|]. apply He. reflexivity.
Defined.
