(* ===== verification/Wallet.v ===== *)
(** * Package wallet

    Models wallet/wallet.go: the keys of a wallet, their encryption under the
    password, the two places where they are stored (a JSON file and a leveldb
    database in each of two directories), and signing.  AES in counter mode, SHAKE,
    liboqs, bip39 and encoding/json are classes; file operations are taken to
    succeed where the operating system has no reason to refuse them.  The mutex of
    the package is not reentrant: an [Act] is a program that may stop at it for ever.

    The theorems: what is stored is loaded back, and not with another password; both
    secret keys are encrypted with the same stream; [ChangePassword] never returns;
    storing the wallet after a change of scheme fails before the database is
    written; signatures verify. *)
From S2P Require Import Prelude GoInt GoSlice Common Keys Json EncScheme.
From stdpp Require Import pretty.
#[local] Open Scope Z_scope.

Abbreviation addr20 := (array AddressLength).
Definition ValidationTag : bytes := String.list_byte_of_string "validationTag".
Definition DefaultWalletHomePath : string := "/.okura/db/wallet/".
Definition BlockSize : nat := 16.

(** [sha3.ShakeSum256] into 32 bytes; the bytes of AES-CTR for a key and an
    initialisation vector. *)
Class Ciphers := {
  ShakeSum256 : bytes -> array 32;
  ctr_stream : bytes -> bytes -> nat -> byte
}.
(** [OQS_SIG_sign] with the name of a scheme and a secret key. *)
Class OqsSigner := oqs_Sign : string -> bytes -> bytes -> option bytes.
(** Package bip39. *)
Class Mnemonics := {
  NewMnemonic : bytes -> option string;
  MnemonicToByteArray : string -> option bytes
}.

(** [oqs.Signature] after [Init]. *)
Record Signer := mk_Signer { sg_Name : string; sg_secretKey : bytes }.

Record Wallet := mk_Wallet {
  w_passwordBytes : bytes;
  w_password : string;
  w_Iv : bytes;
  w_secretKey : PrivKey;
  w_secretKey2 : PrivKey;
  w_EncryptedSecretKey : bytes;
  w_EncryptedSecretKey2 : bytes;
  w_PublicKey : PubKey;
  w_PublicKey2 : PubKey;
  w_Address : Address;
  w_Address2 : Address;
  w_MainAddress : Address;
  w_signer : option Signer;
  w_signer2 : option Signer;
  w_HomePath : string;
  w_HomePath2 : string;
  w_HomePathOld : string;
  w_HomePath2Old : string;
  w_WalletNumber : Z
}.

(** What encoding/json writes of a public key and of a wallet: an address is the
    text of its bytes (common/typesVM.go), an empty old path is left out. *)
Record KeyDoc := mk_KeyDoc { kd_ByteValue : bytes; kd_Address : addr20; kd_MainAddress : addr20; kd_Primary : bool }.
Record Document := mk_Document {
  d_Iv : bytes;
  d_EncryptedSecretKey : bytes;
  d_EncryptedSecretKey2 : bytes;
  d_PublicKey : KeyDoc;
  d_PublicKey2 : KeyDoc;
  d_Address : addr20;
  d_Address2 : addr20;
  d_MainAddress : addr20;
  d_HomePath : string;
  d_HomePath2 : string;
  d_HomePathOld : string;
  d_HomePath2Old : string;
  d_WalletNumber : Z
}.

Definition key_doc (pk : PubKey) : KeyDoc :=
  mk_KeyDoc (pk_ByteValue pk) (addr_ByteValue (pk_Address pk)) (addr_ByteValue (pk_MainAddress pk)) (pk_Primary pk).
Definition document (w : Wallet) : Document :=
  mk_Document (w_Iv w) (w_EncryptedSecretKey w) (w_EncryptedSecretKey2 w) (key_doc (w_PublicKey w)) (key_doc (w_PublicKey2 w))
    (addr_ByteValue (w_Address w)) (addr_ByteValue (w_Address2 w)) (addr_ByteValue (w_MainAddress w))
    (w_HomePath w) (w_HomePath2 w) (w_HomePathOld w) (w_HomePath2Old w) (w_WalletNumber w).

(** [json.Unmarshal] into an existing address, key and wallet: an address keeps its
    flag. *)
Definition read_address (b : addr20) (a : Address) : Address := mk_Address b (addr_Primary a).
Definition read_key (d : KeyDoc) (pk : PubKey) : PubKey :=
  mk_PubKey (kd_ByteValue d) (read_address (kd_Address d) (pk_Address pk))
    (read_address (kd_MainAddress d) (pk_MainAddress pk)) (kd_Primary d).
Definition present (s old : string) : string := if String.eqb s "" then old else s.
Definition read_document (d : Document) (w : Wallet) : Wallet :=
  mk_Wallet (w_passwordBytes w) (w_password w) (d_Iv d) (w_secretKey w) (w_secretKey2 w)
    (d_EncryptedSecretKey d) (d_EncryptedSecretKey2 d) (read_key (d_PublicKey d) (w_PublicKey w))
    (read_key (d_PublicKey2 d) (w_PublicKey2 w)) (read_address (d_Address d) (w_Address w))
    (read_address (d_Address2 d) (w_Address2 w)) (read_address (d_MainAddress d) (w_MainAddress w))
    (w_signer w) (w_signer2 w) (d_HomePath d) (d_HomePath2 d)
    (present (d_HomePathOld d) (w_HomePathOld w)) (present (d_HomePath2Old d) (w_HomePath2Old w)) (d_WalletNumber d).

(** ** Updates of one field *)

Definition zero_PrivKey : PrivKey := mk_PrivKey [] zero_Address false.

Definition SetPassword_with (pb : bytes) (p : string) (w : Wallet) : Wallet :=
  mk_Wallet pb p (w_Iv w) (w_secretKey w) (w_secretKey2 w) (w_EncryptedSecretKey w) (w_EncryptedSecretKey2 w)
    (w_PublicKey w) (w_PublicKey2 w) (w_Address w) (w_Address2 w) (w_MainAddress w) (w_signer w) (w_signer2 w)
    (w_HomePath w) (w_HomePath2 w) (w_HomePathOld w) (w_HomePath2Old w) (w_WalletNumber w).
Definition set_Iv (iv : bytes) (w : Wallet) : Wallet :=
  mk_Wallet (w_passwordBytes w) (w_password w) iv (w_secretKey w) (w_secretKey2 w) (w_EncryptedSecretKey w)
    (w_EncryptedSecretKey2 w) (w_PublicKey w) (w_PublicKey2 w) (w_Address w) (w_Address2 w) (w_MainAddress w)
    (w_signer w) (w_signer2 w) (w_HomePath w) (w_HomePath2 w) (w_HomePathOld w) (w_HomePath2Old w) (w_WalletNumber w).
Definition set_secrets (s s2 : PrivKey) (w : Wallet) : Wallet :=
  mk_Wallet (w_passwordBytes w) (w_password w) (w_Iv w) s s2 (w_EncryptedSecretKey w)
    (w_EncryptedSecretKey2 w) (w_PublicKey w) (w_PublicKey2 w) (w_Address w) (w_Address2 w) (w_MainAddress w)
    (w_signer w) (w_signer2 w) (w_HomePath w) (w_HomePath2 w) (w_HomePathOld w) (w_HomePath2Old w) (w_WalletNumber w).
Definition set_encrypted (e e2 : bytes) (w : Wallet) : Wallet :=
  mk_Wallet (w_passwordBytes w) (w_password w) (w_Iv w) (w_secretKey w) (w_secretKey2 w) e e2
    (w_PublicKey w) (w_PublicKey2 w) (w_Address w) (w_Address2 w) (w_MainAddress w)
    (w_signer w) (w_signer2 w) (w_HomePath w) (w_HomePath2 w) (w_HomePathOld w) (w_HomePath2Old w) (w_WalletNumber w).
Definition set_public (pk pk2 : PubKey) (a a2 main : Address) (w : Wallet) : Wallet :=
  mk_Wallet (w_passwordBytes w) (w_password w) (w_Iv w) (w_secretKey w) (w_secretKey2 w) (w_EncryptedSecretKey w)
    (w_EncryptedSecretKey2 w) pk pk2 a a2 main
    (w_signer w) (w_signer2 w) (w_HomePath w) (w_HomePath2 w) (w_HomePathOld w) (w_HomePath2Old w) (w_WalletNumber w).
Definition set_signers (s s2 : option Signer) (w : Wallet) : Wallet :=
  mk_Wallet (w_passwordBytes w) (w_password w) (w_Iv w) (w_secretKey w) (w_secretKey2 w) (w_EncryptedSecretKey w)
    (w_EncryptedSecretKey2 w) (w_PublicKey w) (w_PublicKey2 w) (w_Address w) (w_Address2 w) (w_MainAddress w)
    s s2 (w_HomePath w) (w_HomePath2 w) (w_HomePathOld w) (w_HomePath2Old w) (w_WalletNumber w).
Definition set_paths (p p2 : string) (w : Wallet) : Wallet :=
  mk_Wallet (w_passwordBytes w) (w_password w) (w_Iv w) (w_secretKey w) (w_secretKey2 w) (w_EncryptedSecretKey w)
    (w_EncryptedSecretKey2 w) (w_PublicKey w) (w_PublicKey2 w) (w_Address w) (w_Address2 w) (w_MainAddress w)
    (w_signer w) (w_signer2 w) p p2 (w_HomePathOld w) (w_HomePath2Old w) (w_WalletNumber w).

(** ** Files and the mutex *)

Record Dir := mk_Dir { dir_files : gmap string bytes; dir_db : gmap bytes bytes }.
Definition new_dir : Dir := mk_Dir ∅ ∅.

(** The wallet of the node, the directories and [globalMutex]. *)
Record Desk := mk_Desk { dk_Wallet : Wallet; dk_Dirs : gmap string Dir; dk_Locked : bool }.
Definition set_wallet (w : Wallet) (s : Desk) : Desk := mk_Desk w (dk_Dirs s) (dk_Locked s).
Definition set_dirs (d : gmap string Dir) (s : Desk) : Desk := mk_Desk (dk_Wallet s) d (dk_Locked s).
Definition set_locked (b : bool) (s : Desk) : Desk := mk_Desk (dk_Wallet s) (dk_Dirs s) b.

(** A program that has no result when it waits for ever. *)
Definition Act (A : Type) : Type := Desk -> option (outcome A) * Desk.
Definition act_of {A} (m : ST Desk A) : Act A := fun s => let (o, s) := m s in (Some o, s).
Definition act_lift {A} (o : outcome A) : Act A := act_of (st_lift o).
Definition act_bind {A B} (m : Act A) (k : A -> Act B) : Act B := fun s =>
  match m s with
  | (Some (Ok a), s) => k a s
  | (Some (Err e), s) => (Some (Err e), s)
  | (Some Panic, s) => (Some Panic, s)
  | (None, s) => (None, s)
  end.
Notation "'act!' x <- m ; k" := (act_bind m (fun x => k))
  (at level 20, x pattern, m at level 100, k at level 200) : go_scope.
Notation "'then!' m ; k" := (act_bind m (fun _ => k)) (at level 20, m at level 100, k at level 200) : go_scope.
Definition act_get : Act Wallet := fun s => (Some (Ok (dk_Wallet s)), s).
Definition act_ret {A} (a : A) : Act A := fun s => (Some (Ok a), s).
Definition act_err {A} (e : string) : Act A := fun s => (Some (Err e), s).
Definition act_modify (f : Wallet -> Wallet) : Act unit := fun s => (Some (Ok tt), set_wallet (f (dk_Wallet s)) s).

(** [globalMutex.Lock(); defer globalMutex.Unlock()] *)
Definition locked {A} (m : Act A) : Act A := fun s =>
  if dk_Locked s then (None, s) else
  match m (set_locked true s) with
  | (Some r, s) => (Some r, set_locked false s)
  | (None, s) => (None, s)
  end.

Definition mkdir (path : string) : Act unit := fun s =>
  (Some (Ok tt), match dk_Dirs s !! path with
                 | Some _ => s
                 | None => set_dirs (<[path := new_dir]> (dk_Dirs s)) s
                 end).
Definition rename (old new : string) : Act unit := fun s =>
  match dk_Dirs s !! old with
  | None => (Some (Err "no such file or directory"), s)
  | Some d => (Some (Ok tt), set_dirs (<[new := d]> (delete old (dk_Dirs s))) s)
  end.
Definition change_dir (f : Dir -> Dir) (path : string) : Act unit := fun s =>
  (Some (Ok tt), set_dirs (alter f path (dk_Dirs s)) s).
Definition write_file (path name : string) (b : bytes) : Act unit :=
  change_dir (fun d => mk_Dir (<[name := b]> (dir_files d)) (dir_db d)) path.
Definition read_file (path name : string) : Act bytes := fun s =>
  (Some (match dk_Dirs s !! path ≫= fun d => dir_files d !! name with
         | Some b => Ok b
         | None => Err "no such file or directory"
         end), s).
Definition put (path : string) (k b : bytes) : Act unit :=
  change_dir (fun d => mk_Dir (dir_files d) (<[k := b]> (dir_db d))) path.
Definition get (path : string) (k : bytes) : Act bytes := fun s =>
  (Some (match dk_Dirs s !! path ≫= fun d => dir_db d !! k with
         | Some b => Ok b
         | None => Err "leveldb: not found"
         end), s).

Definition backup_path (path : string) (k : Z) : string := (path +:+ "_backup" +:+ pretty k)%string.
(** The first number of a backup that is free; no result when [fuel] is too small. *)
Fixpoint free_backup (dirs : gmap string Dir) (path : string) (fuel : nat) (backupNum : Z) : option string :=
  match fuel with
  | O => None
  | S fuel =>
      match dirs !! backup_path path backupNum with
      | None => Some (backup_path path backupNum)
      | Some _ => free_backup dirs path fuel (backupNum + 1)
      end
  end.
Definition backup (old : string) : Act unit := fun s =>
  match free_backup (dk_Dirs s) old (S (size (dk_Dirs s))) 1 with
  | None => (None, s)
  | Some new => rename old new s
  end.

(** ** The cipher *)

Definition xor_byte (a b : byte) : byte := byte_of_Z (Z.lxor (byte_to_Z a) (byte_to_Z b)).
Definition xor_bytes (a b : bytes) : bytes := zip_with xor_byte a b.

Section Wallet.
Context `{Hasher} `{OqsLib} `{OqsSigner} `{Ciphers} `{Mnemonics} `{JSON Document}.
Variables (ec : EncryptionConfig) (HOME : string).
Implicit Types (w : Wallet) (s : Desk).

Definition passwordToByte (password : string) : bytes := ShakeSum256 (String.list_byte_of_string password).
Definition SetPassword (password : string) : Wallet -> Wallet := SetPassword_with (passwordToByte password) password.

(** [XORKeyStream] of [v]. *)
Definition stream w (n : nat) : bytes := map (ctr_stream (w_passwordBytes w) (w_Iv w)) (seq 0 n).
Definition XORKeyStream w (v : bytes) : bytes := xor_bytes v (stream w (length v)).
Definition cipher_of w : outcome unit :=
  let n := length (w_passwordBytes w) in
  if negb ((n =? 16) || (n =? 24) || (n =? 32))%nat then Err "crypto/aes: invalid key size"
  else if negb (length (w_Iv w) =? BlockSize)%nat then Panic else Ok tt.

Definition encrypt w (v : bytes) : outcome bytes :=
  let! _ := cipher_of w in
  Ok (zeros BlockSize ++ XORKeyStream w (ValidationTag ++ v)).
Definition decrypt w (v : bytes) : outcome bytes :=
  let! _ := cipher_of w in
  let! c := slice_from v (Z.of_nat BlockSize) in
  let plaintext := XORKeyStream w c ++ zeros (BlockSize + length v - length c) in
  let! tag := slice_to plaintext (len ValidationTag) in
  if negb (bytes_eqb tag ValidationTag) then Err "wrong password" else
  slice_from plaintext (len ValidationTag).

(** ** Signers *)

Definition Signer_Init (name : string) (secretKey : bytes) : outcome Signer :=
  match oqs_Details name with
  | Some _ => Ok (mk_Signer name secretKey)
  | None => Err "signature mechanism is not enabled by OQS"
  end.
(** The zero [oqs.Signature] panics. *)
Definition Signer_Sign (sg : option Signer) (message : bytes) : outcome bytes :=
  match sg with
  | None => Panic
  | Some sg =>
      match oqs_Details (sg_Name sg) with
      | Some (_, sk, _) =>
          if negb (len (sg_secretKey sg) =? sk) then Err "incorrect secret key length" else
          match oqs_Sign (sg_Name sg) (sg_secretKey sg) message with
          | Some b => Ok b
          | None => Err "can not sign message"
          end
      | None => Panic
      end
  end.
Definition GetSigName w (primary : bool) : string :=
  match (if primary then w_signer w else w_signer2 w) with Some sg => sg_Name sg | None => "" end.

Definition Sign w (data : bytes) (primary : bool) : outcome Signature :=
  match data with
  | [] => Err "input data are empty"
  | _ =>
      if primary then
        let! signature := Signer_Sign (w_signer w) data in
        Signature_Init ec (byte_of_Z 0 :: signature) (w_MainAddress w)
      else
        let! signature2 := Signer_Sign (w_signer2 w) data in
        Signature_Init ec (byte_of_Z 1 :: signature2) (w_MainAddress w)
  end.

Definition Check w : bool := (0 <? len (w_passwordBytes w)) && (len (sk_ByteValue (w_secretKey w)) =? len (sk_ByteValue (w_secretKey w))).

(** ** New keys *)

Definition home_path (walletNumber : Z) (name : string) : string :=
  (HOME +:+ DefaultWalletHomePath +:+ pretty walletNumber +:+ "/" +:+ name)%string.
Definition EmptyWallet (walletNumber : Z) (name name2 : string) : Wallet :=
  let p := home_path walletNumber name in
  let p2 := home_path walletNumber name2 in
  mk_Wallet [] "" [] zero_PrivKey zero_PrivKey [] [] zero_PubKey zero_PubKey zero_Address zero_Address zero_Address
    None None p p2 p p2 walletNumber.

(** [keygen] is what liboqs generates for a scheme: a public key and a secret one. *)
Definition keys_of (keygen : string -> option (bytes * bytes)) (name : string) : outcome (bytes * bytes) :=
  let! _ := Signer_Init name [] in
  match keygen name with Some k => Ok k | None => Err "can not generate keypair" end.

Definition GenerateNewWallet (keygen : string -> option (bytes * bytes)) (iv : bytes) (walletNumber : Z) (password : string)
    : outcome Wallet :=
  if String.eqb password "" then Err "password cannot be empty" else
  let w := set_Iv iv (SetPassword password (EmptyWallet walletNumber (sigName ec) (sigName2 ec))) in
  let! (pubKey, secret) := keys_of keygen (sigName ec) in
  let! mainAddress := PubKeyToAddress pubKey true in
  let! pk := PubKey_Init ec pubKey mainAddress in
  let! sk := PrivKey_Init ec secret (pk_Address pk) in
  let! (pubKey2, secret2) := keys_of keygen (sigName2 ec) in
  let! pk2 := PubKey_Init ec pubKey2 mainAddress in
  let! sk2 := PrivKey_Init ec secret2 (pk_Address pk2) in
  Ok (set_signers (Some (mk_Signer (sigName ec) secret)) (Some (mk_Signer (sigName2 ec) secret2))
        (set_secrets sk sk2 (set_public pk pk2 (pk_Address pk) (pk_Address pk2) (pk_Address pk) w))).

Definition AddNewEncryptionToActiveWallet (keygen : string -> option (bytes * bytes)) (name : string) (primary : bool) : Act unit :=
  act! w <- act_get;
  if String.eqb (w_password w) "" then act_err "password cannot be empty" else
  let path := home_path (w_WalletNumber w) name in
  act! (pubKey, secret) <- act_lift (keys_of keygen name);
  act! mainAddress <- act_lift (PubKeyToAddress pubKey primary);
  act! pk <- act_lift (PubKey_Init ec pubKey mainAddress);
  if primary then
    then! act_modify (fun w => set_public pk (w_PublicKey2 w) (pk_Address pk) (w_Address2 w) (w_MainAddress w) w);
    act! sk <- act_lift (PrivKey_Init ec secret (pk_Address pk));
    act_modify (fun w => set_paths path (w_HomePath2 w)
      (set_signers (Some (mk_Signer name secret)) (w_signer2 w) (set_secrets sk (w_secretKey2 w) w)))
  else
    then! act_modify (fun w => set_public (w_PublicKey w) pk (w_Address w) (pk_Address pk) (w_MainAddress w) w);
    act! sk <- act_lift (PrivKey_Init ec secret (pk_Address pk));
    act_modify (fun w => set_paths (w_HomePath w) path
      (set_signers (w_signer w) (Some (mk_Signer name secret)) (set_secrets (w_secretKey w) sk w))).

(** ** Mnemonic words *)

Definition option_bytes (o : option bytes) : bytes := default [] o.

Definition GetMnemonicWords w (primary : bool) : outcome string :=
  let secret := sk_ByteValue (if primary then w_secretKey w else w_secretKey2 w) in
  let secretLength := len secret in
  match secret with
  | [] => Err "you need load wallet first"
  | _ =>
      if 64 <? secretLength then Err "secret must be less than 64 bytes" else
      let padded := if secretLength <? 64 then copy_bytes 64 (zeros 64) secret else secret in
      let mnemonic := default ""%string (NewMnemonic padded) in
      let secretKey := option_bytes (MnemonicToByteArray mnemonic) in
      let! a := slice_to secretKey secretLength in
      let! b := slice_to padded secretLength in
      if negb (bytes_eqb a b) then Err "can not restore secret key from mnemonic" else Ok mnemonic
  end.

Definition RestoreSecretKeyFromMnemonic (mnemonic : string) (primary : bool) : Act unit :=
  match MnemonicToByteArray mnemonic with
  | None => act_err "Can not restore secret key"
  | Some secretKey =>
      let n := if primary then PrivateKeyLength ec else PrivateKeyLength2 ec in
      let name := if primary then sigName ec else sigName2 ec in
      act! w <- act_get;
      if len secretKey <? n then act_err "not enough bytes for encryption private key" else
      act! b <- act_lift (slice_to secretKey n);
      act! sk <- act_lift (PrivKey_Init ec b (if primary then w_Address w else w_Address2 w));
      then! act_modify (fun w => if primary then set_secrets sk (w_secretKey2 w) w else set_secrets (w_secretKey w) sk w);
      act! sg <- act_lift (Signer_Init name (sk_ByteValue sk));
      act_modify (fun w => if primary then set_signers (Some sg) (w_signer2 w) w else set_signers (w_signer w) (Some sg) w)
  end.

(** ** Storing *)

Definition wallet_file (n : Z) : string := ("wallet" +:+ pretty n +:+ ".json")%string.
(** [common.WalletDBPrefix] with the number of the wallet. *)
Definition wallet_key (n : Z) : bytes := [byte_of_Z 87; byte_of_Z n].

Definition encrypt_first : Act unit :=
  act! w <- act_get;
  act! se <- act_lift (encrypt w (sk_ByteValue (w_secretKey w)));
  act_modify (set_encrypted se (w_EncryptedSecretKey2 w)).
Definition encrypt_second : Act unit :=
  act! w <- act_get;
  act! se <- act_lift (encrypt w (sk_ByteValue (w_secretKey2 w)));
  act_modify (set_encrypted (w_EncryptedSecretKey w) se).
Definition backup_if (makeBackup : bool) (path : Wallet -> string) : Act unit :=
  act! w <- act_get; if makeBackup then backup (path w) else act_ret tt.

Definition StoreJSON (makeBackup : bool) : Act unit :=
  act! w <- act_get;
  match sk_ByteValue (w_secretKey w) with
  | [] => act_err "you need load wallet first"
  | _ =>
      then! backup_if makeBackup w_HomePathOld;
      then! encrypt_first;
      then! backup_if makeBackup w_HomePath2Old;
      then! encrypt_second;
      act! w <- act_get;
      act! wm <- act_lift (json_Marshal (document w));
      then! mkdir (w_HomePath w);
      then! write_file (w_HomePath w) (wallet_file (w_WalletNumber w)) wm;
      act! wm2 <- act_lift (json_Marshal (document w));
      then! mkdir (w_HomePath2 w);
      write_file (w_HomePath2 w) (wallet_file (w_WalletNumber w)) wm2
  end.

(** A database that is open is locked: the second [OpenFile] of a directory fails. *)
Definition open_second w : Act unit :=
  if String.eqb (w_HomePath2 w) (w_HomePath w) then act_err "resource temporarily unavailable" else mkdir (w_HomePath2 w).

Definition store_db (makeBackup : bool) : Act unit :=
  act! w <- act_get;
  then! mkdir (w_HomePath w);
  then! encrypt_first;
  then! backup_if makeBackup w_HomePath2Old;
  then! open_second w;
  then! encrypt_second;
  act! w <- act_get;
  act! wm <- act_lift (json_Marshal (document w));
  then! put (w_HomePath w) (wallet_key (w_WalletNumber w)) wm;
  put (w_HomePath2 w) (wallet_key (w_WalletNumber w)) wm.

Definition Store (makeBackup : bool) : Act unit :=
  act! w <- act_get;
  match sk_ByteValue (w_secretKey w) with
  | [] => act_err "you need load wallet first"
  | _ =>
      then! StoreJSON makeBackup;
      then! backup_if makeBackup w_HomePathOld;
      locked (store_db makeBackup)
  end.

(** ** Loading *)

Definition set_flag (b : bool) (a : Address) : Address := mk_Address (addr_ByteValue a) b.
Definition flag_key (b : bool) (pk : PubKey) : PubKey :=
  mk_PubKey (pk_ByteValue pk) (set_flag b (pk_Address pk)) (set_flag true (pk_MainAddress pk)) (pk_Primary pk).
Definition flag_wallet w : Wallet :=
  set_public (flag_key true (w_PublicKey w)) (flag_key false (w_PublicKey2 w))
    (set_flag true (w_Address w)) (set_flag false (w_Address2 w)) (set_flag true (w_MainAddress w)) w.
(** [LoadJSON] sets the flags of the keys too. *)
Definition flag_primary (b : bool) (pk : PubKey) : PubKey := mk_PubKey (pk_ByteValue pk) (pk_Address pk) (pk_MainAddress pk) b.
Definition flag_secret (b : bool) (sk : PrivKey) : PrivKey := mk_PrivKey (sk_ByteValue sk) (set_flag b (sk_Address sk)) b.
Definition flag_all w : Wallet :=
  let w := flag_wallet w in
  set_secrets (flag_secret true (w_secretKey w)) (flag_secret false (w_secretKey2 w))
    (set_public (flag_primary true (w_PublicKey w)) (flag_primary false (w_PublicKey2 w))
       (w_Address w) (w_Address2 w) (w_MainAddress w) w).

(** The first and the second secret key are decrypted and their signer initialised. *)
Definition unlock_first w : outcome Wallet :=
  let! ds := decrypt w (w_EncryptedSecretKey w) in
  let! b := slice_to ds (PrivateKeyLength ec) in
  let! sk := PrivKey_Init ec b (w_Address w) in
  let! sg := Signer_Init (sigName ec) (sk_ByteValue sk) in
  Ok (set_signers (Some sg) (w_signer2 w) (set_secrets sk (w_secretKey2 w) w)).
(** [wc] is the wallet whose cipher is used. *)
Definition unlock_second wc w : outcome Wallet :=
  let! ds := decrypt wc (w_EncryptedSecretKey2 w) in
  let! b := slice_to ds (PrivateKeyLength2 ec) in
  let! sk := PrivKey_Init ec b (w_Address2 w) in
  let! sg := Signer_Init (sigName2 ec) (sk_ByteValue sk) in
  Ok (set_signers (w_signer w) (Some sg) (set_secrets (w_secretKey w) sk w)).

Definition LoadJSON (walletNumber : Z) (password : string) : Act Wallet :=
  if String.eqb password "" then act_err "password cannot be empty" else
  let w0 := EmptyWallet walletNumber (sigName ec) (sigName2 ec) in
  act! data <- read_file (w_HomePath w0) (wallet_file (w_WalletNumber w0));
  act! d <- act_lift (json_Unmarshal data);
  act! w <- act_lift (unlock_first (SetPassword password (read_document d w0)));
  let w := set_paths (w_HomePath w) (w_HomePath2 w0) w in
  act! data2 <- read_file (w_HomePath2 w) (wallet_file (w_WalletNumber w));
  act! d2 <- act_lift (json_Unmarshal data2);
  let w2 := SetPassword password (read_document d2 w) in
  act! w <- act_lift (unlock_second w2 (flag_all w));
  act_ret (set_paths (w_HomePath w0) (w_HomePath2 w) w).

Definition load_db (walletNumber : Z) (password : string) : Act Wallet :=
  let w0 := EmptyWallet walletNumber (sigName ec) (sigName2 ec) in
  then! mkdir (w_HomePath w0);
  act! value <- get (w_HomePath w0) (wallet_key walletNumber);
  act! d <- act_lift (json_Unmarshal value);
  act! w <- act_lift (unlock_first (SetPassword password (read_document d w0)));
  let w := set_paths (w_HomePath w) (w_HomePath2 w0) w in
  then! (if String.eqb (w_HomePath2 w0) (w_HomePath w0) then act_err "resource temporarily unavailable" else mkdir (w_HomePath2 w0));
  act! value <- get (w_HomePath2 w) (wallet_key walletNumber);
  act! d <- act_lift (json_Unmarshal value);
  let w := SetPassword password (flag_wallet (read_document d w)) in
  act! w <- act_lift (unlock_second w w);
  act_ret (set_paths (w_HomePath w0) (w_HomePath2 w) w).
Definition Load (walletNumber : Z) (password : string) : Act Wallet :=
  if String.eqb password "" then act_err "password cannot be empty" else locked (load_db walletNumber password).

Definition GetActiveWallet : Act Wallet := locked act_get.

(** ** A new password *)

(** The receiver of [m] is another wallet. *)
Definition on_copy {A} w (m : Act A) : Act A := fun s =>
  let (r, s') := m (set_wallet w s) in (r, set_wallet (dk_Wallet s) s').
Definition with_new_password (newPassword : string) w : Wallet :=
  set_encrypted [] [] (SetPassword newPassword w).
Definition ChangePassword (password newPassword : string) : Act unit :=
  act! w <- act_get;
  match w_passwordBytes w with
  | [] => act_err "you need load wallet first"
  | _ =>
      if negb (bytes_eqb (passwordToByte password) (w_passwordBytes w)) then act_err "current password is not valid" else
      locked (
        then! on_copy (with_new_password newPassword w) (Store false);
        then! Load (w_WalletNumber w) newPassword;
        act_ret tt)
  end.
End Wallet.

(** ** The cipher undone *)

Lemma xor_byte_cancel a b : xor_byte (xor_byte a b) b = a.
Proof.
  unfold xor_byte. rewrite byte_to_of_Z.
  assert (Z.lxor (byte_to_Z a) (byte_to_Z b) mod 256 = Z.lxor (byte_to_Z a) (byte_to_Z b)) as ->.
  { change 256 with (2 ^ 8). rewrite <- Z.land_ones by lia. apply Z.bits_inj'. intros i Hi.
    rewrite Z.land_spec, Z.testbit_ones_nonneg by lia. destruct (i <? 8) eqn:E; zify_bool; [by rewrite andb_true_r|].
    rewrite andb_false_r, Z.lxor_spec.
    assert (forall x, Z.testbit (byte_to_Z x) i = false) as Hx.
    { intros x. rewrite <- (Z.mod_small (byte_to_Z x) (2 ^ 8)) by apply byte_to_Z_range. by apply Z.mod_pow2_bits_high. }
    by rewrite !Hx. }
  by rewrite Z.lxor_assoc, Z.lxor_nilpotent, Z.lxor_0_r, byte_of_to_Z.
Qed.
Lemma xor_byte_comm a b : xor_byte a b = xor_byte b a.
Proof. unfold xor_byte. by rewrite Z.lxor_comm. Qed.
Lemma lxor_bytes a b : byte_to_Z (xor_byte a b) = Z.lxor (byte_to_Z a) (byte_to_Z b).
Proof.
  unfold xor_byte. rewrite byte_to_of_Z. change 256 with (2 ^ 8). apply Z.mod_small. split.
  - apply Z.lxor_nonneg. split; intros _; apply byte_to_Z_range.
  - pose proof (byte_to_Z_range a). pose proof (byte_to_Z_range b).
    destruct (decide (Z.lxor (byte_to_Z a) (byte_to_Z b) = 0)) as [->|Hn]; [lia|].
    apply Z.log2_lt_pow2; [apply Z.le_neq; split; [apply Z.lxor_nonneg; lia|done]|].
    eapply Z.le_lt_trans; [apply Z.log2_lxor; lia|].
    assert (forall x, 0 <= x < 256 -> Z.log2 x < 8) as Hl.
    { intros x Hx. destruct (decide (x = 0)) as [->|]; [done|]. apply Z.log2_lt_pow2; lia. }
    apply Z.max_lub_lt; by apply Hl.
Qed.
Lemma xor_byte_shared a b k : xor_byte (xor_byte a k) (xor_byte b k) = xor_byte a b.
Proof.
  unfold xor_byte at 1. rewrite !lxor_bytes. unfold xor_byte. f_equal.
  rewrite (Z.lxor_comm (byte_to_Z b)), Z.lxor_assoc, <- (Z.lxor_assoc (byte_to_Z k)), Z.lxor_nilpotent.
  by rewrite Z.lxor_0_l.
Qed.

Lemma xor_bytes_cancel v k : length v = length k -> xor_bytes (xor_bytes v k) k = v.
Proof.
  revert k. induction v as [|a v IH]; intros [|b k] Hl; try done. cbn. f_equal; [apply xor_byte_cancel|].
  apply IH. by injection Hl.
Qed.
Lemma xor_bytes_length v k : length v = length k -> length (xor_bytes v k) = length v.
Proof. intros Hl. unfold xor_bytes. rewrite length_zip_with. lia. Qed.

Section Cipher.
Context `{Ciphers}.
Implicit Types (w : Wallet).

(** Two wallets that encrypt alike. *)
Definition same_cipher w w' : Prop := w_passwordBytes w' = w_passwordBytes w /\ w_Iv w' = w_Iv w.

Lemma stream_length w n : length (stream w n) = n.
Proof. unfold stream. by rewrite length_map, length_seq. Qed.
Lemma stream_take w n m : (n <= m)%nat -> take n (stream w m) = stream w n.
Proof. intros Hn. unfold stream. rewrite firstn_map, take_seq. by rewrite Nat.min_l by done. Qed.
Lemma same_stream w w' n : same_cipher w w' -> stream w' n = stream w n.
Proof. intros [E1 E2]. unfold stream. by rewrite E1, E2. Qed.
Lemma same_cipher_of w w' : same_cipher w w' -> cipher_of w' = cipher_of w.
Proof. intros [E1 E2]. unfold cipher_of. by rewrite E1, E2. Qed.
Lemma XORKeyStream_length w v : length (XORKeyStream w v) = length v.
Proof. apply xor_bytes_length. by rewrite stream_length. Qed.
Lemma XORKeyStream_twice w w' v : same_cipher w w' -> XORKeyStream w' (XORKeyStream w v) = v.
Proof.
  intros Hs. unfold XORKeyStream at 1. rewrite XORKeyStream_length, (same_stream _ _ _ Hs).
  apply xor_bytes_cancel. by rewrite stream_length.
Qed.

(** What [encrypt] returns. *)
Definition ciphertext w (v : bytes) : bytes := zeros BlockSize ++ XORKeyStream w (ValidationTag ++ v).
Lemma encrypt_ok w v : cipher_of w = Ok tt -> encrypt w v = Ok (ciphertext w v).
Proof. intros E. unfold encrypt. by rewrite E. Qed.

Lemma decrypt_ciphertext w w' v : cipher_of w' = Ok tt ->
  decrypt w' (ciphertext w v) =
    let plaintext := XORKeyStream w' (XORKeyStream w (ValidationTag ++ v)) ++ zeros 32 in
    let! tag := slice_to plaintext 13 in
    if negb (bytes_eqb tag ValidationTag) then Err "wrong password" else slice_from plaintext 13.
Proof.
  intros E. unfold decrypt, ciphertext. rewrite E. cbn [obind]. rewrite slice_suffix by done. cbn [obind].
  rewrite length_app, XORKeyStream_length. change (length (zeros BlockSize)) with 16%nat.
  by replace (BlockSize + (16 + length (ValidationTag ++ v)) - length (ValidationTag ++ v))%nat with 32%nat
    by (unfold BlockSize; lia).
Qed.
Lemma decrypt_same w w' v : same_cipher w w' -> cipher_of w = Ok tt ->
  decrypt w' (ciphertext w v) = Ok (v ++ zeros 32).
Proof.
  intros Hs E. rewrite decrypt_ciphertext by (by rewrite (same_cipher_of _ _ Hs)). cbv zeta.
  rewrite XORKeyStream_twice by done. rewrite <- app_assoc. rewrite slice_prefix by done. cbn [obind].
  rewrite bytes_eqb_refl. by rewrite slice_suffix.
Qed.
Lemma decrypt_other w w' v : cipher_of w' = Ok tt -> stream w' 13 <> stream w 13 ->
  decrypt w' (ciphertext w v) = Err "wrong password".
Proof.
  intros E Hne. rewrite decrypt_ciphertext by done. cbv zeta.
  set (p := XORKeyStream w' _). assert (length p = 13 + length v)%nat as Hp
    by (unfold p; rewrite !XORKeyStream_length, length_app; done).
  rewrite <- (take_drop 13 p), <- app_assoc. rewrite slice_prefix by (rewrite length_take; lia). cbn [obind].
  rewrite bytes_eqb_ne; [done|]. intros Et. apply Hne.
  assert (take 13 p = xor_bytes (xor_bytes ValidationTag (stream w 13)) (stream w' 13)) as Ep.
  { unfold p, XORKeyStream, xor_bytes. rewrite length_zip_with, stream_length, Nat.min_id, !zip_with_take.
    rewrite !stream_take by (rewrite length_app; cbn; lia). done. }
  rewrite Et in Ep.
  assert (forall (a k k' : bytes), length a = length k -> length k = length k' ->
    a = xor_bytes (xor_bytes a k) k' -> k' = k) as Hx.
  { clear. induction a as [|x a IH]; intros [|y k] [|z k'] L1 L2 Ea; try done. cbn in Ea. injection Ea as E1 E2.
    f_equal; [|apply (IH k k'); [by injection L1|by injection L2|done]].
    apply (f_equal (fun b => xor_byte (xor_byte b z) x)) in E1. rewrite xor_byte_cancel in E1.
    rewrite (xor_byte_comm x z), xor_byte_cancel, (xor_byte_comm x y), xor_byte_cancel in E1. done. }
  apply (Hx ValidationTag); [by rewrite stream_length|by rewrite !stream_length|done].
Qed.

(** The stream does not depend on what is encrypted. *)
Lemma ciphertexts_share w (v1 v2 : bytes) :
  xor_bytes (drop BlockSize (ciphertext w v1)) (drop BlockSize (ciphertext w v2))
  = xor_bytes (ValidationTag ++ v1) (ValidationTag ++ v2).
Proof.
  unfold ciphertext. rewrite !drop_app_length' by done. unfold XORKeyStream.
  set (a := ValidationTag ++ v1). set (b := ValidationTag ++ v2). clearbody a b. unfold stream.
  set (f := ctr_stream _ _). clearbody f. generalize 0%nat. revert b.
  induction a as [|x a IH]; intros [|y b] i; try done. cbn. f_equal; [apply xor_byte_shared|]. apply IH.
Qed.
End Cipher.

(** ** What storing does *)

Lemma act_bind_ok {A B} (m : Act A) (k : A -> Act B) s a s' :
  m s = (Some (Ok a), s') -> act_bind m k s = k a s'.
Proof. unfold act_bind. by intros ->. Qed.
Lemma act_bind_assoc {A B C} (m : Act A) (k : A -> Act B) (h : B -> Act C) s :
  act_bind (act_bind m k) h s = act_bind m (fun a => act_bind (k a) h) s.
Proof. unfold act_bind. by destruct (m s) as [[[]|] ?]. Qed.

(** [f] on the directory [path], made when it is missing. *)
Definition in_dir (f : Dir -> Dir) (path : string) (m : gmap string Dir) : gmap string Dir :=
  <[path := f (default new_dir (m !! path))]> m.
Definition add_file (name : string) (b : bytes) (d : Dir) : Dir := mk_Dir (<[name := b]> (dir_files d)) (dir_db d).
Definition add_entry (k b : bytes) (d : Dir) : Dir := mk_Dir (dir_files d) (<[k := b]> (dir_db d)).

Lemma mkdir_change f path s :
  act_bind (mkdir path) (fun _ => change_dir f path) s = (Some (Ok tt), set_dirs (in_dir f path (dk_Dirs s)) s).
Proof.
  unfold act_bind, mkdir, change_dir, in_dir. destruct (dk_Dirs s !! path) as [d|] eqn:E.
  - unfold set_dirs. do 3 f_equal. apply map_eq. intros i. destruct (decide (i = path)) as [->|].
    + by rewrite lookup_alter_eq, lookup_insert_eq, E.
    + by rewrite lookup_alter_ne, lookup_insert_ne by done.
  - unfold set_dirs. cbn. do 3 f_equal. apply map_eq. intros i. destruct (decide (i = path)) as [->|].
    + by rewrite lookup_alter_eq, !lookup_insert_eq.
    + by rewrite lookup_alter_ne, !lookup_insert_ne by done.
Qed.
Lemma mkdir_exists path s : is_Some (dk_Dirs s !! path) -> mkdir path s = (Some (Ok tt), s).
Proof. intros [d E]. unfold mkdir. by rewrite E. Qed.

Section Storing.
Context `{Hasher} `{OqsLib} `{OqsSigner} `{Ciphers} `{Mnemonics} `{JSONLaws Document}.
Variables (ec : EncryptionConfig) (HOME : string).
Implicit Types (w : Wallet) (s : Desk).

Definition encrypted w : Wallet :=
  set_encrypted (ciphertext w (sk_ByteValue (w_secretKey w))) (ciphertext w (sk_ByteValue (w_secretKey2 w))) w.

Lemma encrypt_first_ok w s : cipher_of w = Ok tt -> dk_Wallet s = w ->
  encrypt_first s = (Some (Ok tt), set_wallet (set_encrypted (ciphertext w (sk_ByteValue (w_secretKey w)))
                                                (w_EncryptedSecretKey2 w) w) s).
Proof. intros E <-. unfold encrypt_first, act_bind, act_get, act_lift, act_of, st_lift. by rewrite encrypt_ok. Qed.
Lemma encrypt_second_ok w s : cipher_of w = Ok tt -> dk_Wallet s = w ->
  encrypt_second s = (Some (Ok tt), set_wallet (set_encrypted (w_EncryptedSecretKey w)
                                                 (ciphertext w (sk_ByteValue (w_secretKey2 w))) w) s).
Proof. intros E <-. unfold encrypt_second, act_bind, act_get, act_lift, act_of, st_lift. by rewrite encrypt_ok. Qed.

(** A wallet that can be stored, and what is written of it. *)
Record storable w (wm : bytes) : Prop := {
  sb_secret : sk_ByteValue (w_secretKey w) <> [];
  sb_cipher : cipher_of w = Ok tt;
  sb_json : json_Marshal (document (encrypted w)) = Ok wm
}.
Definition files_of w (wm : bytes) (m : gmap string Dir) : gmap string Dir :=
  in_dir (add_file (wallet_file (w_WalletNumber w)) wm) (w_HomePath2 w)
    (in_dir (add_file (wallet_file (w_WalletNumber w)) wm) (w_HomePath w) m).
Definition entries_of w (wm : bytes) (m : gmap string Dir) : gmap string Dir :=
  in_dir (add_entry (wallet_key (w_WalletNumber w)) wm) (w_HomePath2 w)
    (in_dir (add_entry (wallet_key (w_WalletNumber w)) wm) (w_HomePath w) m).

Lemma write_both w wm s : dk_Wallet s = encrypted w -> json_Marshal (document (encrypted w)) = Ok wm ->
  (act! w <- act_get;
   act! wm <- act_lift (json_Marshal (document w));
   then! mkdir (w_HomePath w);
   then! write_file (w_HomePath w) (wallet_file (w_WalletNumber w)) wm;
   act! wm2 <- act_lift (json_Marshal (document w));
   then! mkdir (w_HomePath2 w);
   write_file (w_HomePath2 w) (wallet_file (w_WalletNumber w)) wm2) s
  = (Some (Ok tt), set_dirs (files_of w wm (dk_Dirs s)) s).
Proof.
  intros Ew Ej. erewrite act_bind_ok by reflexivity. rewrite Ew.
  erewrite act_bind_ok by (unfold act_lift, act_of, st_lift; rewrite Ej; reflexivity).
  rewrite <- act_bind_assoc. unfold write_file. erewrite act_bind_ok by apply mkdir_change.
  erewrite act_bind_ok by (unfold act_lift, act_of, st_lift; rewrite Ej; reflexivity).
  rewrite mkdir_change. done.
Qed.

Lemma StoreJSON_ok w wm s : storable w wm -> dk_Wallet s = w ->
  StoreJSON false s = (Some (Ok tt), mk_Desk (encrypted w) (files_of w wm (dk_Dirs s)) (dk_Locked s)).
Proof.
  intros [Hs Hc Hj] Hw. unfold StoreJSON. erewrite act_bind_ok by reflexivity. rewrite Hw.
  destruct (sk_ByteValue (w_secretKey w)) eqn:Es; [done|].
  erewrite act_bind_ok by reflexivity. erewrite act_bind_ok by (by apply encrypt_first_ok).
  erewrite act_bind_ok by reflexivity.
  erewrite act_bind_ok.
  2: { apply (encrypt_second_ok (set_encrypted (ciphertext w (sk_ByteValue (w_secretKey w))) (w_EncryptedSecretKey2 w) w)); done. }
  rewrite (write_both w wm); [done| |exact Hj]. cbn. unfold encrypted. done.
Qed.

Lemma encrypted_encrypted w : encrypted (encrypted w) = encrypted w.
Proof. done. Qed.
Lemma storable_encrypted w wm : storable w wm -> storable (encrypted w) wm.
Proof. by intros []. Qed.

Lemma store_db_ok w wm s : storable w wm -> dk_Wallet s = w -> w_HomePath2 w <> w_HomePath w ->
  is_Some (dk_Dirs s !! w_HomePath w) -> is_Some (dk_Dirs s !! w_HomePath2 w) ->
  store_db false s = (Some (Ok tt), mk_Desk (encrypted w) (entries_of w wm (dk_Dirs s)) (dk_Locked s)).
Proof.
  intros [Hs Hc Hj] Hw Hne H1' H2'. unfold store_db. erewrite act_bind_ok by reflexivity. rewrite Hw.
  erewrite act_bind_ok by (by apply mkdir_exists). erewrite act_bind_ok by (by apply encrypt_first_ok).
  erewrite act_bind_ok by reflexivity. unfold open_second.
  replace (w_HomePath2 w =? w_HomePath w)%string with false by (symmetry; by apply String.eqb_neq).
  erewrite act_bind_ok by (by apply mkdir_exists).
  erewrite act_bind_ok.
  2: { apply (encrypt_second_ok (set_encrypted (ciphertext w (sk_ByteValue (w_secretKey w))) (w_EncryptedSecretKey2 w) w)); done. }
  erewrite act_bind_ok by reflexivity. cbn [dk_Wallet set_wallet].
  erewrite act_bind_ok by (unfold act_lift, act_of, st_lift; change (json_Marshal _) with (json_Marshal (document (encrypted w))); rewrite Hj; reflexivity).
  unfold act_bind, put, change_dir, entries_of, in_dir, set_dirs, set_wallet. cbn. do 2 f_equal.
  destruct H1' as [d1 E1], H2' as [d2 E2]. f_equal.
  rewrite lookup_insert_ne by done. rewrite E1, E2. cbn [default].
  apply map_eq. intros i. destruct (decide (i = w_HomePath2 w)) as [->|].
  - rewrite lookup_alter_eq, lookup_insert_eq, lookup_alter_ne by done. by rewrite E2.
  - rewrite lookup_alter_ne, lookup_insert_ne by done. destruct (decide (i = w_HomePath w)) as [->|].
    + by rewrite lookup_alter_eq, lookup_insert_eq, E1.
    + by rewrite lookup_alter_ne, lookup_insert_ne by done.
Qed.

Lemma files_of_exist w wm m : is_Some (files_of w wm m !! w_HomePath w) /\ is_Some (files_of w wm m !! w_HomePath2 w).
Proof.
  unfold files_of, in_dir. split; [|rewrite lookup_insert_eq; by eexists].
  destruct (decide (w_HomePath w = w_HomePath2 w)) as [->|]; [rewrite lookup_insert_eq; by eexists|].
  rewrite lookup_insert_ne by done. rewrite lookup_insert_eq. by eexists.
Qed.

Lemma Store_false w wm s : storable w wm -> dk_Wallet s = w -> w_HomePath2 w <> w_HomePath w ->
  Store false s = if dk_Locked s then (None, mk_Desk (encrypted w) (files_of w wm (dk_Dirs s)) true)
                  else (Some (Ok tt), mk_Desk (encrypted w) (entries_of w wm (files_of w wm (dk_Dirs s))) false).
Proof.
  intros Hs Hw Hne. unfold Store. erewrite act_bind_ok by reflexivity. rewrite Hw.
  pose proof (sb_secret _ _ Hs) as Hk. destruct (sk_ByteValue (w_secretKey w)) eqn:Es; [done|].
  erewrite act_bind_ok by (by apply StoreJSON_ok). erewrite act_bind_ok by reflexivity.
  unfold locked. cbn [dk_Locked]. destruct (dk_Locked s); [done|]. unfold set_locked. cbn [dk_Wallet dk_Dirs].
  erewrite (store_db_ok (encrypted w) wm); [done|by apply storable_encrypted|done|done|..]; apply (files_of_exist w).
Qed.

(** The entries of the database, after they were written. *)
Lemma entries_read w wm m : w_HomePath2 w <> w_HomePath w ->
  (entries_of w wm m !! w_HomePath w ≫= fun d => dir_db d !! wallet_key (w_WalletNumber w)) = Some wm /\
  (entries_of w wm m !! w_HomePath2 w ≫= fun d => dir_db d !! wallet_key (w_WalletNumber w)) = Some wm.
Proof.
  intros Hne. unfold entries_of, in_dir. rewrite lookup_insert_ne, !lookup_insert_eq by done. cbn.
  by rewrite !lookup_insert_eq.
Qed.

(** ** A wallet of the node *)

Record in_order w (n : Z) (password : string) : Prop := {
  io_number : w_WalletNumber w = n;
  io_path : w_HomePath w = home_path HOME n (sigName ec);
  io_path2 : w_HomePath2 w = home_path HOME n (sigName2 ec);
  io_two : sigName ec <> sigName2 ec;
  io_password : password <> ""%string;
  io_key : w_passwordBytes w = passwordToByte password;
  io_iv : length (w_Iv w) = BlockSize;
  io_secret : len (sk_ByteValue (w_secretKey w)) = PrivateKeyLength ec;
  io_secret2 : len (sk_ByteValue (w_secretKey2 w)) = PrivateKeyLength2 ec;
  io_long : 0 < PrivateKeyLength ec;
  io_enabled : oqs_Details (sigName ec) <> None;
  io_enabled2 : oqs_Details (sigName2 ec) <> None
}.

Lemma home_path_inj n a b : home_path HOME n a = home_path HOME n b -> a = b.
Proof. unfold home_path. intros E. by do 4 apply (inj _) in E. Qed.
Lemma cipher_of_password w password : w_passwordBytes w = passwordToByte password ->
  length (w_Iv w) = BlockSize -> cipher_of w = Ok tt.
Proof.
  intros Ek Ei. unfold cipher_of. rewrite Ek, Ei. unfold passwordToByte. by rewrite (arr_length (ShakeSum256 _)).
Qed.
Lemma in_order_paths w n password : in_order w n password -> w_HomePath2 w <> w_HomePath w.
Proof. intros Hio. rewrite (io_path _ _ _ Hio), (io_path2 _ _ _ Hio). intros E%home_path_inj. by apply (io_two _ _ _ Hio). Qed.
Lemma in_order_secret w n password : in_order w n password -> sk_ByteValue (w_secretKey w) <> [].
Proof.
  intros Hio E. pose proof (io_secret _ _ _ Hio) as Hl. rewrite E in Hl.
  pose proof (io_long _ _ _ Hio). change (0 = PrivateKeyLength ec) in Hl. lia.
Qed.
Lemma in_order_storable w n password wm : in_order w n password ->
  json_Marshal (document (encrypted w)) = Ok wm -> storable w wm.
Proof.
  intros Hio Hj. split; [by eapply in_order_secret|eapply cipher_of_password; [apply Hio|apply Hio]|done].
Qed.

(** What a wallet that is loaded shares with the one that was stored. *)
Record same_wallet w w' : Prop := {
  sw_secret : sk_ByteValue (w_secretKey w') = sk_ByteValue (w_secretKey w);
  sw_secret2 : sk_ByteValue (w_secretKey2 w') = sk_ByteValue (w_secretKey2 w);
  sw_public : w_PublicKey w' = flag_key true (w_PublicKey w);
  sw_public2 : w_PublicKey2 w' = flag_key false (w_PublicKey2 w);
  sw_address : w_Address w' = set_flag true (w_Address w);
  sw_address2 : w_Address2 w' = set_flag false (w_Address2 w);
  sw_main : w_MainAddress w' = set_flag true (w_MainAddress w);
  sw_signer : w_signer w' = Some (mk_Signer (sigName ec) (sk_ByteValue (w_secretKey w)));
  sw_signer2 : w_signer2 w' = Some (mk_Signer (sigName2 ec) (sk_ByteValue (w_secretKey2 w)));
  sw_paths : w_HomePath w' = w_HomePath w /\ w_HomePath2 w' = w_HomePath2 w;
  sw_cipher : same_cipher w w'
}.

Lemma Signer_Init_enabled name secret : oqs_Details name <> None -> Signer_Init name secret = Ok (mk_Signer name secret).
Proof. unfold Signer_Init. by destruct (oqs_Details name). Qed.

(** A secret key that was encrypted with the cipher of the wallet is unlocked. *)
Lemma unlock_first_ok w w0 v : same_cipher w0 w -> cipher_of w0 = Ok tt -> len v = PrivateKeyLength ec ->
  w_EncryptedSecretKey w = ciphertext w0 v -> oqs_Details (sigName ec) <> None ->
  unlock_first ec w = Ok (set_signers (Some (mk_Signer (sigName ec) v)) (w_signer2 w)
                            (set_secrets (mk_PrivKey v (w_Address w) true) (w_secretKey2 w) w)).
Proof.
  intros Hs Hc Hl He Hn. unfold unlock_first. rewrite He, (decrypt_same _ _ _ Hs Hc). cbn [obind].
  rewrite slice_prefix by (by rewrite <- Hl). cbn [obind]. unfold PrivKey_Init. rewrite Hl, Z.eqb_refl. cbn [negb andb obind].
  by rewrite Signer_Init_enabled.
Qed.
Lemma unlock_second_ok wc w w0 v : same_cipher w0 wc -> cipher_of w0 = Ok tt -> len v = PrivateKeyLength2 ec ->
  w_EncryptedSecretKey2 w = ciphertext w0 v -> oqs_Details (sigName2 ec) <> None ->
  unlock_second ec wc w = Ok (set_signers (w_signer w) (Some (mk_Signer (sigName2 ec) v))
    (set_secrets (w_secretKey w) (mk_PrivKey v (w_Address2 w) (PrivateKeyLength2 ec =? PrivateKeyLength ec)) w)).
Proof.
  intros Hs Hc Hl He Hn. unfold unlock_second. rewrite He, (decrypt_same _ _ _ Hs Hc). cbn [obind].
  rewrite slice_prefix by (by rewrite <- Hl). cbn [obind]. unfold PrivKey_Init. rewrite Hl, Z.eqb_refl.
  rewrite andb_false_r. cbn [andb obind]. by rewrite Signer_Init_enabled.
Qed.

Lemma Load_stored w n password wm s : in_order w n password -> json_Marshal (document (encrypted w)) = Ok wm ->
  dk_Locked s = false ->
  (dk_Dirs s !! w_HomePath w ≫= fun d => dir_db d !! wallet_key n) = Some wm ->
  (dk_Dirs s !! w_HomePath2 w ≫= fun d => dir_db d !! wallet_key n) = Some wm ->
  exists w', Load ec HOME n password s = (Some (Ok w'), s) /\ same_wallet w w'.
Proof.
  intros Hio Hj Hlk E1 E2. pose proof (in_order_paths _ _ _ Hio) as Hne.
  assert (cipher_of w = Ok tt) as Hc by (eapply cipher_of_password; apply Hio).
  unfold Load. rewrite (proj2 (String.eqb_neq password "") (io_password _ _ _ Hio)). unfold locked. rewrite Hlk.
  set (s1 := set_locked true s).
  assert (dk_Dirs s1 = dk_Dirs s) as Ed by done.
  unfold load_db. cbv zeta. cbn [w_HomePath w_HomePath2 EmptyWallet]. rewrite <- (io_path _ _ _ Hio), <- (io_path2 _ _ _ Hio).
  assert (forall p, (dk_Dirs s !! p ≫= fun d => dir_db d !! wallet_key n) = Some wm -> is_Some (dk_Dirs s1 !! p)) as Hex.
  { intros p E. rewrite Ed. destruct (dk_Dirs s !! p); [by eexists|done]. }
  erewrite act_bind_ok by (by apply mkdir_exists, Hex).
  erewrite act_bind_ok by (unfold get; rewrite Ed, E1; reflexivity).
  erewrite act_bind_ok by (unfold act_lift, act_of, st_lift; erewrite json_roundtrip by exact Hj; reflexivity).
  erewrite act_bind_ok.
  2: { unfold act_lift, act_of, st_lift. rewrite (unlock_first_ok _ w (sk_ByteValue (w_secretKey w))); [reflexivity|..];
         [|done|apply Hio|done|apply Hio]. split; [by rewrite (io_key _ _ _ Hio)|done]. }
  replace (w_HomePath2 w =? w_HomePath w)%string with false by (symmetry; by apply String.eqb_neq).
  erewrite act_bind_ok by (by apply mkdir_exists, Hex). cbn [w_HomePath2 set_paths].
  erewrite act_bind_ok by (unfold get; rewrite Ed, E2; reflexivity).
  erewrite act_bind_ok by (unfold act_lift, act_of, st_lift; erewrite json_roundtrip by exact Hj; reflexivity).
  erewrite act_bind_ok.
  2: { unfold act_lift, act_of, st_lift. rewrite (unlock_second_ok _ _ w (sk_ByteValue (w_secretKey2 w))); [reflexivity|..];
         [|done|apply Hio|done|apply Hio]. split; [by rewrite (io_key _ _ _ Hio)|done]. }
  eexists. split.
  - unfold act_ret, s1, set_locked. cbn. destruct s; cbn in Hlk; subst; reflexivity.
  - split; try done. split; [by rewrite (io_key _ _ _ Hio)|done].
Qed.
End Storing.

(** ** Backups *)

#[export] Instance backup_path_inj path : Inj (=) (=) (backup_path path).
Proof. intros a b E. unfold backup_path in E. by do 3 apply (inj _) in E. Qed.

Lemma free_backup_none dirs path fuel : forall k, free_backup dirs path fuel k = None ->
  forall j, k <= j < k + Z.of_nat fuel -> backup_path path j ∈ dom dirs.
Proof.
  induction fuel as [|fuel IH]; intros k; [lia|]. cbn [free_backup].
  destruct (dirs !! backup_path path k) as [d|] eqn:E; [|done]. intros En j Hj.
  destruct (decide (j = k)) as [->|]; [by apply elem_of_dom_2 in E|]. apply (IH (k + 1)); [done|lia].
Qed.
(** The search for a free number ends. *)
Lemma free_backup_some dirs path : exists new, free_backup dirs path (S (size dirs)) 1 = Some new /\ dirs !! new = None.
Proof.
  assert (forall fuel k new, free_backup dirs path fuel k = Some new -> dirs !! new = None) as Hfree.
  { induction fuel as [|fuel IH]; intros k new; [done|]. cbn [free_backup].
    destruct (dirs !! backup_path path k) eqn:E; [apply IH|by intros [= <-]]. }
  destruct (free_backup dirs path (S (size dirs)) 1) as [new|] eqn:E; [eauto|].
  pose proof (free_backup_none _ _ _ _ E) as Hall.
  set (l := map (backup_path path) (seqZ 1 (Z.of_nat (S (size dirs))))).
  assert (NoDup l) as Hnd by (apply NoDup_fmap_2; [apply _|apply NoDup_seqZ]).
  assert (list_to_set l ⊆ dom dirs) as Hsub.
  { intros x Hx. apply elem_of_list_to_set in Hx. unfold l in Hx. apply list_elem_of_fmap in Hx as (j & -> & Hj).
    apply elem_of_seqZ in Hj. apply Hall. lia. }
  apply subseteq_size in Hsub. rewrite size_list_to_set in Hsub by done. unfold l in Hsub.
  rewrite length_map, length_seqZ, size_dom in Hsub. lia.
Qed.
Lemma backup_exists old s d : dk_Dirs s !! old = Some d -> exists new, dk_Dirs s !! new = None /\
  (exists k, new = backup_path old k) /\
  backup old s = (Some (Ok tt), set_dirs (<[new := d]> (delete old (dk_Dirs s))) s).
Proof.
  intros E. unfold backup. destruct (free_backup_some (dk_Dirs s) old) as (new & En & Hn). rewrite En.
  exists new. split; [done|]. split.
  - revert En. generalize (S (size (dk_Dirs s))) as fuel. generalize 1 as k. intros k fuel. revert k.
    induction fuel as [|fuel IH]; intros k; [done|]. cbn [free_backup].
    destruct (dk_Dirs s !! backup_path old k); [apply IH|intros [= <-]; by eexists].
  - unfold rename. by rewrite E.
Qed.
Lemma backup_missing old s : dk_Dirs s !! old = None -> backup old s = (Some (Err "no such file or directory"), s).
Proof.
  intros E. unfold backup. destruct (free_backup_some (dk_Dirs s) old) as (new & -> & _). unfold rename. by rewrite E.
Qed.

Section Claims.
Context `{Hasher} `{OqsLib} `{OqsSigner} `{Ciphers} `{Mnemonics} `{JSONLaws Document}.
Variables (ec : EncryptionConfig) (HOME : string).
Implicit Types (w : Wallet) (s : Desk).

(** The first secret key was encrypted with another stream. *)
Lemma Load_other_stream w n other wm s : w_WalletNumber w = n -> w_HomePath w = home_path HOME n (sigName ec) ->
  json_Marshal (document (encrypted w)) = Ok wm -> other <> ""%string -> length (w_Iv w) = BlockSize ->
  stream (SetPassword other w) 13 <> stream w 13 -> dk_Locked s = false ->
  (dk_Dirs s !! w_HomePath w ≫= fun d => dir_db d !! wallet_key n) = Some wm ->
  Load ec HOME n other s = (Some (Err "wrong password"), s).
Proof.
  intros En Ep Hj Ho Hiv Hne Hlk E1. unfold Load. rewrite (proj2 (String.eqb_neq other "") Ho). unfold locked. rewrite Hlk.
  set (s1 := set_locked true s). assert (dk_Dirs s1 = dk_Dirs s) as Ed by done.
  unfold load_db. cbv zeta. cbn [w_HomePath EmptyWallet]. rewrite <- Ep.
  erewrite act_bind_ok by (apply mkdir_exists; rewrite Ed; by destruct (dk_Dirs s !! w_HomePath w)).
  erewrite act_bind_ok by (unfold get; rewrite Ed, E1; reflexivity).
  erewrite act_bind_ok by (unfold act_lift, act_of, st_lift; erewrite json_roundtrip by exact Hj; reflexivity).
  set (w1 := SetPassword other _).
  assert (unlock_first ec w1 = Err "wrong password") as Hu.
  { unfold unlock_first. change (w_EncryptedSecretKey w1) with (ciphertext w (sk_ByteValue (w_secretKey w))).
    rewrite decrypt_other; [done|by apply (cipher_of_password w1 other)|exact Hne]. }
  unfold act_bind at 1, act_lift, act_of, st_lift. rewrite Hu. cbn. destruct s; cbn in Hlk; subst; reflexivity.
Qed.

(** C9: a wallet that is stored is loaded back with its password: the secret keys,
    the public keys, the addresses and the signers are those that were stored; with
    another password the load is refused, unless the two streams begin with the same
    thirteen bytes. *)
Theorem Store_Load w n password wm s :
  in_order ec HOME w n password -> json_Marshal (document (encrypted w)) = Ok wm ->
  dk_Wallet s = w -> dk_Locked s = false ->
  exists s' w', Store false s = (Some (Ok tt), s') /\
    Load ec HOME n password s' = (Some (Ok w'), s') /\ same_wallet ec w w' /\
    (forall other, other <> ""%string -> stream (SetPassword other w) 13 <> stream w 13 ->
       Load ec HOME n other s' = (Some (Err "wrong password"), s')).
Proof.
  intros Hio Hj Hw Hlk. pose proof (in_order_paths _ _ _ _ _ Hio) as Hne.
  pose proof (Store_false w wm s (in_order_storable _ _ _ _ _ _ Hio Hj) Hw Hne) as Es. rewrite Hlk in Es.
  set (s' := mk_Desk _ _ false) in Es. destruct (entries_read w wm (files_of w wm (dk_Dirs s)) Hne) as [E1 E2].
  rewrite (io_number _ _ _ _ _ Hio) in E1, E2.
  destruct (Load_stored ec HOME w n password wm s' Hio Hj eq_refl E1 E2) as (w' & Hl & Hsame).
  exists s', w'. do 3 (split; [done|]). intros other Ho Hst.
  apply (Load_other_stream w n other wm s'); try done; apply Hio.
Qed.

(** C10: changing the password never returns.  It takes the lock of the package and
    calls [Store], which waits for it: the JSON files have the wallet under the new
    password by then, the databases keep the old entries, the lock is never given
    back, and from then on nobody gets the active wallet. *)
Theorem ChangePassword_blocks w n password newPassword wm s :
  in_order ec HOME w n password ->
  json_Marshal (document (encrypted (with_new_password newPassword w))) = Ok wm ->
  dk_Wallet s = w -> dk_Locked s = false ->
  exists s', ChangePassword ec HOME password newPassword s = (None, s') /\
    GetActiveWallet s' = (None, s') /\
    (dk_Dirs s' !! w_HomePath w ≫= fun d => dir_files d !! wallet_file n) = Some wm /\
    (forall path k, (dk_Dirs s' !! path ≫= fun d => dir_db d !! k) = (dk_Dirs s !! path ≫= fun d => dir_db d !! k)).
Proof.
  intros Hio Hj Hw Hlk. pose proof (in_order_paths _ _ _ _ _ Hio) as Hne.
  set (w2 := with_new_password newPassword w) in *.
  assert (storable w2 wm) as Hst.
  { split; [exact (in_order_secret _ _ _ _ _ Hio)|by apply (cipher_of_password w2 newPassword); [|apply Hio]|done]. }
  eexists. unfold ChangePassword. erewrite act_bind_ok by reflexivity. rewrite Hw.
  destruct (w_passwordBytes w) as [|b pb] eqn:Epb.
  { pose proof (cipher_of_password w password (io_key _ _ _ _ _ Hio) (io_iv _ _ _ _ _ Hio)) as Hc.
    unfold cipher_of in Hc. by rewrite Epb in Hc. }
  rewrite <- Epb, (io_key _ _ _ _ _ Hio), bytes_eqb_refl. cbn [negb]. unfold locked at 1. rewrite Hlk.
  unfold act_bind at 1, on_copy at 1.
  rewrite (Store_false w2 wm) by done. cbn [dk_Locked set_wallet set_locked].
  split; [reflexivity|]. split; [done|]. cbn [dk_Dirs]. unfold files_of, in_dir, set_wallet, set_locked. cbn [dk_Dirs].
  split.
  - change (w_HomePath2 w2) with (w_HomePath2 w). change (w_HomePath w2) with (w_HomePath w).
    rewrite lookup_insert_ne, lookup_insert_eq by done. cbn. rewrite (io_number _ _ _ _ _ Hio). apply lookup_insert_eq.
  - assert (forall f m path k, (forall d, dir_db (f d) = dir_db d) -> forall p : string,
      ((<[p := f (default new_dir (m !! p))]> m : gmap string Dir) !! path ≫= fun d => dir_db d !! k)
      = (m !! path ≫= fun d => dir_db d !! k)) as Hdb.
    { intros f m path k Hf p. destruct (decide (p = path)) as [->|]; [|by rewrite lookup_insert_ne by done].
      rewrite lookup_insert_eq. cbn. rewrite Hf. by destruct (m !! path). }
    intros path k. rewrite (Hdb (add_file _ _)) by done. by rewrite (Hdb (add_file _ _)).
Qed.

(** the two secret keys of a stored wallet are encrypted with one stream: in the
    JSON file, without the password, their difference can be read. *)
Theorem stored_keys_share_stream w wm s :
  storable w wm -> dk_Wallet s = w -> w_HomePath2 w <> w_HomePath w -> dk_Locked s = false ->
  exists s', Store false s = (Some (Ok tt), s') /\
    xor_bytes (drop BlockSize (w_EncryptedSecretKey (dk_Wallet s'))) (drop BlockSize (w_EncryptedSecretKey2 (dk_Wallet s')))
    = xor_bytes (ValidationTag ++ sk_ByteValue (w_secretKey w)) (ValidationTag ++ sk_ByteValue (w_secretKey2 w)).
Proof.
  intros Hst Hw Hne Hlk. eexists. split; [rewrite (Store_false w wm s Hst Hw Hne), Hlk; reflexivity|].
  apply ciphertexts_share.
Qed.

(** ** Signing *)

(** The keys of a scheme that liboqs generated. *)
Definition key_pair (name : string) (pk sk : bytes) : Prop :=
  (exists lsk lsg, oqs_Details name = Some (len pk, lsk, lsg)) /\
  (forall msg sig, oqs_Sign name sk msg = Some sig -> oqs_Verify name msg sig pk = Some true).

(** what a wallet signs verifies against its public key, while the scheme is not
    paused: the byte in front of the signature names the scheme that made it. *)
Theorem Sign_verifies w data (primary : bool) sig pk sk :
  let name := if primary then sigName ec else sigName2 ec in
  (if primary then w_signer w else w_signer2 w) = Some (mk_Signer name sk) -> key_pair name pk sk ->
  (if primary then IsPaused ec else IsPaused2 ec) = false ->
  Sign ec w data primary = Ok sig -> Verify ec data (sig_ByteValue sig) pk = Ok true.
Proof.
  intros name Hsg [(lsk & lsg & Hd) Hv] Hp Hs.
  assert (exists sg b, oqs_Sign name sk data = Some sg /\ sig_ByteValue sig = b :: sg /\
    (byte_to_Z b =? 0) = primary) as (sg & b & Hsig & -> & Hb).
  { unfold Sign in Hs. destruct data; [done|]. unfold name in *. destruct primary.
    all: rewrite Hsg in Hs; unfold Signer_Sign in Hs; cbn [sg_Name sg_secretKey] in Hs; rewrite Hd in Hs.
    all: destruct (negb _) in Hs; [done|]; destruct (oqs_Sign _ _ _) as [sg|]; [|done].
    all: cbn [obind] in Hs; unfold Signature_Init in Hs; cbv zeta in Hs.
    all: destruct (_ && _) in Hs; [done|]; destruct (_ && _) in Hs; [done|]; injection Hs as <-.
    all: eexists _, _; split; [reflexivity|]; split; [reflexivity|]; by vm_compute. }
  unfold Verify. cbn [index slice_from]. change (index (b :: sg) 0) with (Ok b). cbn [obind].
  assert (slice_from (b :: sg) 1 = Ok sg) as -> by exact (slice_suffix [b] sg 1 eq_refl). cbn [obind]. f_equal.
  rewrite Hb. unfold name in *.
  destruct primary; rewrite Hp; cbn [negb andb]; unfold verify_with; rewrite Hd, Z.eqb_refl; by rewrite (Hv _ _ Hsig).
Qed.

(** the mnemonic words of a secret key restore that key, in a node whose scheme
    has keys of that length. *)
Theorem mnemonic_restores w (primary : bool) words s :
  let sk := sk_ByteValue (if primary then w_secretKey w else w_secretKey2 w) in
  GetMnemonicWords w primary = Ok words ->
  len sk = (if primary then PrivateKeyLength ec else PrivateKeyLength2 ec) ->
  oqs_Details (if primary then sigName ec else sigName2 ec) <> None ->
  exists s', RestoreSecretKeyFromMnemonic ec words primary s = (Some (Ok tt), s') /\
    sk_ByteValue (if primary then w_secretKey (dk_Wallet s') else w_secretKey2 (dk_Wallet s')) = sk /\
    (if primary then w_signer (dk_Wallet s') else w_signer2 (dk_Wallet s'))
      = Some (mk_Signer (if primary then sigName ec else sigName2 ec) sk).
Proof.
  intros sk Hg Hl Hd. unfold GetMnemonicWords in Hg. fold sk in Hg.
  assert (exists key, MnemonicToByteArray words = Some key /\ slice_to key (len sk) = Ok sk) as (key & Hm & Hk).
  { destruct sk as [|b0 sk0] eqn:Esk; [done|]. rewrite <- Esk in *. cbv zeta in Hg.
    destruct (64 <? len sk) eqn:E64; [done|]. zify_bool.
    set (padded := if len sk <? 64 then _ else _) in Hg.
    assert (slice_to padded (len sk) = Ok sk) as Hpad.
    { unfold padded. destruct (len sk <? 64) eqn:E; zify_bool; [|rewrite <- (app_nil_r sk) at 1; by apply slice_prefix].
      unfold copy_bytes, len in *. rewrite take_ge by lia. by apply slice_prefix. }
    apply obind_ok_inv in Hg as (a & Ha & Hg). rewrite Hpad in Hg. cbn [obind] in Hg.
    destruct (negb _) eqn:En in Hg; [done|]. injection Hg as <-. apply negb_false_iff, bool_decide_eq_true in En. subst a.
    destruct (MnemonicToByteArray _) as [key|]; [by exists key|].
    cbn in Ha. unfold slice_to, slice in Ha. rewrite Esk in Ha. by cbn in Ha. }
  unfold RestoreSecretKeyFromMnemonic. rewrite Hm. cbv zeta. erewrite act_bind_ok by reflexivity. rewrite <- Hl.
  replace (len key <? len sk) with false
    by (symmetry; apply Z.ltb_ge; apply slice_inv in Hk; unfold len in *; lia).
  erewrite act_bind_ok by (unfold act_lift, act_of, st_lift; rewrite Hk; reflexivity).
  assert (forall a, exists p, PrivKey_Init ec sk a = Ok (mk_PrivKey sk a p)) as Hi.
  { intros a. unfold PrivKey_Init. eexists (len sk =? PrivateKeyLength ec). rewrite Hl.
    destruct primary; rewrite Z.eqb_refl; cbn [negb andb]; by rewrite ?andb_false_r. }
  destruct (Hi (if primary then w_Address (dk_Wallet s) else w_Address2 (dk_Wallet s))) as [p Ep].
  erewrite act_bind_ok by (unfold act_lift, act_of, st_lift; rewrite Ep; reflexivity).
  erewrite act_bind_ok by reflexivity. cbn [sk_ByteValue].
  erewrite act_bind_ok by (unfold act_lift, act_of, st_lift; rewrite Signer_Init_enabled by done; reflexivity).
  eexists. split; [reflexivity|]. cbn. by destruct primary.
Qed.
End Claims.

Section NewScheme.
Context `{Hasher} `{OqsLib} `{OqsSigner} `{Ciphers} `{Mnemonics} `{JSONLaws Document}.
Variables (ec : EncryptionConfig) (HOME : string).
Implicit Types (w : Wallet) (s : Desk).

(** The first scheme was replaced: the wallet has a new directory for it, and the old
    directories are there. *)
Record replaced w s : Prop := {
  rp_old : is_Some (dk_Dirs s !! w_HomePathOld w);
  rp_new : dk_Dirs s !! w_HomePath w = None;
  rp_second : w_HomePath2Old w = w_HomePath2 w /\ is_Some (dk_Dirs s !! w_HomePath2 w);
  rp_distinct : w_HomePathOld w <> w_HomePath2 w;
  rp_names : forall p k, p = w_HomePathOld w \/ p = w_HomePath2 w ->
    backup_path p k <> w_HomePath w /\ backup_path p k <> w_HomePath2 w /\ backup_path p k <> w_HomePathOld w
}.

Lemma replaced_ne w s : replaced w s -> w_HomePathOld w <> w_HomePath w /\ w_HomePath w <> w_HomePath2 w.
Proof.
  intros [[d Ho] Hn [_ [d2 Hs]] _ _]. split; intros E; [rewrite E in Ho|rewrite E in Hn]; congruence.
Qed.

(** The directories after both were moved away. *)
Lemma StoreJSON_backup w wm s : storable w wm -> dk_Wallet s = w -> replaced w s -> exists m,
  StoreJSON true s = (Some (Ok tt), mk_Desk (encrypted w) (files_of w wm m) (dk_Locked s)) /\
  m !! w_HomePath w = None /\ m !! w_HomePath2 w = None /\ m !! w_HomePathOld w = None.
Proof.
  intros [Hs Hc Hj] Hw Hr. destruct (replaced_ne _ _ Hr) as [N1 N2]. destruct Hr as [[d Ho] Hn [E2 [d2 H2']] Hd Hb].
  unfold StoreJSON. erewrite act_bind_ok by reflexivity. rewrite Hw.
  destruct (sk_ByteValue (w_secretKey w)) eqn:Es; [done|].
  destruct (backup_exists (w_HomePathOld w) s d Ho) as (new & Hfree & [k ->] & Eb).
  destruct (Hb (w_HomePathOld w) k (or_introl eq_refl)) as (B1 & B2 & B3).
  erewrite act_bind_ok by (unfold backup_if; erewrite act_bind_ok by reflexivity; rewrite Hw; exact Eb).
  set (m1 := <[backup_path (w_HomePathOld w) k := d]> (delete (w_HomePathOld w) (dk_Dirs s))).
  erewrite act_bind_ok by (by apply encrypt_first_ok).
  assert (m1 !! w_HomePath2 w = Some d2) as L1.
  { unfold m1. rewrite lookup_insert_ne by done. by rewrite lookup_delete_ne by done. }
  set (s1 := set_wallet _ _).
  destruct (backup_exists (w_HomePath2 w) s1 d2 L1) as (new2 & Hfree2 & [k2 ->] & Eb2).
  destruct (Hb (w_HomePath2 w) k2 (or_intror eq_refl)) as (C1 & C2 & C3).
  erewrite act_bind_ok.
  2: { unfold backup_if. erewrite act_bind_ok by reflexivity. unfold s1 at 1. cbn [dk_Wallet set_wallet w_HomePath2Old set_encrypted].
       rewrite E2. exact Eb2. }
  change (dk_Dirs s1) with m1.
  set (m2 := <[backup_path (w_HomePath2 w) k2 := d2]> (delete (w_HomePath2 w) m1)).
  erewrite act_bind_ok.
  2: { apply (encrypt_second_ok (set_encrypted (ciphertext w (sk_ByteValue (w_secretKey w))) (w_EncryptedSecretKey2 w) w)); done. }
  exists m2. split; [by rewrite (write_both w wm)|].
  unfold m2, m1. split; [|split].
  - rewrite lookup_insert_ne by done. rewrite lookup_delete_ne by done. rewrite lookup_insert_ne by done.
    by rewrite lookup_delete_ne by done.
  - rewrite lookup_insert_ne by done. apply lookup_delete_eq.
  - rewrite lookup_insert_ne by done. rewrite lookup_delete_ne by done. rewrite lookup_insert_ne by done.
    apply lookup_delete_eq.
Qed.

(** C14: after the first scheme was replaced the wallet is not stored.  [Store] with a
    backup moves the old directory away twice; the second time it is gone, and
    [Store] returns that error before it opens the databases: no database has an
    entry, and the node cannot load its wallet again, whatever the password. *)
Theorem Store_new_scheme_fails w wm n password s :
  storable w wm -> dk_Wallet s = w -> replaced w s -> dk_Locked s = false ->
  w_HomePath w = home_path HOME n (sigName ec) -> password <> ""%string ->
  exists s', Store true s = (Some (Err "no such file or directory"), s') /\
    (forall k, (dk_Dirs s' !! w_HomePath w ≫= fun d => dir_db d !! k) = None) /\
    (forall k, (dk_Dirs s' !! w_HomePath2 w ≫= fun d => dir_db d !! k) = None) /\
    Load ec HOME n password s' = (Some (Err "leveldb: not found"), s').
Proof.
  intros Hs Hw Hr Hlk Hp Hpass. destruct (replaced_ne _ _ Hr) as [N1 N2].
  destruct (StoreJSON_backup w wm s Hs Hw Hr) as (m & Ej & M1 & M2 & M3).
  set (s' := mk_Desk _ _ _) in Ej. exists s'.
  assert (dk_Dirs s' !! w_HomePath w = Some (add_file (wallet_file (w_WalletNumber w)) wm new_dir)) as L1.
  { unfold s', files_of, in_dir. cbn [dk_Dirs]. rewrite lookup_insert_ne by done. by rewrite lookup_insert_eq, M1. }
  assert (dk_Dirs s' !! w_HomePath2 w = Some (add_file (wallet_file (w_WalletNumber w)) wm new_dir)) as L2.
  { unfold s', files_of, in_dir. cbn [dk_Dirs]. rewrite lookup_insert_eq, lookup_insert_ne by done. by rewrite M2. }
  split; [|split; [|split]].
  - unfold Store. erewrite act_bind_ok by reflexivity. rewrite Hw. pose proof (sb_secret _ _ Hs) as Hk.
    destruct (sk_ByteValue (w_secretKey w)); [done|]. erewrite act_bind_ok by exact Ej.
    unfold act_bind at 1, backup_if at 1. erewrite act_bind_ok by reflexivity. rewrite backup_missing; [done|].
    unfold s', files_of, in_dir. cbn [dk_Dirs dk_Wallet]. change (w_HomePathOld (encrypted w)) with (w_HomePathOld w).
    destruct Hr. rewrite !lookup_insert_ne by done. exact M3.
  - intros k. rewrite L1. apply lookup_empty.
  - intros k. rewrite L2. apply lookup_empty.
  - unfold Load. rewrite (proj2 (String.eqb_neq password "") Hpass). unfold locked. change (dk_Locked s') with (dk_Locked s).
    rewrite Hlk. unfold load_db. cbv zeta. cbn [w_HomePath EmptyWallet]. rewrite <- Hp.
    erewrite act_bind_ok by (apply mkdir_exists; cbn [set_locked dk_Dirs]; rewrite L1; by eexists).
    unfold act_bind at 1, get. cbn [set_locked dk_Dirs]. rewrite L1. cbn. unfold s', set_locked. by rewrite Hlk.
Qed.
End NewScheme.

(** The main address of a new key is its own: the wallet's is not passed on. *)
Lemma AddNewEncryption_main `{Hasher} `{OqsLib} ec HOME keygen name (primary : bool) s s' :
  AddNewEncryptionToActiveWallet ec HOME keygen name primary s = (Some (Ok tt), s') ->
  let pk := if primary then w_PublicKey (dk_Wallet s') else w_PublicKey2 (dk_Wallet s') in
  addr_ByteValue (pk_MainAddress pk) = addr_ByteValue (pk_Address pk) /\
  w_MainAddress (dk_Wallet s') = w_MainAddress (dk_Wallet s).
Proof.
  unfold AddNewEncryptionToActiveWallet. erewrite act_bind_ok by reflexivity. destruct (String.eqb _ _); [done|].
  unfold act_bind at 1, act_lift, act_of, st_lift. destruct (keys_of keygen name) as [[pkb skb]|e|]; [|done..].
  rewrite PubKeyToAddress_eq. unfold act_bind at 1. unfold act_bind at 1.
  destruct (PubKey_Init ec pkb _) as [pk|e|] eqn:Ep; [|done..].
  assert (addr_ByteValue (pk_MainAddress pk) = addr_ByteValue (pk_Address pk)) as Hm.
  { unfold PubKey_Init in Ep. destruct (_ && _) in Ep; [done|]. rewrite PubKeyToAddress_eq in Ep. by injection Ep as <-. }
  destruct primary; unfold act_bind, act_modify; destruct (PrivKey_Init _ _ _); intros [= <-]; done.
Qed.

(** ** A small wallet *)

#[export] Instance KeyDoc_eq_dec : EqDecision KeyDoc.
Proof. solve_decision. Defined.
Definition kd_tuple (d : KeyDoc) := (kd_ByteValue d, kd_Address d, kd_MainAddress d, kd_Primary d).
Definition tuple_kd (t : bytes * addr20 * addr20 * bool) : KeyDoc := mk_KeyDoc t.1.1.1 t.1.1.2 t.1.2 t.2.
Lemma tuple_kd_tuple d : tuple_kd (kd_tuple d) = d.
Proof. by destruct d. Qed.
#[export] Instance KeyDoc_countable : Countable KeyDoc := inj_countable' kd_tuple tuple_kd tuple_kd_tuple.
#[export] Instance Document_eq_dec : EqDecision Document.
Proof. solve_decision. Defined.
Definition doc_tuple (d : Document) :=
  ((d_Iv d, d_EncryptedSecretKey d, d_EncryptedSecretKey2 d), (d_PublicKey d, d_PublicKey2 d),
   (d_Address d, d_Address2 d, d_MainAddress d), (d_HomePath d, d_HomePath2 d, d_HomePathOld d, d_HomePath2Old d), d_WalletNumber d).
Definition tuple_doc (t : (bytes * bytes * bytes) * (KeyDoc * KeyDoc) * (addr20 * addr20 * addr20)
    * (string * string * string * string) * Z) : Document :=
  let '(iv, e, e2, (k, k2), (a, a2, m), (p, p2, o, o2), n) := t in mk_Document iv e e2 k k2 a a2 m p p2 o o2 n.
Lemma tuple_doc_tuple d : tuple_doc (doc_tuple d) = d.
Proof. by destruct d. Qed.
#[export] Instance Document_countable : Countable Document := inj_countable' doc_tuple tuple_doc tuple_doc_tuple.
Definition doc_json : JSON Document := json_countable Document.
Definition doc_json_laws : @JSONLaws _ doc_json := json_countable_laws Document.

Definition small_config : EncryptionConfig := mk_EncryptionConfig 4 8 16 "A" 0 5 9 16 "B" 0.
Definition small_hasher : Hasher := {| blake2b_160 b := arr_of AddressLength b; blake2b_256 b := arr_of HashLength b |}.
Definition small_schemes : OqsLib := {|
  oqs_Details s := if String.eqb s "A" then Some (4, 8, 16) else if String.eqb s "B" then Some (5, 9, 16) else None;
  oqs_GenerateKeyPair s := if String.eqb s "A" then Some 4 else if String.eqb s "B" then Some 5 else None;
  oqs_Verify _ msg sig _ := Some (bytes_eqb msg sig) |}.
Definition small_signer : OqsSigner := fun _ _ msg => Some msg.
Definition small_ciphers : Ciphers := {|
  ShakeSum256 b := arr_of 32 b;
  ctr_stream key _ i := default "000"%byte (key !! i) |}.
Definition small_words : Mnemonics := {|
  NewMnemonic b := Some (String.string_of_list_byte b);
  MnemonicToByteArray s := Some (String.list_byte_of_string s) |}.
#[local] Existing Instances small_hasher small_schemes small_signer small_ciphers small_words doc_json doc_json_laws.

Definition small_keys (name : string) : option (bytes * bytes) :=
  if String.eqb name "A" then Some (zeros 4, zeros 8) else Some (zeros 5, zeros 9).
Definition small_wallet : Wallet :=
  from_ok (EmptyWallet "/root" 0 "A" "B") (GenerateNewWallet small_config "/root" small_keys (zeros 16) 0 "secret").
Definition small_desk : Desk := mk_Desk small_wallet ∅ false.
Definition written_bytes (w : Wallet) : bytes := from_ok [] (json_Marshal (document (encrypted w))).

Lemma small_in_order : in_order small_config "/root" small_wallet 0 "secret".
Proof. split; done. Qed.
Lemma written_ok w : json_Marshal (document (encrypted w)) = Ok (written_bytes w).
Proof. done. Qed.

Lemma Store_Load_witness : exists s' w',
  Store false small_desk = (Some (Ok tt), s') /\ Load small_config "/root" 0 "secret" s' = (Some (Ok w'), s') /\
  same_wallet small_config small_wallet w' /\
  Load small_config "/root" 0 "Secret" s' = (Some (Err "wrong password"), s').
Proof.
  destruct (Store_Load small_config "/root" small_wallet 0 "secret" (written_bytes small_wallet) small_desk)
    as (s' & w' & E1 & E2 & E3 & E4); [exact small_in_order|apply written_ok|done|done|].
  exists s', w'. split; [exact E1|]. split; [exact E2|]. split; [exact E3|]. apply E4; [done|]. by vm_compute.
Defined.

Lemma ChangePassword_blocks_witness : exists s',
  ChangePassword small_config "/root" "secret" "new" small_desk = (None, s') /\ GetActiveWallet s' = (None, s').
Proof.
  destruct (ChangePassword_blocks small_config "/root" small_wallet 0 "secret" "new"
    (written_bytes (with_new_password "new" small_wallet)) small_desk) as (s' & E1 & E2 & _);
    [exact small_in_order|apply written_ok|done|done|].
  exists s'. split; [exact E1|exact E2].
Defined.

Lemma stored_keys_share_stream_witness : exists s', Store false small_desk = (Some (Ok tt), s') /\
  xor_bytes (drop BlockSize (w_EncryptedSecretKey (dk_Wallet s'))) (drop BlockSize (w_EncryptedSecretKey2 (dk_Wallet s')))
  = zeros 21.
Proof.
  destruct (stored_keys_share_stream small_wallet (written_bytes small_wallet) small_desk) as (s' & E1 & E2).
  - eapply in_order_storable; [exact small_in_order|apply written_ok].
  - done.
  - done.
  - done.
  - exists s'. split; [exact E1|]. rewrite E2. by vm_compute.
Defined.

Lemma Sign_verifies_witness :
  Verify small_config (zeros 3) (byte_of_Z 1 :: zeros 3) (zeros 5) = Ok true.
Proof.
  apply (Sign_verifies small_config small_wallet (zeros 3) false (mk_Signature (byte_of_Z 1 :: zeros 3) (w_MainAddress small_wallet) false)
    (zeros 5) (zeros 9)).
  - done.
  - split; [by exists 9, 16|]. intros msg sig [= <-]. cbn. by rewrite bytes_eqb_refl.
  - done.
  - by vm_compute.
Defined.

Lemma mnemonic_restores_witness : exists s',
  RestoreSecretKeyFromMnemonic small_config (String.string_of_list_byte (zeros 64)) true small_desk = (Some (Ok tt), s') /\
  sk_ByteValue (w_secretKey (dk_Wallet s')) = zeros 8.
Proof.
  destruct (mnemonic_restores small_config small_wallet true (String.string_of_list_byte (zeros 64)) small_desk)
    as (s' & E1 & E2 & _); [by vm_compute|done|done|].
  exists s'. split; [exact E1|exact E2].
Defined.

(** Scheme A was replaced by a new one, whose directory is not there yet. *)
Definition moved_wallet : Wallet :=
  mk_Wallet (w_passwordBytes small_wallet) "secret" (w_Iv small_wallet) (w_secretKey small_wallet) (w_secretKey2 small_wallet) [] []
    (w_PublicKey small_wallet) (w_PublicKey2 small_wallet) (w_Address small_wallet) (w_Address2 small_wallet)
    (w_MainAddress small_wallet) (w_signer small_wallet) (w_signer2 small_wallet)
    "/root/.okura/db/wallet/0/A" "/root/.okura/db/wallet/0/B" "/root/.okura/db/wallet/0/Old" "/root/.okura/db/wallet/0/B" 0.
Definition moved_desk : Desk :=
  mk_Desk moved_wallet (<["/root/.okura/db/wallet/0/Old"%string := new_dir]> {["/root/.okura/db/wallet/0/B"%string := new_dir]}) false.

Lemma string_length_app a b : String.length (a +:+ b) = (String.length a + String.length b)%nat.
Proof. induction a as [|c a IH]; [done|]. exact (f_equal S IH). Qed.
Lemma backup_path_long p k : (String.length p + 7 <= String.length (backup_path p k))%nat.
Proof. unfold backup_path. rewrite !string_length_app. cbn. lia. Qed.
Lemma moved_replaced : replaced moved_wallet moved_desk.
Proof.
  split; [by eexists|done|split; [done|by eexists]|done|].
  intros p k Hp. pose proof (backup_path_long p k) as Hl. generalize dependent (backup_path p k). intros b Hl.
  destruct Hp as [-> | ->]; repeat split; intros ->; cbn in Hl; lia.
Qed.

Lemma Store_new_scheme_fails_witness : exists s',
  Store true moved_desk = (Some (Err "no such file or directory"), s') /\
  Load small_config "/root" 0 "secret" s' = (Some (Err "leveldb: not found"), s').
Proof.
  destruct (Store_new_scheme_fails small_config "/root" moved_wallet (written_bytes moved_wallet) 0 "secret" moved_desk)
    as (s' & E1 & _ & _ & E2).
  - split; [done|by vm_compute|apply written_ok].
  - done.
  - exact moved_replaced.
  - done.
  - by vm_compute.
  - done.
  - exists s'. split; [exact E1|exact E2].
Defined.
