(* ===== verification/Rpc.v ===== *)
(** * Package serverrpc

    Models rpc/server/server.go: the check of a query, its dispatch on the first four
    letters, and the handlers.  A query is answered with bytes; a panic in a handler
    ends the process, since net/rpc does not recover it.  A slice expression of Go
    reaches past the end of a slice into the array behind it, so the handlers that
    cut an address out of their query are given what is [behind] it.

    Arguments are the wallet of the node, the statistics in their JSON form, and
    encoding/json.

    The theorems: an unsigned query never moves the ledger and changes nothing at
    all unless it brings transactions; two unsigned queries end the process; only
    transactions of the owner are cancelled. *)
From S2P Require Import Prelude GoInt GoSlice Common Keys Database Codec Json Accounts Staking StakingCodec Dex.
From S2P Require Import EncScheme Merkle PubKeys Tx Heap Pool StateDB Wallet Node Ledger Block Voting Oracles.
From S2P Require Import BlockProcess Evaluate DexSupply Kept Message Reset Creation TransactionService NonceService Arrival Adoption NonceMessage Gossip.

Definition ConnectionsWithoutVerification : list string := ["TRAN"; "STAT"; "ENCR"; "DETS"; "STAK"; "ADEX"]%string.

(** blocks/evaluate.go [PasiveFunction] *)
Record PasiveFunction := mk_PasiveFunction { pf_Address : Address; pf_OptData : bytes; pf_Height : Z }.

(** The services, and the addresses to whose nonces the node was subscribed by a
    query. *)
Record Rpc (D : Type) := mk_Rpc { rpc_Nonces : Nonces D; rpc_subscribed : list bytes }.
Arguments mk_Rpc {D}.
Arguments rpc_Nonces {D}.
Arguments rpc_subscribed {D}.

(** Lower-case hexadecimal text. *)
Definition hex_letter (z : Z) : Ascii.ascii := Ascii.ascii_of_nat (Z.to_nat (if z <? 10 then z + 48 else z + 87)).
Fixpoint EncodeToString (b : bytes) : string :=
  match b with
  | [] => ""
  | x :: b => String.String (hex_letter (byte_to_Z x / 16)) (String.String (hex_letter (byte_to_Z x mod 16)) (EncodeToString b))
  end.

Abbreviation text := String.list_byte_of_string.

(** [s[:n]] of a slice with the bytes [behind] in its array. *)
Definition cut_to (s behind : bytes) (n : nat) : outcome bytes := slice_to (s ++ behind) (Z.of_nat n).

Section Rpc.
Context {D : Type} `{RocksDB D} `{JSON PubKey} `{JSON (list MerkleNode)} `{Hasher} `{OqsLib}.
Context `{JSON Document} `{JSON PasiveFunction} `{JSON (gmap string TokenInfo)}.
Variables (vm : VMachine) (stats : outcome bytes).
(** The orders in which the maps of an account are visited. *)
Variable ord_details : StakingAccount -> list (Z * list StakingDetail).
Variable ord_balances : DexAccount -> list (addr20 * CoinTokenDetails).
Implicit Types (w : Wallet) (r : Rpc D) (n : Node D) (e : Env) (nw : Network) (o : Orders).

Definition nonces_l : lens (Rpc D) (Nonces D) := mk_lens rpc_Nonces (fun x r => mk_Rpc x (rpc_subscribed r)).
Definition on_node {A} (m : ST (Node D) A) : ST (Rpc D) A := on nonces_l (on server_l (node m)).
(** A reply that is computed from the node. *)
Definition ask (f : Node D -> outcome bytes) : ST (Node D) bytes := fun n => (f n, n).
(** The reply in case of an error. *)
Definition or_reply (a : bytes) (m : ST (Node D) bytes) : ST (Node D) bytes := fun n =>
  match m n with (Err _, n) => (Ok a, n) | x => x end.
Definition or_message (m : ST (Node D) bytes) : ST (Node D) bytes := fun n =>
  match m n with (Err err, n) => (Ok (text err), n) | x => x end.

(** ** Queries that read *)

Definition handleSTAT : ST (Node D) bytes := or_reply [] (ask (fun _ => stats)).
Definition handleWALL w : ST (Node D) bytes := or_reply [] (ask (fun _ => json_Marshal (document w))).
Definition handleCHECK w : ST (Node D) bytes := ask (fun n =>
  match LoadPubKey (nd_MainDB n) (Address_GetBytes (w_Address w)), LoadPubKey (nd_MainDB n) (Address_GetBytes (w_Address2 w)) with
  | Panic, _ | _, Panic => Panic
  | _, Err _ => Ok (text "Secondary pubkey is not registered in blockchain. Please send transaction including secondary PubKey to blockchain")
  | Err _, _ => Ok (text "Primary pubkey is not registered in blockchain. Please send transaction including primary PubKey to blockchain")
  | Ok _, Ok _ => Ok []
  end).
Definition handleENCR : ST (Node D) bytes := ask (fun n =>
  let ec := nd_Config n in
  Ok (BytesToLenAndBytes (GenerateBytesFromParams (sigName ec) (PubKeyLength ec) (PrivateKeyLength ec) (SignatureLength ec) (IsPaused ec))
      ++ BytesToLenAndBytes (GenerateBytesFromParams (sigName2 ec) (PubKeyLength2 ec) (PrivateKeyLength2 ec) (SignatureLength2 ec) (IsPaused2 ec)))).

Definition handleGTBL e (byt : bytes) : ST (Node D) bytes :=
  if negb (length byt =? 2 * AddressLength)%nat then st_ret (text "Invalid query GTBL") else
  do! addr <- st_lift (Address_Init zero_Address (take AddressLength byt));
  do! coin <- st_lift (Address_Init zero_Address (drop AddressLength byt));
  let inputs := BalanceOfFunc ++ LeftPadBytes (Address_GetBytes addr) 32 in
  or_message (
    do! bl <- (fun n => (LoadBlock (nd_Config n) (nd_MainDB n) (nd_Height n), n));
    or_reply (text "Some error in SC query GTBL") (GetViewFunctionReturns vm e coin inputs bl)).
Definition handleVIEW e (line : bytes) : ST (Node D) bytes :=
  or_message (
    do! m <- st_lift (json_Unmarshal line);
    do! bl <- (fun n => (LoadBlock (nd_Config n) (nd_MainDB n) (pf_Height m), n));
    GetViewFunctionReturns vm e (pf_Address m) (pf_OptData m) bl).
Definition handleLTKN : ST (Node D) bytes := or_message (ask (fun n =>
  let accs := GetAllRegisteredTokens (nd_State n) in
  if (0 <? size accs)%nat
  then json_Marshal (kmap (fun k : addr20 => EncodeToString k) accs : gmap string TokenInfo)
  else Ok [])).
Definition handleADEX (byt behind : bytes) : ST (Node D) bytes := ask (fun n =>
  let! a := cut_to byt behind AddressLength in
  let! dexAcc := GetDexAccountByAddressBytes (nd_DexAccounts n) a in
  Ok (DexAccount_Marshal (ord_balances dexAcc) dexAcc)).
Definition account_of n (a : bytes) : Account := default zero_Account (AllAccounts (nd_Accounts n) !! arr_of AddressLength a).
Definition handleDETS (line : bytes) : ST (Node D) bytes :=
  if (length line =? AddressLength)%nat then ask (fun n => Ok (text "AC" ++ Account_Marshal (account_of n line)))
  else if (length line =? HashLength)%nat then
    or_reply (text "TX") (do! tx <- load_pool_tx TransactionDBPrefix line; st_ret (text "TX" ++ Transaction_GetBytes tx))
  else if (length line =? 8)%nat then
    or_reply (text "BL") (ask (fun n =>
      let! height := GetInt64FromByte line in
      let! block := LoadBlock (nd_Config n) (nd_MainDB n) height in
      Ok (text "BL" ++ Block_GetBytes block)))
  else st_ret (text "NO").
Definition handleACCT (line behind : bytes) : ST (Node D) bytes := ask (fun n =>
  let! a := cut_to line behind AddressLength in Ok (Account_Marshal (account_of n a))).
Definition handleSTAK (line behind : bytes) : ST (Node D) bytes := ask (fun n =>
  let! a := cut_to line behind AddressLength in
  let! k := index line (Z.of_nat AddressLength) in
  let! t := index (nd_StakingAccounts n) (byte_to_Z k) in
  let acc := default zero_StakingAccount (t !! arr_of AddressLength a) in
  let! locked := match GetLockedAmount (nd_StakingAccounts n) a (nd_Height n) (byte_to_Z k) with
                 | Ok x => Ok x
                 | Err _ => Ok 0
                 | Panic => Panic
                 end in
  let! am := StakingAccount_Marshal (ord_details acc) acc in
  Ok (am ++ GetByteInt64 locked)).

(** ** Queries that change the node *)

(** A scheme to vote for: none, or a description that liboqs confirms. *)
Definition voted_scheme (enb : bytes) : outcome bytes :=
  match enb with
  | [] => Ok []
  | _ => let! c := EncScheme.FromBytesToEncryptionConfig enb in
         Ok (GenerateBytesFromParams (ce_SigName c) (ce_PubKeyLength c) (ce_PrivateKeyLength c) (ce_SignatureLength c) (ce_IsPaused c))
  end.
Definition handleVOTE (line : bytes) : ST (Nonces D) bytes :=
  match BytesWithLenToBytes line with
  | Panic => st_panic
  | Err _ => st_ret (text "cannot decode bytes 1")
  | Ok (enb1, line) =>
      match voted_scheme enb1 with
      | Panic => st_panic
      | Err _ => st_ret (text "cannot decode encryption from bytes 1")
      | Ok en1 =>
          match BytesWithLenToBytes line with
          | Panic => st_panic
          | Ok (enb2, []) =>
              match voted_scheme enb2 with
              | Panic => st_panic
              | Err _ => st_ret (text "cannot decode encryption from bytes 2")
              | Ok en2 => run! SetEncryptionData en1 en2; st_ret (text "Voting for new encryption is successful")
              end
          | _ => st_ret (text "cannot decode bytes 2")
          end
      end
  end.

(** [delegated] is the address of the node's delegated account. *)
Definition handleMINE nw (delegated : Address) (line : bytes) : ST (Rpc D) bytes := fun r =>
  let ip := if (length line =? 4)%nat then line else zeros 4 in
  match GetDelegatedAccountAddress 1 with
  | Ok firstDel =>
      if bytes_eqb (Address_GetBytes firstDel) (Address_GetBytes delegated)
      then (Ok (text "First delegated account just automatically mines"), r)
      else (Ok (text "Mining initiated"),
            mk_Rpc (rpc_Nonces r) (rpc_subscribed r ++ [nw_MyIP nw; nw_MyIP nw]
                                   ++ (if bytes_eqb ip (zeros 4) then [] else [ip])))
  | _ => (Panic, r)
  end.

Definition handleTRAN o nw (byt : bytes) : ST (Rpc D) bytes :=
  run! on nonces_l (on server_l (TransactionService.OnMessage o nw (zeros 4) byt));
  st_ret (text "transaction sent").

(** One pool of [handleCNCL]; whether the transaction in it belongs to another. *)
Definition cancel_in (l : lens (Node D) TransactionPool) w (hash : bytes) : ST (Node D) bool :=
  do! exists_ <- reads l (fun tp => Ok (TransactionExists tp hash));
  if negb exists_ then st_ret false else
  do! tx <- on l (fun tp => match PopTransactionByHash tp hash with
                            | Ok (tx, tp') => (Ok tx, tp')
                            | Err err => (Err err, tp)
                            | Panic => (Panic, tp)
                            end);
  if negb (bytes_eqb (Address_GetBytes (Sender (tx_Param tx))) (Address_GetBytes (w_MainAddress w))) then
    run! pool_add l tx (tx_Hash tx); st_ret true
  else run! pool_ban l hash; st_ret false.
Definition handleCNCL w (byt : bytes) : ST (Node D) bytes :=
  if negb (length byt =? HashLength)%nat then st_ret (text "hash is not 32 bytes") else
  let refused := text "you are not the owner of transaction" in
  do! foreign <- cancel_in pools_l w byt;
  if foreign : bool then st_ret refused else
  do! foreign <- cancel_in escrow_l w byt;
  if foreign : bool then st_ret refused else
  do! foreign <- cancel_in multisign_l w byt;
  if foreign : bool then st_ret refused else st_ret (text "transaction cancelled").

(** ** The dispatch *)

Definition handle e o nw w (delegated : Address) (operation : string) (byt behind : bytes) : ST (Rpc D) bytes :=
  if String.eqb operation "STAT" then on_node handleSTAT
  else if String.eqb operation "WALL" then on_node (handleWALL w)
  else if String.eqb operation "TRAN" then handleTRAN o nw byt
  else if String.eqb operation "CNCL" then on_node (handleCNCL w byt)
  else if String.eqb operation "VIEW" then on_node (handleVIEW e byt)
  else if String.eqb operation "ACCT" then on_node (handleACCT byt behind)
  else if String.eqb operation "MINE" then handleMINE nw delegated byt
  else if String.eqb operation "CHCK" then on_node (handleCHECK w)
  else if String.eqb operation "ENCR" then on_node handleENCR
  else if String.eqb operation "VOTE" then on nonces_l (handleVOTE byt)
  else if String.eqb operation "DETS" then on_node (handleDETS byt)
  else if String.eqb operation "STAK" then on_node (handleSTAK byt behind)
  else if String.eqb operation "ADEX" then on_node (handleADEX byt behind)
  else if String.eqb operation "LTKN" then on_node handleLTKN
  else if String.eqb operation "GTBL" then on_node (handleGTBL e byt)
  else if String.eqb operation "ESCR" || String.eqb operation "MULT" then st_ret []
  else st_ret (text "Invalid operation").

(** The signature of a query is the wallet's own. *)
Definition signed_by (ec : EncryptionConfig) w (line signatureBytes : bytes) : outcome bool :=
  let! b0 := index signatureBytes 0 in
  let pubKey := if byte_to_Z b0 =? 0 then w_PublicKey w else w_PublicKey2 w in
  Verify ec (BytesToLenAndBytes line) signatureBytes (pk_ByteValue pubKey).
Definition unsigned_operation (operation : string) : bool :=
  existsb (String.eqb operation) ConnectionsWithoutVerification.

(** [spare] is what is behind the query in its array. *)
Definition Send e o nw w (delegated : Address) (spare lineBeg : bytes) : ST (Rpc D) bytes := fun r =>
  if (length lineBeg <? 4)%nat then (Ok (text "Error with message. Too small length calling server"), r) else
  match BytesWithLenToBytes lineBeg with
  | Panic => (Panic, r)
  | Err _ => (Ok (text "wrong query"), r)
  | Ok (line, left_) =>
      if (length line <? 4)%nat then (Ok (text "wrong query length"), r) else
      let operation := String.string_of_list_byte (take 4 line) in
      let byt := drop 4 line in
      let behind := if (4 <? length line)%nat then left_ ++ spare else [] in
      if unsigned_operation operation then handle e o nw w delegated operation byt behind r else
      if (length left_ =? 0)%nat then (Ok (text "Invalid signature with length 0"), r) else
      match signed_by (nd_Config (sv_Node (nc_Server (rpc_Nonces r)))) w line left_ with
      | Ok true => handle e o nw w delegated operation byt behind r
      | Ok false => (Ok (text "Invalid signature"), r)
      | _ => (Panic, r)
      end
  end.
End Rpc.

(** ** Cancelling *)

(** A pool in which every transaction can be put back: it is consistent and not
    overfull, and nothing in it is banned. *)
Record pool_ready (tp : TransactionPool) : Prop := {
  pr_inv : pool_inv tp;
  pr_type : 0 <= typePool tp <= 2;
  pr_room : len (priorityQueue tp) <= maxTransactions tp;
  pr_banned : forall h, is_Some (transactions tp !! h) -> bannedTransactions tp !! h = None
}.
Definition foreign (w : Wallet) (tx : Transaction) : Prop :=
  Address_GetBytes (Sender (tx_Param tx)) <> Address_GetBytes (w_MainAddress w).

(** What popping a transaction of a consistent pool leaves. *)
Lemma PopTransactionByHash_inv tp (h : Hash) tx : pool_inv tp -> transactions tp !! h = Some tx ->
  exists tp', PopTransactionByHash tp h = Ok (tx, tp') /\ pool_inv tp' /\
    transactions tp' = delete h (transactions tp) /\ bannedTransactions tp' = bannedTransactions tp /\
    maxTransactions tp' = maxTransactions tp /\ typePool tp' = typePool tp /\
    len (priorityQueue tp') = len (priorityQueue tp) - 1.
Proof.
  intros Hp Et. destruct (RemoveTransactionByHash_inv tp h Hp) as (tp' & Er & Hp' & Et').
  assert (exists i, transactionIndices tp !! h = Some i) as [i Ei].
  { pose proof Et as Ex. apply (pi_txs tp Hp) in Ex as (it & Hin & Hv & _). apply list_elem_of_lookup in Hin as [i Hi].
    exists i. apply (pi_index tp Hp). eauto. }
  exists tp'. unfold RemoveTransactionByHash in Er. unfold PopTransactionByHash. rewrite arr_copy_arr in *. rewrite Ei in *.
  destruct (remove_at_index_inv tp h i Hp Ei) as (it & q' & Eq & Hq & _). unfold remove_at_index in *. rewrite Eq in *.
  cbn [obind] in *. injection Er as <-. rewrite Et. cbn [default]. do 3 (split; [done|]). do 3 (split; [done|]).
  cbn [updateIndices priorityQueue]. unfold len. rewrite Hq. cbn [length]. lia.
Qed.

(** The hash of a transaction of a consistent pool. *)
Lemma pool_inv_hash tp h tx : pool_inv tp -> transactions tp !! h = Some tx -> tx_Hash tx = h.
Proof.
  intros Hp Et. apply (pi_txs tp Hp) in Et as (it & Hin & <- & <-). symmetry.
  exact (proj1 (Forall_forall _ _) (pi_items tp Hp) it Hin).
Qed.

Section Cancel.
Context {D : Type}.
Implicit Types (n : Node D) (w : Wallet).
Variable l : lens (Node D) TransactionPool.
Hypothesis get_set : forall x n, l_get l (l_set l x n) = x.
Hypothesis set_set : forall x y n, l_set l x (l_set l y n) = l_set l x n.
Hypothesis set_get : forall n, l_set l (l_get l n) n = n.

Lemma cancel_in_spec w (h : Hash) n : pool_ready (l_get l n) -> exists b tp',
  cancel_in l w h n = (Ok b, l_set l tp' n) /\
  (forall h' tx, transactions (l_get l n) !! h' = Some tx -> foreign w tx -> transactions tp' !! h' = Some tx) /\
  (b = false -> transactions tp' !! h = None).
Proof.
  intros [Hp Ht Hr Hb]. set (tp := l_get l n) in *. unfold cancel_in. unfold st_bind at 1, reads. fold tp.
  unfold TransactionExists. rewrite arr_copy_arr. destruct (transactions tp !! h) as [tx|] eqn:Et; cbn [negb].
  2: { exists false, tp. split; [by unfold st_ret, tp; rewrite set_get|]. auto. }
  destruct (PopTransactionByHash_inv tp h tx Hp Et) as (tp1 & E1 & Hp1 & Tx1 & B1 & M1 & K1 & L1).
  unfold st_bind at 1, on at 1. fold tp. rewrite E1. pose proof (pool_inv_hash _ _ _ Hp Et) as Hh.
  destruct (bytes_eqb _ _) eqn:Ef; cbn [negb].
  - unfold st_bind, pool_ban, on_ok. rewrite get_set, set_set. exists false. eexists. split; [reflexivity|].
    unfold BanTransactionByHash. cbn [transactions]. rewrite Tx1. apply bool_decide_eq_true in Ef. split.
    + intros h' tx' E' Hf. destruct (decide (h' = h)) as [->|]; [|by rewrite lookup_delete_ne].
      exfalso. apply Hf. congruence.
    + intros _. apply lookup_delete_eq.
  - assert (bannedTransactions tp1 !! tx_Hash tx = None) as Hb1 by (rewrite B1, Hh; apply Hb; by eexists).
    assert (transactions tp1 !! tx_Hash tx = None) as Hn1 by (rewrite Tx1, Hh; apply lookup_delete_eq).
    destruct (AddTransaction_new tp1 tx (tx_Hash tx)) as [p Ep]; [by rewrite K1|done|done|lia|].
    unfold st_bind, pool_add, on. rewrite get_set, Ep, set_set. exists true. eexists. split; [reflexivity|]. split; [|done].
    intros h' tx' E' _. cbn [updateIndices transactions]. rewrite Tx1, Hh.
    destruct (decide (h' = h)) as [->|]; [rewrite lookup_insert_eq; congruence|].
    by rewrite lookup_insert_ne, lookup_delete_ne by done.
Qed.
End Cancel.

(** C13: only the owner cancels.  Whatever hash is cancelled, no transaction of
    another sender leaves a pool; when the answer is that the transaction was
    cancelled, it is in none of them. *)
Theorem handleCNCL_owner {D} w (h : Hash) (n : Node D) :
  pool_ready (nd_PoolsTx n) -> pool_ready (nd_PoolTxEscrow n) -> pool_ready (nd_PoolTxMultiSign n) ->
  exists reply n', handleCNCL w h n = (Ok reply, n') /\
    (forall h' tx, foreign w tx ->
       (transactions (nd_PoolsTx n) !! h' = Some tx -> transactions (nd_PoolsTx n') !! h' = Some tx) /\
       (transactions (nd_PoolTxEscrow n) !! h' = Some tx -> transactions (nd_PoolTxEscrow n') !! h' = Some tx) /\
       (transactions (nd_PoolTxMultiSign n) !! h' = Some tx -> transactions (nd_PoolTxMultiSign n') !! h' = Some tx)) /\
    (reply = String.list_byte_of_string "transaction cancelled" ->
       transactions (nd_PoolsTx n') !! h = None /\ transactions (nd_PoolTxEscrow n') !! h = None /\
       transactions (nd_PoolTxMultiSign n') !! h = None).
Proof.
  intros P1 P2 P3.
  assert (forall (x : unit) (n : Node D), l_set pools_l (l_get pools_l n) n = n /\ l_set escrow_l (l_get escrow_l n) n = n /\
    l_set multisign_l (l_get multisign_l n) n = n) as Hsg by (by intros _ []).
  unfold handleCNCL. replace (length h =? HashLength)%nat with true
    by (symmetry; apply Nat.eqb_eq; apply (arr_length h)). cbn [negb].
  destruct (cancel_in_spec pools_l (fun _ _ => eq_refl) (fun _ _ _ => eq_refl) (fun n => proj1 (Hsg tt n)) w h n P1)
    as (b1 & t1 & E1 & K1 & G1). unfold st_bind at 1. rewrite E1.
  destruct b1; [eexists _, _; split; [reflexivity|]; split; [by intros h' tx Hf; split; [|split]; eauto|done]|].
  set (n1 := l_set pools_l t1 n).
  destruct (cancel_in_spec escrow_l (fun _ _ => eq_refl) (fun _ _ _ => eq_refl) (fun n => proj1 (proj2 (Hsg tt n))) w h n1 P2)
    as (b2 & t2 & E2 & K2 & G2). unfold st_bind at 1. rewrite E2.
  destruct b2; [eexists _, _; split; [reflexivity|]; split; [by intros h' tx Hf; split; [|split]; eauto|done]|].
  set (n2 := l_set escrow_l t2 n1).
  destruct (cancel_in_spec multisign_l (fun _ _ => eq_refl) (fun _ _ _ => eq_refl) (fun n => proj2 (proj2 (Hsg tt n))) w h n2 P3)
    as (b3 & t3 & E3 & K3 & G3). unfold st_bind at 1. rewrite E3.
  destruct b3; eexists _, _; (split; [reflexivity|]); split; try done.
  all: try (intros h' tx Hf; split; [|split]; eauto).
  intros _. split; [|split]; auto.
Qed.

(** ** Unsigned queries *)

Definition operation_of (line : bytes) : string := String.string_of_list_byte (take 4 line).

Section Unsigned.
Context {D : Type} `{RocksDBLaws D} `{JSON PubKey} `{JSON (list MerkleNode)} `{Hasher} `{OqsLib}.
Context `{JSON Document} `{JSON PasiveFunction} `{JSON (gmap string TokenInfo)}.
Variables (vm : VMachine) (stats : outcome bytes).
Variable ord_details : StakingAccount -> list (Z * list StakingDetail).
Variable ord_balances : DexAccount -> list (addr20 * CoinTokenDetails).
Implicit Types (w : Wallet) (r : Rpc D) (n : Node D) (e : Env) (nw : Network) (o : Orders).

(** A query that the wallet did not sign. *)
Definition unsigned (ec : EncryptionConfig) w (q : bytes) : Prop :=
  forall line rest, BytesWithLenToBytes q = Ok (line, rest) ->
    unsigned_operation (operation_of line) = true \/ signed_by ec w line rest <> Ok true.

Definition rpc_server r : Server D := nc_Server (rpc_Nonces r).

(** A query that only reads the node leaves everything as it is. *)
Lemma on_node_reads {A} (m : ST (Node D) A) r : within eq m -> snd (on_node m r) = r.
Proof.
  intros Hm. unfold on_node, on, node, on. destruct r as [[s od lr] sub]. cbn.
  destruct (m (sv_Node s)) as [a n'] eqn:E. apply Hm in E as <-. by destruct s.
Qed.
Lemma within_ask (f : Node D -> outcome bytes) : within eq (ask f).
Proof. by intros n a n' [= _ <-]. Qed.
Lemma within_or_reply R a (m : ST (Node D) bytes) : within R m -> within R (or_reply a m).
Proof. intros Hm n x n'. unfold or_reply. destruct (m n) as [[b|e|] n1] eqn:E; intros [= _ <-]; exact (Hm _ _ _ E). Qed.

Lemma unsigned_operations op : unsigned_operation op = true ->
  op = "TRAN"%string \/ op = "STAT"%string \/ op = "ENCR"%string \/ op = "DETS"%string \/ op = "STAK"%string \/ op = "ADEX"%string.
Proof.
  unfold unsigned_operation. intros (x & Hin & ->%String.eqb_eq)%existsb_exists.
  repeat (destruct Hin as [<-|Hin]; [tauto|]). by destruct Hin.
Qed.

Lemma handleDETS_still hb line : within (still (D := D) hb) (handleDETS line).
Proof.
  unfold handleDETS. assert (forall f : Node D -> outcome bytes, within (still hb) (ask f)) as Ha.
  { intros f n a n' E. by apply within_ask in E as <-. }
  destruct (_ =? AddressLength)%nat; [apply Ha|]. destruct (_ =? HashLength)%nat; [|destruct (_ =? 8)%nat; [|eauto with within]].
  - apply within_or_reply, within_bind; [exact _|apply still_load_pool_tx; unfold tx_prefix; auto|eauto with within].
  - apply within_or_reply, Ha.
Qed.
Lemma OnMessage_still hb o nw addr m (s : Server D) : server_still hb s (snd (TransactionService.OnMessage o nw addr m s)).
Proof.
  apply (server_OnMessage (still hb) (fun _ => True)).
  - intros tx _. apply still_pool_transaction.
  - apply still_load_pool_tx.
  - apply still_forget.
  - intros. by apply Forall_forall.
Qed.

(** C11: a query that the wallet did not sign never moves the ledger, the stored
    chain, the votes of the node or its subscriptions, and it changes nothing at all
    unless it brings a message of transactions or asks for the details of an
    entry. *)
Theorem unsigned_query_keeps e o nw w delegated spare q r hb :
  unsigned (nd_Config (sv_Node (rpc_server r))) w q ->
  let r' := snd (Send vm stats ord_details ord_balances e o nw w delegated spare q r) in
  server_still hb (rpc_server r) (rpc_server r') /\
  nc_EncryptionOptData (rpc_Nonces r') = nc_EncryptionOptData (rpc_Nonces r) /\
  rpc_subscribed r' = rpc_subscribed r /\
  (forall line rest, BytesWithLenToBytes q = Ok (line, rest) ->
     operation_of line <> "TRAN"%string -> operation_of line <> "DETS"%string -> r' = r).
Proof.
  intros Hu r'.
  assert (forall P : Prop, r' = r -> server_still hb (rpc_server r) (rpc_server r') /\
    nc_EncryptionOptData (rpc_Nonces r') = nc_EncryptionOptData (rpc_Nonces r) /\
    rpc_subscribed r' = rpc_subscribed r /\ (P -> r' = r)) as Hsame by (by intros P ->).
  unfold r', Send in *. destruct (length q <? 4)%nat; [split; [done|by repeat split]|].
  destruct (BytesWithLenToBytes q) as [[line rest]|err|] eqn:Eq; [|split; [done|by repeat split]..].
  destruct (length line <? 4)%nat; [split; [done|by repeat split]|]. cbv zeta in *. fold (operation_of line) in *.
  destruct (unsigned_operation (operation_of line)) eqn:Eo.
  2: { destruct (length rest =? 0)%nat; [split; [done|by repeat split]|].
       destruct (Hu line rest Eq) as [Eo'|Hs]; [by rewrite Eo in Eo'|].
       unfold rpc_server in Hs. destruct (signed_by _ w line rest) as [[]|err|]; [done|split; [done|by repeat split]..]. }
  assert (forall m : ST (Node D) bytes, within eq m -> server_still hb (rpc_server r) (rpc_server (snd (on_node m r))) /\
    nc_EncryptionOptData (rpc_Nonces (snd (on_node m r))) = nc_EncryptionOptData (rpc_Nonces r) /\
    rpc_subscribed (snd (on_node m r)) = rpc_subscribed r /\ (forall line0 rest0, Ok (line, rest) = Ok (line0, rest0) ->
       operation_of line0 <> "TRAN"%string -> operation_of line0 <> "DETS"%string -> snd (on_node m r) = r)) as Hread.
  { intros m Hm. rewrite (on_node_reads m r Hm). by repeat split. }
  unfold handle. apply unsigned_operations in Eo as Ed.
  destruct Ed as [E|[E|[E|[E|[E|E]]]]]; rewrite E; cbn [String.eqb Ascii.eqb Bool.eqb].
  - unfold handleTRAN, st_bind, on.
    pose proof (OnMessage_still hb o nw (zeros 4) (drop 4 line) (rpc_server r)) as Hs.
    unfold rpc_server in *. cbn [l_get l_set nonces_l server_l].
    destruct (TransactionService.OnMessage o nw (zeros 4) (drop 4 line) (nc_Server (rpc_Nonces r))) as [x s'].
    cbn [snd] in Hs.
    destruct x as [[]|err|]; cbn; (split; [exact Hs|]); (split; [done|]); (split; [done|]); intros ? ? [= <- <-]; by rewrite E.
  - apply Hread. apply within_or_reply, within_ask.
  - apply Hread. apply within_ask.
  - unfold on_node, on, node, on. cbn [l_get l_set nonces_l server_l].
    destruct (handleDETS (drop 4 line) _) as [x n'] eqn:En. cbn [snd]. apply (handleDETS_still hb) in En.
    split; [exact En|]. split; [done|]. split; [done|]. intros ? ? [= <- <-]. by rewrite E.
  - apply Hread. apply within_ask.
  - apply Hread. apply within_ask.
Qed.

(** C12: two unsigned queries end the process.  The query ADEX without an address cuts
    twenty bytes out of nothing, and the query STAK with an address and without the
    number of a delegated account reads past its end: the handler panics in every
    state of every node. *)
Theorem unsigned_query_panics e o nw w delegated spare (a : addr20) r :
  Send vm stats ord_details ord_balances e o nw w delegated spare (BytesToLenAndBytes (text "ADEX")) r = (Panic, r) /\
  Send vm stats ord_details ord_balances e o nw w delegated spare (BytesToLenAndBytes (text "STAK" ++ a)) r = (Panic, r).
Proof.
  assert (length (text "STAK" ++ a) = 24%nat) as Hl by (rewrite length_app, (arr_length a); done).
  assert (forall b : bytes, (length (BytesToLenAndBytes b) <? 4)%nat = false) as H4'.
  { intros b. apply Nat.ltb_ge. rewrite BytesToLenAndBytes_length. lia. }
  assert (forall b : bytes, short b -> BytesWithLenToBytes (BytesToLenAndBytes b) = Ok (b, [])) as Hq.
  { intros b Hb. rewrite <- (app_nil_r (BytesToLenAndBytes b)). by apply BytesWithLenToBytes_app. }
  split; unfold Send; rewrite H4', Hq by (unfold short; rewrite ?Hl; done).
  - by destruct r as [[[] ? ?] ?].
  - rewrite Hl. cbv zeta. change (drop 4 (text "STAK" ++ a)) with (arr_bytes a).
    change (String.string_of_list_byte (take 4 (text "STAK" ++ a))) with "STAK"%string.
    change (unsigned_operation "STAK") with true. cbn [Nat.ltb Nat.leb]. unfold handle. cbn [String.eqb Ascii.eqb Bool.eqb].
    unfold on_node, on, node, on. cbn [l_get l_set nonces_l server_l].
    assert (forall bh n, handleSTAK ord_details a bh n = (Panic, n)) as Hx.
    { intros bh n. unfold handleSTAK, ask, cut_to. rewrite slice_prefix by (by rewrite (arr_length a)). cbn [obind].
      unfold index. cbn [Z.ltb]. rewrite Nat2Z.id. rewrite lookup_ge_None_2 by (rewrite (arr_length a); lia). done. }
    rewrite Hx. by destruct r as [[[] ? ?] ?].
Qed.
End Unsigned.

(** ** A node with one transaction in its pool *)

#[local] Existing Instances map_store map_store_laws pk_json node_json toy_hasher two_schemes doc_json.

Definition view_json : JSON PasiveFunction := {| json_Marshal _ := Err "not used"; json_Unmarshal _ := Err "not used" |}.
Definition tokens_json : JSON (gmap string TokenInfo) := {| json_Marshal _ := Err "not used"; json_Unmarshal _ := Err "not used" |}.
#[local] Existing Instances view_json tokens_json.

Definition pool_1 : TransactionPool :=
  snd (from_ok (false, NewTransactionPool 10 0) (AddTransaction (NewTransactionPool 10 0) (pool_tx 1 9) EmptyHash)).
Definition node_1 : Node (gmap bytes bytes) :=
  l_set pools_l pool_1 (l_set escrow_l (NewTransactionPool 10 1) (l_set multisign_l (NewTransactionPool 10 2) node_7)).
Definition rpc_1 : Rpc (gmap bytes bytes) := mk_Rpc (mk_Nonces (l_set node_l node_1 (server_7 1000)) [] zero_ip) [].

Lemma pool_ready_new max typ : 0 <= max -> 0 <= typ <= 2 -> pool_ready (NewTransactionPool max typ).
Proof. intros Hm Ht. split; [apply pool_inv_new|done|exact Hm|]. intros h [x Hx]. cbn [NewTransactionPool transactions] in Hx. by rewrite lookup_empty in Hx. Qed.
Lemma pool_1_ready : pool_ready pool_1 /\ transactions pool_1 = {[ tx_Hash (pool_tx 1 9) := pool_tx 1 9 ]}.
Proof.
  destruct (AddTransaction_room (NewTransactionPool 10 0) (pool_tx 1 9) EmptyHash) as (tp' & E & Hp & Ht);
    [apply pool_inv_new|done|done|done|done|].
  assert (pool_1 = tp') as Ep by (unfold pool_1; by rewrite E).
  split; [|by rewrite Ep, Ht]. split; [by rewrite Ep|by vm_compute|by vm_compute|].
  intros h [x Hx]. rewrite Ep, Ht in Hx. change (transactions (NewTransactionPool 10 0)) with (∅ : gmap Hash Transaction) in Hx.
  apply lookup_insert_Some in Hx as [[<- _]|[_ Hx]]; [by vm_compute|by rewrite lookup_empty in Hx].
Qed.

(** The transaction of [pool_1] is not its own. *)
Definition operator_wallet : Wallet :=
  set_public (w_PublicKey small_wallet) (w_PublicKey2 small_wallet) (w_Address small_wallet) (w_Address2 small_wallet)
    (mk_Address (arr_of AddressLength [byte_of_Z 9]) true) small_wallet.

Lemma handleCNCL_owner_witness : exists reply n',
  handleCNCL operator_wallet (tx_Hash (pool_tx 1 9)) node_1 = (Ok reply, n') /\
  transactions (nd_PoolsTx n') !! tx_Hash (pool_tx 1 9) = Some (pool_tx 1 9).
Proof.
  destruct (handleCNCL_owner operator_wallet (tx_Hash (pool_tx 1 9)) node_1) as (reply & n' & E & Hk & _).
  - exact (proj1 pool_1_ready).
  - by apply pool_ready_new.
  - by apply pool_ready_new.
  - exists reply, n'. split; [exact E|]. apply (Hk (tx_Hash (pool_tx 1 9)) (pool_tx 1 9)).
    + by vm_compute.
    + change (nd_PoolsTx node_1) with pool_1. rewrite (proj2 pool_1_ready). apply lookup_singleton_eq.
Defined.

Definition stat_query : bytes := BytesToLenAndBytes (text "STAT").
Lemma unsigned_query_keeps_witness :
  snd (Send toy_vm (Ok []) (fun a => map_to_list (StakingDetails a)) (fun a => map_to_list (Balances a))
         env_8 map_orders toy_network small_wallet zero_Address [] stat_query rpc_1) = rpc_1.
Proof.
  destruct (unsigned_query_keeps toy_vm (Ok []) (fun a => map_to_list (StakingDetails a)) (fun a => map_to_list (Balances a))
    env_8 map_orders toy_network small_wallet zero_Address [] stat_query rpc_1 1) as (_ & _ & _ & Hk).
  - intros line rest E. left. assert (BytesWithLenToBytes stat_query = Ok (text "STAT", [])) as E' by (by vm_compute).
    rewrite E' in E. injection E as <- <-. done.
  - apply (Hk (text "STAT") []); by vm_compute.
Defined.
